(** * Gossiper: cluster membership and liveness core (gms/gossiper.cc)

    A shallow embedding of the gossiper of [gms/gossiper.cc]: the versioned
    endpoint-state store with its per-shard copies, the digest exchange
    ([do_sort], [examine_gossiper]), state application
    ([do_apply_state_locally] and what it calls), the mark-alive handshake,
    conviction, quarantine, and the per-source SYN/ACK handler slots.

    Conventions.
    - [int] is a 32-bit two's-complement integer carried in [Z]; where the
      source does arithmetic on it the wrap-around is written with [wrap32].
    - [std::map] / [std::unordered_map] are [gmap]s; a [for] loop over a map
      is a fold over [map_to_list].
    - The code runs on shard 0 (the coordinator); the other shards hold copies
      of [_endpoint_state_map], kept in [other_shards].
    - Coroutines are run to completion, one after the other, except where
      the order of their parts is what a statement is about: the handler
      loops and the continuation of [handle_ack_msg], and the Echo of
      [mark_alive], are steps of their own. Subscribers, the messaging
      service and the logger are external, and what the code hands to them
      is appended to the [trace] of the state. *)

From Stdlib Require Import ZArith String Ascii List Bool Lia Permutation Sorted.
From stdpp Require Import base option list gmap fin_maps fin_sets.

Local Open Scope Z_scope.

(** ** Data model *)

Abbreviation inet_address := Z (only parsing).
Abbreviation time_point := Z (only parsing).

Definition INT32_MAX : Z := 2147483647.
Definition INT32_MIN : Z := -2147483648.

Definition wrap32 (z : Z) : Z := (z + 2147483648) mod 4294967296 - 2147483648.

Definition in_int32 (z : Z) : Prop := INT32_MIN <= z <= INT32_MAX.

(** Modelled from the spec: [gms/application_state.hh] is not among the
    sources; the spec gives the closed enum of keys by name. *)
Inductive application_state : Set :=
| STATUS | TOKENS | HOST_ID | RPC_READY | LOAD | VIEW_BACKLOG | CACHE_HITRATES
| SUPPORTED_FEATURES | INTERNAL_IP | SNITCH_NAME | NET_VERSION
| REMOVAL_COORDINATOR.

Definition application_state_index (a : application_state) : nat :=
  match a with
  | STATUS => 0 | TOKENS => 1 | HOST_ID => 2 | RPC_READY => 3 | LOAD => 4
  | VIEW_BACKLOG => 5 | CACHE_HITRATES => 6 | SUPPORTED_FEATURES => 7
  | INTERNAL_IP => 8 | SNITCH_NAME => 9 | NET_VERSION => 10
  | REMOVAL_COORDINATOR => 11
  end%nat.

Definition application_state_of_index (n : nat) : option application_state :=
  match n with
  | 0 => Some STATUS | 1 => Some TOKENS | 2 => Some HOST_ID
  | 3 => Some RPC_READY | 4 => Some LOAD | 5 => Some VIEW_BACKLOG
  | 6 => Some CACHE_HITRATES | 7 => Some SUPPORTED_FEATURES
  | 8 => Some INTERNAL_IP | 9 => Some SNITCH_NAME | 10 => Some NET_VERSION
  | 11 => Some REMOVAL_COORDINATOR | _ => None
  end%nat.

#[global] Instance application_state_eq_dec : EqDecision application_state.
Proof. solve_decision. Defined.

#[global] Instance application_state_countable : Countable application_state.
Proof.
  apply (inj_countable application_state_index application_state_of_index).
  intros []; reflexivity.
Defined.

(** Modelled from the spec: [gms/versioned_value.hh] is not among the sources;
    a versioned value is a [(value: string, version: int32)] pair. *)
Record versioned_value : Set := mk_versioned_value {
  value : string;
  version : Z
}.

(** Modelled from the spec: [gms/heart_beat_state.hh] is not among the
    sources; a heartbeat has a [generation] and a [version]. *)
Record heart_beat_state : Set := mk_heart_beat_state {
  get_generation : Z;
  get_heart_beat_version : Z
}.

(** Modelled from the spec: [gms/endpoint_state.hh] is not among the sources;
    the spec gives [{ heartbeat, apps, alive: bool, update_ts }]. *)
Record endpoint_state : Type := mk_endpoint_state {
  get_heart_beat_state : heart_beat_state;
  get_application_state_map : gmap application_state versioned_value;
  get_update_timestamp : time_point;
  is_alive_bit : bool
}.

#[global] Instance versioned_value_eq_dec : EqDecision versioned_value.
Proof. solve_decision. Defined.

#[global] Instance heart_beat_state_eq_dec : EqDecision heart_beat_state.
Proof. solve_decision. Defined.

#[global] Instance endpoint_state_eq_dec : EqDecision endpoint_state.
Proof. solve_decision. Defined.

(** Modelled from the spec: the status strings of [versioned_value]
    ([gms/versioned_value.hh], not among the sources). *)
Module versioned_value_const.
Definition STATUS_UNKNOWN : string := "UNKNOWN".
Definition STATUS_NORMAL : string := "NORMAL".
Definition STATUS_LEFT : string := "LEFT".
Definition REMOVING_TOKEN : string := "removing".
Definition REMOVED_TOKEN : string := "removed".
Definition SHUTDOWN : string := "shutdown".
End versioned_value_const.
Import versioned_value_const.

(** Modelled from the spec: [DEAD_STATES] is declared in [gms/gossiper.hh]
    (not among the sources); the spec gives the set
    {LEFT, REMOVED_TOKEN, REMOVING_TOKEN}. *)
Definition DEAD_STATES : list string :=
  [REMOVING_TOKEN; REMOVED_TOKEN; STATUS_LEFT].

(** Modelled from the spec: [MAX_GENERATION_DIFFERENCE] is declared in
    [gms/gossiper.hh]; the spec gives one year, in seconds. *)
Definition MAX_GENERATION_DIFFERENCE : Z := 86400 * 365.

(** *** Methods of [endpoint_state] used by the gossiper *)

Definition get_application_state_ptr (es : endpoint_state)
    (key : application_state) : option versioned_value :=
  get_application_state_map es !! key.

Definition add_application_state (key : application_state)
    (v : versioned_value) (es : endpoint_state) : endpoint_state :=
  mk_endpoint_state (get_heart_beat_state es)
    (<[key := v]> (get_application_state_map es))
    (get_update_timestamp es) (is_alive_bit es).

(** Modelled from the spec: the overload of [add_application_state] that takes
    a whole [endpoint_state]; the recipient takes over the application states
    of [src] (heartbeat, timestamp and alive bit are its own). *)
Definition add_application_state_from (src es : endpoint_state)
    : endpoint_state :=
  mk_endpoint_state (get_heart_beat_state es)
    (get_application_state_map src)
    (get_update_timestamp es) (is_alive_bit es).

Definition set_alive (b : bool) (es : endpoint_state) : endpoint_state :=
  mk_endpoint_state (get_heart_beat_state es) (get_application_state_map es)
    (get_update_timestamp es) b.

Definition update_timestamp (now : time_point) (es : endpoint_state)
    : endpoint_state :=
  mk_endpoint_state (get_heart_beat_state es) (get_application_state_map es)
    now (is_alive_bit es).

Definition set_heart_beat_state_and_update_timestamp (hbs : heart_beat_state)
    (now : time_point) (es : endpoint_state) : endpoint_state :=
  mk_endpoint_state hbs (get_application_state_map es) now (is_alive_bit es).

Definition set_heart_beat_state (hbs : heart_beat_state) (es : endpoint_state)
    : endpoint_state :=
  mk_endpoint_state hbs (get_application_state_map es)
    (get_update_timestamp es) (is_alive_bit es).

(** ** Gossip status *)

(** [do_get_gossip_status]: the status is the text before the first comma of
    the STATUS value. *)
Definition do_get_gossip_status (app_state : option versioned_value) : string :=
  match app_state with
  | None => STATUS_UNKNOWN
  | Some vv =>
      let v := value vv in
      let pos := String.index 0 "," v in
      if (String.length v =? 0)%nat || bool_decide (pos = Some 0%nat)
      then STATUS_UNKNOWN
      else match pos with
           | None => v
           | Some p => String.substring 0 p v
           end
  end.

Definition get_gossip_status (ep_state : endpoint_state) : string :=
  do_get_gossip_status (get_application_state_ptr ep_state STATUS).

Definition is_dead_state (eps : endpoint_state) : bool :=
  let state := get_gossip_status eps in
  existsb (fun deadstate => String.eqb state deadstate) DEAD_STATES.

(** ** Settle accounting *)

Definition is_noise_key (app_state : application_state) : bool :=
  match app_state with
  | LOAD | VIEW_BACKLOG | CACHE_HITRATES => true
  | _ => false
  end.

(** [should_count_as_msg_processing]: two nested loops with an early return
    at the first key outside LOAD, VIEW_BACKLOG, CACHE_HITRATES. *)
Definition should_count_as_msg_processing
    (map : gmap inet_address endpoint_state) : bool :=
  existsb (fun x : inet_address * endpoint_state =>
      let state := x.2 in
      existsb (fun entry : application_state * versioned_value =>
          let app_state := entry.1 in
          negb (is_noise_key app_state))
        (map_to_list (get_application_state_map state)))
    (map_to_list map).

(** ** Digests and messages *)

(** Modelled from the spec: [gms/gossip_digest.hh] is not among the sources;
    the wire type is [(endpoint_addr, generation: int32, max_version: int32)]. *)
Record gossip_digest : Set := mk_gossip_digest {
  get_endpoint : Z;
  digest_generation : Z;
  get_max_version : Z
}.

#[global] Instance gossip_digest_eq_dec : EqDecision gossip_digest.
Proof. solve_decision. Defined.

(** Modelled from the spec: [gossip_digest_syn] is
    [{cluster_name, partitioner, digests[]}]. *)
Record gossip_digest_syn : Set := mk_gossip_digest_syn {
  cluster_id : string;
  partioner : string;
  get_gossip_digests : list gossip_digest
}.

Record gossip_digest_ack : Type := mk_gossip_digest_ack {
  get_gossip_digest_list : list gossip_digest;
  get_endpoint_state_map : gmap Z endpoint_state
}.

(** Modelled from the spec: the per-source slot of the SYN and ACK handlers is
    an [(in_flight: bool, pending: option<msg>)] pair; a slot created by
    [operator[]] is [(false, none)]. *)
Record msg_pending (M : Type) : Type := mk_msg_pending {
  pending : bool;
  pending_msg : option M
}.
Arguments mk_msg_pending {M} _ _.
Arguments pending {M} _.
Arguments pending_msg {M} _.

Definition msg_pending_default {M : Type} : msg_pending M :=
  mk_msg_pending false None.

(** ** What the gossiper hands to its collaborators *)

Inductive warning : Type :=
| invalid_gossip_generation (node : Z) (local_generation remote_generation : Z)
| skip_marking_shutdown_node_up (addr : Z)
| fail_to_send_echo (addr : Z)
| fail_to_apply_application_state.

Inductive event : Type :=
| on_join (ep : Z) (st : endpoint_state)
| on_alive (ep : Z) (st : endpoint_state)
| on_dead (ep : Z) (st : endpoint_state)
| on_restart (ep : Z) (old : endpoint_state)
| on_remove (ep : Z)
| before_change (ep : Z) (st : endpoint_state) (key : application_state)
    (v : versioned_value)
| on_change (ep : Z) (key : application_state) (v : versioned_value)
| send_gossip_echo (to : Z) (generation : Z)
| send_gossip_digest_ack (to : Z) (ack : gossip_digest_ack)
| send_gossip_digest_ack2 (to : Z) (deltas : gmap Z endpoint_state)
| log_warn (w : warning).

(** ** The gossiper *)

(** Configuration and surroundings that an operation only reads. *)
Record gossip_env : Type := mk_gossip_env {
  get_broadcast_address : Z;
  cfg_cluster_name : string;
  cfg_partitioner_name : string;
  cfg_seeds : gset Z;                (* _gcfg.seeds *)
  ring_delay_ms : Z;                 (* _gcfg.ring_delay_ms, unsigned *)
  now : Z;                           (* clk::now(), milliseconds *)
  get_generation_number : Z;         (* utils::get_generation_number() *)
  token_metadata_members : gset Z;   (* get_token_metadata_ptr()->is_member *)
  token_metadata_tokens : Z -> option string;      (* get_tokens, if any *)
  token_metadata_host_id : Z -> option string;     (* get_host_id_if_known *)
  A_VERY_LONG_TIME : Z               (* milliseconds *)
}.

Record gossiper : Type := mk_gossiper {
  env : gossip_env;
  _enabled : bool;
  _in_shadow_round : bool;
  version_generator : Z;
  _endpoint_state_map : gmap Z endpoint_state;
  other_shards : list (gmap Z endpoint_state);
  _live_endpoints : list Z;
  _live_endpoints_version : Z;
  _unreachable_endpoints : gmap Z Z;
  _just_removed_endpoints : gmap Z Z;
  _expire_time_endpoint_map : gmap Z Z;
  _seeds : gset Z;
  _pending_mark_alive_endpoints : gset Z;
  _endpoints_to_talk_with : list (list Z);
  _syn_handlers : gmap Z (msg_pending gossip_digest_syn);
  _ack_handlers : gmap Z (msg_pending (list gossip_digest));
  _msg_processing : Z;
  trace : list event
}.

Definition set_in_shadow_round (b : bool) (g : gossiper) : gossiper :=
  mk_gossiper (env g) (_enabled g) b (version_generator g)
    (_endpoint_state_map g) (other_shards g) (_live_endpoints g)
    (_live_endpoints_version g) (_unreachable_endpoints g)
    (_just_removed_endpoints g) (_expire_time_endpoint_map g) (_seeds g)
    (_pending_mark_alive_endpoints g) (_endpoints_to_talk_with g)
    (_syn_handlers g) (_ack_handlers g) (_msg_processing g) (trace g).

Definition set_version_generator (v : Z) (g : gossiper) : gossiper :=
  mk_gossiper (env g) (_enabled g) (_in_shadow_round g) v
    (_endpoint_state_map g) (other_shards g) (_live_endpoints g)
    (_live_endpoints_version g) (_unreachable_endpoints g)
    (_just_removed_endpoints g) (_expire_time_endpoint_map g) (_seeds g)
    (_pending_mark_alive_endpoints g) (_endpoints_to_talk_with g)
    (_syn_handlers g) (_ack_handlers g) (_msg_processing g) (trace g).

Definition set_endpoint_state_map (m : gmap Z endpoint_state) (g : gossiper)
    : gossiper :=
  mk_gossiper (env g) (_enabled g) (_in_shadow_round g) (version_generator g)
    m (other_shards g) (_live_endpoints g)
    (_live_endpoints_version g) (_unreachable_endpoints g)
    (_just_removed_endpoints g) (_expire_time_endpoint_map g) (_seeds g)
    (_pending_mark_alive_endpoints g) (_endpoints_to_talk_with g)
    (_syn_handlers g) (_ack_handlers g) (_msg_processing g) (trace g).

Definition set_other_shards (l : list (gmap Z endpoint_state)) (g : gossiper)
    : gossiper :=
  mk_gossiper (env g) (_enabled g) (_in_shadow_round g) (version_generator g)
    (_endpoint_state_map g) l (_live_endpoints g)
    (_live_endpoints_version g) (_unreachable_endpoints g)
    (_just_removed_endpoints g) (_expire_time_endpoint_map g) (_seeds g)
    (_pending_mark_alive_endpoints g) (_endpoints_to_talk_with g)
    (_syn_handlers g) (_ack_handlers g) (_msg_processing g) (trace g).

Definition set_live_endpoints (l : list Z) (g : gossiper) : gossiper :=
  mk_gossiper (env g) (_enabled g) (_in_shadow_round g) (version_generator g)
    (_endpoint_state_map g) (other_shards g) l
    (_live_endpoints_version g) (_unreachable_endpoints g)
    (_just_removed_endpoints g) (_expire_time_endpoint_map g) (_seeds g)
    (_pending_mark_alive_endpoints g) (_endpoints_to_talk_with g)
    (_syn_handlers g) (_ack_handlers g) (_msg_processing g) (trace g).

Definition set_live_endpoints_version (v : Z) (g : gossiper) : gossiper :=
  mk_gossiper (env g) (_enabled g) (_in_shadow_round g) (version_generator g)
    (_endpoint_state_map g) (other_shards g) (_live_endpoints g)
    v (_unreachable_endpoints g)
    (_just_removed_endpoints g) (_expire_time_endpoint_map g) (_seeds g)
    (_pending_mark_alive_endpoints g) (_endpoints_to_talk_with g)
    (_syn_handlers g) (_ack_handlers g) (_msg_processing g) (trace g).

Definition set_unreachable_endpoints (m : gmap Z Z) (g : gossiper) : gossiper :=
  mk_gossiper (env g) (_enabled g) (_in_shadow_round g) (version_generator g)
    (_endpoint_state_map g) (other_shards g) (_live_endpoints g)
    (_live_endpoints_version g) m
    (_just_removed_endpoints g) (_expire_time_endpoint_map g) (_seeds g)
    (_pending_mark_alive_endpoints g) (_endpoints_to_talk_with g)
    (_syn_handlers g) (_ack_handlers g) (_msg_processing g) (trace g).

Definition set_just_removed_endpoints (m : gmap Z Z) (g : gossiper) : gossiper :=
  mk_gossiper (env g) (_enabled g) (_in_shadow_round g) (version_generator g)
    (_endpoint_state_map g) (other_shards g) (_live_endpoints g)
    (_live_endpoints_version g) (_unreachable_endpoints g)
    m (_expire_time_endpoint_map g) (_seeds g)
    (_pending_mark_alive_endpoints g) (_endpoints_to_talk_with g)
    (_syn_handlers g) (_ack_handlers g) (_msg_processing g) (trace g).

Definition set_expire_time_endpoint_map (m : gmap Z Z) (g : gossiper)
    : gossiper :=
  mk_gossiper (env g) (_enabled g) (_in_shadow_round g) (version_generator g)
    (_endpoint_state_map g) (other_shards g) (_live_endpoints g)
    (_live_endpoints_version g) (_unreachable_endpoints g)
    (_just_removed_endpoints g) m (_seeds g)
    (_pending_mark_alive_endpoints g) (_endpoints_to_talk_with g)
    (_syn_handlers g) (_ack_handlers g) (_msg_processing g) (trace g).

Definition set_seeds (s : gset Z) (g : gossiper) : gossiper :=
  mk_gossiper (env g) (_enabled g) (_in_shadow_round g) (version_generator g)
    (_endpoint_state_map g) (other_shards g) (_live_endpoints g)
    (_live_endpoints_version g) (_unreachable_endpoints g)
    (_just_removed_endpoints g) (_expire_time_endpoint_map g) s
    (_pending_mark_alive_endpoints g) (_endpoints_to_talk_with g)
    (_syn_handlers g) (_ack_handlers g) (_msg_processing g) (trace g).

Definition set_pending_mark_alive_endpoints (s : gset Z) (g : gossiper)
    : gossiper :=
  mk_gossiper (env g) (_enabled g) (_in_shadow_round g) (version_generator g)
    (_endpoint_state_map g) (other_shards g) (_live_endpoints g)
    (_live_endpoints_version g) (_unreachable_endpoints g)
    (_just_removed_endpoints g) (_expire_time_endpoint_map g) (_seeds g)
    s (_endpoints_to_talk_with g)
    (_syn_handlers g) (_ack_handlers g) (_msg_processing g) (trace g).

Definition set_endpoints_to_talk_with (l : list (list Z)) (g : gossiper)
    : gossiper :=
  mk_gossiper (env g) (_enabled g) (_in_shadow_round g) (version_generator g)
    (_endpoint_state_map g) (other_shards g) (_live_endpoints g)
    (_live_endpoints_version g) (_unreachable_endpoints g)
    (_just_removed_endpoints g) (_expire_time_endpoint_map g) (_seeds g)
    (_pending_mark_alive_endpoints g) l
    (_syn_handlers g) (_ack_handlers g) (_msg_processing g) (trace g).

Definition set_syn_handlers (m : gmap Z (msg_pending gossip_digest_syn))
    (g : gossiper) : gossiper :=
  mk_gossiper (env g) (_enabled g) (_in_shadow_round g) (version_generator g)
    (_endpoint_state_map g) (other_shards g) (_live_endpoints g)
    (_live_endpoints_version g) (_unreachable_endpoints g)
    (_just_removed_endpoints g) (_expire_time_endpoint_map g) (_seeds g)
    (_pending_mark_alive_endpoints g) (_endpoints_to_talk_with g)
    m (_ack_handlers g) (_msg_processing g) (trace g).

Definition set_ack_handlers (m : gmap Z (msg_pending (list gossip_digest)))
    (g : gossiper) : gossiper :=
  mk_gossiper (env g) (_enabled g) (_in_shadow_round g) (version_generator g)
    (_endpoint_state_map g) (other_shards g) (_live_endpoints g)
    (_live_endpoints_version g) (_unreachable_endpoints g)
    (_just_removed_endpoints g) (_expire_time_endpoint_map g) (_seeds g)
    (_pending_mark_alive_endpoints g) (_endpoints_to_talk_with g)
    (_syn_handlers g) m (_msg_processing g) (trace g).

Definition set_msg_processing (n : Z) (g : gossiper) : gossiper :=
  mk_gossiper (env g) (_enabled g) (_in_shadow_round g) (version_generator g)
    (_endpoint_state_map g) (other_shards g) (_live_endpoints g)
    (_live_endpoints_version g) (_unreachable_endpoints g)
    (_just_removed_endpoints g) (_expire_time_endpoint_map g) (_seeds g)
    (_pending_mark_alive_endpoints g) (_endpoints_to_talk_with g)
    (_syn_handlers g) (_ack_handlers g) n (trace g).

(** A call out of the gossiper (subscriber callback, message, warning). *)
Definition emit (e : event) (g : gossiper) : gossiper :=
  mk_gossiper (env g) (_enabled g) (_in_shadow_round g) (version_generator g)
    (_endpoint_state_map g) (other_shards g) (_live_endpoints g)
    (_live_endpoints_version g) (_unreachable_endpoints g)
    (_just_removed_endpoints g) (_expire_time_endpoint_map g) (_seeds g)
    (_pending_mark_alive_endpoints g) (_endpoints_to_talk_with g)
    (_syn_handlers g) (_ack_handlers g) (_msg_processing g) (trace g ++ [e]).

(** ** Versions and values handed out locally *)

(** Modelled from the spec: versions are drawn from one monotonically
    increasing counter ([version_generator::get_next_version], declared in
    [gms/version_generator.hh], not among the sources). *)
Definition get_next_version (g : gossiper) : Z * gossiper :=
  let v := wrap32 (version_generator g + 1) in
  (v, set_version_generator v g).

(** Modelled from the spec: [versioned_value::shutdown(true)] is STATUS
    SHUTDOWN with a freshly drawn version. *)
Definition versioned_value_shutdown (g : gossiper)
    : versioned_value * gossiper :=
  let '(v, g) := get_next_version g in
  (mk_versioned_value (SHUTDOWN ++ ",true") v, g).

(** Modelled from the spec: [clone_with_higher_version] keeps the value and
    takes the next version of the counter. *)
Definition clone_with_higher_version (value0 : versioned_value) (g : gossiper)
    : versioned_value * gossiper :=
  let '(v, g) := get_next_version g in
  (mk_versioned_value (value value0) v, g).

(** Modelled from the spec: [force_highest_possible_version_unsafe] sets the
    heartbeat version to [INT32_MAX]. *)
Definition force_highest_possible_version_unsafe (es : endpoint_state)
    : endpoint_state :=
  set_heart_beat_state
    (mk_heart_beat_state (get_generation (get_heart_beat_state es)) INT32_MAX)
    es.

(** Modelled from the spec: [force_newer_generation_unsafe] bumps the
    generation to [max(now_s, current + 1)]. *)
Definition force_newer_generation_unsafe (now_s : Z) (es : endpoint_state)
    : endpoint_state :=
  let hbs := get_heart_beat_state es in
  set_heart_beat_state
    (mk_heart_beat_state (Z.max now_s (wrap32 (get_generation hbs + 1)))
       (get_heart_beat_version hbs))
    es.

(** The value [operator[]] creates for a missing key. Its constructor is
    declared in [gms/endpoint_state.hh] (not among the sources); nothing below
    depends on its timestamp or alive bit. *)
Definition endpoint_state_default (now0 : Z) : endpoint_state :=
  mk_endpoint_state (mk_heart_beat_state 0 0) ∅ now0 true.

(** ** Reading the store *)

Definition get_endpoint_state_for_endpoint_ptr (ep : Z) (g : gossiper)
    : option endpoint_state :=
  _endpoint_state_map g !! ep.

(** [m[ep]] on a (coordinator or replica) map: the entry, created if missing. *)
Definition at_or_default (now0 : Z) (ep : Z) (m : gmap Z endpoint_state)
    : endpoint_state :=
  default (endpoint_state_default now0) (m !! ep).

Definition is_in_shadow_round (g : gossiper) : bool := _in_shadow_round g.
Definition is_enabled (g : gossiper) : bool := _enabled g.

Definition get_application_state_ptr_of (endpoint : Z)
    (appstate : application_state) (g : gossiper) : option versioned_value :=
  match get_endpoint_state_for_endpoint_ptr endpoint g with
  | None => None
  | Some eps => get_application_state_ptr eps appstate
  end.

Definition get_gossip_status_of (endpoint : Z) (g : gossiper) : string :=
  do_get_gossip_status (get_application_state_ptr_of endpoint STATUS g).

Definition is_shutdown (endpoint : Z) (g : gossiper) : bool :=
  String.eqb (get_gossip_status_of endpoint g) SHUTDOWN.

Definition is_alive (ep : Z) (g : gossiper) : bool :=
  if decide (ep = get_broadcast_address (env g)) then true
  else match get_endpoint_state_for_endpoint_ptr ep g with
       | Some eps => is_alive_bit eps
       | None => false
       end.

Definition get_max_endpoint_state_version (state : endpoint_state) : Z :=
  fold_left (fun max_version (entry : application_state * versioned_value) =>
      Z.max max_version (version entry.2))
    (map_to_list (get_application_state_map state))
    (get_heart_beat_version (get_heart_beat_state state)).

(** ** Replication to the other shards *)

(** [replicate(ep, es)]: on every shard but the calling one,
    [_endpoint_state_map[ep].add_application_state(es)]. *)
Definition replicate (ep : Z) (es : endpoint_state) (g : gossiper) : gossiper :=
  set_other_shards
    (List.map (fun m =>
         <[ep := add_application_state_from es
                   (at_or_default (now (env g)) ep m)]> m)
       (other_shards g)) g.

(** [replicate(ep, src, changed)]: on every shard but the calling one, for
    each key of [changed],
    [_endpoint_state_map[ep].add_application_state(key, src.at(key))]. *)
Definition replicate_changed (ep : Z)
    (src : gmap application_state versioned_value)
    (changed : list application_state) (g : gossiper) : gossiper :=
  set_other_shards
    (List.map (fun m =>
         fold_left (fun m key =>
             match src !! key with
             | Some v =>
                 <[ep := add_application_state key v
                           (at_or_default (now (env g)) ep m)]> m
             | None => m          (* src.at(key) of a key not in src *)
             end)
           changed m)
       (other_shards g)) g.

(** [replicate(ep, key, value)]. *)
Definition replicate_key (ep : Z) (key : application_state)
    (v : versioned_value) (g : gossiper) : gossiper :=
  set_other_shards
    (List.map (fun m =>
         <[ep := add_application_state key v
                   (at_or_default (now (env g)) ep m)]> m)
       (other_shards g)) g.

Definition update_live_endpoints_version (g : gossiper) : gossiper :=
  set_live_endpoints_version (_live_endpoints_version g + 1) g.

(** ** Marking dead and alive *)

(** [std::remove] followed by [resize]. *)
Definition remove_from (addr : Z) (l : list Z) : list Z :=
  List.filter (fun x => negb (x =? addr)) l.

(** [mark_dead(addr, local_state)]. Every caller passes as [local_state] the
    entry of [addr] in [_endpoint_state_map] by reference; the entry is read
    and written through the map. *)
Definition mark_dead (addr : Z) (g : gossiper) : gossiper :=
  match get_endpoint_state_for_endpoint_ptr addr g with
  | None => g
  | Some local_state =>
      let local_state := set_alive false local_state in
      let g := set_endpoint_state_map
                 (<[addr := local_state]> (_endpoint_state_map g)) g in
      let state := local_state in
      let g := set_live_endpoints (remove_from addr (_live_endpoints g)) g in
      let g := update_live_endpoints_version g in
      let g := set_unreachable_endpoints
                 (<[addr := now (env g)]> (_unreachable_endpoints g)) g in
      emit (on_dead addr state) g
  end.

(** [real_mark_alive(addr, local_state)], with [local_state] the entry of
    [addr] (looked up by the caller just before the call). *)
Definition real_mark_alive (addr : Z) (g : gossiper) : gossiper :=
  match get_endpoint_state_for_endpoint_ptr addr g with
  | None => g
  | Some local_state =>
      let status := get_gossip_status local_state in
      if String.eqb status SHUTDOWN then
        emit (log_warn (skip_marking_shutdown_node_up addr)) g
      else
        let local_state := set_alive true local_state in
        let local_state := update_timestamp (now (env g)) local_state in
        let g := set_endpoint_state_map
                   (<[addr := local_state]> (_endpoint_state_map g)) g in
        let g := set_unreachable_endpoints
                   (delete addr (_unreachable_endpoints g)) g in
        let g := set_expire_time_endpoint_map
                   (delete addr (_expire_time_endpoint_map g)) g in
        let was_live := bool_decide (addr ∈ _live_endpoints g) in
        if was_live then g
        else
          let state := local_state in
          let g := set_live_endpoints (_live_endpoints g ++ [addr]) g in
          let g := update_live_endpoints_version g in
          let g := set_endpoints_to_talk_with
                     (match _endpoints_to_talk_with g with
                      | [] => [[addr]]
                      | front :: rest => (front ++ [addr]) :: rest
                      end) g in
          emit (on_alive addr state) g
  end.

(** [mark_alive(addr, local_state)], up to the point where the Echo has been
    handed to the messaging service; [local_state] is the entry of [addr].
    The generation is read with [_endpoint_state_map[get_broadcast_address()]],
    which creates the local entry if it is missing. *)
Definition mark_alive (addr : Z) (g : gossiper) : gossiper :=
  if bool_decide (addr ∈ _pending_mark_alive_endpoints g) then g
  else
    let g := set_pending_mark_alive_endpoints
               ({[addr]} ∪ _pending_mark_alive_endpoints g) g in
    let g := set_endpoint_state_map
               (alter (set_alive false) addr (_endpoint_state_map g)) g in
    let self := get_broadcast_address (env g) in
    let self_state := at_or_default (now (env g)) self (_endpoint_state_map g) in
    let g := set_endpoint_state_map
               (<[self := self_state]> (_endpoint_state_map g)) g in
    let generation := get_generation (get_heart_beat_state self_state) in
    emit (send_gossip_echo addr generation) g.

(** The continuation of the Echo sent by [mark_alive], on a reply. *)
Definition mark_alive_echo_replied (addr : Z) (g : gossiper) : gossiper :=
  let g := match get_endpoint_state_for_endpoint_ptr addr g with
           | None => g
           | Some _ => real_mark_alive addr g
           end in
  set_pending_mark_alive_endpoints
    (_pending_mark_alive_endpoints g ∖ {[addr]}) g.

(** The continuation of the Echo sent by [mark_alive], on a failure. *)
Definition mark_alive_echo_failed (addr : Z) (g : gossiper) : gossiper :=
  let g := set_pending_mark_alive_endpoints
             (_pending_mark_alive_endpoints g ∖ {[addr]}) g in
  emit (log_warn (fail_to_send_echo addr)) g.

(** ** Conviction *)

(** [mark_as_shutdown(endpoint)], with the call of [convict] that ends it
    passed in. *)
Definition mark_as_shutdown_body (convict : Z -> gossiper -> option gossiper)
    (endpoint : Z) (g : gossiper) : option gossiper :=
  match get_endpoint_state_for_endpoint_ptr endpoint g with
  | Some ep_state =>
      let '(v, g) := versioned_value_shutdown g in
      let ep_state := add_application_state STATUS v ep_state in
      let ep_state := force_highest_possible_version_unsafe ep_state in
      let g := set_endpoint_state_map
                 (<[endpoint := ep_state]> (_endpoint_state_map g)) g in
      let g := replicate endpoint ep_state g in
      let g := mark_dead endpoint g in
      convict endpoint g
  | None => Some g
  end.

(** [convict(endpoint)]. [convict] and [mark_as_shutdown] call each other;
    [fuel] bounds the depth of the calls, [None] is a call that did not
    return within it. *)
Fixpoint convict_fuel (fuel : nat) (endpoint : Z) (g : gossiper)
    : option gossiper :=
  match fuel with
  | O => None
  | S fuel =>
      match get_endpoint_state_for_endpoint_ptr endpoint g with
      | None => Some g
      | Some state =>
          if negb (is_alive_bit state) then Some g
          else if is_shutdown endpoint g
               then mark_as_shutdown_body (convict_fuel fuel) endpoint g
               else Some (mark_dead endpoint g)
      end
  end.

Definition mark_as_shutdown_fuel (fuel : nat) (endpoint : Z) (g : gossiper)
    : option gossiper :=
  mark_as_shutdown_body (convict_fuel fuel) endpoint g.

(** Two levels of calls always suffice ([convict_fuel_enough] and
    [mark_as_shutdown_fuel_enough] below): the call of [convict] that ends
    [mark_as_shutdown] finds the endpoint not alive and returns. *)
Definition convict (endpoint : Z) (g : gossiper) : gossiper :=
  default g (convict_fuel 2 endpoint g).

Definition mark_as_shutdown (endpoint : Z) (g : gossiper) : gossiper :=
  default g (mark_as_shutdown_fuel 1 endpoint g).

(** ** Applying remote state *)

(** The first loop of [apply_new_states]: for each remote entry, compare the
    generations (a mismatch throws and ends the loop), then take the entry
    over when the local one is missing or older. The accumulator is the local
    state, the [changed] vector and whether the loop has thrown. *)
Definition apply_new_states_loop (remote_state : endpoint_state)
    (local_state : endpoint_state)
    : endpoint_state * list application_state * bool :=
  fold_left
    (fun (acc : endpoint_state * list application_state * bool)
         (remote_entry : application_state * versioned_value) =>
       let '(local_state, changed, thrown) := acc in
       if thrown then acc
       else
         let remote_key := remote_entry.1 in
         let remote_value := remote_entry.2 in
         let remote_gen := get_generation (get_heart_beat_state remote_state) in
         let local_gen := get_generation (get_heart_beat_state local_state) in
         if negb (remote_gen =? local_gen) then (local_state, changed, true)
         else
           match get_application_state_ptr local_state remote_key with
           | Some local_val =>
               if version remote_value >? version local_val
               then (add_application_state remote_key remote_value local_state,
                     changed ++ [remote_key], false)
               else acc
           | None =>
               (add_application_state remote_key remote_value local_state,
                changed ++ [remote_key], false)
           end)
    (map_to_list (get_application_state_map remote_state))
    (local_state, [], false).

Definition do_on_change_notifications (addr : Z) (state : application_state)
    (v : versioned_value) (g : gossiper) : gossiper :=
  emit (on_change addr state v) g.

Definition do_before_change_notifications (addr : Z) (ep_state : endpoint_state)
    (ap_state : application_state) (new_value : versioned_value) (g : gossiper)
    : gossiper :=
  emit (before_change addr ep_state ap_state new_value) g.

(** [apply_new_states(addr, local_state, remote_state)], with [local_state]
    the entry of [addr]. *)
Definition apply_new_states (addr : Z) (remote_state : endpoint_state)
    (g : gossiper) : gossiper :=
  match get_endpoint_state_for_endpoint_ptr addr g with
  | None => g
  | Some local_state =>
      let local_state :=
        set_heart_beat_state_and_update_timestamp
          (get_heart_beat_state remote_state) (now (env g)) local_state in
      let remote_map := get_application_state_map remote_state in
      let '(local_state, changed, _) :=
        apply_new_states_loop remote_state local_state in
      let g := set_endpoint_state_map
                 (<[addr := local_state]> (_endpoint_state_map g)) g in
      let g := replicate_changed addr remote_map changed g in
      fold_left (fun g key =>
          match remote_map !! key with
          | Some v => do_on_change_notifications addr key v g
          | None => g
          end) changed g
  end.

(** [handle_major_state_change(ep, eps)]. *)
Definition handle_major_state_change (ep : Z) (eps : endpoint_state)
    (g : gossiper) : gossiper :=
  let eps_old := get_endpoint_state_for_endpoint_ptr ep g in
  let g := set_endpoint_state_map (<[ep := eps]> (_endpoint_state_map g)) g in
  let g := replicate ep eps g in
  if is_in_shadow_round g then g
  else
    let g := match eps_old with
             | Some old => emit (on_restart ep old) g
             | None => g
             end in
    match get_endpoint_state_for_endpoint_ptr ep g with
    | None => g                      (* _endpoint_state_map.at(ep) throws *)
    | Some ep_state =>
        let g := if negb (is_dead_state ep_state) then mark_alive ep g
                 else mark_dead ep g in
        let g := match get_endpoint_state_for_endpoint_ptr ep g with
                 | Some eps_new => emit (on_join ep eps_new) g
                 | None => g
                 end in
        if is_shutdown ep g then mark_as_shutdown ep g else g
    end.

(** The loop of the branch of [do_apply_state_locally] that merges equal
    generations without notifying listeners. *)
Definition merge_without_notification (remote_state local_state : endpoint_state)
    : endpoint_state :=
  fold_left
    (fun local_state (item : application_state * versioned_value) =>
       let remote_key := item.1 in
       let remote_value := item.2 in
       match get_application_state_ptr local_state remote_key with
       | Some local_value =>
           if version remote_value >? version local_value
           then add_application_state remote_key remote_value local_state
           else local_state
       | None => add_application_state remote_key remote_value local_state
       end)
    (map_to_list (get_application_state_map remote_state)) local_state.

(** [do_apply_state_locally(node, remote_state, listener_notification)]. *)
Definition do_apply_state_locally (node : Z) (remote_state : endpoint_state)
    (listener_notification : bool) (g : gossiper) : gossiper :=
  match get_endpoint_state_for_endpoint_ptr node g with
  | Some local_state =>
      let local_generation := get_generation (get_heart_beat_state local_state) in
      let remote_generation := get_generation (get_heart_beat_state remote_state) in
      if remote_generation >?
           get_generation_number (env g) + MAX_GENERATION_DIFFERENCE
      then emit (log_warn (invalid_gossip_generation node local_generation
                             remote_generation)) g
      else if remote_generation >? local_generation then
        if listener_notification
        then handle_major_state_change node remote_state g
        else set_endpoint_state_map
               (<[node := remote_state]> (_endpoint_state_map g)) g
      else if remote_generation =? local_generation then
        if listener_notification then
          let local_max_version := get_max_endpoint_state_version local_state in
          let remote_max_version := get_max_endpoint_state_version remote_state in
          let g := if remote_max_version >? local_max_version
                   then apply_new_states node remote_state g
                   else g in
          match get_endpoint_state_for_endpoint_ptr node g with
          | Some local_state =>
              if negb (is_alive_bit local_state)
                 && negb (is_dead_state local_state)
              then mark_alive node g
              else g
          | None => g
          end
        else
          set_endpoint_state_map
            (<[node := merge_without_notification remote_state local_state]>
               (_endpoint_state_map g)) g
      else g
  | None =>
      if listener_notification
      then handle_major_state_change node remote_state g
      else set_endpoint_state_map
             (<[node := remote_state]> (_endpoint_state_map g)) g
  end.

(** [apply_state_locally_without_listener_notification(map)]. *)
Definition apply_state_locally_without_listener_notification
    (map : gmap Z endpoint_state) (g : gossiper) : gossiper :=
  fold_left (fun g (x : Z * endpoint_state) =>
      do_apply_state_locally x.1 x.2 false g)
    (map_to_list map) g.

Definition is_seed (endpoint : Z) (g : gossiper) : bool :=
  bool_decide (endpoint ∈ _seeds g).

(** [apply_state_locally(map)]. [shuffle] stands for [std::shuffle] with the
    gossiper's random engine; the seeds are then moved to the front. The
    per-endpoint bodies run one after the other (the semaphore that guards
    them has one unit). *)
Definition apply_state_locally (shuffle : list Z -> list Z)
    (map : gmap Z endpoint_state) (g : gossiper) : gossiper :=
  let endpoints := shuffle ((map_to_list map).*1) in
  let endpoints :=
    List.filter (fun ip => is_seed ip g) endpoints ++
    List.filter (fun ip => negb (is_seed ip g)) endpoints in
  fold_left (fun g ep =>
      if bool_decide (ep = get_broadcast_address (env g))
         && negb (is_in_shadow_round g)
      then g
      else if bool_decide (is_Some (_just_removed_endpoints g !! ep)) then g
      else match map !! ep with
           | Some remote_state => do_apply_state_locally ep remote_state true g
           | None => g
           end)
    endpoints g.

(** ** Quarantine, removal and the status check *)

Definition quarantine_delay (g : gossiper) : Z :=
  let delay := Z.max 30000 (ring_delay_ms (env g)) in
  let ring_delay := delay in
  ring_delay * 2.

(** Set in the constructor: half of the quarantine delay. *)
Definition fat_client_timeout (g : gossiper) : Z := quarantine_delay g / 2.

Definition quarantine_endpoint_at (endpoint : Z) (quarantine_start : Z)
    (g : gossiper) : gossiper :=
  set_just_removed_endpoints
    (<[endpoint := quarantine_start]> (_just_removed_endpoints g)) g.

Definition quarantine_endpoint (endpoint : Z) (g : gossiper) : gossiper :=
  quarantine_endpoint_at endpoint (now (env g)) g.

Definition build_seeds_list (g : gossiper) : gossiper :=
  set_seeds
    (_seeds g ∪ (cfg_seeds (env g) ∖ {[get_broadcast_address (env g)]})) g.

(** [remove_endpoint(endpoint)]. *)
Definition remove_endpoint (endpoint : Z) (g : gossiper) : gossiper :=
  let g := emit (on_remove endpoint) g in
  let g := if bool_decide (endpoint ∈ _seeds g)
           then let g := build_seeds_list g in
                set_seeds (_seeds g ∖ {[endpoint]}) g
           else g in
  let g := set_live_endpoints (remove_from endpoint (_live_endpoints g)) g in
  let g := update_live_endpoints_version g in
  let g := set_unreachable_endpoints
             (delete endpoint (_unreachable_endpoints g)) g in
  let g := set_syn_handlers (delete endpoint (_syn_handlers g)) g in
  let g := set_ack_handlers (delete endpoint (_ack_handlers g)) g in
  quarantine_endpoint endpoint g.

(** [evict_from_membership(endpoint)]: the entry is erased on every shard. *)
Definition evict_from_membership (endpoint : Z) (g : gossiper) : gossiper :=
  let g := set_unreachable_endpoints
             (delete endpoint (_unreachable_endpoints g)) g in
  let g := set_endpoint_state_map (delete endpoint (_endpoint_state_map g)) g in
  let g := set_other_shards (List.map (delete endpoint) (other_shards g)) g in
  let g := set_expire_time_endpoint_map
             (delete endpoint (_expire_time_endpoint_map g)) g in
  quarantine_endpoint endpoint g.

Definition is_member (endpoint : Z) (g : gossiper) : bool :=
  bool_decide (endpoint ∈ token_metadata_members (env g)).

Definition is_gossip_only_member (endpoint : Z) (g : gossiper) : bool :=
  match get_endpoint_state_for_endpoint_ptr endpoint g with
  | None => false
  | Some es => negb (is_dead_state es) && negb (is_member endpoint g)
  end.

Definition compute_expire_time (g : gossiper) : Z :=
  now (env g) + A_VERY_LONG_TIME (env g).

Definition get_expire_time_for_endpoint (endpoint : Z) (g : gossiper) : Z :=
  match _expire_time_endpoint_map g !! endpoint with
  | None => compute_expire_time g
  | Some stored_time => stored_time
  end.

(** The body of the first loop of [do_status_check], for the entry
    [(endpoint, ep_state)] the iterator stands on. *)
Definition do_status_check_entry (now0 : Z) (g : gossiper)
    (entry : Z * endpoint_state) : gossiper :=
  let endpoint := entry.1 in
  let ep_state := entry.2 in
  let is_alive0 := is_alive_bit ep_state in
  if bool_decide (endpoint = get_broadcast_address (env g)) then g
  else
    let g :=
      if is_gossip_only_member endpoint g
         && negb (bool_decide (is_Some (_just_removed_endpoints g !! endpoint)))
         && (now0 - get_update_timestamp ep_state >? fat_client_timeout g)
      then evict_from_membership endpoint (remove_endpoint endpoint g)
      else g in
    let expire_time := get_expire_time_for_endpoint endpoint g in
    if negb is_alive0 && (now0 >? expire_time) && negb (is_member endpoint g)
    then evict_from_membership endpoint g
    else g.

(** [do_status_check()]. *)
Definition do_status_check (g : gossiper) : gossiper :=
  let now0 := now (env g) in
  let g := fold_left (do_status_check_entry now0)
             (map_to_list (_endpoint_state_map g)) g in
  set_just_removed_endpoints
    (filter (fun (kt : Z * Z) => ¬ (now0 - kt.2 > quarantine_delay g))
       (_just_removed_endpoints g)) g.

(** ** Digest examination *)

(** The [endpoint_state] built from a heartbeat alone (no application state;
    the constructor is declared in [gms/endpoint_state.hh]). *)
Definition endpoint_state_of_heart_beat (now0 : Z) (hbs : heart_beat_state)
    : endpoint_state :=
  mk_endpoint_state hbs ∅ now0 true.

(** [get_state_for_version_bigger_than(for_endpoint, version)]. *)
Definition get_state_for_version_bigger_than (for_endpoint : Z) (version0 : Z)
    (g : gossiper) : option endpoint_state :=
  match get_endpoint_state_for_endpoint_ptr for_endpoint g with
  | None => None
  | Some eps =>
      let local_hb_version := get_heart_beat_version (get_heart_beat_state eps) in
      let reqd_endpoint_state :=
        if local_hb_version >? version0
        then Some (endpoint_state_of_heart_beat (now (env g))
                     (get_heart_beat_state eps))
        else None in
      fold_left
        (fun (reqd : option endpoint_state)
             (entry : application_state * versioned_value) =>
           let value0 := entry.2 in
           if version value0 >? version0 then
             let reqd :=
               match reqd with
               | None => endpoint_state_of_heart_beat (now (env g))
                           (get_heart_beat_state eps)
               | Some r => r
               end in
             Some (add_application_state entry.1 value0 reqd)
           else reqd)
        (map_to_list (get_application_state_map eps)) reqd_endpoint_state
  end.

Definition request_all (g_digest : gossip_digest)
    (delta_gossip_digest_list : list gossip_digest) (remote_generation : Z)
    : list gossip_digest :=
  delta_gossip_digest_list ++
    [mk_gossip_digest (get_endpoint g_digest) remote_generation 0].

Definition send_all (g_digest : gossip_digest)
    (delta_ep_state_map : gmap Z endpoint_state) (max_remote_version : Z)
    (g : gossiper) : gmap Z endpoint_state :=
  let ep := get_endpoint g_digest in
  match get_state_for_version_bigger_than ep max_remote_version g with
  | Some local_ep_state => <[ep := local_ep_state]> delta_ep_state_map
  | None => delta_ep_state_map
  end.

(** The body of the loop of [examine_gossiper] for one digest; the
    accumulator is [(delta_gossip_digest_list, delta_ep_state_map)]. *)
Definition examine_digest (g : gossiper)
    (acc : list gossip_digest * gmap Z endpoint_state)
    (g_digest : gossip_digest) : list gossip_digest * gmap Z endpoint_state :=
  let '(delta_gossip_digest_list, delta_ep_state_map) := acc in
  let remote_generation := digest_generation g_digest in
  let max_remote_version := get_max_version g_digest in
  let ep := get_endpoint g_digest in
  match get_endpoint_state_for_endpoint_ptr ep g with
  | Some ep_state_ptr =>
      let local_generation :=
        get_generation (get_heart_beat_state ep_state_ptr) in
      let max_local_version := get_max_endpoint_state_version ep_state_ptr in
      if (remote_generation =? local_generation)
         && (max_remote_version =? max_local_version)
      then acc
      else if remote_generation >? local_generation then
        (request_all g_digest delta_gossip_digest_list remote_generation,
         delta_ep_state_map)
      else if remote_generation <? local_generation then
        (delta_gossip_digest_list, send_all g_digest delta_ep_state_map 0 g)
      else if remote_generation =? local_generation then
        if max_remote_version >? max_local_version then
          (delta_gossip_digest_list ++
             [mk_gossip_digest (get_endpoint g_digest) remote_generation
                max_local_version],
           delta_ep_state_map)
        else if max_remote_version <? max_local_version then
          (delta_gossip_digest_list,
           send_all g_digest delta_ep_state_map max_remote_version g)
        else acc
      else acc
  | None =>
      (request_all g_digest delta_gossip_digest_list remote_generation,
       delta_ep_state_map)
  end.

(** [examine_gossiper(g_digest_list, delta_gossip_digest_list,
    delta_ep_state_map)]; returns the two output arguments. *)
Definition examine_gossiper (g_digest_list : list gossip_digest)
    (delta_gossip_digest_list : list gossip_digest)
    (delta_ep_state_map : gmap Z endpoint_state) (g : gossiper)
    : list gossip_digest * gmap Z endpoint_state :=
  let g_digest_list :=
    if (length g_digest_list =? 0)%nat
    then List.map (fun entry : Z * endpoint_state =>
                     mk_gossip_digest entry.1 0 0)
           (map_to_list (_endpoint_state_map g))
    else g_digest_list in
  fold_left (examine_digest g) g_digest_list
    (delta_gossip_digest_list, delta_ep_state_map).

(** ** Sorting the digests of a SYN *)

Definition abs32 (z : Z) : Z := wrap32 (Z.abs z).

(** [ep_to_digest_map.emplace(...)] for each digest: the first digest of an
    endpoint stays. *)
Definition build_ep_to_digest_map (g_digest_list : list gossip_digest)
    : gmap Z gossip_digest :=
  fold_left (fun (m : gmap Z gossip_digest) g_digest =>
      match m !! get_endpoint g_digest with
      | Some _ => m
      | None => <[get_endpoint g_digest := g_digest]> m
      end)
    g_digest_list ∅.

(** The [diff_version] computed for a digest, in [int] arithmetic. *)
Definition diff_version (g : gossiper) (g_digest : gossip_digest) : Z :=
  let ep := get_endpoint g_digest in
  let version0 :=
    match get_endpoint_state_for_endpoint_ptr ep g with
    | Some ep_state => get_max_endpoint_state_version ep_state
    | None => 0
    end in
  abs32 (wrap32 (version0 - get_max_version g_digest)).

Definition build_diff_digests (g : gossiper)
    (g_digest_list : list gossip_digest) : list gossip_digest :=
  List.map (fun g_digest =>
      mk_gossip_digest (get_endpoint g_digest) (digest_generation g_digest)
        (diff_version g g_digest))
    g_digest_list.

Section Sorting.

(** [std::sort] orders by [operator<] of [gossip_digest], which is declared
    in [gms/gossip_digest.hh] and not among the sources; [do_sort] is
    written over the sorting function. *)
Variable std_sort : list gossip_digest -> list gossip_digest.

(** [do_sort(g_digest_list)]; returns the list left in the argument. *)
Definition do_sort (g_digest_list : list gossip_digest) (g : gossiper)
    : list gossip_digest :=
  let ep_to_digest_map := build_ep_to_digest_map g_digest_list in
  let diff_digests := build_diff_digests g g_digest_list in
  let diff_digests := std_sort diff_digests in
  List.map (fun d =>
      default (mk_gossip_digest 0 0 0)
        (ep_to_digest_map !! get_endpoint d))
    (rev diff_digests).

(** [do_send_ack_msg(from, syn_msg)], up to the point where the ACK has been
    handed to the messaging service. *)
Definition do_send_ack_msg (from : Z) (syn_msg : gossip_digest_syn)
    (g : gossiper) : gossiper :=
  let g_digest_list := get_gossip_digests syn_msg in
  let g_digest_list := do_sort g_digest_list g in
  let '(delta_gossip_digest_list, delta_ep_state_map) :=
    examine_gossiper g_digest_list [] ∅ g in
  let ack_msg :=
    mk_gossip_digest_ack delta_gossip_digest_list delta_ep_state_map in
  emit (send_gossip_digest_ack from ack_msg) g.

End Sorting.

(** [do_send_ack2_msg(from, ack_msg_digest)], up to the point where the ACK2
    has been handed to the messaging service. *)
Definition do_send_ack2_msg (from : Z) (ack_msg_digest : list gossip_digest)
    (g : gossiper) : gossiper :=
  let delta_ep_state_map :=
    fold_left (fun (m : gmap Z endpoint_state) g_digest =>
        let addr := get_endpoint g_digest in
        match get_state_for_version_bigger_than addr
                (get_max_version g_digest) g with
        | Some local_ep_state =>
            match m !! addr with
            | Some _ => m                       (* emplace keeps the first *)
            | None => <[addr := local_ep_state]> m
            end
        | None => m
        end)
      ack_msg_digest ∅ in
  emit (send_gossip_digest_ack2 from delta_ep_state_map) g.

(** ** Message handlers *)

Definition update_timestamp_for_nodes (map : gmap Z endpoint_state)
    (g : gossiper) : gossiper :=
  fold_left (fun g (x : Z * endpoint_state) =>
      let endpoint := x.1 in
      let remote_endpoint_state := x.2 in
      match get_endpoint_state_for_endpoint_ptr endpoint g with
      | None => g
      | Some local_endpoint_state =>
          let local_generation :=
            get_generation (get_heart_beat_state local_endpoint_state) in
          let remote_generation :=
            get_generation (get_heart_beat_state remote_endpoint_state) in
          let update :=
            if remote_generation >? local_generation then true
            else if remote_generation =? local_generation then
              let local_version :=
                get_max_endpoint_state_version local_endpoint_state in
              let remote_version :=
                get_heart_beat_version
                  (get_heart_beat_state remote_endpoint_state) in
              remote_version >? local_version
            else false in
          if update
          then set_endpoint_state_map
                 (<[endpoint := update_timestamp (now (env g))
                                  local_endpoint_state]>
                    (_endpoint_state_map g)) g
          else g
      end)
    (map_to_list map) g.

(** The accounting at the head of [handle_ack_msg] and [handle_ack2_msg]:
    [_msg_processing++] when the message counts. *)
Definition begin_msg_processing (map : gmap Z endpoint_state) (g : gossiper)
    : gossiper :=
  if should_count_as_msg_processing map
  then set_msg_processing (_msg_processing g + 1) g
  else g.

(** The deferred action [mp]: [_msg_processing--] when the message counted. *)
Definition end_msg_processing (map : gmap Z endpoint_state) (g : gossiper)
    : gossiper :=
  if should_count_as_msg_processing map
  then set_msg_processing (_msg_processing g - 1) g
  else g.

(** The entry [m[from]] of a handler map, created if missing. *)
Definition slot_of {M : Type} (from : Z) (m : gmap Z (msg_pending M))
    : msg_pending M :=
  default msg_pending_default (m !! from).

Section Handlers.

Variable std_sort : list gossip_digest -> list gossip_digest.
Variable shuffle : list Z -> list Z.

(** [handle_syn_msg(from, syn_msg)] up to its first suspension. The flag
    tells whether a handler loop was started; it is then waiting for the
    ACK it has sent. *)
Definition handle_syn_msg (from : Z) (syn_msg : gossip_digest_syn)
    (g : gossiper) : gossiper * bool :=
  if negb (is_enabled g) then (g, false)
  else if negb (String.eqb (cluster_id syn_msg) (cfg_cluster_name (env g)))
  then (g, false)
  else if negb (String.eqb (partioner syn_msg) "")
          && negb (String.eqb (partioner syn_msg)
                     (cfg_partitioner_name (env g)))
  then (g, false)
  else
    let p := slot_of from (_syn_handlers g) in
    if pending p then
      (set_syn_handlers
         (<[from := mk_msg_pending (pending p) (Some syn_msg)]>
            (_syn_handlers g)) g, false)
    else
      let g := set_syn_handlers
                 (<[from := mk_msg_pending true (pending_msg p)]>
                    (_syn_handlers g)) g in
      (do_send_ack_msg std_sort from syn_msg g, true).

(** The continuation of a SYN handler loop when its ACK has been sent. The
    flag tells whether the loop goes on ([stop_iteration::no]), having sent
    the ACK of the stashed SYN. *)
Definition syn_handler_ack_sent (from : Z) (g : gossiper) : gossiper * bool :=
  match _syn_handlers g !! from with
  | None => (g, false)
  | Some p =>
      match pending_msg p with
      | Some syn_msg =>
          let g := set_syn_handlers
                     (<[from := mk_msg_pending (pending p) None]>
                        (_syn_handlers g)) g in
          (do_send_ack_msg std_sort from syn_msg g, true)
      | None =>
          (set_syn_handlers
             (<[from := mk_msg_pending false (pending_msg p)]>
                (_syn_handlers g)) g, false)
      end
  end.

(** The continuation of a SYN handler loop when sending its ACK failed; the
    loop ends. *)
Definition syn_handler_ack_failed (from : Z) (g : gossiper) : gossiper :=
  match _syn_handlers g !! from with
  | None => g
  | Some _ =>
      set_syn_handlers
        (<[from := mk_msg_pending false None]> (_syn_handlers g)) g
  end.

(** The first part of [handle_ack_msg(id, ack_msg)]: the message is counted
    and its deltas are applied. *)
Definition handle_ack_msg_apply (ack_msg : gossip_digest_ack) (g : gossiper)
    : gossiper :=
  let ep_state_map := get_endpoint_state_map ack_msg in
  let g := begin_msg_processing ep_state_map g in
  if (0 <? size ep_state_map)%nat
  then apply_state_locally shuffle ep_state_map
         (update_timestamp_for_nodes ep_state_map g)
  else g.

(** The continuation of [handle_ack_msg] once the deltas are applied, up to
    the suspension of its handler loop. The flag tells whether a handler loop
    was started; it is then waiting for the ACK2 it has sent. *)
Definition handle_ack_msg_then (from : Z) (ack_msg_digest : list gossip_digest)
    (g : gossiper) : gossiper * bool :=
  if is_in_shadow_round g then (set_in_shadow_round false g, false)
  else
    let p := slot_of from (_ack_handlers g) in
    if pending p then
      (set_ack_handlers
         (<[from := mk_msg_pending (pending p) (Some ack_msg_digest)]>
            (_ack_handlers g)) g, false)
    else
      let g := set_ack_handlers
                 (<[from := mk_msg_pending true (pending_msg p)]>
                    (_ack_handlers g)) g in
      (do_send_ack2_msg from ack_msg_digest g, true).

(** [handle_ack_msg(id, ack_msg)]; the deferred [mp] runs when the
    continuation is done with. *)
Definition handle_ack_msg (from : Z) (ack_msg : gossip_digest_ack)
    (g : gossiper) : gossiper * bool :=
  if negb (is_enabled g) && negb (is_in_shadow_round g) then (g, false)
  else
    let g_digest_list := get_gossip_digest_list ack_msg in
    let g := handle_ack_msg_apply ack_msg g in
    let '(g, started) := handle_ack_msg_then from g_digest_list g in
    (end_msg_processing (get_endpoint_state_map ack_msg) g, started).

Definition ack_handler_ack2_sent (from : Z) (g : gossiper) : gossiper * bool :=
  match _ack_handlers g !! from with
  | None => (g, false)
  | Some p =>
      match pending_msg p with
      | Some ack_msg_digest =>
          let g := set_ack_handlers
                     (<[from := mk_msg_pending (pending p) None]>
                        (_ack_handlers g)) g in
          (do_send_ack2_msg from ack_msg_digest g, true)
      | None =>
          (set_ack_handlers
             (<[from := mk_msg_pending false (pending_msg p)]>
                (_ack_handlers g)) g, false)
      end
  end.

Definition ack_handler_ack2_failed (from : Z) (g : gossiper) : gossiper :=
  match _ack_handlers g !! from with
  | None => g
  | Some _ =>
      set_ack_handlers
        (<[from := mk_msg_pending false None]> (_ack_handlers g)) g
  end.

(** [handle_ack2_msg(from, msg)]. *)
Definition handle_ack2_msg (from : Z)
    (remote_ep_state_map : gmap Z endpoint_state) (g : gossiper) : gossiper :=
  if negb (is_enabled g) then g
  else
    let g := update_timestamp_for_nodes remote_ep_state_map g in
    let g := begin_msg_processing remote_ep_state_map g in
    let g := apply_state_locally shuffle remote_ep_state_map g in
    end_msg_processing remote_ep_state_map g.

(** [handle_ack2_msg] past its test of [is_enabled], up to the end of
    [apply_state_locally]: the message is counted and its state applied;
    the deferred [mp] has not run yet. *)
Definition handle_ack2_msg_apply
    (remote_ep_state_map : gmap Z endpoint_state) (g : gossiper) : gossiper :=
  let g := update_timestamp_for_nodes remote_ep_state_map g in
  let g := begin_msg_processing remote_ep_state_map g in
  apply_state_locally shuffle remote_ep_state_map g.

(** The head of [handle_ack_msg(id, ack_msg)], up to the point where it
    awaits [apply_state_locally]: the message is dropped, or counted and its
    deltas applied. The flag tells whether the continuation is awaited. *)
Definition handle_ack_msg_arrives (ack_msg : gossip_digest_ack) (g : gossiper)
    : gossiper * bool :=
  if negb (is_enabled g) && negb (is_in_shadow_round g) then (g, false)
  else (handle_ack_msg_apply ack_msg g, true).

(** The continuation [f.then(...)] of [handle_ack_msg], which only now
    reaches the slot of the source, and the deferred [mp] that runs when the
    continuation is done with. The flag tells whether a handler loop was
    started. *)
Definition handle_ack_msg_applied (from : Z) (ack_msg : gossip_digest_ack)
    (g : gossiper) : gossiper * bool :=
  let '(g, started) :=
    handle_ack_msg_then from (get_gossip_digest_list ack_msg) g in
  (end_msg_processing (get_endpoint_state_map ack_msg) g, started).

(** *** The handler loops in flight

    A handler loop started by [handle_syn_msg] or [handle_ack_msg] stays in
    flight, waiting for its send, until one of its continuations ends it.
    [syn_in_flight] and [ack_in_flight] list the sources of the loops in
    flight, one occurrence per loop. An ACK whose deltas are being applied
    has not reached the slot of its source yet: [ack_applying] lists these
    ACKs with their sources, the latest arrival first. Their continuations
    run in any order, whatever the order of arrival, also for ACKs of one
    source. *)
Record node : Type := mk_node {
  gsp : gossiper;
  syn_in_flight : list Z;
  ack_in_flight : list Z;
  ack_applying : list (Z * gossip_digest_ack)
}.

Inductive action : Type :=
| recv_syn (from : Z) (syn_msg : gossip_digest_syn)
| syn_ack_sent (from : Z)
| syn_ack_failed (from : Z)
| recv_ack (from : Z) (ack_msg : gossip_digest_ack)
| ack_applied (i : nat)
| ack_ack2_sent (from : Z)
| ack_ack2_failed (from : Z)
| endpoint_removed (endpoint : Z).

(** Drop one occurrence: one loop of [from] has ended. *)
Fixpoint remove_one (from : Z) (l : list Z) : list Z :=
  match l with
  | [] => []
  | x :: l' => if x =? from then l' else x :: remove_one from l'
  end.

(** One step of the node. A continuation runs only for a loop that is in
    flight, or for an ACK that is being applied ([ack_applied i] is the
    continuation of the ACK at position [i] of [ack_applying]). *)
Definition run_action (a : action) (n : node) : node :=
  match a with
  | recv_syn from syn_msg =>
      let '(g, started) := handle_syn_msg from syn_msg (gsp n) in
      mk_node g
        (if started then from :: syn_in_flight n else syn_in_flight n)
        (ack_in_flight n) (ack_applying n)
  | syn_ack_sent from =>
      if bool_decide (from ∈ syn_in_flight n) then
        let '(g, again) := syn_handler_ack_sent from (gsp n) in
        mk_node g
          (if again then syn_in_flight n
           else remove_one from (syn_in_flight n))
          (ack_in_flight n) (ack_applying n)
      else n
  | syn_ack_failed from =>
      if bool_decide (from ∈ syn_in_flight n) then
        mk_node (syn_handler_ack_failed from (gsp n))
          (remove_one from (syn_in_flight n)) (ack_in_flight n)
          (ack_applying n)
      else n
  | recv_ack from ack_msg =>
      let '(g, awaited) := handle_ack_msg_arrives ack_msg (gsp n) in
      mk_node g (syn_in_flight n) (ack_in_flight n)
        (if awaited then (from, ack_msg) :: ack_applying n
         else ack_applying n)
  | ack_applied i =>
      match ack_applying n !! i with
      | Some (from, ack_msg) =>
          let '(g, started) := handle_ack_msg_applied from ack_msg (gsp n) in
          mk_node g (syn_in_flight n)
            (if started then from :: ack_in_flight n else ack_in_flight n)
            (delete i (ack_applying n))
      | None => n
      end
  | ack_ack2_sent from =>
      if bool_decide (from ∈ ack_in_flight n) then
        let '(g, again) := ack_handler_ack2_sent from (gsp n) in
        mk_node g (syn_in_flight n)
          (if again then ack_in_flight n
           else remove_one from (ack_in_flight n))
          (ack_applying n)
      else n
  | ack_ack2_failed from =>
      if bool_decide (from ∈ ack_in_flight n) then
        mk_node (ack_handler_ack2_failed from (gsp n))
          (syn_in_flight n) (remove_one from (ack_in_flight n))
          (ack_applying n)
      else n
  | endpoint_removed endpoint =>
      mk_node (remove_endpoint endpoint (gsp n))
        (syn_in_flight n) (ack_in_flight n) (ack_applying n)
  end.

Definition run_actions (l : list action) (n : node) : node :=
  fold_left (fun n a => run_action a n) l n.

(** A node on which no handler has run yet. *)
Definition idle (n : node) : Prop :=
  _syn_handlers (gsp n) = ∅ /\ _ack_handlers (gsp n) = ∅ /\
  syn_in_flight n = [] /\ ack_in_flight n = [] /\ ack_applying n = [].

(** Along the run of [l] from [n], [remove_endpoint] is called for an
    endpoint only while none of its handler loops is in flight. *)
Fixpoint removals_outside_loops (l : list action) (n : node) : Prop :=
  match l with
  | [] => True
  | a :: l =>
      match a with
      | endpoint_removed endpoint =>
          (endpoint ∉ syn_in_flight n) /\ (endpoint ∉ ack_in_flight n)
      | _ => True
      end /\
      removals_outside_loops l (run_action a n)
  end.

End Handlers.

(** ** Local and administrative updates *)

(** The [versioned_value] factories draw a fresh version; their texts are
    declared in [gms/versioned_value.hh]. *)
Definition versioned_value_with_next_version (text : string) (g : gossiper)
    : versioned_value * gossiper :=
  let '(v, g) := get_next_version g in
  (mk_versioned_value text v, g).

Definition store_local_values (ep_addr : Z)
    (states : list (application_state * versioned_value)) (g : gossiper)
    : list (application_state * versioned_value) * gossiper :=
  fold_left
    (fun (acc : list (application_state * versioned_value) * gossiper) p =>
       let '(done, g) := acc in
       let '(value0, g) := clone_with_higher_version p.2 g in
       (done ++ [(p.1, value0)],
        set_endpoint_state_map
          (alter (add_application_state p.1 value0) ep_addr
             (_endpoint_state_map g)) g))
    states ([], g).

(** [add_local_application_state(states)], on shard 0. *)
Definition add_local_application_state
    (states : list (application_state * versioned_value)) (g : gossiper)
    : gossiper :=
  match states with
  | [] => g
  | _ =>
      let ep_addr := get_broadcast_address (env g) in
      match get_endpoint_state_for_endpoint_ptr ep_addr g with
      | None => emit (log_warn fail_to_apply_application_state) g
      | Some ep_state_before =>
          let g := fold_left (fun g (p : application_state * versioned_value) =>
                       do_before_change_notifications ep_addr ep_state_before
                         p.1 p.2 g) states g in
          match get_endpoint_state_for_endpoint_ptr ep_addr g with
          | None => g
          | Some _ =>
              let '(states, g) := store_local_values ep_addr states g in
              fold_left (fun g (p : application_state * versioned_value) =>
                  let g := replicate_key ep_addr p.1 p.2 g in
                  do_on_change_notifications ep_addr p.1 p.2 g) states g
          end
      end
  end.

(** [advertise_removing(endpoint, host_id, local_host_id)] from the point
    where it resumes after its sleep; [generation] is the generation it
    remembered before sleeping. A missing entry or a changed generation
    throws, leaving the state as it is. *)
Definition advertise_removing (endpoint : Z) (host_id local_host_id : string)
    (generation : Z) (g : gossiper) : gossiper :=
  match get_endpoint_state_for_endpoint_ptr endpoint g with
  | None => g
  | Some eps =>
      if negb (get_generation (get_heart_beat_state eps) =? generation) then g
      else
        let eps := update_timestamp (now (env g)) eps in
        let eps := force_newer_generation_unsafe
                     (get_generation_number (env g)) eps in
        let '(v, g) := versioned_value_with_next_version
                         (REMOVING_TOKEN ++ "," ++ host_id) g in
        let eps := add_application_state STATUS v eps in
        let '(v, g) := versioned_value_with_next_version
                         ("REMOVER," ++ local_host_id) g in
        let eps := add_application_state REMOVAL_COORDINATOR v eps in
        let g := set_endpoint_state_map
                   (<[endpoint := eps]> (_endpoint_state_map g)) g in
        replicate endpoint eps g
  end.

(** [add_saved_endpoint(ep)]. *)
Definition add_saved_endpoint (ep : Z) (g : gossiper) : gossiper :=
  if bool_decide (ep = get_broadcast_address (env g)) then g
  else
    let ep_state :=
      match get_endpoint_state_for_endpoint_ptr ep g with
      | Some es =>
          set_heart_beat_state_and_update_timestamp (mk_heart_beat_state 0 0)
            (now (env g)) es
      | None => endpoint_state_of_heart_beat (now (env g))
                  (mk_heart_beat_state 0 0)
      end in
    let '(ep_state, g) :=
      match token_metadata_tokens (env g) ep with
      | Some tokens =>
          let '(v, g) := versioned_value_with_next_version tokens g in
          (add_application_state TOKENS v ep_state, g)
      | None => (ep_state, g)
      end in
    let '(ep_state, g) :=
      match token_metadata_host_id (env g) ep with
      | Some host_id =>
          let '(v, g) := versioned_value_with_next_version host_id g in
          (add_application_state HOST_ID v ep_state, g)
      | None => (ep_state, g)
      end in
    let ep_state := set_alive false ep_state in
    let g := set_endpoint_state_map
               (<[ep := ep_state]> (_endpoint_state_map g)) g in
    let g := replicate ep ep_state g in
    set_unreachable_endpoints (<[ep := now (env g)]> (_unreachable_endpoints g)) g.

(** ** Sample configurations

    Concrete nodes and states on which the operations are run below. Node 1
    is the local node; the other shards start with empty maps. *)

Definition sample_env : gossip_env :=
  mk_gossip_env 1 "cluster" "murmur3" {[2]} 30000 100000 1700000000 ∅
    (fun _ => None) (fun _ => None) 259200000.

Definition sample_state (generation version0 : Z) (status : string)
    (status_version : Z) (alive : bool) : endpoint_state :=
  mk_endpoint_state (mk_heart_beat_state generation version0)
    {[STATUS := mk_versioned_value status status_version]} 0 alive.

Definition sample_gossiper (shadow : bool) (m : gmap Z endpoint_state)
    : gossiper :=
  mk_gossiper sample_env true shadow 10 m [∅; ∅] [] 0 ∅ ∅ ∅ {[2]} ∅ [] ∅ ∅ 0 [].

(** A node on which gossip is disabled. *)
Definition sample_disabled (m : gmap Z endpoint_state) : gossiper :=
  mk_gossiper sample_env false false 10 m [∅; ∅] [] 0 ∅ ∅ ∅ {[2]} ∅ [] ∅ ∅ 0 [].

(** The local node alone, alive, in generation 1000. *)
Definition sample_local_only : gmap Z endpoint_state :=
  {[1 := sample_state 1000 4 "NORMAL" 2 true]}.

(** ** Orders and sorts for the digests

    [gossip_digest::operator<] is declared in [gms/gossip_digest.hh], which
    is not among the sources, and the statements about [do_sort] take it as
    a parameter. Two orders it may be serve the sample runs: one compares
    the [max_version] field alone, the other compares generations first and
    then [max_version]. *)
Definition gossip_digest_less_by_version (x y : gossip_digest) : bool :=
  get_max_version x <? get_max_version y.

Definition gossip_digest_less_generation_first (x y : gossip_digest) : bool :=
  if negb (digest_generation x =? digest_generation y)
  then digest_generation x <? digest_generation y
  else get_max_version x <? get_max_version y.

(** The digest [do_sort] builds for a digest of the list: the version
    difference takes the place of [max_version]. *)
Definition diff_digest (g : gossiper) (g_digest : gossip_digest)
    : gossip_digest :=
  mk_gossip_digest (get_endpoint g_digest) (digest_generation g_digest)
    (diff_version g g_digest).

Fixpoint insert_sorted (x : gossip_digest) (l : list gossip_digest)
    : list gossip_digest :=
  match l with
  | [] => [x]
  | y :: l' =>
      if gossip_digest_less_by_version y x then y :: insert_sorted x l'
      else x :: l
  end.

(** One sorting function that meets the contract of [std::sort] for the
    order by [max_version]. *)
Definition insertion_sort (l : list gossip_digest) : list gossip_digest :=
  fold_right insert_sorted [] l.

(** Insertion sort for any order. *)
Fixpoint insert_sorted_by (less : gossip_digest -> gossip_digest -> bool)
    (x : gossip_digest) (l : list gossip_digest) : list gossip_digest :=
  match l with
  | [] => [x]
  | y :: l' =>
      if less y x then y :: insert_sorted_by less x l'
      else x :: l
  end.

Definition insertion_sort_by (less : gossip_digest -> gossip_digest -> bool)
    (l : list gossip_digest) : list gossip_digest :=
  fold_right (insert_sorted_by less) [] l.

(** The maximal version known locally for an endpoint, 0 when the endpoint is
    unknown. *)
Definition local_max_version (g : gossiper) (ep : Z) : Z :=
  match get_endpoint_state_for_endpoint_ptr ep g with
  | Some ep_state => get_max_endpoint_state_version ep_state
  | None => 0
  end.

(** ** Frames

    What an operation leaves alone. [same_control g g'] says that the parts
    of the state that steer the handlers and the quarantine are the same in
    [g'] as in [g]; [keeps_entry p g g'] says in addition that the entry of
    [p] is the same on every shard. *)
Record same_control (g g' : gossiper) : Prop := mk_same_control {
  sc_env : env g' = env g;
  sc_enabled : _enabled g' = _enabled g;
  sc_in_shadow_round : _in_shadow_round g' = _in_shadow_round g;
  sc_just_removed : _just_removed_endpoints g' = _just_removed_endpoints g;
  sc_seeds : _seeds g' = _seeds g;
  sc_syn_handlers : _syn_handlers g' = _syn_handlers g;
  sc_ack_handlers : _ack_handlers g' = _ack_handlers g;
  sc_msg_processing : _msg_processing g' = _msg_processing g
}.

(** The local node has an entry. *)
Definition knows_itself (g : gossiper) : Prop :=
  is_Some (_endpoint_state_map g !! get_broadcast_address (env g)).

Record keeps_entry (p : Z) (g g' : gossiper) : Prop := mk_keeps_entry {
  ke_control : same_control g g';
  ke_lookup :
    p <> get_broadcast_address (env g) \/ knows_itself g ->
    _endpoint_state_map g' !! p = _endpoint_state_map g !! p;
  ke_knows_itself : knows_itself g -> knows_itself g';
  ke_shards :
    Forall2 (fun m m' : gmap Z endpoint_state => m' !! p = m !! p)
      (other_shards g) (other_shards g')
}.

(** ** Handler slots and loops in flight

    [slots_agree handlers in_flight]: every source has at most one loop in
    flight, a source has a loop in flight exactly when its slot is marked
    pending, and a slot that is not pending holds no stashed message. *)
Definition slots_agree {M : Type} (handlers : gmap Z (msg_pending M))
    (in_flight : list Z) : Prop :=
  NoDup in_flight /\
  (forall from, from ∈ in_flight <->
     exists p, handlers !! from = Some p /\ pending p = true) /\
  (forall from p, handlers !! from = Some p -> pending p = false ->
     pending_msg p = None).

(** [handle_syn_msg] goes past its checks of the cluster and partitioner
    names. *)
Definition syn_accepted (syn_msg : gossip_digest_syn) (g : gossiper) : Prop :=
  is_enabled g = true /\
  cluster_id syn_msg = cfg_cluster_name (env g) /\
  (partioner syn_msg = ""%string \/
   partioner syn_msg = cfg_partitioner_name (env g)).

(** The slots of a node agree with its loops in flight, for SYN and ACK. *)
Definition node_ok (n : node) : Prop :=
  slots_agree (_syn_handlers (gsp n)) (syn_in_flight n) /\
  slots_agree (_ack_handlers (gsp n)) (ack_in_flight n).

(** The handler maps of two states are the same. *)
Definition same_handlers (g g' : gossiper) : Prop :=
  _syn_handlers g' = _syn_handlers g /\ _ack_handlers g' = _ack_handlers g.

(** [handle_ack_msg] goes on to the slot of the source: gossip is enabled and
    the node is not in its shadow round. *)
Definition ack_accepted (g : gossiper) : Prop :=
  is_enabled g = true /\ is_in_shadow_round g = false.

Definition sample_syn (digests : list gossip_digest) : gossip_digest_syn :=
  mk_gossip_digest_syn "cluster" "murmur3" digests.

Definition sample_node : node :=
  mk_node (sample_gossiper false sample_local_only) [] [] [].

(** Two SYNs from peer 7, then the completion of its first ACK. *)
Definition sample_burst : list action :=
  [recv_syn 7 (sample_syn []); recv_syn 7 (sample_syn []); syn_ack_sent 7].

(** A SYN from peer 7, the removal of peer 7, and another SYN from it. *)
Definition sample_removal_race : list action :=
  [recv_syn 7 (sample_syn []); endpoint_removed 7; recv_syn 7 (sample_syn [])].

Definition sample_peer : Z := 7.

(** An ACK of peer 7 starts its handler loop; two more ACKs of peer 7 arrive,
    the first asking about endpoint 8 and the second about endpoint 9; the
    continuation of the second runs, then that of the first. *)
Definition sample_ack (digests : list gossip_digest) : gossip_digest_ack :=
  mk_gossip_digest_ack digests ∅.

Definition sample_overtaking : list action :=
  [recv_ack 7 (sample_ack []); ack_applied 0;
   recv_ack 7 (sample_ack [mk_gossip_digest 8 1 1]);
   recv_ack 7 (sample_ack [mk_gossip_digest 9 1 1]);
   ack_applied 0; ack_applied 0].

(** A SYN from peer 7 whose handler loop completes, the removal of peer 7,
    and another SYN from it. *)
Definition sample_removal_between : list action :=
  [recv_syn 7 (sample_syn []); syn_ack_sent 7; endpoint_removed 7;
   recv_syn 7 (sample_syn [])].

(** ** Agreement of the shards

    The application states held for [ep] by a map, and the statement that
    every other shard holds for [ep] the application states the coordinator
    holds. *)
Definition apps_at (ep : Z) (m : gmap Z endpoint_state)
    : option (gmap application_state versioned_value) :=
  get_application_state_map <$> (m !! ep).

Definition apps_in_sync (ep : Z) (g : gossiper) : Prop :=
  Forall (fun m => apps_at ep m = apps_at ep (_endpoint_state_map g))
    (other_shards g).

(** A node whose two other shards hold the same map as the coordinator. *)
Definition sample_synced (m : gmap Z endpoint_state) : gossiper :=
  mk_gossiper sample_env true false 10 m [m; m] [] 0 ∅ ∅ ∅ {[2]} ∅ [] ∅ ∅ 0 [].

(** Peer 7 known in generation 900, heartbeat version 3, not alive. *)
Definition sample_with_peer : gmap Z endpoint_state :=
  <[7 := sample_state 900 3 "NORMAL" 2 false]> sample_local_only.

(** ** Vocabulary of the statements *)

(** Some per-peer state map of the message has an application-state key
    outside LOAD, VIEW_BACKLOG, CACHE_HITRATES. *)
Definition has_significant_key (map : gmap Z endpoint_state) : Prop :=
  exists (ep : Z) (state : endpoint_state) (key : application_state)
         (v : versioned_value),
    map !! ep = Some state /\
    get_application_state_map state !! key = Some v /\
    key <> LOAD /\ key <> VIEW_BACKLOG /\ key <> CACHE_HITRATES.

Definition is_on_dead_of (p : Z) (e : event) : bool :=
  match e with
  | on_dead ep _ => ep =? p
  | _ => false
  end.

(** How many times [on_dead] was fired for [p]. *)
Definition on_dead_count (p : Z) (tr : list event) : nat :=
  length (List.filter (is_on_dead_of p) tr).

(** [p] has no entry, or its entry is not alive. *)
Definition absent_or_not_alive (p : Z) (g : gossiper) : Prop :=
  forall st, _endpoint_state_map g !! p = Some st -> is_alive_bit st = false.

(** [r] is the local state [eps] cut down to what is newer than [ver]: the
    heartbeat of [eps], and exactly the application states of [eps] whose
    version is above [ver]. *)
Definition is_delta_above (eps : endpoint_state) (ver : Z) (r : endpoint_state)
    : Prop :=
  get_heart_beat_state r = get_heart_beat_state eps /\
  forall (k : application_state) (v : versioned_value),
    get_application_state_map r !! k = Some v <->
    get_application_state_map eps !! k = Some v /\ version v > ver.

Definition add_all (sel : list (application_state * versioned_value))
    (r : endpoint_state) : endpoint_state :=
  fold_left (fun r (e : application_state * versioned_value) =>
               add_application_state e.1 e.2 r) sel r.

(** [p] is still quarantined, since [t] or since now. *)
Definition quarantined_since (g0 : gossiper) (p t : Z) (g : gossiper) : Prop :=
  env g = env g0 /\
  exists t', _just_removed_endpoints g !! p = Some t' /\
             (t' = t \/ t' = now (env g0)).

(** The state [handle_major_state_change] has reached when it decides between
    [mark_alive] and [mark_dead]. *)
Definition major_state_stored (ep : Z) (eps : endpoint_state) (g : gossiper)
    : gossiper :=
  let g1 := replicate ep eps
              (set_endpoint_state_map (<[ep := eps]> (_endpoint_state_map g)) g)
  in
  match get_endpoint_state_for_endpoint_ptr ep g with
  | Some old => emit (on_restart ep old) g1
  | None => g1
  end.

(** Taking over the remote value of each key of [changed]. *)
Definition take_changed (remote_map : gmap application_state versioned_value)
    (changed : list application_state)
    (a : gmap application_state versioned_value)
    : gmap application_state versioned_value :=
  fold_left (fun a key =>
      match remote_map !! key with
      | Some v => <[key := v]> a
      | None => a
      end) changed a.

(** Writing each pair of [new] into an application-state map. *)
Definition put_all (new : list (application_state * versioned_value))
    (a : gmap application_state versioned_value)
    : gmap application_state versioned_value :=
  fold_left (fun a (p : application_state * versioned_value) =>
               <[p.1 := p.2]> a) new a.

(** ** Further readers of the store *)

(** [is_normal_ring_member(endpoint)]. *)
Definition is_normal_ring_member (endpoint : Z) (g : gossiper) : bool :=
  let status := get_gossip_status_of endpoint g in
  String.eqb status STATUS_NORMAL || String.eqb status SHUTDOWN.

(** [is_safe_for_bootstrap(endpoint)]; [allowed_statuses] holds
    [STATUS_LEFT] and [REMOVED_TOKEN]. *)
Definition is_safe_for_bootstrap (endpoint : Z) (g : gossiper) : bool :=
  match get_endpoint_state_for_endpoint_ptr endpoint g with
  | None => true
  | Some eps =>
      let status := get_gossip_status eps in
      let allowed_statuses := [STATUS_LEFT; REMOVED_TOKEN] in
      existsb (String.eqb status) allowed_statuses
  end.

(** The text has no comma. *)
Definition comma_free (s : string) : Prop := String.index 0 "," s = None.

(** ** The live and the unreachable endpoints

    The live endpoints are listed once each, and none of them is among the
    unreachable ones. *)
Definition liveness_ok (g : gossiper) : Prop :=
  NoDup (_live_endpoints g) /\
  forall p, p ∈ _live_endpoints g -> _unreachable_endpoints g !! p = None.

(** Peer 7 is live, peer 8 unreachable since time 5. *)
Definition sample_live_and_down : gossiper :=
  set_unreachable_endpoints {[8 := 5]}
    (set_live_endpoints [7]
       (sample_gossiper false
          (<[8 := sample_state 800 2 "NORMAL" 1 false]>
             (<[7 := sample_state 900 3 "NORMAL" 2 true]> sample_local_only)))).

(** ** Waiting for gossip to settle *)

Definition GOSSIP_SETTLE_POLL_SUCCESSES_REQUIRED : Z := 3.

(** What one round of the loop of [wait_for_gossip] finds when its sleep
    ends: the size of [_endpoint_state_map] (as [int32_t]) and
    [_msg_processing]. *)
Record poll : Set := mk_poll {
  poll_size : Z;
  poll_msg_processing : Z
}.

(** How [wait_for_gossip] returned: at once, on the user's request; out of
    its loop with [num_okay] at the required count; or out of the loop by the
    [break] of [force_after]. The argument is [total_polls]. *)
Inductive wait_outcome : Set :=
| wait_skipped
| wait_settled (total_polls : Z)
| wait_forced (total_polls : Z).

(** The loop of [wait_for_gossip]. The rounds still to come are given by
    what they will find; [None] is a loop that has not ended when they are
    used up. *)
Fixpoint wait_for_gossip_loop (force_after : option Z) (polls : list poll)
    (total_polls num_okay ep_size : Z) : option wait_outcome :=
  if num_okay <? GOSSIP_SETTLE_POLL_SUCCESSES_REQUIRED then
    match polls with
    | [] => None
    | p :: polls =>
        let current_size := poll_size p in
        let total_polls := wrap32 (total_polls + 1) in
        let num_okay :=
          if (current_size =? ep_size) && (poll_msg_processing p =? 0)
          then wrap32 (num_okay + 1)
          else 0 in
        let ep_size := current_size in
        if match force_after with
           | Some f => (f >? 0) && (total_polls >? f)
           | None => false
           end
        then Some (wait_forced total_polls)
        else wait_for_gossip_loop force_after polls total_polls num_okay ep_size
    end
  else Some (wait_settled total_polls).

(** [wait_for_gossip(initial_delay, force_after)]; the delays only space the
    rounds. *)
Definition wait_for_gossip (force_after : option Z) (polls : list poll)
    (g : gossiper) : option wait_outcome :=
  if match force_after with Some f => f =? 0 | None => false end
  then Some wait_skipped
  else
    let total_polls := 0 in
    let num_okay := 0 in
    let ep_size := wrap32 (Z.of_nat (size (_endpoint_state_map g))) in
    wait_for_gossip_loop force_after polls total_polls num_okay ep_size.

(** The rounds of [l] all find no message in processing and the map at
    size [e]. *)
Definition quiet_run (e : Z) (l : list poll) : Prop :=
  Forall (fun p => poll_msg_processing p = 0 /\ poll_size p = e) l.

(** The size the last round of [pre] has found, [e] if there is none. *)
Definition last_size (e : Z) (pre : list poll) : Z :=
  fold_left (fun _ p => poll_size p) pre e.

(** ** Choosing whom to talk to in a gossip round *)

(** The loop of [run] that cuts the live endpoints into rounds; the
    accumulator is [(_endpoints_to_talk_with, live_nodes)]. *)
Definition split_live_nodes (nodes_per_round : nat) (live_endpoints : list Z)
    (acc : list (list Z) * list Z) : list (list Z) * list Z :=
  fold_left (fun (acc : list (list Z) * list Z) node =>
      let '(endpoints_to_talk_with, live_nodes) := acc in
      if (length live_nodes <? nodes_per_round)%nat
      then (endpoints_to_talk_with, live_nodes ++ [node])
      else (endpoints_to_talk_with ++ [live_nodes], [node]))
    live_endpoints acc.

(** The part of [run] that refills [_endpoints_to_talk_with] when it is
    empty: the live endpoints are shuffled and cut into rounds of
    [nodes_per_round]; with no live endpoint the seeds make one round.
    [shuffle] stands for [std::shuffle] with the gossiper's random engine. *)
Definition run_plan_rounds (shuffle : list Z -> list Z) (g : gossiper)
    : gossiper :=
  let g :=
    match _endpoints_to_talk_with g with
    | [] =>
        let g := set_live_endpoints (shuffle (_live_endpoints g)) g in
        let nr_rounds := 10%nat in
        let nodes_per_round :=
          ((length (_live_endpoints g) + nr_rounds - 1) / nr_rounds)%nat in
        let '(endpoints_to_talk_with, live_nodes) :=
          split_live_nodes nodes_per_round (_live_endpoints g)
            (_endpoints_to_talk_with g, []) in
        match live_nodes with
        | [] => set_endpoints_to_talk_with endpoints_to_talk_with g
        | _ => set_endpoints_to_talk_with
                 (endpoints_to_talk_with ++ [live_nodes]) g
        end
    | _ => g
    end in
  match _endpoints_to_talk_with g with
  | [] =>
      let nodes := elements (_seeds g) in
      match nodes with
      | [] => g
      | _ => set_endpoints_to_talk_with (_endpoints_to_talk_with g ++ [nodes]) g
      end
  | _ => g
  end.

(** ** The pinger of the direct failure detector *)

(** Modelled from the spec: the pinger is declared in [gms/gossiper.hh] (not
    among the sources); the spec gives a bimap [addr <-> endpoint_id] with
    ids of type [uint64], allocated on the coordinator only, next to the
    generation number the Echo carries. *)
Record direct_fd_pinger : Type := mk_direct_fd_pinger {
  _generation_number : Z;
  _next_allocated_id : Z;
  _addr_to_id : gmap Z Z;
  _id_to_addr : gmap Z Z
}.

Definition UINT64_MODULUS : Z := 2 ^ 64.

(** [direct_fd_pinger::update_generation_number(n)]; every shard takes the
    same value. *)
Definition update_generation_number (n : Z) (p : direct_fd_pinger)
    : direct_fd_pinger :=
  if n <=? _generation_number p then p
  else mk_direct_fd_pinger n (_next_allocated_id p) (_addr_to_id p)
         (_id_to_addr p).

(** [direct_fd_pinger::allocate_id(addr)], on shard 0; [emplace] leaves an
    entry that is there as it is. *)
Definition allocate_id (addr : Z) (p : direct_fd_pinger)
    : Z * direct_fd_pinger :=
  match _addr_to_id p !! addr with
  | Some id => (id, p)
  | None =>
      let id := _next_allocated_id p in
      let next_allocated_id := (_next_allocated_id p + 1) mod UINT64_MODULUS in
      let id_to_addr :=
        match _id_to_addr p !! id with
        | Some _ => _id_to_addr p
        | None => <[id := addr]> (_id_to_addr p)
        end in
      let addr_to_id := <[addr := id]> (_addr_to_id p) in
      (id, mk_direct_fd_pinger (_generation_number p) next_allocated_id
             addr_to_id id_to_addr)
  end.

(** [direct_fd_pinger::get_address(id)] on a shard whose own [_id_to_addr]
    is [cache], with [p] the pinger of shard 0: a missing id is fetched from
    shard 0 and kept; [None] is the internal error of an id that shard 0
    does not have either. *)
Definition get_address (id : Z) (cache : gmap Z Z) (p : direct_fd_pinger)
    : option (Z * gmap Z Z) :=
  match cache !! id with
  | Some addr => Some (addr, cache)
  | None =>
      match _id_to_addr p !! id with
      | None => None
      | Some addr => Some (addr, <[id := addr]> cache)
      end
  end.

(** The two maps of the pinger are inverse to each other, and every id
    handed out is below the next one. *)
Definition pinger_ok (p : direct_fd_pinger) : Prop :=
  (forall addr id, _addr_to_id p !! addr = Some id <->
                   _id_to_addr p !! id = Some addr) /\
  (forall id addr, _id_to_addr p !! id = Some addr ->
                   0 <= id < _next_allocated_id p) /\
  0 <= _next_allocated_id p < UINT64_MODULUS.

(** The pinger a gossiper starts with. *)
Definition direct_fd_pinger_initial : direct_fd_pinger :=
  mk_direct_fd_pinger 0 0 ∅ ∅.

(** ** The digests a node offers *)

(** The body of the loop of [make_random_gossip_digest]; [generation] and
    [max_version] keep the values of the endpoint before when an endpoint
    has no state. *)
Definition make_random_gossip_digest_body (g : gossiper)
    (acc : Z * Z * list gossip_digest) (endpoint : Z)
    : Z * Z * list gossip_digest :=
  let '(generation, max_version, g_digests) := acc in
  let '(generation, max_version) :=
    match get_endpoint_state_for_endpoint_ptr endpoint g with
    | Some eps =>
        (get_generation (get_heart_beat_state eps),
         get_max_endpoint_state_version eps)
    | None => (generation, max_version)
    end in
  (generation, max_version,
   g_digests ++ [mk_gossip_digest endpoint generation max_version]).

(** [make_random_gossip_digest(g_digests)]; returns the vector left in the
    argument. [shuffle] stands for [std::shuffle] with the gossiper's random
    engine. *)
Definition make_random_gossip_digest (shuffle : list Z -> list Z)
    (g_digests : list gossip_digest) (g : gossiper) : list gossip_digest :=
  let generation := 0 in
  let max_version := 0 in
  let endpoints := shuffle ((map_to_list (_endpoint_state_map g)).*1) in
  (fold_left (make_random_gossip_digest_body g) endpoints
     (generation, max_version, g_digests)).2.

(** The digest of the state held for [endpoint]. *)
Definition digest_of (g : gossiper) (endpoint : Z) : gossip_digest :=
  match get_endpoint_state_for_endpoint_ptr endpoint g with
  | Some eps =>
      mk_gossip_digest endpoint (get_generation (get_heart_beat_state eps))
        (get_max_endpoint_state_version eps)
  | None => mk_gossip_digest endpoint 0 0
  end.

(** ** Answering a request for endpoint states *)

(** [m.emplace(k, v)]: an entry that is there stays. *)
Definition emplace `{Countable K} {V : Type} (k : K) (v : V) (m : gmap K V)
    : gmap K V :=
  match m !! k with
  | Some _ => m
  | None => <[k := v]> m
  end.

(** [handle_get_endpoint_states_msg(request)]; returns the map of the
    response. *)
Definition handle_get_endpoint_states_msg
    (application_states_wanted : gset application_state) (g : gossiper)
    : gmap Z endpoint_state :=
  fold_left (fun (map : gmap Z endpoint_state) (item : Z * endpoint_state) =>
      let node := item.1 in
      let state := item.2 in
      let hbs := get_heart_beat_state state in
      let state_wanted := endpoint_state_of_heart_beat (now (env g)) hbs in
      let apps := get_application_state_map state in
      let state_wanted :=
        fold_left (fun (state_wanted : endpoint_state)
                       (app : application_state * versioned_value) =>
            if bool_decide (app.1 ∈ application_states_wanted)
            then mk_endpoint_state (get_heart_beat_state state_wanted)
                   (emplace app.1 app.2
                      (get_application_state_map state_wanted))
                   (get_update_timestamp state_wanted)
                   (is_alive_bit state_wanted)
            else state_wanted)
          (map_to_list apps) state_wanted in
      emplace node state_wanted map)
    (map_to_list (_endpoint_state_map g)) ∅.

(** ** Answering an Echo *)

(** The members [_advertise_myself] and [_advertise_to_nodes], which every
    shard holds with the same values. *)
Record advertising : Type := mk_advertising {
  _advertise_myself : bool;
  _advertise_to_nodes : gmap Z Z
}.

(** [handle_echo_msg(from, generation_number_opt)]; [false] is the exception
    "Not ready to respond gossip echo message". *)
Definition handle_echo_msg (a : advertising) (from : Z)
    (generation_number_opt : option Z) (g : gossiper) : bool :=
  let respond := true in
  let respond :=
    if negb (_advertise_myself a) then false
    else if negb (bool_decide (_advertise_to_nodes a = ∅)) then
      match _advertise_to_nodes a !! from with
      | None => false
      | Some saved_generation_number =>
          match get_endpoint_state_for_endpoint_ptr from g with
          | Some es =>
              let current_generation_number :=
                match generation_number_opt with
                | Some n => n
                | None => get_generation (get_heart_beat_state es)
                end in
              saved_generation_number =? current_generation_number
          | None => false
          end
      end
    else respond in
  respond.

(** The body of the loop of [get_generation_for_nodes]; [None] is the
    exception thrown at a node without a state, which ends the loop. *)
Definition get_generation_for_nodes_body (g : gossiper)
    (ret : option (gmap Z Z)) (node : Z) : option (gmap Z Z) :=
  match ret with
  | None => None
  | Some ret =>
      match get_endpoint_state_for_endpoint_ptr node g with
      | Some es =>
          let current_generation_number :=
            get_generation (get_heart_beat_state es) in
          Some (emplace node current_generation_number ret)
      | None => None
      end
  end.

(** [get_generation_for_nodes(nodes)]. *)
Definition get_generation_for_nodes (nodes : list Z) (g : gossiper)
    : option (gmap Z Z) :=
  fold_left (get_generation_for_nodes_body g) nodes (Some ∅).

(** [advertise_to_nodes(advertise_to_nodes)]. *)
Definition advertise_to_nodes (advertise_to_nodes : gmap Z Z)
    (a : advertising) : advertising :=
  mk_advertising true advertise_to_nodes.

(** The generation held for an endpoint. *)
Definition generation_of (ep : Z) (g : gossiper) : option Z :=
  (fun es => get_generation (get_heart_beat_state es)) <$>
    (_endpoint_state_map g !! ep).

(** ** A peer announces its shutdown *)

(** [handle_shutdown_msg(from, generation_number_opt)]. A message with a
    generation that is not the one held for the sender, or for a sender
    without a state, is ignored with a warning. *)
Definition handle_shutdown_msg (from : Z) (generation_number_opt : option Z)
    (g : gossiper) : gossiper :=
  if negb (is_enabled g) then g
  else
    match generation_number_opt with
    | Some received_generation =>
        match get_endpoint_state_for_endpoint_ptr from g with
        | Some es =>
            let local_generation := get_generation (get_heart_beat_state es) in
            if negb (local_generation =? received_generation) then g
            else mark_as_shutdown from g
        | None => g
        end
    | None => mark_as_shutdown from g
    end.

(** The state [mark_as_shutdown] leaves for an endpoint that had [st]: STATUS
    shutdown at version [v], the highest heartbeat version, not alive. *)
Definition shut_down_state (v : Z) (st : endpoint_state) : endpoint_state :=
  set_alive false
    (force_highest_possible_version_unsafe
       (add_application_state STATUS
          (mk_versioned_value (SHUTDOWN ++ ",true") v) st)).

(** ** Forced removal *)

(** [force_remove_endpoint(endpoint)]; [None] is the exception for the node
    itself. *)
Definition force_remove_endpoint (endpoint : Z) (g : gossiper)
    : option gossiper :=
  if bool_decide (endpoint = get_broadcast_address (env g)) then None
  else
    let g := remove_endpoint endpoint g in
    let g := evict_from_membership endpoint g in
    Some g.

(** What the state holds about [p] is the same in [g'] as in [g]: its entry
    on every shard, its quarantine and its expire time. *)
Record same_view (p : Z) (g g' : gossiper) : Prop := mk_same_view {
  sv_env : env g' = env g;
  sv_lookup : _endpoint_state_map g' !! p = _endpoint_state_map g !! p;
  sv_just_removed :
    _just_removed_endpoints g' !! p = _just_removed_endpoints g !! p;
  sv_expire_time :
    _expire_time_endpoint_map g' !! p = _expire_time_endpoint_map g !! p;
  sv_shards :
    Forall2 (fun m m' : gmap Z endpoint_state => m' !! p = m !! p)
      (other_shards g) (other_shards g')
}.

(** The test of [do_status_check] for a fat client that has been silent for
    too long, and its test for a dead state to remove. *)
Definition is_silent_fat_client (now0 : Z) (g : gossiper) (endpoint : Z)
    (ep_state : endpoint_state) : bool :=
  is_gossip_only_member endpoint g
  && negb (bool_decide (is_Some (_just_removed_endpoints g !! endpoint)))
  && (now0 - get_update_timestamp ep_state >? fat_client_timeout g).

Definition is_expired_dead (now0 : Z) (g : gossiper) (endpoint : Z)
    (ep_state : endpoint_state) : bool :=
  negb (is_alive_bit ep_state)
  && (now0 >? get_expire_time_for_endpoint endpoint g)
  && negb (is_member endpoint g).

(** [p] has no entry on any shard and is quarantined since now. *)
Definition evicted (p : Z) (g : gossiper) : Prop :=
  _endpoint_state_map g !! p = None /\
  Forall (fun m : gmap Z endpoint_state => m !! p = None) (other_shards g) /\
  _just_removed_endpoints g !! p = Some (now (env g)).

(** Peer 8 is a fat client: known as NORMAL, not a ring member, last heard
    of at time 0; the clock stands at 100000. *)
Definition sample_fat_client : gossiper :=
  sample_synced (<[8 := sample_state 800 2 "NORMAL" 1 true]> sample_local_only).

(** ** Merging the application states of one generation *)

(** What a merge of [remote] into [a] may leave in [a']: every application
    state of [a] is still there, at its version or a higher one, and what
    [a'] holds it has from [a] or from [remote]. *)
Definition versions_raised
    (remote a a' : gmap application_state versioned_value) : Prop :=
  (forall key v, a !! key = Some v ->
     exists v', a' !! key = Some v' /\ version v <= version v') /\
  (forall key v', a' !! key = Some v' ->
     a !! key = Some v' \/ remote !! key = Some v').

(** [a'] holds every key of [remote], at the version of [remote] or a higher
    one. *)
Definition covers (remote a' : gmap application_state versioned_value)
    : Prop :=
  forall key rv, remote !! key = Some rv ->
    exists v', a' !! key = Some v' /\ version rv <= version v'.

(** The body of the merging loops of [do_apply_state_locally] and
    [apply_new_states]. *)
Definition merge_entry (local_state : endpoint_state)
    (item : application_state * versioned_value) : endpoint_state :=
  match get_application_state_ptr local_state item.1 with
  | Some local_value =>
      if version item.2 >? version local_value
      then add_application_state item.1 item.2 local_state
      else local_state
  | None => add_application_state item.1 item.2 local_state
  end.

(** ** Refreshing the timestamps of the nodes of a message *)

(** The test of [update_timestamp_for_nodes]: the remote state is of a newer
    generation, or of the same generation with a heartbeat version above
    every version held locally. *)
Definition is_newer_heart_beat (remote_endpoint_state
    local_endpoint_state : endpoint_state) : bool :=
  let local_generation :=
    get_generation (get_heart_beat_state local_endpoint_state) in
  let remote_generation :=
    get_generation (get_heart_beat_state remote_endpoint_state) in
  if remote_generation >? local_generation then true
  else if remote_generation =? local_generation then
    get_heart_beat_version (get_heart_beat_state remote_endpoint_state) >?
    get_max_endpoint_state_version local_endpoint_state
  else false.

(** The entry [update_timestamp_for_nodes] leaves for an endpoint of the
    message. *)
Definition refresh_timestamp (now0 : Z) (remote_endpoint_state
    local_endpoint_state : endpoint_state) : endpoint_state :=
  if is_newer_heart_beat remote_endpoint_state local_endpoint_state
  then update_timestamp now0 local_endpoint_state
  else local_endpoint_state.

(** The body of the loop of [update_timestamp_for_nodes], as a function of
    the map alone. *)
Definition refresh_entry (now0 : Z) (m : gmap Z endpoint_state)
    (x : Z * endpoint_state) : gmap Z endpoint_state :=
  match m !! x.1 with
  | None => m
  | Some local_endpoint_state =>
      if is_newer_heart_beat x.2 local_endpoint_state
      then <[x.1 := update_timestamp now0 local_endpoint_state]> m
      else m
  end.

(** Peer 7 is known as NORMAL and not alive, unreachable since time 5, and
    its handshake is pending. *)
Definition sample_handshake_pending : gossiper :=
  set_pending_mark_alive_endpoints {[7]}
    (set_unreachable_endpoints {[7 := 5]}
       (sample_gossiper false sample_with_peer)).

(** ** Removing a node for good *)

(** [add_expire_time_for_endpoint(endpoint, expire_time)]. *)
Definition add_expire_time_for_endpoint (endpoint : Z) (expire_time : Z)
    (g : gossiper) : gossiper :=
  set_expire_time_endpoint_map
    (<[endpoint := expire_time]> (_expire_time_endpoint_map g)) g.

(** [advertise_token_removed(endpoint, host_id)], up to its closing sleep;
    [None] is the exception of [get_endpoint_state] for an endpoint without
    a state. Modelled from the spec: the text of
    [versioned_value::removed_nonlocal] ([gms/versioned_value.hh], not
    among the sources) is the status [REMOVED_TOKEN], the host id and the
    expire time, separated by commas; [to_sstring] prints the expire time. *)
Definition advertise_token_removed (to_sstring : Z -> string) (endpoint : Z)
    (host_id : string) (g : gossiper) : option gossiper :=
  match get_endpoint_state_for_endpoint_ptr endpoint g with
  | None => None
  | Some eps =>
      let eps := update_timestamp (now (env g)) eps in
      let eps := force_newer_generation_unsafe
                   (get_generation_number (env g)) eps in
      let expire_time := compute_expire_time g in
      let '(v, g) := versioned_value_with_next_version
                       (REMOVED_TOKEN ++ "," ++ host_id ++ "," ++
                        to_sstring expire_time) g in
      let eps := add_application_state STATUS v eps in
      let g := add_expire_time_for_endpoint endpoint expire_time g in
      let g := set_endpoint_state_map
                 (<[endpoint := eps]> (_endpoint_state_map g)) g in
      Some (replicate endpoint eps g)
  end.

(** A printer of times for the samples; the statements hold for any. *)
Definition sample_to_sstring (z : Z) : string := "0".

(** ** Assassinating an endpoint *)

(** What [assassinate_endpoint] holds when it goes to sleep: the state it
    will announce and, for an endpoint that has a state, the generation and
    the heartbeat version it expects to find again. *)
Record assassination : Type := mk_assassination {
  victim_state : endpoint_state;
  victim_tokens : string;
  victim_seen : option (Z * Z)
}.

(** [assassinate_endpoint(address)] up to its first sleep; [None] is the
    exception "Unable to calculate tokens" for a known endpoint without
    tokens. The generation of an endpoint without a state is the clock plus
    60 seconds, in seconds, as an [int]. *)
Definition assassinate_endpoint_prepare (endpoint : Z) (g : gossiper)
    : option assassination :=
  let es := get_endpoint_state_for_endpoint_ptr endpoint g in
  let now0 := now (env g) in
  let gen := wrap32 (Z.quot (now0 + 60 * 1000) 1000) in
  let ver := 9999 in
  let ep_state :=
    match es with
    | Some es => es
    | None => endpoint_state_of_heart_beat now0 (mk_heart_beat_state gen ver)
    end in
  match es with
  | Some _ =>
      match token_metadata_tokens (env g) endpoint with
      | None => None
      | Some tokens =>
          let generation := get_generation (get_heart_beat_state ep_state) in
          let heartbeat :=
            get_heart_beat_version (get_heart_beat_state ep_state) in
          Some (mk_assassination ep_state tokens (Some (generation, heartbeat)))
      end
  | None => Some (mk_assassination ep_state "" None)
  end.

(** The check [assassinate_endpoint] makes when it resumes in the state [g]
    it then finds (for an endpoint without a state there is no sleep, and no
    check); [None] is the exception "Endpoint still alive". A victim that
    passes has its timestamp updated and its generation forced. *)
Definition assassinate_endpoint_recheck (endpoint : Z) (a : assassination)
    (g : gossiper) : option endpoint_state :=
  match victim_seen a with
  | Some (generation, heartbeat) =>
      let unchanged :=
        match get_endpoint_state_for_endpoint_ptr endpoint g with
        | None => true
        | Some new_state =>
            if negb (get_generation (get_heart_beat_state new_state)
                     =? generation) then false
            else if negb (get_heart_beat_version
                            (get_heart_beat_state new_state) =? heartbeat)
                 then false
                 else true
        end in
      if unchanged then
        let ep_state := update_timestamp (now (env g)) (victim_state a) in
        Some (force_newer_generation_unsafe
                (get_generation_number (env g)) ep_state)
      else None
  | None => Some (victim_state a)
  end.

(** [assassinate_endpoint(address)] from the point where it resumes, up to
    its closing sleep. Modelled from the spec: the text of
    [versioned_value::left] ([gms/versioned_value.hh], not among the
    sources) is the status [STATUS_LEFT], the tokens and the expire time,
    separated by commas. *)
Definition assassinate_endpoint_resume (to_sstring : Z -> string)
    (endpoint : Z) (a : assassination) (g : gossiper) : option gossiper :=
  match assassinate_endpoint_recheck endpoint a g with
  | None => None
  | Some ep_state =>
      let expire_time := compute_expire_time g in
      let '(v, g) := versioned_value_with_next_version
                       (STATUS_LEFT ++ "," ++ victim_tokens a ++ "," ++
                        to_sstring expire_time) g in
      let ep_state := add_application_state STATUS v ep_state in
      Some (handle_major_state_change endpoint ep_state g)
  end.

(** ** Local application states and their versions *)

(** The values [add_local_application_state] stores for [states] when the
    version generator stands at [first]: the texts given, with the versions
    that follow [first], in the order of the list. *)
Definition with_fresh_versions (first : Z)
    (states : list (application_state * versioned_value))
    : list (application_state * versioned_value) :=
  imap (fun i (p : application_state * versioned_value) =>
          (p.1, mk_versioned_value (value p.2) (first + Z.of_nat i + 1)))
    states.

(** ** Stopping gossip *)

Definition set_enabled (b : bool) (g : gossiper) : gossiper :=
  mk_gossiper (env g) b (_in_shadow_round g) (version_generator g)
    (_endpoint_state_map g) (other_shards g) (_live_endpoints g)
    (_live_endpoints_version g) (_unreachable_endpoints g)
    (_just_removed_endpoints g) (_expire_time_endpoint_map g) (_seeds g)
    (_pending_mark_alive_endpoints g) (_endpoints_to_talk_with g)
    (_syn_handlers g) (_ack_handlers g) (_msg_processing g) (trace g).

(** [is_silent_shutdown_state(ep_state)]. [SILENT_SHUTDOWN_STATES] is
    declared in [gms/gossiper.hh], which is not among the sources; it is an
    argument here. *)
Definition is_silent_shutdown_state (SILENT_SHUTDOWN_STATES : list string)
    (ep_state : endpoint_state) : bool :=
  let state := get_gossip_status ep_state in
  existsb (fun deadstate => String.eqb state deadstate)
    SILENT_SHUTDOWN_STATES.

(** [get_live_members()]. *)
Definition get_live_members (g : gossiper) : gset Z :=
  let live_members : gset Z := list_to_set (_live_endpoints g) in
  let myip := get_broadcast_address (env g) in
  let live_members := live_members ∪ {[myip]} in
  if is_shutdown myip g then live_members ∖ {[myip]} else live_members.

(** A GossipShutdown message as [send_gossip_shutdown(id, from,
    generation)] sends it. *)
Record gossip_shutdown : Type := mk_gossip_shutdown {
  shutdown_to : Z;
  shutdown_from : Z;
  shutdown_generation : Z
}.

(** [do_stop_gossiping()]; returns the GossipShutdown messages sent, in the
    order of sending. A send that fails is logged and changes nothing
    else. *)
Definition do_stop_gossiping (SILENT_SHUTDOWN_STATES : list string)
    (g : gossiper) : list gossip_shutdown * gossiper :=
  if negb (is_enabled g) then ([], g)
  else
    let my_ep_state :=
      get_endpoint_state_for_endpoint_ptr (get_broadcast_address (env g)) g in
    let '(sent, g) :=
      match my_ep_state with
      | Some my_ep_state =>
          if negb (is_silent_shutdown_state SILENT_SHUTDOWN_STATES my_ep_state)
          then
            let local_generation :=
              get_generation (get_heart_beat_state my_ep_state) in
            let '(v, g) := versioned_value_shutdown g in
            let g := add_local_application_state [(STATUS, v)] g in
            let live_endpoints := _live_endpoints g in
            (map (fun addr =>
                    mk_gossip_shutdown addr (get_broadcast_address (env g))
                      local_generation) live_endpoints, g)
          else ([], g)
      | None => ([], g)
      end in
    (sent, set_enabled false g).

(** ** Starting gossip *)

(** [start_gossiping(generation_nbr, preload_local_states, advertise)], on
    shard 0; [force_gossip_generation] is the configuration value of that
    name. The pinger and the advertising flags live beside the gossiper
    state. Modelled from the spec: [heart_beat_state(generation)] starts at
    version 0 ([gms/heart_beat_state.hh], not among the sources). *)
Definition start_gossiping (force_gossip_generation : Z) (generation_nbr : Z)
    (preload_local_states : gmap application_state versioned_value)
    (advertise : bool) (a : advertising) (p : direct_fd_pinger) (g : gossiper)
    : advertising * direct_fd_pinger * gossiper :=
  let a := if negb advertise
           then mk_advertising false (_advertise_to_nodes a) else a in
  let g := build_seeds_list g in
  let generation_nbr :=
    if force_gossip_generation >? 0 then force_gossip_generation
    else generation_nbr in
  let ep := get_broadcast_address (env g) in
  let local_state := at_or_default (now (env g)) ep (_endpoint_state_map g) in
  let local_state :=
    set_heart_beat_state_and_update_timestamp
      (mk_heart_beat_state generation_nbr 0) (now (env g)) local_state in
  let local_state := set_alive true local_state in
  let local_state := add_all (map_to_list preload_local_states) local_state in
  let g := set_endpoint_state_map
             (<[ep := local_state]> (_endpoint_state_map g)) g in
  let g := replicate ep local_state g in
  let g := set_enabled true g in
  let p := update_generation_number generation_nbr p in
  (a, p, g).

(** ** Features common to the cluster *)

(** [get_supported_features(endpoint)]. [feature_service::to_feature_set]
    is declared in [gms/feature_service.hh], which is not among the
    sources; it is an argument here. *)
Definition get_supported_features_of (to_feature_set : string -> gset string)
    (endpoint : Z) (g : gossiper) : gset string :=
  match get_application_state_ptr_of endpoint SUPPORTED_FEATURES g with
  | None => ∅
  | Some app_state => to_feature_set (value app_state)
  end.

(** The first loop of [get_supported_features(loaded_peer_features,
    ignore_local_node)]: the saved features that are not empty. *)
Definition loaded_features_step (to_feature_set : string -> gset string)
    (features_map : gmap Z (gset string)) (x : Z * string)
    : gmap Z (gset string) :=
  let features := to_feature_set x.2 in
  if bool_decide (features = ∅) then features_map
  else emplace x.1 features features_map.

(** Its second loop: the features an endpoint gossips replace the saved
    ones. *)
Definition live_features_step (to_feature_set : string -> gset string)
    (ignore_local_node : bool) (g : gossiper)
    (features_map : gmap Z (gset string)) (x : Z * endpoint_state)
    : gmap Z (gset string) :=
  let endpoint := x.1 in
  let features := get_supported_features_of to_feature_set endpoint g in
  if ignore_local_node && bool_decide (endpoint = get_broadcast_address (env g))
  then features_map
  else if bool_decide (features = ∅) then features_map
  else <[endpoint := features]> features_map.

Definition features_map_of (to_feature_set : string -> gset string)
    (loaded_peer_features : gmap Z string) (ignore_local_node : bool)
    (g : gossiper) : gmap Z (gset string) :=
  let features_map :=
    fold_left (loaded_features_step to_feature_set)
      (map_to_list loaded_peer_features) ∅ in
  let features_map :=
    fold_left (live_features_step to_feature_set ignore_local_node g)
      (map_to_list (_endpoint_state_map g)) features_map in
  if ignore_local_node
  then delete (get_broadcast_address (env g)) features_map
  else features_map.

(** [get_supported_features(loaded_peer_features, ignore_local_node)]. *)
Definition get_supported_features (to_feature_set : string -> gset string)
    (loaded_peer_features : gmap Z string) (ignore_local_node : bool)
    (g : gossiper) : gset string :=
  let features_map :=
    features_map_of to_feature_set loaded_peer_features ignore_local_node g in
  let common_features : gset string :=
    match map_to_list features_map with
    | [] => ∅
    | x :: _ => x.2
    end in
  let common_features :=
    fold_left (fun (common_features : gset string) (x : Z * gset string) =>
                 x.2 ∩ common_features)
      (map_to_list features_map) common_features in
  common_features ∖ {[""%string]}.

(** [check_knows_remote_features(local_features, loaded_peer_features)];
    [false] is the exception "Feature check failed". *)
Definition check_knows_remote_features
    (to_feature_set : string -> gset string) (local_features : gset string)
    (loaded_peer_features : gmap Z string) (g : gossiper) : bool :=
  let common_features :=
    get_supported_features to_feature_set loaded_peer_features true g in
  bool_decide (common_features ⊆ local_features).

(** The features counted for an endpoint: those it gossips, if any; else
    those saved for it, if any; none for the local node when it is to be
    ignored. *)
Definition counted_features (to_feature_set : string -> gset string)
    (loaded_peer_features : gmap Z string) (ignore_local_node : bool)
    (g : gossiper) (endpoint : Z) : option (gset string) :=
  if ignore_local_node && bool_decide (endpoint = get_broadcast_address (env g))
  then None
  else
    let live := get_supported_features_of to_feature_set endpoint g in
    if bool_decide (live = ∅) then
      match loaded_peer_features !! endpoint with
      | Some saved =>
          if bool_decide (to_feature_set saved = ∅) then None
          else Some (to_feature_set saved)
      | None => None
      end
    else Some live.

(** A feature set reader for the samples: one feature per string, none for
    the empty string. *)
Definition sample_to_feature_set (s : string) : gset string :=
  if String.eqb s "" then ∅ else {[s]}.

(** ** The failure detector loop of a node *)

(** What one round of [failure_detector_loop_for_node] observes:
    [is_enabled()] at the head of the loop, whether [send_gossip_echo]
    threw, [clk::now()] after the echo, and [_live_endpoints_version] after
    the echo. *)
Record echo_round : Type := mk_echo_round {
  round_enabled : bool;
  round_failed : bool;
  round_now : Z;
  round_live_endpoints_version : Z
}.

(** How the loop ends: gossip was disabled, the node was convicted, the live
    endpoints changed, or the rounds observed so far leave it running with
    [last] as the time of the last echo that succeeded. *)
Inductive loop_end : Type :=
| loop_disabled
| loop_convicted
| loop_live_endpoints_changed
| loop_running (last : Z).

(** [failure_detector_loop_for_node(node, gossip_generation,
    live_endpoints_version)] from a loop head with [last], over the rounds
    observed; [failure_detector_timeout_ms] is the configuration value of
    that name, times are in milliseconds. A sleep that is aborted throws
    and ends the loop: the rounds observed end there. *)
Fixpoint failure_detector_loop_for_node_from (failure_detector_timeout_ms : Z)
    (live_endpoints_version : Z) (last : Z) (rounds : list echo_round)
    : loop_end :=
  let echo_interval := 2000 in
  let max_duration := echo_interval + failure_detector_timeout_ms in
  match rounds with
  | [] => loop_running last
  | r :: rounds =>
      if negb (round_enabled r) then loop_disabled
      else
        let failed := round_failed r in
        let now := round_now r in
        let diff := now - last in
        let last := if negb failed then now else last in
        if diff >? max_duration then loop_convicted
        else if negb (round_live_endpoints_version r =? live_endpoints_version)
             then loop_live_endpoints_changed
             else failure_detector_loop_for_node_from
                    failure_detector_timeout_ms live_endpoints_version last
                    rounds
  end.

(** The time of the last echo that succeeded in [rounds], [last] if none
    did. *)
Definition last_success (last : Z) (rounds : list echo_round) : Z :=
  fold_left (fun last r => if round_failed r then last else round_now r)
    rounds last.

(** A round after which the loop goes on: gossip enabled, the echo back
    within [max_duration] of the last success, the live endpoints as they
    were. *)
Definition round_passes (failure_detector_timeout_ms live_endpoints_version : Z)
    (last : Z) (r : echo_round) : Prop :=
  round_enabled r = true /\
  round_now r - last <= 2000 + failure_detector_timeout_ms /\
  round_live_endpoints_version r = live_endpoints_version.

(** * Properties *)

(** ** The calls between [convict] and [mark_as_shutdown] return *)

Lemma mark_dead_lookup (addr : Z) (g : gossiper) :
  _endpoint_state_map (mark_dead addr g) !! addr =
  set_alive false <$> (_endpoint_state_map g !! addr).
Proof.
  unfold mark_dead, get_endpoint_state_for_endpoint_ptr.
  destruct (_endpoint_state_map g !! addr) as [st|] eqn:E; simpl.
  - by rewrite lookup_insert_eq.
  - by rewrite E.
Qed.

Lemma convict_fuel_not_alive (fuel : nat) (endpoint : Z) (g : gossiper) :
  (forall st, _endpoint_state_map g !! endpoint = Some st ->
              is_alive_bit st = false) ->
  convict_fuel (S fuel) endpoint g = Some g.
Proof.
  intros H. simpl. unfold get_endpoint_state_for_endpoint_ptr.
  destruct (_endpoint_state_map g !! endpoint) as [st|] eqn:E; [|done].
  by rewrite (H st eq_refl).
Qed.

Lemma mark_as_shutdown_fuel_enough (fuel : nat) (endpoint : Z) (g : gossiper) :
  mark_as_shutdown_fuel (S fuel) endpoint g = Some (mark_as_shutdown endpoint g).
Proof.
  unfold mark_as_shutdown, mark_as_shutdown_fuel, mark_as_shutdown_body.
  destruct (get_endpoint_state_for_endpoint_ptr endpoint g) as [st|]; [|done].
  unfold versioned_value_shutdown, get_next_version. cbv zeta iota beta.
  rewrite !convict_fuel_not_alive; [done| |];
    intros st'; rewrite mark_dead_lookup; simpl; rewrite lookup_insert_eq;
    simpl; by intros [= <-].
Qed.

Lemma convict_fuel_enough (fuel : nat) (endpoint : Z) (g : gossiper) :
  convict_fuel (S (S fuel)) endpoint g = Some (convict endpoint g).
Proof.
  unfold convict.
  change (convict_fuel 2 endpoint g) with
    (match get_endpoint_state_for_endpoint_ptr endpoint g with
     | None => Some g
     | Some state =>
         if negb (is_alive_bit state) then Some g
         else if is_shutdown endpoint g
              then mark_as_shutdown_fuel 1 endpoint g
              else Some (mark_dead endpoint g)
     end).
  change (convict_fuel (S (S fuel)) endpoint g) with
    (match get_endpoint_state_for_endpoint_ptr endpoint g with
     | None => Some g
     | Some state =>
         if negb (is_alive_bit state) then Some g
         else if is_shutdown endpoint g
              then mark_as_shutdown_fuel (S fuel) endpoint g
              else Some (mark_dead endpoint g)
     end).
  destruct (get_endpoint_state_for_endpoint_ptr endpoint g) as [st|]; [|done].
  destruct (negb (is_alive_bit st)); [done|].
  destruct (is_shutdown endpoint g); [|done].
  by rewrite !mark_as_shutdown_fuel_enough.
Qed.

(** [convict], unfolded once. *)
Lemma convict_unfold (endpoint : Z) (g : gossiper) :
  convict endpoint g =
  match get_endpoint_state_for_endpoint_ptr endpoint g with
  | None => g
  | Some state =>
      if negb (is_alive_bit state) then g
      else if is_shutdown endpoint g then mark_as_shutdown endpoint g
           else mark_dead endpoint g
  end.
Proof.
  unfold convict.
  change (convict_fuel 2 endpoint g) with
    (match get_endpoint_state_for_endpoint_ptr endpoint g with
     | None => Some g
     | Some state =>
         if negb (is_alive_bit state) then Some g
         else if is_shutdown endpoint g
              then mark_as_shutdown_fuel 1 endpoint g
              else Some (mark_dead endpoint g)
     end).
  destruct (get_endpoint_state_for_endpoint_ptr endpoint g) as [st|]; [|done].
  destruct (negb (is_alive_bit st)); [done|].
  destruct (is_shutdown endpoint g); [|done].
  by rewrite mark_as_shutdown_fuel_enough.
Qed.

(** [mark_as_shutdown], with the call of [convict] that ends it. *)
Lemma mark_as_shutdown_unfold (endpoint : Z) (g : gossiper) :
  mark_as_shutdown endpoint g =
  match get_endpoint_state_for_endpoint_ptr endpoint g with
  | Some ep_state =>
      let '(v, g) := versioned_value_shutdown g in
      let ep_state := add_application_state STATUS v ep_state in
      let ep_state := force_highest_possible_version_unsafe ep_state in
      let g := set_endpoint_state_map
                 (<[endpoint := ep_state]> (_endpoint_state_map g)) g in
      let g := replicate endpoint ep_state g in
      let g := mark_dead endpoint g in
      convict endpoint g
  | None => g
  end.
Proof.
  pose proof (mark_as_shutdown_fuel_enough 1 endpoint g) as H.
  unfold mark_as_shutdown_fuel, mark_as_shutdown_body in H.
  destruct (get_endpoint_state_for_endpoint_ptr endpoint g) as [st|].
  - unfold versioned_value_shutdown, get_next_version in *.
    cbv zeta iota beta in *. rewrite convict_fuel_enough in H. congruence.
  - congruence.
Qed.

(** ** Which messages count for the settle wait *)

Lemma is_noise_key_false (key : application_state) :
  negb (is_noise_key key) = true <->
  key <> LOAD /\ key <> VIEW_BACKLOG /\ key <> CACHE_HITRATES.
Proof. destruct key; simpl; split; try done; intros (? & ? & ?); done. Qed.

(** ** Conviction *)

Lemma convict_noop (p : Z) (g : gossiper) :
  absent_or_not_alive p g -> convict p g = g.
Proof.
  intros H. rewrite convict_unfold. unfold get_endpoint_state_for_endpoint_ptr.
  destruct (_endpoint_state_map g !! p) as [st|] eqn:E; [|done].
  by rewrite (H st E).
Qed.

Lemma mark_dead_not_alive (p : Z) (g : gossiper) :
  absent_or_not_alive p (mark_dead p g).
Proof.
  intros st. rewrite mark_dead_lookup.
  destruct (_endpoint_state_map g !! p); simpl; [|done]. by intros [= <-].
Qed.

Lemma mark_dead_trace (p : Z) (g : gossiper) (st : endpoint_state) :
  _endpoint_state_map g !! p = Some st ->
  trace (mark_dead p g) = trace g ++ [on_dead p (set_alive false st)].
Proof.
  intros E. unfold mark_dead, get_endpoint_state_for_endpoint_ptr.
  by rewrite E.
Qed.

Lemma mark_as_shutdown_present (p : Z) (g : gossiper) (st : endpoint_state) :
  _endpoint_state_map g !! p = Some st ->
  absent_or_not_alive p (mark_as_shutdown p g) /\
  exists st', trace (mark_as_shutdown p g) = trace g ++ [on_dead p st'].
Proof.
  intros E. rewrite mark_as_shutdown_unfold.
  unfold get_endpoint_state_for_endpoint_ptr. rewrite E.
  unfold versioned_value_shutdown, get_next_version. cbv zeta iota beta.
  rewrite convict_noop by apply mark_dead_not_alive.
  split; [apply mark_dead_not_alive|].
  eexists. erewrite mark_dead_trace; [reflexivity|].
  simpl. apply lookup_insert_eq.
Qed.

Lemma convict_not_alive_after (p : Z) (g : gossiper) :
  absent_or_not_alive p (convict p g).
Proof.
  rewrite convict_unfold. unfold get_endpoint_state_for_endpoint_ptr.
  destruct (_endpoint_state_map g !! p) as [st|] eqn:E.
  - destruct (is_alive_bit st) eqn:A; simpl.
    + destruct (is_shutdown p g).
      * by apply (mark_as_shutdown_present p g st).
      * apply mark_dead_not_alive.
    + intros st'. rewrite E. by intros [= <-].
  - intros st'. by rewrite E.
Qed.

Lemma on_dead_count_app (p : Z) (tr1 tr2 : list event) :
  on_dead_count p (tr1 ++ tr2) = (on_dead_count p tr1 + on_dead_count p tr2)%nat.
Proof. unfold on_dead_count. by rewrite List.filter_app, length_app. Qed.

Lemma on_dead_count_single (p : Z) (st : endpoint_state) :
  on_dead_count p [on_dead p st] = 1%nat.
Proof.
  unfold on_dead_count. cbn [List.filter is_on_dead_of].
  by rewrite Z.eqb_refl.
Qed.

Lemma convict_on_dead_once (p : Z) (g : gossiper) :
  (on_dead_count p (trace (convict p g)) <= on_dead_count p (trace g) + 1)%nat.
Proof.
  rewrite convict_unfold. unfold get_endpoint_state_for_endpoint_ptr.
  destruct (_endpoint_state_map g !! p) as [st|] eqn:E; [|lia].
  destruct (negb (is_alive_bit st)); [lia|].
  destruct (is_shutdown p g).
  - destruct (mark_as_shutdown_present p g st E) as [_ [st' ->]].
    rewrite on_dead_count_app, on_dead_count_single. lia.
  - rewrite (mark_dead_trace p g st E), on_dead_count_app,
      on_dead_count_single. lia.
Qed.

Lemma convict_on_dead_alive (p : Z) (g : gossiper) (st : endpoint_state) :
  _endpoint_state_map g !! p = Some st -> is_alive_bit st = true ->
  on_dead_count p (trace (convict p g)) = S (on_dead_count p (trace g)).
Proof.
  intros E Ha. rewrite convict_unfold.
  unfold get_endpoint_state_for_endpoint_ptr. rewrite E, Ha. simpl.
  destruct (is_shutdown p g).
  - destruct (mark_as_shutdown_present p g st E) as [_ [st' ->]].
    rewrite on_dead_count_app, on_dead_count_single. lia.
  - rewrite (mark_dead_trace p g st E), on_dead_count_app,
      on_dead_count_single. lia.
Qed.

(** C10, as it holds. [convict(p)] leaves the whole state of the gossiper
    as it is, and so calls no subscriber, when [p] has no entry in
    [endpoint_state_map] or its entry is not alive. When the entry is alive
    the conviction fires [on_dead] for [p] exactly once and leaves it not
    alive. Consequently, however often [p] is convicted in a row, the
    convictions fire [on_dead] for it at most once: the first leaves it not
    alive and the later ones do nothing. *)
Theorem convict_frame (p : Z) (g : gossiper) :
  (absent_or_not_alive p g -> convict p g = g) /\
  (forall st, _endpoint_state_map g !! p = Some st -> is_alive_bit st = true ->
     on_dead_count p (trace (convict p g)) = S (on_dead_count p (trace g)) /\
     absent_or_not_alive p (convict p g)) /\
  (forall n : nat,
     (on_dead_count p (trace (Nat.iter n (convict p) g))
      <= on_dead_count p (trace g) + 1)%nat /\
     Nat.iter (S n) (convict p) g = convict p g).
Proof.
  split; [apply convict_noop|].
  split.
  { intros st E Ha.
    split; [by eapply convict_on_dead_alive|apply convict_not_alive_after]. }
  assert (Hiter : forall n, Nat.iter (S n) (convict p) g = convict p g).
  { induction n as [|n IH]; [done|].
    change (Nat.iter (S (S n)) (convict p) g)
      with (convict p (Nat.iter (S n) (convict p) g)).
    rewrite IH. apply convict_noop, convict_not_alive_after. }
  intros n. split; [|apply Hiter].
  destruct n as [|n]; [simpl; lia|].
  rewrite Hiter. apply convict_on_dead_once.
Qed.

Lemma convict_frame_witness :
  convict 7 (sample_gossiper false
               (<[7 := sample_state 900 3 "NORMAL" 2 false]> sample_local_only)) =
  sample_gossiper false
    (<[7 := sample_state 900 3 "NORMAL" 2 false]> sample_local_only).
Proof.
  apply (proj1 (convict_frame 7 _)).
  intros st Hst. vm_compute in Hst. by injection Hst as <-.
Defined.

(** C10, as stated, fails for the paths that mark an endpoint dead without
    asking whether it is alive: [mark_as_shutdown], called for a shutdown
    message, is one ([handle_major_state_change] for a state that arrives in
    a dead state is another). Peer 7 is alive and is convicted, which fires
    [on_dead] once and leaves it not alive; two shutdown messages then fire
    [on_dead] a second and a third time for the peer, whose entry has stayed
    not alive all along. *)
Lemma on_dead_fired_again_for_a_peer_that_is_down :
  let g0 := sample_gossiper false
              (<[7 := sample_state 900 3 "NORMAL" 2 true]> sample_local_only) in
  let g1 := convict 7 g0 in
  let g2 := mark_as_shutdown 7 g1 in
  let g3 := mark_as_shutdown 7 g2 in
  (is_alive 7 g0 = true /\ on_dead_count 7 (trace g0) = 0%nat) /\
  (is_alive 7 g1 = false /\ on_dead_count 7 (trace g1) = 1%nat) /\
  (is_alive 7 g2 = false /\ on_dead_count 7 (trace g2) = 2%nat) /\
  (is_alive 7 g3 = false /\ on_dead_count 7 (trace g3) = 3%nat).
Proof. cbv zeta. repeat split; vm_compute; reflexivity. Qed.

(** ** Generations too far ahead *)

(** C3, as it holds. For a peer that has an entry in [endpoint_state_map]:
    when the remote generation is more than [MAX_GENERATION_DIFFERENCE] ahead
    of the local clock ([utils::get_generation_number()]),
    [do_apply_state_locally] only logs a warning; the entry of the peer, and
    every other part of the state on every shard, stay as they are. *)
Theorem corrupt_generation_rejected (node : Z)
    (remote_state local_state : endpoint_state) (listener_notification : bool)
    (g : gossiper) :
  _endpoint_state_map g !! node = Some local_state ->
  get_generation (get_heart_beat_state remote_state) >
    get_generation_number (env g) + MAX_GENERATION_DIFFERENCE ->
  do_apply_state_locally node remote_state listener_notification g =
    emit (log_warn (invalid_gossip_generation node
                      (get_generation (get_heart_beat_state local_state))
                      (get_generation (get_heart_beat_state remote_state)))) g
  /\ _endpoint_state_map
       (do_apply_state_locally node remote_state listener_notification g)
     = _endpoint_state_map g
  /\ other_shards
       (do_apply_state_locally node remote_state listener_notification g)
     = other_shards g.
Proof.
  intros E Hgen.
  assert (Heq : do_apply_state_locally node remote_state listener_notification g =
    emit (log_warn (invalid_gossip_generation node
                      (get_generation (get_heart_beat_state local_state))
                      (get_generation (get_heart_beat_state remote_state)))) g).
  { unfold do_apply_state_locally, get_endpoint_state_for_endpoint_ptr.
    rewrite E. cbv zeta.
    destruct (Z.gtb_spec (get_generation (get_heart_beat_state remote_state))
                (get_generation_number (env g) + MAX_GENERATION_DIFFERENCE));
      [done|lia]. }
  by rewrite Heq.
Qed.

Lemma corrupt_generation_rejected_witness :
  _endpoint_state_map
    (do_apply_state_locally 7 (sample_state 1900000000 1 "NORMAL" 1 true) true
       (sample_gossiper false
          (<[7 := sample_state 900 3 "NORMAL" 2 true]> sample_local_only)))
  = _endpoint_state_map
      (sample_gossiper false
         (<[7 := sample_state 900 3 "NORMAL" 2 true]> sample_local_only)).
Proof.
  refine (proj1 (proj2 (corrupt_generation_rejected 7
            (sample_state 1900000000 1 "NORMAL" 1 true)
            (sample_state 900 3 "NORMAL" 2 true) true _ _ _))).
  - reflexivity.
  - vm_compute. reflexivity.
Defined.

(** C3, as stated, fails for a peer that has no entry yet: its state is taken
    over whatever its generation. Peer 9 is unknown and arrives with a
    generation 200 million seconds ahead of the local clock. *)
Lemma corrupt_generation_unknown_peer_accepted :
  let g := sample_gossiper false sample_local_only in
  let remote_state := sample_state 1900000000 1 "NORMAL" 1 true in
  get_generation (get_heart_beat_state remote_state) >
    get_generation_number (env g) + MAX_GENERATION_DIFFERENCE /\
  _endpoint_state_map g !! 9 = None /\
  get_generation <$> (get_heart_beat_state <$>
    (_endpoint_state_map (do_apply_state_locally 9 remote_state true g) !! 9))
  = Some 1900000000.
Proof. vm_compute. repeat split; reflexivity. Qed.

(** ** What [examine_gossiper] answers to a digest *)

Lemma add_all_heart_beat sel r :
  get_heart_beat_state (add_all sel r) = get_heart_beat_state r.
Proof.
  revert r. induction sel as [|e sel IH]; intros r; [done|].
  unfold add_all in *. simpl. by rewrite IH.
Qed.

Lemma add_all_lookup_notin sel r k :
  k ∉ sel.*1 ->
  get_application_state_map (add_all sel r) !! k =
  get_application_state_map r !! k.
Proof.
  revert r. induction sel as [|[k' v'] sel IH]; intros r Hk; [done|].
  unfold add_all in *. simpl in *.
  apply not_elem_of_cons in Hk as [Hne Hk].
  rewrite IH by done. simpl. by rewrite lookup_insert_ne.
Qed.

Lemma add_all_lookup_in sel r k v :
  NoDup sel.*1 -> (k, v) ∈ sel ->
  get_application_state_map (add_all sel r) !! k = Some v.
Proof.
  revert r. induction sel as [|[k' v'] sel IH]; intros r Hnd Hin.
  - by apply elem_of_nil in Hin.
  - simpl in Hnd. apply NoDup_cons in Hnd as [Hk' Hnd].
    apply elem_of_cons in Hin as [[= -> ->]|Hin].
    + change (add_all ((k', v') :: sel) r)
        with (add_all sel (add_application_state k' v' r)).
      rewrite add_all_lookup_notin by done. simpl. apply lookup_insert_eq.
    + change (add_all ((k', v') :: sel) r)
        with (add_all sel (add_application_state k' v' r)).
      by apply IH.
Qed.

Lemma bigger_than_fold_Some (now0 ver : Z) (hbs : heart_beat_state)
    (l : list (application_state * versioned_value)) (r : endpoint_state) :
  fold_left
    (fun (reqd : option endpoint_state)
         (entry : application_state * versioned_value) =>
       let value0 := entry.2 in
       if version value0 >? ver then
         let reqd := match reqd with
                     | None => endpoint_state_of_heart_beat now0 hbs
                     | Some r => r
                     end in
         Some (add_application_state entry.1 value0 reqd)
       else reqd) l (Some r) =
  Some (add_all (List.filter (fun e => version e.2 >? ver) l) r).
Proof.
  revert r. induction l as [|e l IH]; intros r; [done|].
  simpl. destruct (version e.2 >? ver); simpl; by rewrite IH.
Qed.

Lemma bigger_than_fold_None (now0 ver : Z) (hbs : heart_beat_state)
    (l : list (application_state * versioned_value)) :
  fold_left
    (fun (reqd : option endpoint_state)
         (entry : application_state * versioned_value) =>
       let value0 := entry.2 in
       if version value0 >? ver then
         let reqd := match reqd with
                     | None => endpoint_state_of_heart_beat now0 hbs
                     | Some r => r
                     end in
         Some (add_application_state entry.1 value0 reqd)
       else reqd) l None =
  match List.filter (fun e => version e.2 >? ver) l with
  | [] => None
  | sel => Some (add_all sel (endpoint_state_of_heart_beat now0 hbs))
  end.
Proof.
  induction l as [|e l IH]; [done|].
  simpl. destruct (version e.2 >? ver); simpl; [|done].
  by rewrite bigger_than_fold_Some.
Qed.

Lemma max_version_fold_gt (ver : Z)
    (l : list (application_state * versioned_value)) (init : Z) :
  fold_left (fun max_version (entry : application_state * versioned_value) =>
               Z.max max_version (version entry.2)) l init > ver <->
  init > ver \/ exists e, e ∈ l /\ version e.2 > ver.
Proof.
  revert init. induction l as [|e l IH]; intros init; simpl.
  - split; [by left|]. intros [?|(e & He & _)]; [done|].
    by apply elem_of_nil in He.
  - rewrite IH. split.
    + intros [H|(e' & He' & Hv)].
      * destruct (Z.max_spec init (version e.2)) as [[_ Hm]|[_ Hm]];
          rewrite Hm in H; [right; exists e; split; [left|done]|by left].
      * right. exists e'. split; [by right|done].
    + intros [H|(e' & He' & Hv)]; [left; lia|].
      apply elem_of_cons in He' as [->|He']; [left; lia|].
      right. by exists e'.
Qed.

Lemma get_max_endpoint_state_version_gt (eps : endpoint_state) (ver : Z) :
  get_max_endpoint_state_version eps > ver <->
  get_heart_beat_version (get_heart_beat_state eps) > ver \/
  exists k v, get_application_state_map eps !! k = Some v /\ version v > ver.
Proof.
  unfold get_max_endpoint_state_version. rewrite max_version_fold_gt.
  split; (intros [H|H]; [by left|right]).
  - destruct H as ([k v] & Hin & Hv). apply elem_of_map_to_list in Hin.
    by exists k, v.
  - destruct H as (k & v & Hin & Hv). exists (k, v).
    by rewrite elem_of_map_to_list.
Qed.

(** [get_state_for_version_bigger_than] returns the delta above [ver] when
    the maximal version of the entry is above [ver], and nothing otherwise. *)
Lemma get_state_for_version_bigger_than_spec (ep ver : Z) (g : gossiper)
    (eps : endpoint_state) :
  _endpoint_state_map g !! ep = Some eps ->
  (get_max_endpoint_state_version eps > ver ->
   exists r, get_state_for_version_bigger_than ep ver g = Some r /\
             is_delta_above eps ver r) /\
  (get_max_endpoint_state_version eps <= ver ->
   get_state_for_version_bigger_than ep ver g = None).
Proof.
  intros E. unfold get_state_for_version_bigger_than,
    get_endpoint_state_for_endpoint_ptr. rewrite E. cbv zeta.
  set (l := map_to_list (get_application_state_map eps)).
  set (sel := List.filter (fun e : application_state * versioned_value =>
                             version e.2 >? ver) l).
  assert (Hnd : NoDup sel.*1).
  { assert (Hsub : sel `sublist_of` l).
    { subst sel. clear. induction l as [|e l IH]; simpl.
      - constructor.
      - destruct (version e.2 >? ver); by constructor. }
    apply (sublist_NoDup _ (l.*1)); [apply NoDup_fst_map_to_list|].
    by apply fmap_sublist. }
  assert (Hsel : forall k v, (k, v) ∈ sel <->
            get_application_state_map eps !! k = Some v /\ version v > ver).
  { intros k v. subst sel l. rewrite list_elem_of_In, filter_In,
      <- list_elem_of_In, elem_of_map_to_list. simpl.
    rewrite Z.gtb_gt. tauto. }
  assert (Hdelta : forall r0, get_application_state_map r0 = ∅ ->
            get_heart_beat_state r0 = get_heart_beat_state eps ->
            is_delta_above eps ver (add_all sel r0)).
  { intros r0 Hr0 Hhb. split; [by rewrite add_all_heart_beat|].
    intros k v. rewrite <- Hsel. split.
    - intros Hlk. destruct (decide (k ∈ sel.*1)) as [Hin|Hnin].
      + apply list_elem_of_fmap in Hin as ([k' v'] & -> & Hin). simpl in *.
        by rewrite (add_all_lookup_in _ _ _ _ Hnd Hin) in Hlk;
          injection Hlk as ->.
      + rewrite add_all_lookup_notin, Hr0 in Hlk by done. done.
    - by apply add_all_lookup_in. }
  split.
  - intros Hmax. apply get_max_endpoint_state_version_gt in Hmax.
    destruct (Z.gtb_spec (get_heart_beat_version (get_heart_beat_state eps)) ver)
      as [Hhb|Hhb].
    + rewrite bigger_than_fold_Some. eexists. split; [reflexivity|].
      by apply Hdelta.
    + rewrite bigger_than_fold_None. fold l. fold sel.
      destruct Hmax as [?|(k & v & Hk)]; [lia|].
      apply Hsel in Hk. destruct sel as [|e sel'] eqn:Esel.
      * by apply elem_of_nil in Hk.
      * eexists. split; [reflexivity|]. by apply Hdelta.
  - intros Hmax.
    assert (Hn : ~ get_max_endpoint_state_version eps > ver) by lia.
    rewrite get_max_endpoint_state_version_gt in Hn.
    destruct (Z.gtb_spec (get_heart_beat_version (get_heart_beat_state eps)) ver)
      as [Hhb|Hhb]; [exfalso; apply Hn; left; lia|].
    rewrite bigger_than_fold_None. fold l. fold sel.
    destruct sel as [|[k v] sel'] eqn:Esel; [done|].
    exfalso. apply Hn. right. exists k, v. apply Hsel. by left.
Qed.

(** C4, as it holds. For a digest [(peer, g_r, v_r)] and the local state
    [(g_l, v_l)] of that peer, [examine_gossiper] adds to its reply:
    - the request digest [(peer, g_r, 0)] when there is no local state or
      [g_r > g_l];
    - when [g_r < g_l], the local heartbeat with exactly the application
      states of version above 0, provided the local maximal version [v_l] is
      above 0, and nothing when [v_l <= 0];
    - the request digest [(peer, g_r, v_l)] when [g_r = g_l] and [v_r > v_l];
    - the local heartbeat with exactly the application states of version
      above [v_r] when [g_r = g_l] and [v_r < v_l];
    - nothing when [g_r = g_l] and [v_r = v_l].
    The digests of a non-empty list are examined one after the other. *)
Theorem examine_digest_answer (g : gossiper) (d : gossip_digest)
    (dl : list gossip_digest) (dm : gmap Z endpoint_state) :
  let peer := get_endpoint d in
  let g_r := digest_generation d in
  let v_r := get_max_version d in
  (forall l, l <> [] ->
     examine_gossiper l dl dm g = fold_left (examine_digest g) l (dl, dm)) /\
  (_endpoint_state_map g !! peer = None ->
   examine_digest g (dl, dm) d = (dl ++ [mk_gossip_digest peer g_r 0], dm)) /\
  (forall local : endpoint_state,
     _endpoint_state_map g !! peer = Some local ->
     let g_l := get_generation (get_heart_beat_state local) in
     let v_l := get_max_endpoint_state_version local in
     (g_r > g_l ->
      examine_digest g (dl, dm) d =
        (dl ++ [mk_gossip_digest peer g_r 0], dm)) /\
     (g_r < g_l -> v_l > 0 ->
      exists r, is_delta_above local 0 r /\
                examine_digest g (dl, dm) d = (dl, <[peer := r]> dm)) /\
     (g_r < g_l -> v_l <= 0 -> examine_digest g (dl, dm) d = (dl, dm)) /\
     (g_r = g_l -> v_r > v_l ->
      examine_digest g (dl, dm) d =
        (dl ++ [mk_gossip_digest peer g_r v_l], dm)) /\
     (g_r = g_l -> v_r < v_l ->
      exists r, is_delta_above local v_r r /\
                examine_digest g (dl, dm) d = (dl, <[peer := r]> dm)) /\
     (g_r = g_l -> v_r = v_l -> examine_digest g (dl, dm) d = (dl, dm))).
Proof.
  intros peer g_r v_r. split; [|split].
  - intros [|x l] Hl; [done|]. reflexivity.
  - intros E. unfold examine_digest, get_endpoint_state_for_endpoint_ptr.
    fold peer. by rewrite E.
  - intros local E g_l v_l.
    unfold examine_digest, get_endpoint_state_for_endpoint_ptr, send_all,
      request_all.
    fold peer g_r v_r. rewrite E. cbv zeta. fold g_l v_l.
    destruct (get_state_for_version_bigger_than_spec peer 0 g local E)
      as [Hs0 Hn0].
    destruct (get_state_for_version_bigger_than_spec peer v_r g local E)
      as [Hsv Hnv].
    fold v_l in Hs0, Hn0, Hsv, Hnv.
    repeat split.
    + intros H. destruct (Z.eqb_spec g_r g_l); [lia|]. simpl.
      by destruct (Z.gtb_spec g_r g_l); [|lia].
    + intros H Hv. destruct (Z.eqb_spec g_r g_l); [lia|]. simpl.
      destruct (Z.gtb_spec g_r g_l); [lia|].
      destruct (Z.ltb_spec g_r g_l); [|lia].
      destruct (Hs0 Hv) as (r & -> & Hr). by exists r.
    + intros H Hv. destruct (Z.eqb_spec g_r g_l); [lia|]. simpl.
      destruct (Z.gtb_spec g_r g_l); [lia|].
      destruct (Z.ltb_spec g_r g_l); [|lia].
      by rewrite (Hn0 Hv).
    + intros H Hv. destruct (Z.eqb_spec g_r g_l); [|lia].
      destruct (Z.eqb_spec v_r v_l); [lia|]. simpl.
      destruct (Z.gtb_spec g_r g_l); [lia|].
      destruct (Z.ltb_spec g_r g_l); [lia|].
      by destruct (Z.gtb_spec v_r v_l); [|lia].
    + intros H Hv. destruct (Z.eqb_spec g_r g_l); [|lia].
      destruct (Z.eqb_spec v_r v_l); [lia|]. simpl.
      destruct (Z.gtb_spec g_r g_l); [lia|].
      destruct (Z.ltb_spec g_r g_l); [lia|].
      destruct (Z.gtb_spec v_r v_l); [lia|].
      destruct (Z.ltb_spec v_r v_l); [|lia].
      destruct Hsv as (r & -> & Hr); [lia|]. by exists r.
    + intros H Hv. destruct (Z.eqb_spec g_r g_l); [|lia].
      by destruct (Z.eqb_spec v_r v_l); [|lia].
Qed.

Lemma examine_digest_answer_witness :
  exists r,
    is_delta_above (sample_state 900 3 "NORMAL" 2 true) 1 r /\
    examine_digest
      (sample_gossiper false
         (<[7 := sample_state 900 3 "NORMAL" 2 true]> sample_local_only))
      ([], ∅) (mk_gossip_digest 7 900 1) = ([], <[7 := r]> ∅).
Proof.
  refine (proj1 (proj2 (proj2 (proj2 (proj2
    (proj2 (proj2 (examine_digest_answer
       (sample_gossiper false
          (<[7 := sample_state 900 3 "NORMAL" 2 true]> sample_local_only))
       (mk_gossip_digest 7 900 1) [] ∅))
       (sample_state 900 3 "NORMAL" 2 true) _))))) _ _).
  - reflexivity.
  - reflexivity.
  - vm_compute. reflexivity.
Defined.

(** C4, as stated, fails when the remote generation is older and nothing
    local has a version above 0: the reply then holds nothing for the peer,
    neither a request nor a state. Here the local node knows itself in
    generation 1000 with heartbeat version 0 and no application state, and
    the digest is [(1, 900, 5)]. *)
Lemma examine_older_generation_sends_nothing :
  let g := sample_gossiper false
             {[1 := mk_endpoint_state (mk_heart_beat_state 1000 0) ∅ 0 true]} in
  (exists local, _endpoint_state_map g !! 1 = Some local /\
                 900 < get_generation (get_heart_beat_state local)) /\
  examine_gossiper [mk_gossip_digest 1 900 5] [] ∅ g = ([], ∅).
Proof.
  split.
  - eexists. split; [reflexivity|]. vm_compute. reflexivity.
  - vm_compute. reflexivity.
Qed.

(** ** Sorting the digests *)

Lemma StronglySorted_snoc {A : Type} (R : A -> A -> Prop) (l : list A) (a : A) :
  StronglySorted R l -> Forall (fun x => R x a) l ->
  StronglySorted R (l ++ [a]).
Proof.
  induction 1 as [|x l Hs IH Hx]; intros Hall; simpl.
  - repeat constructor.
  - apply Forall_cons_1 in Hall as [Hxa Hall]. constructor; [by apply IH|].
    apply Forall_app. split; [done|]. by constructor.
Qed.

Lemma StronglySorted_rev_flip {A : Type} (R : A -> A -> Prop) (l : list A) :
  StronglySorted R l -> StronglySorted (fun x y => R y x) (rev l).
Proof.
  induction 1 as [|x l Hs IH Hx]; simpl; [constructor|].
  apply StronglySorted_snoc; [done|]. by apply Forall_rev.
Qed.

Lemma StronglySorted_map_key {A B : Type} (R : B -> B -> Prop)
    (S : A -> A -> Prop) (f : A -> B) (l : list A) :
  (forall x y, x ∈ l -> y ∈ l -> S x y -> R (f x) (f y)) ->
  StronglySorted S l -> StronglySorted R (List.map f l).
Proof.
  intros H Hs. induction Hs as [|x l Hs IH Hx]; simpl; [constructor|].
  constructor.
  - apply IH. intros a b Ha Hb. apply H; by right.
  - apply Forall_forall. intros b Hb.
    apply list_elem_of_fmap in Hb as (a & -> & Ha).
    apply H; [by left|by right|]. rewrite Forall_forall in Hx. by apply Hx.
Qed.

Lemma StronglySorted_weaken {A : Type} (R S : A -> A -> Prop) (l : list A) :
  (forall x y, S x y -> R x y) ->
  StronglySorted S l -> StronglySorted R l.
Proof.
  intros H. induction 1 as [|x l Hs IH Hx]; constructor; [done|].
  eapply Forall_impl; [exact Hx|]. intros y. apply H.
Qed.

(** For pairwise distinct endpoints the map built by [do_sort] gives every
    digest of the list back under its endpoint. *)
Lemma build_ep_to_digest_map_lookup (l : list gossip_digest) (d : gossip_digest) :
  NoDup (List.map get_endpoint l) -> d ∈ l ->
  build_ep_to_digest_map l !! get_endpoint d = Some d.
Proof.
  unfold build_ep_to_digest_map.
  assert (Hgen : forall (m : gmap Z gossip_digest),
            NoDup (List.map get_endpoint l) ->
            (forall x, x ∈ l -> m !! get_endpoint x = None) ->
            d ∈ l ->
            fold_left (fun (m : gmap Z gossip_digest) g_digest =>
                match m !! get_endpoint g_digest with
                | Some _ => m
                | None => <[get_endpoint g_digest := g_digest]> m
                end) l m !! get_endpoint d = Some d).
  { induction l as [|x l IH]; intros m Hnd Hm Hd.
    - by apply elem_of_nil in Hd.
    - simpl in Hnd. apply NoDup_cons in Hnd as [Hx Hnd]. simpl.
      rewrite (Hm x) by left.
      assert (Hkeep : forall (k : Z) (v : gossip_digest) (l0 : list gossip_digest)
                (m0 : gmap Z gossip_digest),
                m0 !! k = Some v ->
                fold_left (fun (m : gmap Z gossip_digest) g_digest =>
                    match m !! get_endpoint g_digest with
                    | Some _ => m
                    | None => <[get_endpoint g_digest := g_digest]> m
                    end) l0 m0 !! k = Some v).
      { clear. intros k v l0. induction l0 as [|y l0 IH]; intros m0 H; [done|].
        simpl. apply IH. destruct (m0 !! get_endpoint y) eqn:E; [done|].
        rewrite lookup_insert_ne; [done|]. intros Heq. rewrite Heq in E.
        congruence. }
      apply elem_of_cons in Hd as [->|Hd].
      + apply Hkeep, lookup_insert_eq.
      + apply IH; [done| |done]. intros y Hy.
        rewrite lookup_insert_ne; [apply Hm; by right|].
        intros Heq. apply Hx. rewrite Heq.
        apply list_elem_of_fmap. by exists y. }
  intros Hnd Hd. apply Hgen; [done| |done]. intros x _. apply lookup_empty.
Qed.

Lemma diff_version_in_range (g : gossiper) (d : gossip_digest) :
  - INT32_MAX <= local_max_version g (get_endpoint d) - get_max_version d
    <= INT32_MAX ->
  diff_version g d =
    Z.abs (local_max_version g (get_endpoint d) - get_max_version d).
Proof.
  unfold diff_version, local_max_version, abs32, wrap32, INT32_MAX.
  set (x := match get_endpoint_state_for_endpoint_ptr (get_endpoint d) g with
            | Some ep_state => get_max_endpoint_state_version ep_state
            | None => 0
            end - get_max_version d).
  intros H.
  assert (H1 : (x + 2147483648) mod 4294967296 - 2147483648 = x).
  { rewrite Z.mod_small; lia. }
  rewrite H1. rewrite Z.mod_small; lia.
Qed.

Section SortingContract.

(** The order of digests and the sorting function: [std::sort] returns a
    rearrangement of its input in which no element is less than one before
    it. *)
Variable gossip_digest_less : gossip_digest -> gossip_digest -> bool.
Variable std_sort : list gossip_digest -> list gossip_digest.
Hypothesis std_sort_permutation :
  forall l, Permutation (std_sort l) l.
Hypothesis std_sort_sorted :
  forall l, StronglySorted (fun x y => gossip_digest_less y x = false)
              (std_sort l).

(** C8, as it holds. For a list of incoming digests with pairwise distinct
    endpoints, [do_sort] leaves a permutation of the list, in descending
    order of [operator<] on the digests it builds, which carry the version
    difference in place of [max_version]: no digest of the result is, so
    rebuilt, less than a later one. When [operator<] compares [max_version]
    alone, this is descending order of the version difference. The
    difference is the one the code computes in [int] arithmetic, which is
    [|local_max_version - remote_max_version|] whenever that does not
    overflow (local_max_version being 0 for an endpoint unknown locally). *)
Theorem do_sort_permutation_descending (g : gossiper)
    (l : list gossip_digest) :
  NoDup (List.map get_endpoint l) ->
  Permutation (do_sort std_sort l g) l /\
  StronglySorted
    (fun x y => gossip_digest_less (diff_digest g x) (diff_digest g y) = false)
    (do_sort std_sort l g) /\
  ((forall x y,
      gossip_digest_less x y = (get_max_version x <? get_max_version y)) ->
   StronglySorted (fun x y => diff_version g x >= diff_version g y)
     (do_sort std_sort l g)) /\
  (forall d, d ∈ l ->
     - INT32_MAX <= local_max_version g (get_endpoint d) - get_max_version d
       <= INT32_MAX ->
     diff_version g d =
       Z.abs (local_max_version g (get_endpoint d) - get_max_version d)).
Proof.
  intros Hnd. unfold do_sort, build_diff_digests.
  change (fun g_digest =>
            mk_gossip_digest (get_endpoint g_digest)
              (digest_generation g_digest) (diff_version g g_digest))
    with (diff_digest g).
  set (F := fun d0 : gossip_digest =>
         default (mk_gossip_digest 0 0 0)
           (build_ep_to_digest_map l !! get_endpoint d0)).
  assert (HFD : forall d, d ∈ l -> F (diff_digest g d) = d).
  { intros d Hd. unfold F, diff_digest. simpl.
    by rewrite (build_ep_to_digest_map_lookup l d Hnd Hd). }
  assert (Hperm : Permutation (rev (std_sort (List.map (diff_digest g) l)))
                    (List.map (diff_digest g) l)).
  { rewrite <- Permutation_rev. apply std_sort_permutation. }
  assert (Hin : forall x, x ∈ rev (std_sort (List.map (diff_digest g) l)) ->
            exists d, d ∈ l /\ x = diff_digest g d).
  { intros x Hx. rewrite Hperm in Hx.
    apply list_elem_of_fmap in Hx as (d & -> & Hd). by exists d. }
  assert (Hsorted : StronglySorted
            (fun x y =>
               gossip_digest_less (diff_digest g x) (diff_digest g y) = false)
            (List.map F (rev (std_sort (List.map (diff_digest g) l))))).
  { apply (StronglySorted_map_key _
             (fun x y => gossip_digest_less x y = false)).
    - intros x y Hx Hy Hxy.
      destruct (Hin x Hx) as (dx & Hdx & ->).
      destruct (Hin y Hy) as (dy & Hdy & ->).
      by rewrite !HFD.
    - apply (StronglySorted_rev_flip
               (fun x y => gossip_digest_less y x = false)).
      apply std_sort_sorted. }
  split; [|split; [exact Hsorted|split]].
  - rewrite Hperm. rewrite List.map_map.
    assert (Hmap : forall l', (forall d, d ∈ l' -> F (diff_digest g d) = d) ->
              List.map (fun x => F (diff_digest g x)) l' = l').
    { induction l' as [|d l' IH]; intros H; [done|].
      simpl. rewrite H by left. f_equal. apply IH.
      intros d' Hd'. apply H. by right. }
    by rewrite Hmap.
  - intros Hless.
    apply (StronglySorted_weaken _
             (fun x y =>
                gossip_digest_less (diff_digest g x) (diff_digest g y)
                = false)); [|exact Hsorted].
    intros x y Hxy. rewrite Hless in Hxy. unfold diff_digest in Hxy.
    simpl in Hxy. apply Z.ltb_ge in Hxy. lia.
  - intros d _. apply diff_version_in_range.
Qed.

End SortingContract.

Lemma insert_sorted_permutation (x : gossip_digest) (l : list gossip_digest) :
  Permutation (insert_sorted x l) (x :: l).
Proof.
  induction l as [|y l IH]; simpl; [done|].
  destruct (gossip_digest_less_by_version y x); [|done].
  rewrite IH. apply perm_swap.
Qed.

Lemma insertion_sort_permutation (l : list gossip_digest) :
  Permutation (insertion_sort l) l.
Proof.
  induction l as [|x l IH]; simpl; [done|].
  unfold insertion_sort in *. simpl.
  rewrite insert_sorted_permutation. by constructor.
Qed.

Lemma insert_sorted_sorted (x : gossip_digest) (l : list gossip_digest) :
  StronglySorted (fun a b => gossip_digest_less_by_version b a = false) l ->
  StronglySorted (fun a b => gossip_digest_less_by_version b a = false)
    (insert_sorted x l).
Proof.
  unfold gossip_digest_less_by_version.
  induction 1 as [|y l Hs IH Hy]; simpl; [repeat constructor|].
  unfold gossip_digest_less_by_version at 1.
  destruct (Z.ltb_spec (get_max_version y) (get_max_version x)) as [Hlt|Hge].
  - constructor; [done|].
    apply Forall_forall. intros b Hb.
    rewrite insert_sorted_permutation in Hb.
    apply elem_of_cons in Hb as [->|Hb].
    + apply Z.ltb_ge. lia.
    + rewrite Forall_forall in Hy. by apply Hy.
  - constructor; [by constructor|].
    constructor; [apply Z.ltb_ge; lia|].
    apply Forall_forall. intros b Hb. rewrite Forall_forall in Hy.
    specialize (Hy b Hb). apply Z.ltb_ge in Hy. apply Z.ltb_ge. lia.
Qed.

Lemma insertion_sort_sorted (l : list gossip_digest) :
  StronglySorted (fun a b => gossip_digest_less_by_version b a = false)
    (insertion_sort l).
Proof.
  induction l as [|x l IH]; [constructor|].
  by apply insert_sorted_sorted.
Qed.

Lemma do_sort_permutation_descending_witness :
  Permutation
    (do_sort insertion_sort
       [mk_gossip_digest 7 900 3; mk_gossip_digest 8 5 40;
        mk_gossip_digest 1 1000 4]
       (sample_gossiper false
          (<[7 := sample_state 900 3 "NORMAL" 2 true]> sample_local_only)))
    [mk_gossip_digest 7 900 3; mk_gossip_digest 8 5 40;
     mk_gossip_digest 1 1000 4]
  /\
  StronglySorted
    (fun x y =>
       diff_version
         (sample_gossiper false
            (<[7 := sample_state 900 3 "NORMAL" 2 true]> sample_local_only)) x
       >= diff_version
            (sample_gossiper false
               (<[7 := sample_state 900 3 "NORMAL" 2 true]> sample_local_only))
            y)
    (do_sort insertion_sort
       [mk_gossip_digest 7 900 3; mk_gossip_digest 8 5 40;
        mk_gossip_digest 1 1000 4]
       (sample_gossiper false
          (<[7 := sample_state 900 3 "NORMAL" 2 true]> sample_local_only))).
Proof.
  assert (Hnd : NoDup (List.map get_endpoint
                         [mk_gossip_digest 7 900 3; mk_gossip_digest 8 5 40;
                          mk_gossip_digest 1 1000 4])).
  { apply (bool_decide_unpack _). vm_compute. exact I. }
  destruct (do_sort_permutation_descending gossip_digest_less_by_version
              insertion_sort insertion_sort_permutation insertion_sort_sorted
              (sample_gossiper false
                 (<[7 := sample_state 900 3 "NORMAL" 2 true]>
                    sample_local_only))
              [mk_gossip_digest 7 900 3; mk_gossip_digest 8 5 40;
               mk_gossip_digest 1 1000 4] Hnd)
    as (Hperm & _ & Hdesc & _).
  split; [exact Hperm|]. apply Hdesc. reflexivity.
Defined.

(** C8, as stated, fails for a list that names an endpoint twice: the map
    from endpoints to digests keeps the first digest of the endpoint, and the
    result repeats it. *)
Lemma do_sort_repeats_first_digest :
  let g := sample_gossiper false sample_local_only in
  let l := [mk_gossip_digest 7 900 5; mk_gossip_digest 7 901 9] in
  do_sort insertion_sort l g =
    [mk_gossip_digest 7 900 5; mk_gossip_digest 7 900 5] /\
  ~ Permutation (do_sort insertion_sort l g) l.
Proof.
  assert (H : do_sort insertion_sort
                [mk_gossip_digest 7 900 5; mk_gossip_digest 7 901 9]
                (sample_gossiper false sample_local_only) =
              [mk_gossip_digest 7 900 5; mk_gossip_digest 7 900 5])
    by (vm_compute; reflexivity).
  cbv zeta. split; [exact H|]. rewrite H. intros Hp.
  assert (Hin : In (mk_gossip_digest 7 901 9)
                  [mk_gossip_digest 7 900 5; mk_gossip_digest 7 900 5]).
  { eapply Permutation_in; [symmetry; exact Hp|]. right. by left. }
  simpl in Hin. destruct Hin as [Hin|[Hin|[]]]; discriminate Hin.
Qed.

(** The order of the result is that of [operator<]. With an [operator<]
    that compares generations first the digests come out by descending
    generation, not by descending version difference: here the differences
    are 0 for endpoint 1, 0 for endpoint 7 and 40 for endpoint 8, and the
    sort used returns a sorted rearrangement of the digests [do_sort] builds
    from the list. *)
Lemma do_sort_generation_first_not_by_difference :
  let g := sample_gossiper false
             (<[7 := sample_state 900 3 "NORMAL" 2 true]> sample_local_only) in
  let l := [mk_gossip_digest 7 900 3; mk_gossip_digest 8 5 40;
            mk_gossip_digest 1 1000 4] in
  let std_sort := insertion_sort_by gossip_digest_less_generation_first in
  std_sort (build_diff_digests g l) =
    [mk_gossip_digest 8 5 40; mk_gossip_digest 7 900 0;
     mk_gossip_digest 1 1000 0] /\
  do_sort std_sort l g =
    [mk_gossip_digest 1 1000 4; mk_gossip_digest 7 900 3;
     mk_gossip_digest 8 5 40] /\
  List.map (diff_version g) (do_sort std_sort l g) = [0; 0; 40].
Proof. cbv zeta. repeat split; vm_compute; reflexivity. Qed.

(** ** What the operations leave alone *)

#[local] Instance same_control_refl : Reflexive same_control.
Proof. intros g. by constructor. Qed.

#[local] Instance same_control_trans : Transitive same_control.
Proof.
  intros g1 g2 g3 [] []. constructor; congruence.
Qed.

Lemma Forall2_same_refl {A : Type} (R : A -> A -> Prop) (l : list A) :
  (forall x, R x x) -> Forall2 R l l.
Proof. intros H. induction l; constructor; auto. Qed.

Lemma Forall2_same_trans {A : Type} (R : A -> A -> Prop) (l1 l2 l3 : list A) :
  (forall x y z, R x y -> R y z -> R x z) ->
  Forall2 R l1 l2 -> Forall2 R l2 l3 -> Forall2 R l1 l3.
Proof.
  intros HR H12. revert l3.
  induction H12 as [|x y l1 l2 Hxy H12 IH]; intros l3 H23.
  - inversion H23. constructor.
  - inversion H23 as [|y' z l2' l3' Hyz H23']; subst.
    constructor; [by eapply HR|by apply IH].
Qed.

Lemma keeps_entry_refl (p : Z) (g : gossiper) : keeps_entry p g g.
Proof.
  constructor; [reflexivity|done|done|]. by apply Forall2_same_refl.
Qed.

Lemma keeps_entry_trans (p : Z) (g1 g2 g3 : gossiper) :
  keeps_entry p g1 g2 -> keeps_entry p g2 g3 -> keeps_entry p g1 g3.
Proof.
  intros [C1 L1 K1 S1] [C2 L2 K2 S2]. constructor.
  - by etransitivity.
  - intros H. rewrite L2, L1; [done|done|].
    rewrite (sc_env _ _ C1). destruct H; [by left|right; auto].
  - auto.
  - eapply Forall2_same_trans; [|exact S1|exact S2].
    simpl. intros m1 m2 m3 H1 H2. congruence.
Qed.

Lemma fold_left_same_control {A : Type} (f : gossiper -> A -> gossiper)
    (l : list A) (g : gossiper) :
  (forall g a, same_control g (f g a)) -> same_control g (fold_left f l g).
Proof.
  intros H. revert g. induction l as [|a l IH]; intros g; simpl.
  - reflexivity.
  - etransitivity; [apply H|apply IH].
Qed.

Lemma fold_left_keeps_entry {A : Type} (p : Z) (f : gossiper -> A -> gossiper)
    (l : list A) (g : gossiper) :
  (forall g a, a ∈ l -> keeps_entry p g (f g a)) ->
  keeps_entry p g (fold_left f l g).
Proof.
  revert g. induction l as [|a l IH]; intros g H; simpl.
  - apply keeps_entry_refl.
  - eapply keeps_entry_trans; [apply H; by left|].
    apply IH. intros g' a' Ha'. apply H. by right.
Qed.

Lemma same_control_emit (e : event) (g : gossiper) : same_control g (emit e g).
Proof. by constructor. Qed.

Lemma keeps_entry_emit (p : Z) (e : event) (g : gossiper) :
  keeps_entry p g (emit e g).
Proof.
  constructor; [by constructor|done|done|]. by apply Forall2_same_refl.
Qed.

(** Writing the entry of another endpoint on the coordinator. *)
Lemma keeps_entry_store (p ep : Z) (st : endpoint_state) (g : gossiper) :
  p <> ep ->
  keeps_entry p g
    (set_endpoint_state_map (<[ep := st]> (_endpoint_state_map g)) g).
Proof.
  intros Hne. constructor; simpl.
  - by constructor.
  - intros _. by rewrite lookup_insert_ne.
  - unfold knows_itself. simpl. intros [x Hx].
    destruct (decide (ep = get_broadcast_address (env g))) as [->|Hn].
    + rewrite lookup_insert_eq. by eexists.
    + rewrite lookup_insert_ne by done. by eexists.
  - by apply Forall2_same_refl.
Qed.

Lemma keeps_entry_alter (p ep : Z) (f : endpoint_state -> endpoint_state)
    (g : gossiper) :
  p <> ep ->
  keeps_entry p g
    (set_endpoint_state_map (alter f ep (_endpoint_state_map g)) g).
Proof.
  intros Hne. constructor; simpl.
  - by constructor.
  - intros _. by rewrite lookup_alter_ne.
  - unfold knows_itself. simpl. intros [x Hx].
    rewrite lookup_alter. case_decide; subst; rewrite Hx; by eexists.
  - by apply Forall2_same_refl.
Qed.

(** Creating the local entry if it is missing. *)
Lemma keeps_entry_touch_self (p : Z) (g : gossiper) :
  keeps_entry p g
    (set_endpoint_state_map
       (<[get_broadcast_address (env g) :=
            at_or_default (now (env g)) (get_broadcast_address (env g))
              (_endpoint_state_map g)]> (_endpoint_state_map g)) g).
Proof.
  constructor; simpl.
  - by constructor.
  - intros H.
    destruct (decide (p = get_broadcast_address (env g))) as [->|Hne].
    + destruct H as [?|[x Hx]]; [done|].
      rewrite lookup_insert_eq. unfold at_or_default. by rewrite Hx.
    + by rewrite lookup_insert_ne.
  - unfold knows_itself. simpl. intros _. rewrite lookup_insert_eq.
    by eexists.
  - by apply Forall2_same_refl.
Qed.

Lemma Forall2_map_r_same {A : Type} (R : A -> A -> Prop) (f : A -> A)
    (l : list A) :
  (forall x, R x (f x)) -> Forall2 R l (List.map f l).
Proof. intros H. induction l; simpl; constructor; auto. Qed.

(** A write to the entry of another endpoint on the other shards. *)
Lemma keeps_entry_shards (p : Z)
    (f : gmap Z endpoint_state -> gmap Z endpoint_state) (g : gossiper) :
  (forall m, f m !! p = m !! p) ->
  keeps_entry p g (set_other_shards (List.map f (other_shards g)) g).
Proof.
  intros H. constructor; simpl; [by constructor|done|done|].
  by apply Forall2_map_r_same.
Qed.

Lemma keeps_entry_replicate (p ep : Z) (es : endpoint_state) (g : gossiper) :
  p <> ep -> keeps_entry p g (replicate ep es g).
Proof.
  intros Hne. apply keeps_entry_shards. intros m. by rewrite lookup_insert_ne.
Qed.

Lemma keeps_entry_replicate_key (p ep : Z) (key : application_state)
    (v : versioned_value) (g : gossiper) :
  p <> ep -> keeps_entry p g (replicate_key ep key v g).
Proof.
  intros Hne. apply keeps_entry_shards. intros m. by rewrite lookup_insert_ne.
Qed.

Lemma keeps_entry_replicate_changed (p ep : Z)
    (src : gmap application_state versioned_value)
    (changed : list application_state) (g : gossiper) :
  p <> ep -> keeps_entry p g (replicate_changed ep src changed g).
Proof.
  intros Hne. apply keeps_entry_shards. intros m.
  revert m. induction changed as [|key changed IH]; intros m; [done|].
  simpl. rewrite IH. destruct (src !! key); [|done].
  by rewrite lookup_insert_ne.
Qed.

(** The setters of the bookkeeping around the store keep every entry. *)
Lemma keeps_entry_bookkeeping (p : Z) (g g' : gossiper) :
  same_control g g' ->
  _endpoint_state_map g' = _endpoint_state_map g ->
  other_shards g' = other_shards g ->
  keeps_entry p g g'.
Proof.
  intros C Hm Hs. constructor; [done| | |].
  - by rewrite Hm.
  - unfold knows_itself. by rewrite Hm, (sc_env _ _ C).
  - rewrite Hs. by apply Forall2_same_refl.
Qed.

Ltac frame_bookkeeping :=
  apply keeps_entry_bookkeeping; [by constructor|reflexivity|reflexivity].

(** Peels the writes of an operation off one by one. *)
Ltac frame :=
  repeat match goal with
  | |- keeps_entry _ ?g ?g => apply keeps_entry_refl
  | |- keeps_entry ?p ?g (emit ?e ?g') =>
      apply (keeps_entry_trans p g g' _); [|apply keeps_entry_emit]
  | |- keeps_entry ?p ?g (replicate ?ep ?es ?g') =>
      apply (keeps_entry_trans p g g' _);
      [|apply keeps_entry_replicate; assumption]
  | |- keeps_entry ?p ?g (replicate_key ?ep ?k ?v ?g') =>
      apply (keeps_entry_trans p g g' _);
      [|apply keeps_entry_replicate_key; assumption]
  | |- keeps_entry ?p ?g (replicate_changed ?ep ?src ?ch ?g') =>
      apply (keeps_entry_trans p g g' _);
      [|apply keeps_entry_replicate_changed; assumption]
  | |- keeps_entry ?p ?g
         (set_endpoint_state_map (alter ?f ?ep (_endpoint_state_map ?g')) ?g') =>
      apply (keeps_entry_trans p g g' _);
      [|apply keeps_entry_alter; assumption]
  | |- keeps_entry ?p ?g
         (set_endpoint_state_map (<[?ep := ?st]> (_endpoint_state_map ?g')) ?g') =>
      apply (keeps_entry_trans p g g' _);
      [|first [apply keeps_entry_store; assumption
              |apply keeps_entry_touch_self]]
  | |- keeps_entry ?p ?g (set_live_endpoints _ ?g') =>
      apply (keeps_entry_trans p g g' _); [|frame_bookkeeping]
  | |- keeps_entry ?p ?g (set_live_endpoints_version _ ?g') =>
      apply (keeps_entry_trans p g g' _); [|frame_bookkeeping]
  | |- keeps_entry ?p ?g (update_live_endpoints_version ?g') =>
      apply (keeps_entry_trans p g g' _);
      [|unfold update_live_endpoints_version; frame_bookkeeping]
  | |- keeps_entry ?p ?g (set_unreachable_endpoints _ ?g') =>
      apply (keeps_entry_trans p g g' _); [|frame_bookkeeping]
  | |- keeps_entry ?p ?g (set_expire_time_endpoint_map _ ?g') =>
      apply (keeps_entry_trans p g g' _); [|frame_bookkeeping]
  | |- keeps_entry ?p ?g (set_pending_mark_alive_endpoints _ ?g') =>
      apply (keeps_entry_trans p g g' _); [|frame_bookkeeping]
  | |- keeps_entry ?p ?g (set_endpoints_to_talk_with _ ?g') =>
      apply (keeps_entry_trans p g g' _); [|frame_bookkeeping]
  | |- keeps_entry ?p ?g (set_version_generator _ ?g') =>
      apply (keeps_entry_trans p g g' _); [|frame_bookkeeping]
  end.

Lemma keeps_entry_mark_dead (p addr : Z) (g : gossiper) :
  p <> addr -> keeps_entry p g (mark_dead addr g).
Proof.
  intros Hne. unfold mark_dead.
  destruct (get_endpoint_state_for_endpoint_ptr addr g); cbv zeta; frame.
Qed.

Lemma keeps_entry_mark_alive (p addr : Z) (g : gossiper) :
  p <> addr -> keeps_entry p g (mark_alive addr g).
Proof.
  intros Hne. unfold mark_alive.
  destruct (bool_decide (addr ∈ _pending_mark_alive_endpoints g));
    cbv zeta; frame.
Qed.

Lemma keeps_entry_real_mark_alive (p addr : Z) (g : gossiper) :
  p <> addr -> keeps_entry p g (real_mark_alive addr g).
Proof.
  intros Hne. unfold real_mark_alive.
  destruct (get_endpoint_state_for_endpoint_ptr addr g); cbv zeta; [|frame].
  destruct (String.eqb _ _); [frame|].
  destruct (bool_decide _); frame.
Qed.

Lemma keeps_entry_convict (p endpoint : Z) (g : gossiper) :
  p <> endpoint ->
  keeps_entry p g (convict endpoint g) /\
  keeps_entry p g (mark_as_shutdown endpoint g).
Proof.
  intros Hne.
  assert (Hs : keeps_entry p g (mark_as_shutdown endpoint g)).
  { rewrite mark_as_shutdown_unfold.
    destruct (get_endpoint_state_for_endpoint_ptr endpoint g); [|frame].
    unfold versioned_value_shutdown, get_next_version. cbv zeta iota beta.
    rewrite convict_noop by apply mark_dead_not_alive.
    eapply keeps_entry_trans; [|by apply keeps_entry_mark_dead]. frame. }
  split; [|done]. rewrite convict_unfold.
  destruct (get_endpoint_state_for_endpoint_ptr endpoint g); [|frame].
  destruct (negb _); [frame|].
  destruct (is_shutdown endpoint g); [done|by apply keeps_entry_mark_dead].
Qed.

Lemma keeps_entry_apply_new_states (p addr : Z) (remote_state : endpoint_state)
    (g : gossiper) :
  p <> addr -> keeps_entry p g (apply_new_states addr remote_state g).
Proof.
  intros Hne. unfold apply_new_states.
  destruct (get_endpoint_state_for_endpoint_ptr addr g); cbv zeta; [|frame].
  destruct (apply_new_states_loop _ _) as [[local_state changed] thrown].
  eapply keeps_entry_trans; [|apply fold_left_keeps_entry].
  - frame.
  - intros g' key _. destruct (_ !! key); [|frame].
    unfold do_on_change_notifications. frame.
Qed.

Lemma keeps_entry_handle_major_state_change (p ep : Z) (eps : endpoint_state)
    (g : gossiper) :
  p <> ep -> keeps_entry p g (handle_major_state_change ep eps g).
Proof.
  intros Hne. unfold handle_major_state_change. cbv zeta.
  set (g1 := replicate ep eps _).
  assert (H1 : keeps_entry p g g1) by (subst g1; frame).
  destruct (is_in_shadow_round g1); [done|].
  set (g2 := match get_endpoint_state_for_endpoint_ptr ep g with
             | Some old => emit (on_restart ep old) g1
             | None => g1
             end).
  assert (H2 : keeps_entry p g g2).
  { subst g2. destruct (get_endpoint_state_for_endpoint_ptr ep g); [|done].
    frame. done. }
  destruct (get_endpoint_state_for_endpoint_ptr ep g2) as [ep_state|]; [|done].
  set (g3 := if negb (is_dead_state ep_state) then mark_alive ep g2
             else mark_dead ep g2).
  assert (H3 : keeps_entry p g g3).
  { subst g3. eapply keeps_entry_trans; [exact H2|].
    destruct (negb _);
      [by apply keeps_entry_mark_alive|by apply keeps_entry_mark_dead]. }
  set (g4 := match get_endpoint_state_for_endpoint_ptr ep g3 with
             | Some eps_new => emit (on_join ep eps_new) g3
             | None => g3
             end).
  assert (H4 : keeps_entry p g g4).
  { subst g4. destruct (get_endpoint_state_for_endpoint_ptr ep g3); [|done].
    frame. done. }
  destruct (is_shutdown ep g4); [|done].
  eapply keeps_entry_trans; [exact H4|]. by apply keeps_entry_convict.
Qed.

(** [do_apply_state_locally] for [node] leaves the entry of every other
    endpoint alone, on every shard. *)
Lemma keeps_entry_do_apply_state_locally (p node : Z)
    (remote_state : endpoint_state) (listener_notification : bool)
    (g : gossiper) :
  p <> node ->
  keeps_entry p g
    (do_apply_state_locally node remote_state listener_notification g).
Proof.
  intros Hne. unfold do_apply_state_locally.
  destruct (get_endpoint_state_for_endpoint_ptr node g) as [local_state|];
    cbv zeta.
  - destruct (_ >? _ + _); [frame|].
    destruct (_ >? _).
    { destruct listener_notification;
        [by apply keeps_entry_handle_major_state_change|frame]. }
    destruct (_ =? _); [|frame].
    destruct listener_notification; [|frame].
    set (g1 := if _ >? _ then apply_new_states node remote_state g else g).
    assert (H1 : keeps_entry p g g1).
    { subst g1. destruct (_ >? _); [|frame].
      by apply keeps_entry_apply_new_states. }
    destruct (get_endpoint_state_for_endpoint_ptr node g1); [|done].
    destruct (_ && _); [|done].
    eapply keeps_entry_trans; [exact H1|]. by apply keeps_entry_mark_alive.
  - destruct listener_notification;
      [by apply keeps_entry_handle_major_state_change|frame].
Qed.

(** Whatever the endpoint, an operation on one entry leaves the handler
    slots, the quarantine and the configuration alone. *)
Lemma same_control_do_apply_state_locally (node : Z)
    (remote_state : endpoint_state) (listener_notification : bool)
    (g : gossiper) :
  same_control g
    (do_apply_state_locally node remote_state listener_notification g).
Proof.
  apply (ke_control (node + 1)), keeps_entry_do_apply_state_locally. lia.
Qed.

(** ** Quarantine *)

Lemma apply_state_locally_quarantined (shuffle : list Z -> list Z)
    (map : gmap Z endpoint_state) (g : gossiper) (p : Z) :
  is_Some (_just_removed_endpoints g !! p) ->
  keeps_entry p g (apply_state_locally shuffle map g).
Proof.
  unfold apply_state_locally. cbv zeta.
  generalize (List.filter (fun ip => is_seed ip g) (shuffle (map_to_list map).*1)
              ++ List.filter (fun ip => negb (is_seed ip g))
                   (shuffle (map_to_list map).*1)).
  intros endpoints. revert g.
  induction endpoints as [|ep endpoints IH]; intros g Hq; simpl.
  - apply keeps_entry_refl.
  - set (g1 := if bool_decide (ep = get_broadcast_address (env g))
                  && negb (is_in_shadow_round g) then g
               else if bool_decide (is_Some (_just_removed_endpoints g !! ep))
               then g
               else match map !! ep with
                    | Some remote_state =>
                        do_apply_state_locally ep remote_state true g
                    | None => g
                    end).
    assert (H1 : keeps_entry p g g1).
    { subst g1. destruct (_ && _); [apply keeps_entry_refl|].
      destruct (bool_decide_reflect
                  (is_Some (_just_removed_endpoints g !! ep))) as [Hep|Hep];
        [apply keeps_entry_refl|].
      destruct (map !! ep); [|apply keeps_entry_refl].
      apply keeps_entry_do_apply_state_locally. by intros ->. }
    eapply keeps_entry_trans; [exact H1|]. apply IH.
    by rewrite (sc_just_removed _ _ (ke_control _ _ _ H1)).
Qed.

Lemma quarantine_delay_positive (g : gossiper) : 60000 <= quarantine_delay g.
Proof. unfold quarantine_delay. lia. Qed.

Lemma quarantined_since_remove_endpoint g0 p t endpoint g :
  quarantined_since g0 p t g ->
  quarantined_since g0 p t (remove_endpoint endpoint g).
Proof.
  intros [He (t' & Hl & Ht)]. unfold remove_endpoint. cbv zeta.
  destruct (bool_decide (endpoint ∈ _seeds (emit (on_remove endpoint) g)));
    (split; [done|]); simpl;
    (destruct (decide (endpoint = p)) as [->|Hne];
     [rewrite lookup_insert_eq; eexists; split; [done|]; right; by rewrite He
     |rewrite lookup_insert_ne by done; by exists t']).
Qed.

Lemma quarantined_since_evict_from_membership g0 p t endpoint g :
  quarantined_since g0 p t g ->
  quarantined_since g0 p t (evict_from_membership endpoint g).
Proof.
  intros [He (t' & Hl & Ht)]. unfold evict_from_membership. cbv zeta.
  split; [done|]. simpl.
  destruct (decide (endpoint = p)) as [->|Hne].
  - rewrite lookup_insert_eq. eexists. split; [done|]. right. by rewrite He.
  - rewrite lookup_insert_ne by done. by exists t'.
Qed.

Lemma quarantined_since_do_status_check_entry g0 p t now0 g entry :
  quarantined_since g0 p t g ->
  quarantined_since g0 p t (do_status_check_entry now0 g entry).
Proof.
  intros H. unfold do_status_check_entry. cbv zeta.
  destruct (bool_decide _); [done|].
  destruct (_ && _ && _);
    (destruct (_ && _ && _); [apply quarantined_since_evict_from_membership|]);
    auto using quarantined_since_evict_from_membership,
               quarantined_since_remove_endpoint.
Qed.

Lemma quarantined_since_status_loop g0 p t now0 l g :
  quarantined_since g0 p t g ->
  quarantined_since g0 p t (fold_left (do_status_check_entry now0) l g).
Proof.
  revert g. induction l as [|e l IH]; intros g H; [done|].
  simpl. by apply IH, quarantined_since_do_status_check_entry.
Qed.

Lemma do_status_check_keeps_quarantine (g : gossiper) (p t : Z) :
  _just_removed_endpoints g !! p = Some t ->
  now (env g) - t <= quarantine_delay g ->
  is_Some (_just_removed_endpoints (do_status_check g) !! p).
Proof.
  intros Hl Ht. unfold do_status_check. cbv zeta. simpl.
  destruct (quarantined_since_status_loop g p t (now (env g))
              (map_to_list (_endpoint_state_map g)) g)
    as [He (t' & Hl' & Ht')].
  { split; [done|]. exists t. auto. }
  exists t'. apply map_lookup_filter_Some. split; [done|]. simpl.
  assert (Hq : quarantine_delay
                 (fold_left (do_status_check_entry (now (env g)))
                    (map_to_list (_endpoint_state_map g)) g)
               = quarantine_delay g)
    by (unfold quarantine_delay; by rewrite He).
  rewrite Hq. pose proof (quarantine_delay_positive g).
  destruct Ht' as [->| ->]; lia.
Qed.




(** ** The handler slots *)

Lemma remove_one_elem_of (from x : Z) (l : list Z) :
  NoDup l -> (x ∈ remove_one from l <-> x ∈ l /\ x <> from).
Proof.
  induction l as [|y l IH]; intros Hnd; simpl.
  - split; [by intros ?%elem_of_nil|by intros [?%elem_of_nil _]].
  - apply NoDup_cons in Hnd as [Hy Hnd].
    destruct (Z.eqb_spec y from) as [->|Hne].
    + rewrite elem_of_cons. split.
      * intros Hx. split; [by right|]. by intros ->.
      * by intros [[->|Hx] Hn].
    + rewrite !elem_of_cons, IH by done. split.
      * intros [->|[Hx Hn]]; [by split; [left|]|by split; [right|]].
      * intros [[->|Hx] Hn]; [by left|by right].
Qed.

Lemma remove_one_NoDup (from : Z) (l : list Z) :
  NoDup l -> NoDup (remove_one from l).
Proof.
  induction l as [|y l IH]; intros Hnd; simpl; [done|].
  apply NoDup_cons in Hnd as [Hy Hnd].
  destruct (y =? from); [done|]. apply NoDup_cons. split; [|by apply IH].
  rewrite remove_one_elem_of by done. by intros [? _].
Qed.

Section Slots.

Context {M : Type}.
Implicit Types (handlers : gmap Z (msg_pending M)) (in_flight : list Z).

Lemma slots_agree_empty : slots_agree (∅ : gmap Z (msg_pending M)) [].
Proof.
  split; [constructor|]. split.
  - intros from. split; [by intros ?%elem_of_nil|].
    intros (p & Hp & _). by rewrite lookup_empty in Hp.
  - intros from p Hp. by rewrite lookup_empty in Hp.
Qed.

(** A message arrives while the loop of its source is in flight: it takes
    the place of whatever was stashed. *)
Lemma slots_agree_stash handlers in_flight (from : Z) (m : M) :
  slots_agree handlers in_flight ->
  pending (slot_of from handlers) = true ->
  slots_agree
    (<[from := mk_msg_pending (pending (slot_of from handlers)) (Some m)]>
       handlers) in_flight.
Proof.
  intros (Hnd & Hin & Hst) Hp. rewrite Hp.
  split; [done|]. split.
  - intros x. rewrite Hin. destruct (decide (x = from)) as [->|Hne].
    + rewrite lookup_insert_eq. split; [by eexists|]. intros _.
      unfold slot_of in Hp. destruct (handlers !! from) as [p|]; [|done].
      by exists p.
    + by rewrite lookup_insert_ne.
  - intros x p. destruct (decide (x = from)) as [->|Hne].
    + rewrite lookup_insert_eq. by intros [= <-].
    + rewrite lookup_insert_ne by done. apply Hst.
Qed.

(** A message arrives while no loop of its source is in flight: one is
    started. *)
Lemma slots_agree_start handlers in_flight (from : Z) :
  slots_agree handlers in_flight ->
  pending (slot_of from handlers) = false ->
  slots_agree
    (<[from := mk_msg_pending true (pending_msg (slot_of from handlers))]>
       handlers) (from :: in_flight).
Proof.
  intros (Hnd & Hin & Hst) Hp.
  assert (Hfrom : from ∉ in_flight).
  { rewrite Hin. intros (p & Hl & Hpp). unfold slot_of in Hp.
    rewrite Hl in Hp. simpl in Hp. congruence. }
  split; [by apply NoDup_cons|]. split.
  - intros x. rewrite elem_of_cons, Hin.
    destruct (decide (x = from)) as [->|Hne].
    + rewrite lookup_insert_eq. split; [by eexists|by left].
    + rewrite lookup_insert_ne by done. split; [by intros [?|?]|by right].
  - intros x p. destruct (decide (x = from)) as [->|Hne].
    + rewrite lookup_insert_eq. by intros [= <-].
    + rewrite lookup_insert_ne by done. apply Hst.
Qed.

(** The loop takes the stashed message and goes on. *)
Lemma slots_agree_take handlers in_flight (from : Z) (p : msg_pending M) :
  slots_agree handlers in_flight ->
  from ∈ in_flight -> handlers !! from = Some p ->
  slots_agree (<[from := mk_msg_pending (pending p) None]> handlers) in_flight.
Proof.
  intros (Hnd & Hin & Hst) Hf Hl.
  assert (Hp : pending p = true).
  { apply Hin in Hf as (p' & Hl' & Hp'). congruence. }
  rewrite Hp. split; [done|]. split.
  - intros x. rewrite Hin. destruct (decide (x = from)) as [->|Hne].
    + rewrite lookup_insert_eq. split; [by eexists|]. intros _. by exists p.
    + by rewrite lookup_insert_ne.
  - intros x q. destruct (decide (x = from)) as [->|Hne].
    + rewrite lookup_insert_eq. by intros [= <-].
    + rewrite lookup_insert_ne by done. apply Hst.
Qed.

(** The loop ends, with nothing left in the slot. *)
Lemma slots_agree_end handlers in_flight (from : Z) :
  slots_agree handlers in_flight ->
  slots_agree (<[from := mk_msg_pending false None]> handlers)
    (remove_one from in_flight).
Proof.
  intros (Hnd & Hin & Hst).
  split; [by apply remove_one_NoDup|]. split.
  - intros x. rewrite remove_one_elem_of, Hin by done.
    destruct (decide (x = from)) as [->|Hne].
    + rewrite lookup_insert_eq. split; [by intros [_ ?]|].
      by intros (p & [= <-] & Hp).
    + rewrite lookup_insert_ne by done. split; [by intros [? _]|done].
  - intros x q. destruct (decide (x = from)) as [->|Hne].
    + rewrite lookup_insert_eq. by intros [= <-] _.
    + rewrite lookup_insert_ne by done. apply Hst.
Qed.

End Slots.

Lemma same_control_update_timestamp_for_nodes (map : gmap Z endpoint_state)
    (g : gossiper) :
  same_control g (update_timestamp_for_nodes map g).
Proof.
  unfold update_timestamp_for_nodes. apply fold_left_same_control.
  intros g' x. destruct (get_endpoint_state_for_endpoint_ptr x.1 g');
    [|reflexivity].
  cbv zeta. by destruct (if _ >? _ then _ else _).
Qed.

Lemma same_control_apply_state_locally (shuffle : list Z -> list Z)
    (map : gmap Z endpoint_state) (g : gossiper) :
  same_control g (apply_state_locally shuffle map g).
Proof.
  unfold apply_state_locally. cbv zeta. apply fold_left_same_control.
  intros g' ep. destruct (_ && _); [reflexivity|].
  destruct (bool_decide _); [reflexivity|].
  destruct (map !! ep); [|reflexivity].
  apply same_control_do_apply_state_locally.
Qed.

Lemma do_send_ack_msg_emits (std_sort : list gossip_digest -> list gossip_digest)
    (from : Z) (syn_msg : gossip_digest_syn) (g : gossiper) :
  exists ack, do_send_ack_msg std_sort from syn_msg g =
              emit (send_gossip_digest_ack from ack) g.
Proof.
  unfold do_send_ack_msg. cbv zeta.
  destruct (examine_gossiper _ _ _ _) as [dl dm]. by eexists.
Qed.

Section HandlerProperties.

Variable std_sort : list gossip_digest -> list gossip_digest.
Variable shuffle : list Z -> list Z.

(** What [handle_syn_msg] does, by the state of the slot of the source. *)
Lemma handle_syn_msg_cases (from : Z) (syn_msg : gossip_digest_syn)
    (g : gossiper) :
  handle_syn_msg std_sort from syn_msg g = (g, false) \/
  (pending (slot_of from (_syn_handlers g)) = true /\
   handle_syn_msg std_sort from syn_msg g =
     (set_syn_handlers
        (<[from := mk_msg_pending (pending (slot_of from (_syn_handlers g)))
                     (Some syn_msg)]> (_syn_handlers g)) g, false)) \/
  (pending (slot_of from (_syn_handlers g)) = false /\
   exists ack,
     handle_syn_msg std_sort from syn_msg g =
       (emit (send_gossip_digest_ack from ack)
          (set_syn_handlers
             (<[from := mk_msg_pending true
                          (pending_msg (slot_of from (_syn_handlers g)))]>
                (_syn_handlers g)) g), true)).
Proof.
  unfold handle_syn_msg.
  destruct (negb (is_enabled g)); [by left|].
  destruct (negb (String.eqb _ _)); [by left|].
  destruct (_ && _); [by left|]. cbv zeta.
  destruct (pending (slot_of from (_syn_handlers g))) eqn:Hp.
  - right. left. by split.
  - right. right. split; [done|].
    destruct (do_send_ack_msg_emits std_sort from syn_msg
                (set_syn_handlers
                   (<[from := mk_msg_pending true
                                (pending_msg (slot_of from (_syn_handlers g)))]>
                      (_syn_handlers g)) g)) as [ack ->].
    by exists ack.
Qed.

Lemma handle_ack_msg_apply_control (ack_msg : gossip_digest_ack)
    (g : gossiper) :
  same_handlers g (handle_ack_msg_apply shuffle ack_msg g) /\
  env (handle_ack_msg_apply shuffle ack_msg g) = env g /\
  _enabled (handle_ack_msg_apply shuffle ack_msg g) = _enabled g /\
  _in_shadow_round (handle_ack_msg_apply shuffle ack_msg g) =
    _in_shadow_round g.
Proof.
  unfold handle_ack_msg_apply, same_handlers, begin_msg_processing.
  cbv zeta. set (m := get_endpoint_state_map ack_msg).
  assert (H : forall g0,
            same_control g0
              (if (0 <? size m)%nat
               then apply_state_locally shuffle m
                      (update_timestamp_for_nodes m g0)
               else g0)).
  { intros g0. destruct (0 <? size m)%nat; [|reflexivity].
    etransitivity; [apply same_control_update_timestamp_for_nodes|].
    apply same_control_apply_state_locally. }
  destruct (should_count_as_msg_processing m).
  - destruct (H (set_msg_processing (_msg_processing g + 1) g)). by repeat split.
  - destruct (H g). by repeat split.
Qed.

Lemma end_msg_processing_handlers (map : gmap Z endpoint_state) (g : gossiper) :
  _syn_handlers (end_msg_processing map g) = _syn_handlers g /\
  _ack_handlers (end_msg_processing map g) = _ack_handlers g /\
  trace (end_msg_processing map g) = trace g.
Proof.
  unfold end_msg_processing. by destruct (should_count_as_msg_processing map).
Qed.

Lemma remove_endpoint_handlers (endpoint : Z) (g : gossiper) :
  _syn_handlers (remove_endpoint endpoint g) =
    delete endpoint (_syn_handlers g) /\
  _ack_handlers (remove_endpoint endpoint g) =
    delete endpoint (_ack_handlers g).
Proof.
  unfold remove_endpoint. cbv zeta.
  by destruct (bool_decide (endpoint ∈ _seeds (emit (on_remove endpoint) g))).
Qed.

(** The slot of a source without a loop in flight is erased. *)
Lemma slots_agree_delete {M : Type} (handlers : gmap Z (msg_pending M))
    (in_flight : list Z) (endpoint : Z) :
  slots_agree handlers in_flight -> endpoint ∉ in_flight ->
  slots_agree (delete endpoint handlers) in_flight.
Proof.
  intros (Hnd & Hin & Hst) Hout. split; [done|]. split.
  - intros x. rewrite Hin. destruct (decide (x = endpoint)) as [->|Hne].
    + rewrite lookup_delete_eq. split.
      * intros Hp. exfalso. apply Hout. by apply Hin.
      * by intros (p & Hp & _).
    + by rewrite lookup_delete_ne.
  - intros x p Hp. apply lookup_delete_Some in Hp as [_ Hp].
    exact (Hst x p Hp).
Qed.

(** The arrival of an ACK leaves the slots as they are. *)
Lemma handle_ack_msg_arrives_handlers (ack_msg : gossip_digest_ack)
    (g : gossiper) :
  same_handlers g (handle_ack_msg_arrives shuffle ack_msg g).1.
Proof.
  unfold handle_ack_msg_arrives. destruct (_ && _); [by split|].
  apply handle_ack_msg_apply_control.
Qed.

(** Every step keeps the slots and the loops in flight in agreement; the
    removal of an endpoint does when none of its loops is in flight. *)
Lemma run_action_node_ok (a : action) (n : node) :
  match a with
  | endpoint_removed endpoint =>
      (endpoint ∉ syn_in_flight n) /\ (endpoint ∉ ack_in_flight n)
  | _ => True
  end ->
  node_ok n -> node_ok (run_action std_sort shuffle a n).
Proof.
  intros Ha [Hsyn Hack]. destruct a as [from syn_msg|from|from|from ack_msg|i|
                                        from|from|endpoint]; simpl in *.
  - destruct (handle_syn_msg_cases from syn_msg (gsp n))
      as [->|[[Hp ->]|[Hp [ack ->]]]]; simpl.
    + by split.
    + split; [by apply slots_agree_stash|done].
    + split; [by apply slots_agree_start|done].
  - destruct (bool_decide_reflect (from ∈ syn_in_flight n)) as [Hin|Hin];
      [|by split].
    unfold syn_handler_ack_sent.
    destruct (_syn_handlers (gsp n) !! from) as [p|] eqn:E.
    + destruct (pending_msg p) as [syn_msg|] eqn:Es.
      * destruct (do_send_ack_msg_emits std_sort from syn_msg
          (set_syn_handlers
             (<[from := mk_msg_pending (pending p) None]>
                (_syn_handlers (gsp n))) (gsp n))) as [ack ->]. simpl.
        split; [by eapply slots_agree_take|done].
      * simpl. split; [by apply slots_agree_end|done].
    + exfalso. destruct Hsyn as (_ & Hiff & _).
      apply Hiff in Hin as (p & Hp & _). congruence.
  - destruct (bool_decide_reflect (from ∈ syn_in_flight n)) as [Hin|Hin];
      [|by split].
    unfold syn_handler_ack_failed.
    destruct (_syn_handlers (gsp n) !! from) as [p|] eqn:E; simpl.
    + split; [by apply slots_agree_end|done].
    + exfalso. destruct Hsyn as (_ & Hiff & _).
      apply Hiff in Hin as (p & Hp & _). congruence.
  - destruct (handle_ack_msg_arrives_handlers ack_msg (gsp n)) as [Hs Hk].
    destruct (handle_ack_msg_arrives shuffle ack_msg (gsp n)) as [g awaited].
    cbn [fst] in Hs, Hk. unfold node_ok. cbn [gsp syn_in_flight ack_in_flight].
    by rewrite Hs, Hk.
  - destruct (ack_applying n !! i) as [[from ack_msg]|]; [|by split].
    unfold handle_ack_msg_applied, handle_ack_msg_then.
    destruct (is_in_shadow_round (gsp n)).
    { unfold node_ok. simpl.
      destruct (end_msg_processing_handlers (get_endpoint_state_map ack_msg)
                  (set_in_shadow_round false (gsp n))) as (-> & -> & _).
      by split. }
    destruct (pending (slot_of from (_ack_handlers (gsp n)))) eqn:Hp;
      cbv zeta; unfold node_ok; simpl.
    + match goal with |- context [end_msg_processing ?m ?g] =>
        destruct (end_msg_processing_handlers m g) as (-> & -> & _) end.
      simpl. split; [done|]. rewrite <- Hp. by apply slots_agree_stash.
    + match goal with |- context [end_msg_processing ?m ?g] =>
        destruct (end_msg_processing_handlers m g) as (-> & -> & _) end.
      simpl. split; [done|]. by apply slots_agree_start.
  - destruct (bool_decide_reflect (from ∈ ack_in_flight n)) as [Hin|Hin];
      [|by split].
    unfold ack_handler_ack2_sent.
    destruct (_ack_handlers (gsp n) !! from) as [p|] eqn:E.
    + destruct (pending_msg p) as [digests|] eqn:Es; simpl.
      * split; [done|by eapply slots_agree_take].
      * split; [done|by apply slots_agree_end].
    + exfalso. destruct Hack as (_ & Hiff & _).
      apply Hiff in Hin as (p & Hp & _). congruence.
  - destruct (bool_decide_reflect (from ∈ ack_in_flight n)) as [Hin|Hin];
      [|by split].
    unfold ack_handler_ack2_failed.
    destruct (_ack_handlers (gsp n) !! from) as [p|] eqn:E; simpl.
    + split; [done|by apply slots_agree_end].
    + exfalso. destruct Hack as (_ & Hiff & _).
      apply Hiff in Hin as (p & Hp & _). congruence.
  - destruct Ha as [Hout_s Hout_a].
    destruct (remove_endpoint_handlers endpoint (gsp n)) as [Hs Hk].
    unfold node_ok. cbn [gsp syn_in_flight ack_in_flight]. rewrite Hs, Hk.
    split; by apply slots_agree_delete.
Qed.

Lemma run_actions_node_ok (l : list action) (n : node) :
  removals_outside_loops std_sort shuffle l n -> node_ok n ->
  node_ok (run_actions std_sort shuffle l n).
Proof.
  unfold run_actions. revert n.
  induction l as [|a l IH]; intros n Hl Hn; [done|].
  cbn [removals_outside_loops] in Hl. destruct Hl as [Ha Hl].
  cbn [fold_left]. apply IH; [done|]. by apply run_action_node_ok.
Qed.

Lemma idle_node_ok (n : node) : idle n -> node_ok n.
Proof.
  intros (Hs & Ha & Hsf & Haf & _). unfold node_ok.
  rewrite Hs, Ha, Hsf, Haf. split; apply slots_agree_empty.
Qed.

End HandlerProperties.


Section Serialization.

Variable std_sort : list gossip_digest -> list gossip_digest.
Variable shuffle : list Z -> list Z.

Lemma handle_syn_msg_stashes (from : Z) (syn_msg : gossip_digest_syn)
    (g : gossiper) (p : msg_pending gossip_digest_syn) :
  syn_accepted syn_msg g ->
  _syn_handlers g !! from = Some p -> pending p = true ->
  handle_syn_msg std_sort from syn_msg g =
    (set_syn_handlers
       (<[from := mk_msg_pending true (Some syn_msg)]> (_syn_handlers g)) g,
     false).
Proof.
  intros (He & Hc & Hp) Hl Hpend. unfold handle_syn_msg, slot_of.
  rewrite He, Hc, String.eqb_refl, Hl. simpl. rewrite Hpend.
  assert (Hpart : negb (String.eqb (partioner syn_msg) "")
                  && negb (String.eqb (partioner syn_msg)
                             (cfg_partitioner_name (env g))) = false).
  { destruct Hp as [->| ->]; [done|]. rewrite String.eqb_refl.
    by rewrite andb_false_r. }
  by rewrite Hpart.
Qed.

Lemma handle_ack_msg_applied_stashes (from : Z) (ack_msg : gossip_digest_ack)
    (g : gossiper) (p : msg_pending (list gossip_digest)) :
  is_in_shadow_round g = false ->
  _ack_handlers g !! from = Some p -> pending p = true ->
  handle_ack_msg_applied from ack_msg g =
    (end_msg_processing (get_endpoint_state_map ack_msg)
       (set_ack_handlers
          (<[from := mk_msg_pending true
                       (Some (get_gossip_digest_list ack_msg))]>
             (_ack_handlers g)) g),
     false).
Proof.
  intros Hsh Hl Hpend.
  unfold handle_ack_msg_applied, handle_ack_msg_then.
  rewrite Hsh. unfold slot_of. rewrite Hl. simpl. by rewrite Hpend.
Qed.

(** C5, as it holds. Start from a node on which no handler has run, and let
    SYN and ACK messages arrive, the continuations of ACKs run once their
    deltas are applied, and handler loops complete or fail, in any order,
    with an endpoint removed only while none of its loops is in flight.
    Then for every source: at most one SYN loop and at most one ACK loop is
    in flight; its slot holds at most one stashed message, and only while
    its loop is in flight; a SYN that arrives while the loop is in flight
    becomes the stashed message, whatever was stashed, without starting a
    loop or sending anything, and when the loop next completes a send it is
    that message whose ACK is sent; an ACK leaves the slots alone when it
    arrives and reaches the slot of its source when its continuation runs,
    in whatever order the continuations run: its digests then become the
    stashed message, whatever was stashed, and when the loop next completes
    a send it is for them that the ACK2 is sent. *)
Theorem handlers_serialized (n0 : node) (l : list action) :
  idle n0 ->
  removals_outside_loops std_sort shuffle l n0 ->
  let n := run_actions std_sort shuffle l n0 in
  (forall from,
     (count_occ Z.eq_dec (syn_in_flight n) from <= 1)%nat /\
     (count_occ Z.eq_dec (ack_in_flight n) from <= 1)%nat) /\
  (forall from p, _syn_handlers (gsp n) !! from = Some p ->
     is_Some (pending_msg p) -> from ∈ syn_in_flight n) /\
  (forall from p, _ack_handlers (gsp n) !! from = Some p ->
     is_Some (pending_msg p) -> from ∈ ack_in_flight n) /\
  (forall from syn_msg,
     from ∈ syn_in_flight n -> syn_accepted syn_msg (gsp n) ->
     let n1 := run_action std_sort shuffle (recv_syn from syn_msg) n in
     syn_in_flight n1 = syn_in_flight n /\
     ack_in_flight n1 = ack_in_flight n /\
     trace (gsp n1) = trace (gsp n) /\
     _syn_handlers (gsp n1) !! from =
       Some (mk_msg_pending true (Some syn_msg)) /\
     exists g',
       run_action std_sort shuffle (syn_ack_sent from) n1 =
         mk_node (do_send_ack_msg std_sort from syn_msg g')
           (syn_in_flight n) (ack_in_flight n) (ack_applying n) /\
       trace g' = trace (gsp n) /\
       _syn_handlers g' !! from = Some (mk_msg_pending true None)) /\
  (forall from ack_msg,
     let n1 := run_action std_sort shuffle (recv_ack from ack_msg) n in
     _syn_handlers (gsp n1) = _syn_handlers (gsp n) /\
     _ack_handlers (gsp n1) = _ack_handlers (gsp n) /\
     syn_in_flight n1 = syn_in_flight n /\
     ack_in_flight n1 = ack_in_flight n /\
     (is_enabled (gsp n) = true \/ is_in_shadow_round (gsp n) = true ->
      ack_applying n1 = (from, ack_msg) :: ack_applying n)) /\
  (forall i from ack_msg,
     ack_applying n !! i = Some (from, ack_msg) ->
     from ∈ ack_in_flight n -> is_in_shadow_round (gsp n) = false ->
     let n1 := run_action std_sort shuffle (ack_applied i) n in
     syn_in_flight n1 = syn_in_flight n /\
     ack_in_flight n1 = ack_in_flight n /\
     ack_applying n1 = delete i (ack_applying n) /\
     _ack_handlers (gsp n1) !! from =
       Some (mk_msg_pending true (Some (get_gossip_digest_list ack_msg))) /\
     exists g',
       run_action std_sort shuffle (ack_ack2_sent from) n1 =
         mk_node (do_send_ack2_msg from (get_gossip_digest_list ack_msg) g')
           (syn_in_flight n) (ack_in_flight n) (delete i (ack_applying n)) /\
       _ack_handlers g' !! from = Some (mk_msg_pending true None)).
Proof.
  intros Hidle Hl n.
  assert (Hok : node_ok n)
    by (apply run_actions_node_ok; [done|by apply idle_node_ok]).
  destruct Hok as [(Hnd_s & Hin_s & Hst_s) (Hnd_a & Hin_a & Hst_a)].
  split; [|split; [|split; [|split; [|split]]]].
  - intros from.
    split; by apply (proj1 (NoDup_count_occ Z.eq_dec _)), NoDup_ListNoDup.
  - intros from p Hp [m Hm]. apply Hin_s. exists p. split; [done|].
    destruct (pending p) eqn:E; [done|]. rewrite (Hst_s from p Hp E) in Hm.
    done.
  - intros from p Hp [m Hm]. apply Hin_a. exists p. split; [done|].
    destruct (pending p) eqn:E; [done|]. rewrite (Hst_a from p Hp E) in Hm.
    done.
  - intros from syn_msg Hin Hacc.
    destruct (proj1 (Hin_s from) Hin) as (p & Hp & Hpend).
    cbv zeta. simpl.
    rewrite (handle_syn_msg_stashes from syn_msg (gsp n) p Hacc Hp Hpend).
    simpl. repeat split; [apply lookup_insert_eq|].
    rewrite bool_decide_eq_true_2 by done.
    unfold syn_handler_ack_sent. simpl. rewrite lookup_insert_eq. simpl.
    eexists. split; [reflexivity|]. simpl. split; [done|].
    apply lookup_insert_eq.
  - intros from ack_msg. cbv zeta. cbn [run_action].
    destruct (handle_ack_msg_arrives_handlers shuffle ack_msg (gsp n))
      as [Hs Hk].
    unfold handle_ack_msg_arrives in *.
    destruct (negb (is_enabled (gsp n)) && negb (is_in_shadow_round (gsp n)))
      eqn:Hdrop; cbn [fst gsp syn_in_flight ack_in_flight ack_applying] in *.
    + repeat split. intros [He|Hsh]; [rewrite He in Hdrop|rewrite Hsh in Hdrop];
        simpl in Hdrop; [discriminate|].
      by rewrite andb_false_r in Hdrop.
    + by repeat split.
  - intros i from ack_msg Hi Hin Hsh.
    destruct (proj1 (Hin_a from) Hin) as (p & Hp & Hpend).
    cbv zeta. cbn [run_action]. rewrite Hi.
    rewrite (handle_ack_msg_applied_stashes from ack_msg (gsp n) p Hsh Hp Hpend).
    cbn [gsp syn_in_flight ack_in_flight ack_applying].
    match goal with |- context [end_msg_processing ?m ?g] =>
      destruct (end_msg_processing_handlers m g) as (_ & Hk & _) end.
    repeat split.
    + rewrite Hk. simpl. apply lookup_insert_eq.
    + rewrite bool_decide_eq_true_2 by done.
      unfold ack_handler_ack2_sent. rewrite Hk. simpl.
      rewrite lookup_insert_eq. simpl.
      eexists. split; [reflexivity|]. simpl. apply lookup_insert_eq.
Qed.

End Serialization.

Lemma handlers_serialized_witness :
  (count_occ Z.eq_dec
     (syn_in_flight
        (run_actions insertion_sort (fun l => l) sample_removal_between
           sample_node))
     sample_peer <= 1)%nat.
Proof.
  refine (proj1 (proj1 (handlers_serialized insertion_sort (fun l => l)
            sample_node sample_removal_between _ _) sample_peer)).
  - repeat split; reflexivity.
  - cbn [removals_outside_loops sample_removal_between].
    split; [exact I|]. split; [exact I|]. split; [|split; exact I].
    assert (E : run_action insertion_sort (fun l => l) (syn_ack_sent 7)
                  (run_action insertion_sort (fun l => l)
                     (recv_syn 7 (sample_syn [])) sample_node) =
                mk_node
                  (gsp (run_action insertion_sort (fun l => l) (syn_ack_sent 7)
                          (run_action insertion_sort (fun l => l)
                             (recv_syn 7 (sample_syn [])) sample_node)))
                  [] [] []) by (vm_compute; reflexivity).
    rewrite E. cbn [syn_in_flight ack_in_flight].
    split; apply not_elem_of_nil.
Defined.

(** C5, as stated, fails when the endpoint is removed while its handler loop
    is in flight: [remove_endpoint] erases its slot, and the next SYN from it
    starts a second loop beside the first. *)
Lemma removal_lets_second_handler_start :
  idle sample_node /\
  syn_in_flight
    (run_actions insertion_sort (fun l => l) sample_removal_race sample_node)
  = [7; 7] /\
  count_occ Z.eq_dec
    (syn_in_flight
       (run_actions insertion_sort (fun l => l) sample_removal_race
          sample_node)) 7 = 2%nat.
Proof.
  split; [repeat split; reflexivity|]. split; vm_compute; reflexivity.
Qed.

(** The stashed message is the one that reached the slot last, which for
    ACKs need not be the one that arrived last: of two ACKs of peer 7 whose
    deltas are being applied while the loop of peer 7 is in flight, the
    continuation of the later one runs first, and the digests left in the
    stash are those of the earlier one. *)
Lemma earlier_ack_reaches_slot_last :
  let n := run_actions insertion_sort (fun l => l) sample_overtaking
             sample_node in
  ack_in_flight n = [7] /\
  ack_applying n = [] /\
  _ack_handlers (gsp n) !! 7 =
    Some (mk_msg_pending true (Some [mk_gossip_digest 8 1 1])).
Proof. cbv zeta. repeat split; vm_compute; reflexivity. Qed.

(** ** Counting the messages in processing *)

Lemma should_count_as_msg_processing_iff (map : gmap Z endpoint_state) :
  should_count_as_msg_processing map = true <-> has_significant_key map.
Proof.
  unfold should_count_as_msg_processing, has_significant_key.
  rewrite existsb_exists. split.
  - intros [[ep state] [Hin Hex]]. simpl in Hex.
    apply existsb_exists in Hex as [[key v] [Hin' Hk]]. simpl in Hk.
    apply list_elem_of_In, elem_of_map_to_list in Hin.
    apply list_elem_of_In, elem_of_map_to_list in Hin'.
    exists ep, state, key, v. by rewrite <- is_noise_key_false.
  - intros (ep & state & key & v & Hep & Hkey & Hk).
    exists (ep, state). split.
    + by apply list_elem_of_In, elem_of_map_to_list.
    + simpl. apply existsb_exists. exists (key, v). split.
      * by apply list_elem_of_In, elem_of_map_to_list.
      * simpl. by apply is_noise_key_false.
Qed.

Lemma begin_msg_processing_counts (map : gmap Z endpoint_state) (g : gossiper) :
  (has_significant_key map ->
   _msg_processing (begin_msg_processing map g) = _msg_processing g + 1) /\
  (~ has_significant_key map ->
   _msg_processing (begin_msg_processing map g) = _msg_processing g).
Proof.
  unfold begin_msg_processing.
  destruct (should_count_as_msg_processing map) eqn:E.
  - split; [done|]. intros Hn. exfalso.
    by apply Hn, should_count_as_msg_processing_iff.
  - split; [|done]. intros Hs.
    apply should_count_as_msg_processing_iff in Hs. congruence.
Qed.

Lemma handle_ack_msg_then_counter (from : Z)
    (ack_msg_digest : list gossip_digest) (g : gossiper) :
  _msg_processing (handle_ack_msg_then from ack_msg_digest g).1 =
  _msg_processing g.
Proof.
  unfold handle_ack_msg_then. destruct (is_in_shadow_round g); [done|].
  cbv zeta. by destruct (pending _).
Qed.

Section Counting.

Variable shuffle : list Z -> list Z.

Lemma handle_ack_msg_apply_counter (ack_msg : gossip_digest_ack)
    (g : gossiper) :
  _msg_processing (handle_ack_msg_apply shuffle ack_msg g) =
  _msg_processing (begin_msg_processing (get_endpoint_state_map ack_msg) g).
Proof.
  unfold handle_ack_msg_apply. cbv zeta.
  destruct (0 <? size (get_endpoint_state_map ack_msg))%nat; [|done].
  rewrite (sc_msg_processing _ _ (same_control_apply_state_locally _ _ _)).
  apply (sc_msg_processing _ _ (same_control_update_timestamp_for_nodes _ _)).
Qed.

Lemma handle_ack2_msg_apply_counter (map : gmap Z endpoint_state)
    (g : gossiper) :
  _msg_processing (handle_ack2_msg_apply shuffle map g) =
  _msg_processing (begin_msg_processing map g).
Proof.
  unfold handle_ack2_msg_apply. cbv zeta.
  rewrite (sc_msg_processing _ _ (same_control_apply_state_locally _ _ _)).
  unfold begin_msg_processing.
  destruct (should_count_as_msg_processing map); cbn [_msg_processing
    set_msg_processing];
    by rewrite (sc_msg_processing _ _
                  (same_control_update_timestamp_for_nodes _ _)).
Qed.

(** C7, as it holds. [should_count_as_msg_processing] returns true exactly
    when some per-peer state map of the message holds an application-state
    key outside LOAD, VIEW_BACKLOG, CACHE_HITRATES. An ACK that
    [handle_ack_msg] does not drop (gossip is enabled, or the node is in its
    shadow round) and an ACK2 that [handle_ack2_msg] does not drop (gossip
    is enabled) raise [_msg_processing], the counter the settle wait polls,
    by one while their state is applied exactly when the message holds such
    a key, and the counter is back when the handler is through with the
    message. A message that is dropped is never counted. *)
Theorem should_count_as_msg_processing_spec (from : Z) (g : gossiper) :
  (forall map,
     should_count_as_msg_processing map = true <-> has_significant_key map) /\
  (forall ack_msg,
     is_enabled g = true \/ is_in_shadow_round g = true ->
     let map := get_endpoint_state_map ack_msg in
     let applying := handle_ack_msg_apply shuffle ack_msg g in
     (has_significant_key map ->
      _msg_processing applying = _msg_processing g + 1) /\
     (~ has_significant_key map ->
      _msg_processing applying = _msg_processing g) /\
     handle_ack_msg shuffle from ack_msg g =
       handle_ack_msg_applied from ack_msg applying /\
     _msg_processing (handle_ack_msg shuffle from ack_msg g).1 =
       _msg_processing g) /\
  (forall map,
     is_enabled g = true ->
     let applying := handle_ack2_msg_apply shuffle map g in
     (has_significant_key map ->
      _msg_processing applying = _msg_processing g + 1) /\
     (~ has_significant_key map ->
      _msg_processing applying = _msg_processing g) /\
     handle_ack2_msg shuffle from map g = end_msg_processing map applying /\
     _msg_processing (handle_ack2_msg shuffle from map g) =
       _msg_processing g) /\
  (is_enabled g = false ->
   (forall map, handle_ack2_msg shuffle from map g = g) /\
   (is_in_shadow_round g = false ->
    forall ack_msg, handle_ack_msg shuffle from ack_msg g = (g, false))).
Proof.
  split; [apply should_count_as_msg_processing_iff|].
  split; [|split].
  - intros ack_msg Hacc. cbv zeta.
    destruct (begin_msg_processing_counts (get_endpoint_state_map ack_msg) g)
      as [Hyes Hno].
    rewrite handle_ack_msg_apply_counter.
    split; [exact Hyes|]. split; [exact Hno|].
    assert (Hun : handle_ack_msg shuffle from ack_msg g =
                  handle_ack_msg_applied from ack_msg
                    (handle_ack_msg_apply shuffle ack_msg g)).
    { unfold handle_ack_msg.
      destruct Hacc as [-> | ->]; [done|]. by rewrite andb_false_r. }
    split; [exact Hun|]. rewrite Hun. unfold handle_ack_msg_applied.
    pose proof (handle_ack_msg_then_counter from
                  (get_gossip_digest_list ack_msg)
                  (handle_ack_msg_apply shuffle ack_msg g)) as Hthen.
    destruct (handle_ack_msg_then _ _ _) as [g' started]. cbn [fst] in *.
    unfold end_msg_processing. rewrite handle_ack_msg_apply_counter in Hthen.
    unfold begin_msg_processing in Hthen.
    destruct (should_count_as_msg_processing (get_endpoint_state_map ack_msg));
      cbn [_msg_processing set_msg_processing] in *; lia.
  - intros map He. cbv zeta.
    destruct (begin_msg_processing_counts map g) as [Hyes Hno].
    rewrite handle_ack2_msg_apply_counter.
    split; [exact Hyes|]. split; [exact Hno|].
    assert (Hun : handle_ack2_msg shuffle from map g =
                  end_msg_processing map (handle_ack2_msg_apply shuffle map g)).
    { unfold handle_ack2_msg. by rewrite He. }
    split; [exact Hun|]. rewrite Hun.
    pose proof (handle_ack2_msg_apply_counter map g) as Hc.
    unfold end_msg_processing, begin_msg_processing in *.
    destruct (should_count_as_msg_processing map);
      cbn [_msg_processing set_msg_processing] in *; lia.
  - intros He. split.
    + intros map. unfold handle_ack2_msg. by rewrite He.
    + intros Hsh ack_msg. unfold handle_ack_msg. by rewrite He, Hsh.
Qed.

End Counting.

Lemma should_count_as_msg_processing_spec_witness :
  _msg_processing
    (handle_ack2_msg_apply (fun l => l)
       {[7 := sample_state 900 3 "NORMAL" 2 true]}
       (sample_gossiper false sample_local_only)) = 1.
Proof.
  refine (proj1 (proj1 (proj2 (proj2 (should_count_as_msg_processing_spec
            (fun l => l) 7 (sample_gossiper false sample_local_only))))
            {[7 := sample_state 900 3 "NORMAL" 2 true]} _) _).
  - reflexivity.
  - exists 7, (sample_state 900 3 "NORMAL" 2 true), STATUS,
      (mk_versioned_value "NORMAL" 2).
    repeat split; try reflexivity; discriminate.
Defined.

(** C7, as stated, fails for a message that the handler drops: on a node
    where gossip is disabled (and that is not in its shadow round), an ACK
    and an ACK2 that carry the STATUS of peer 7 are returned from at the
    first test, and [_msg_processing] is never raised for them. *)
Lemma significant_message_dropped_uncounted :
  let g := sample_disabled sample_local_only in
  let map := {[7 := sample_state 900 3 "NORMAL" 2 true]} in
  should_count_as_msg_processing map = true /\
  handle_ack2_msg (fun l => l) 7 map g = g /\
  handle_ack_msg (fun l => l) 7 (mk_gossip_digest_ack [] map) g = (g, false) /\
  _msg_processing g = 0.
Proof. cbv zeta. repeat split; vm_compute; reflexivity. Qed.

(** ** Dead states, shutdown and the alive flag *)

Lemma fold_left_preserves_field {A B : Type} (proj : gossiper -> B)
    (f : gossiper -> A -> gossiper) (l : list A) (g : gossiper) :
  (forall g a, proj (f g a) = proj g) -> proj (fold_left f l g) = proj g.
Proof.
  intros H. revert g. induction l as [|a l IH]; intros g; simpl; [done|].
  by rewrite IH, H.
Qed.

Lemma mark_dead_pending (addr : Z) (g : gossiper) :
  _pending_mark_alive_endpoints (mark_dead addr g) =
  _pending_mark_alive_endpoints g.
Proof.
  unfold mark_dead. by destruct (get_endpoint_state_for_endpoint_ptr addr g).
Qed.

Lemma mark_as_shutdown_result (endpoint : Z) (g : gossiper)
    (st : endpoint_state) :
  _endpoint_state_map g !! endpoint = Some st ->
  _pending_mark_alive_endpoints (mark_as_shutdown endpoint g) =
    _pending_mark_alive_endpoints g /\
  exists v,
    _endpoint_state_map (mark_as_shutdown endpoint g) !! endpoint =
    Some (set_alive false
            (force_highest_possible_version_unsafe
               (add_application_state STATUS
                  (mk_versioned_value (SHUTDOWN ++ ",true") v) st))).
Proof.
  intros E. rewrite mark_as_shutdown_unfold.
  unfold get_endpoint_state_for_endpoint_ptr. rewrite E.
  unfold versioned_value_shutdown, get_next_version. cbv zeta iota beta.
  rewrite convict_noop by apply mark_dead_not_alive.
  split; [by rewrite mark_dead_pending|].
  eexists. rewrite mark_dead_lookup. simpl. by rewrite lookup_insert_eq.
Qed.

Lemma shutdown_is_not_dead_state (v : Z) (st : endpoint_state) :
  is_dead_state
    (set_alive false
       (force_highest_possible_version_unsafe
          (add_application_state STATUS
             (mk_versioned_value (SHUTDOWN ++ ",true") v) st))) = false.
Proof.
  unfold is_dead_state, get_gossip_status, get_application_state_ptr. simpl.
  by rewrite lookup_insert_eq.
Qed.

Lemma dead_state_is_not_shutdown (eps : endpoint_state) :
  is_dead_state eps = true ->
  String.eqb (get_gossip_status eps) SHUTDOWN = false.
Proof.
  unfold is_dead_state, DEAD_STATES. simpl.
  destruct (String.eqb_spec (get_gossip_status eps) REMOVING_TOKEN) as [->|_];
    [done|].
  destruct (String.eqb_spec (get_gossip_status eps) REMOVED_TOKEN) as [->|_];
    [done|].
  destruct (String.eqb_spec (get_gossip_status eps) STATUS_LEFT) as [->|_];
    [done|]. done.
Qed.

Lemma mark_alive_lookup (addr : Z) (g : gossiper) (st : endpoint_state) :
  addr ∉ _pending_mark_alive_endpoints g ->
  _endpoint_state_map g !! addr = Some st ->
  _endpoint_state_map (mark_alive addr g) !! addr = Some (set_alive false st)
  /\ addr ∈ _pending_mark_alive_endpoints (mark_alive addr g).
Proof.
  intros Hp E. unfold mark_alive. rewrite bool_decide_eq_false_2 by done.
  simpl. split; [|set_solver].
  destruct (decide (get_broadcast_address (env g) = addr)) as [->|Hne].
  - rewrite lookup_insert_eq. unfold at_or_default.
    by rewrite lookup_alter_eq, E.
  - rewrite lookup_insert_ne by done. by rewrite lookup_alter_eq, E.
Qed.

Lemma apply_new_states_pending (addr : Z) (remote_state : endpoint_state)
    (g : gossiper) :
  _pending_mark_alive_endpoints (apply_new_states addr remote_state g) =
  _pending_mark_alive_endpoints g.
Proof.
  unfold apply_new_states.
  destruct (get_endpoint_state_for_endpoint_ptr addr g); [|done]. cbv zeta.
  destruct (apply_new_states_loop _ _) as [[local_state changed] thrown].
  rewrite (fold_left_preserves_field _pending_mark_alive_endpoints); [done|].
  intros g' key. by destruct (_ !! key).
Qed.

Lemma major_state_stored_facts (ep : Z) (eps : endpoint_state) (g : gossiper) :
  _endpoint_state_map (major_state_stored ep eps g) !! ep = Some eps /\
  _pending_mark_alive_endpoints (major_state_stored ep eps g) =
    _pending_mark_alive_endpoints g /\
  _unreachable_endpoints (major_state_stored ep eps g) =
    _unreachable_endpoints g.
Proof.
  unfold major_state_stored. cbv zeta.
  destruct (get_endpoint_state_for_endpoint_ptr ep g); simpl;
    by rewrite lookup_insert_eq.
Qed.

Lemma handle_major_state_change_unfold (ep : Z) (eps : endpoint_state)
    (g : gossiper) :
  is_in_shadow_round g = false ->
  handle_major_state_change ep eps g =
  let g2 := major_state_stored ep eps g in
  let g3 := if negb (is_dead_state eps) then mark_alive ep g2
            else mark_dead ep g2 in
  let g4 := match get_endpoint_state_for_endpoint_ptr ep g3 with
            | Some eps_new => emit (on_join ep eps_new) g3
            | None => g3
            end in
  if is_shutdown ep g4 then mark_as_shutdown ep g4 else g4.
Proof.
  intros Hs. unfold handle_major_state_change, major_state_stored. cbv zeta.
  assert (H1 : is_in_shadow_round
                 (replicate ep eps
                    (set_endpoint_state_map
                       (<[ep := eps]> (_endpoint_state_map g)) g)) = false)
    by done.
  rewrite H1.
  destruct (get_endpoint_state_for_endpoint_ptr ep g) as [old|].
  - assert (H2 : get_endpoint_state_for_endpoint_ptr ep
                   (emit (on_restart ep old)
                      (replicate ep eps
                         (set_endpoint_state_map
                            (<[ep := eps]> (_endpoint_state_map g)) g)))
                 = Some eps)
      by (unfold get_endpoint_state_for_endpoint_ptr; simpl;
          apply lookup_insert_eq).
    by rewrite H2.
  - assert (H2 : get_endpoint_state_for_endpoint_ptr ep
                   (replicate ep eps
                      (set_endpoint_state_map
                         (<[ep := eps]> (_endpoint_state_map g)) g))
                 = Some eps)
      by (unfold get_endpoint_state_for_endpoint_ptr; simpl;
          apply lookup_insert_eq).
    by rewrite H2.
Qed.

Lemma handle_major_state_change_dead (ep : Z) (eps : endpoint_state)
    (g : gossiper) :
  is_in_shadow_round g = false -> is_dead_state eps = true ->
  handle_major_state_change ep eps g =
    emit (on_join ep (set_alive false eps))
      (mark_dead ep (major_state_stored ep eps g)).
Proof.
  intros Hs Hd. rewrite handle_major_state_change_unfold by done. cbv zeta.
  rewrite Hd. simpl negb. cbv iota.
  destruct (major_state_stored_facts ep eps g) as (Hl & _ & _).
  unfold get_endpoint_state_for_endpoint_ptr.
  rewrite mark_dead_lookup, Hl. simpl.
  assert (Hsh : is_shutdown ep
                  (emit (on_join ep (set_alive false eps))
                     (mark_dead ep (major_state_stored ep eps g))) = false).
  { unfold is_shutdown, get_gossip_status_of, get_application_state_ptr_of,
      get_endpoint_state_for_endpoint_ptr. simpl.
    rewrite mark_dead_lookup, Hl. simpl.
    by apply dead_state_is_not_shutdown. }
  by rewrite Hsh.
Qed.

Lemma handle_major_state_change_handshake (ep : Z) (eps : endpoint_state)
    (g : gossiper) :
  ep ∉ _pending_mark_alive_endpoints g ->
  ep ∈ _pending_mark_alive_endpoints (handle_major_state_change ep eps g) ->
  exists st,
    _endpoint_state_map (handle_major_state_change ep eps g) !! ep = Some st /\
    is_dead_state st = false /\ is_alive_bit st = false.
Proof.
  intros Hp. destruct (is_in_shadow_round g) eqn:Hs.
  { unfold handle_major_state_change. cbv zeta.
    assert (H1 : is_in_shadow_round
                   (replicate ep eps
                      (set_endpoint_state_map
                         (<[ep := eps]> (_endpoint_state_map g)) g)) = true)
      by done.
    rewrite H1. simpl. done. }
  destruct (is_dead_state eps) eqn:Hd.
  { rewrite handle_major_state_change_dead by done. simpl.
    rewrite mark_dead_pending.
    destruct (major_state_stored_facts ep eps g) as (_ & -> & _). done. }
  rewrite handle_major_state_change_unfold by done. cbv zeta.
  rewrite Hd. simpl negb. cbv iota.
  destruct (major_state_stored_facts ep eps g) as (Hl & Hpe & _).
  destruct (mark_alive_lookup ep (major_state_stored ep eps g) eps)
    as [Hl3 Hp3]; [by rewrite Hpe|done|].
  unfold get_endpoint_state_for_endpoint_ptr. rewrite Hl3.
  destruct (is_shutdown ep _).
  - intros _.
    destruct (mark_as_shutdown_result ep
                (emit (on_join ep (set_alive false eps))
                   (mark_alive ep (major_state_stored ep eps g)))
                (set_alive false eps) Hl3) as [_ [v Hv]].
    eexists. split; [exact Hv|]. split; [|done].
    apply shutdown_is_not_dead_state.
  - intros _. exists (set_alive false eps). by repeat split.
Qed.

Lemma do_apply_state_locally_handshake (node : Z)
    (remote_state : endpoint_state) (listener_notification : bool)
    (g : gossiper) :
  node ∉ _pending_mark_alive_endpoints g ->
  node ∈ _pending_mark_alive_endpoints
           (do_apply_state_locally node remote_state listener_notification g) ->
  exists st,
    _endpoint_state_map
      (do_apply_state_locally node remote_state listener_notification g)
      !! node = Some st /\
    is_dead_state st = false /\ is_alive_bit st = false.
Proof.
  intros Hp. unfold do_apply_state_locally.
  destruct (get_endpoint_state_for_endpoint_ptr node g) as [local_state|];
    cbv zeta.
  - destruct (_ >? _ + _); [done|].
    destruct (_ >? _).
    { destruct listener_notification; [|done].
      by apply handle_major_state_change_handshake. }
    destruct (_ =? _); [|done].
    destruct listener_notification; [|done].
    set (g1 := if _ >? _ then apply_new_states node remote_state g else g).
    assert (Hp1 : _pending_mark_alive_endpoints g1 =
                  _pending_mark_alive_endpoints g).
    { subst g1. destruct (_ >? _); [|done]. apply apply_new_states_pending. }
    destruct (get_endpoint_state_for_endpoint_ptr node g1) as [st|] eqn:E;
      [|by rewrite Hp1].
    destruct (is_alive_bit st) eqn:Ha; simpl; [by rewrite Hp1|].
    destruct (is_dead_state st) eqn:Hd; simpl; [by rewrite Hp1|].
    intros _. destruct (mark_alive_lookup node g1 st) as [Hl _];
      [by rewrite Hp1|done|].
    exists (set_alive false st). by repeat split.
  - destruct listener_notification; [|done].
    by apply handle_major_state_change_handshake.
Qed.

(** C6, as it holds. [real_mark_alive] only logs a warning, and marks nothing
    alive, when the status of the endpoint is SHUTDOWN. Outside the shadow
    round [handle_major_state_change] marks an endpoint that arrives in a dead
    state (LEFT, REMOVED_TOKEN, REMOVING_TOKEN) dead, fires [on_join], and
    does not start the mark-alive handshake. And whenever
    [do_apply_state_locally] starts the handshake for an endpoint, the status
    it has stored for the endpoint is not a dead state and the endpoint is
    not alive. *)
Theorem dead_and_shutdown_guards :
  (forall (addr : Z) (g : gossiper) (st : endpoint_state),
     _endpoint_state_map g !! addr = Some st ->
     get_gossip_status st = SHUTDOWN ->
     real_mark_alive addr g =
       emit (log_warn (skip_marking_shutdown_node_up addr)) g) /\
  (forall (ep : Z) (eps : endpoint_state) (g : gossiper),
     is_in_shadow_round g = false -> is_dead_state eps = true ->
     handle_major_state_change ep eps g =
       emit (on_join ep (set_alive false eps))
         (mark_dead ep (major_state_stored ep eps g)) /\
     _endpoint_state_map (handle_major_state_change ep eps g) !! ep =
       Some (set_alive false eps) /\
     is_Some (_unreachable_endpoints (handle_major_state_change ep eps g) !! ep)
     /\
     _pending_mark_alive_endpoints (handle_major_state_change ep eps g) =
       _pending_mark_alive_endpoints g) /\
  (forall (node : Z) (remote_state : endpoint_state)
          (listener_notification : bool) (g : gossiper),
     node ∉ _pending_mark_alive_endpoints g ->
     node ∈ _pending_mark_alive_endpoints
              (do_apply_state_locally node remote_state listener_notification g)
     ->
     exists st,
       _endpoint_state_map
         (do_apply_state_locally node remote_state listener_notification g)
         !! node = Some st /\
       is_dead_state st = false /\ is_alive_bit st = false).
Proof.
  split; [|split].
  - intros addr g st E Hst. unfold real_mark_alive,
      get_endpoint_state_for_endpoint_ptr. rewrite E. cbv zeta.
    by rewrite Hst, String.eqb_refl.
  - intros ep eps g Hs Hd.
    rewrite handle_major_state_change_dead by done.
    destruct (major_state_stored_facts ep eps g) as (Hl & Hpe & _).
    split; [done|]. simpl. rewrite mark_dead_lookup, Hl, mark_dead_pending.
    repeat split; [|done].
    unfold mark_dead, get_endpoint_state_for_endpoint_ptr. rewrite Hl. simpl.
    rewrite lookup_insert_eq. by eexists.
  - apply do_apply_state_locally_handshake.
Qed.

Lemma dead_and_shutdown_guards_witness :
  _endpoint_state_map
    (handle_major_state_change 7 (sample_state 950 5 "LEFT,0" 4 true)
       (sample_gossiper false sample_local_only)) !! 7 =
  Some (set_alive false (sample_state 950 5 "LEFT,0" 4 true)).
Proof.
  refine (proj1 (proj2 (proj1 (proj2 dead_and_shutdown_guards) 7
            (sample_state 950 5 "LEFT,0" 4 true)
            (sample_gossiper false sample_local_only) _ _))).
  - reflexivity.
  - vm_compute. reflexivity.
Defined.

(** C6, as stated, fails in two ways. In the shadow round
    [handle_major_state_change] returns after storing the state: an endpoint
    that arrives as LEFT is not marked dead. And the handshake looks at the
    status when it starts, [real_mark_alive] only at SHUTDOWN: peer 7
    restarts (generation 950) and the Echo goes out; before the reply the
    same generation is seen as LEFT; the reply then marks the endpoint alive
    and puts it among the live endpoints. *)
Lemma left_endpoint_marked_alive :
  let shadow := handle_major_state_change 7
                  (sample_state 950 5 "LEFT,0" 4 true)
                  (sample_gossiper true sample_local_only) in
  let g0 := sample_gossiper false
              (<[7 := sample_state 900 3 "NORMAL" 2 false]> sample_local_only)
  in
  let g1 := do_apply_state_locally 7 (sample_state 950 1 "NORMAL" 1 true)
              true g0 in
  let g2 := do_apply_state_locally 7 (sample_state 950 5 "LEFT,0" 4 true)
              true g1 in
  let g3 := mark_alive_echo_replied 7 g2 in
  (_unreachable_endpoints shadow !! 7 = None /\ trace shadow = []) /\
  trace g1 = [on_restart 7 (sample_state 900 3 "NORMAL" 2 false);
              send_gossip_echo 7 1000;
              on_join 7 (sample_state 950 1 "NORMAL" 1 false)] /\
  (is_dead_state <$> (_endpoint_state_map g2 !! 7)) = Some true /\
  (is_alive_bit <$> (_endpoint_state_map g2 !! 7)) = Some false /\
  (is_dead_state <$> (_endpoint_state_map g3 !! 7)) = Some true /\
  (is_alive_bit <$> (_endpoint_state_map g3 !! 7)) = Some true /\
  _live_endpoints g3 = [7].
Proof. vm_compute. repeat split; reflexivity. Qed.

(** ** The mark-alive handshake *)

Lemma apply_new_states_loop_alive_bit (remote_state local_state : endpoint_state) :
  is_alive_bit (apply_new_states_loop remote_state local_state).1.1 =
  is_alive_bit local_state.
Proof.
  unfold apply_new_states_loop.
  set (step := fun (acc : endpoint_state * list application_state * bool)
                   (remote_entry : application_state * versioned_value) => _).
  assert (Hstep : forall acc e,
            is_alive_bit (step acc e).1.1 = is_alive_bit acc.1.1).
  { intros [[ls ch] thrown] e. subst step. cbv beta iota zeta.
    destruct thrown; [done|]. destruct (negb (_ =? _)); [done|].
    destruct (get_application_state_ptr ls e.1) as [lv|]; [|done].
    by destruct (version e.2 >? version lv). }
  clearbody step.
  assert (Hfold : forall l acc,
            is_alive_bit (fold_left step l acc).1.1 = is_alive_bit acc.1.1).
  { induction l as [|e l IH]; intros acc; [done|].
    cbn [fold_left]. by rewrite IH, Hstep. }
  apply Hfold.
Qed.

Lemma apply_new_states_alive_bit (addr : Z) (remote_state st : endpoint_state)
    (g : gossiper) :
  _endpoint_state_map g !! addr = Some st ->
  exists st',
    _endpoint_state_map (apply_new_states addr remote_state g) !! addr
      = Some st' /\
    is_alive_bit st' = is_alive_bit st.
Proof.
  intros E. unfold apply_new_states, get_endpoint_state_for_endpoint_ptr.
  rewrite E. cbv zeta.
  pose proof (apply_new_states_loop_alive_bit remote_state
                (set_heart_beat_state_and_update_timestamp
                   (get_heart_beat_state remote_state) (now (env g)) st))
    as Ha.
  destruct (apply_new_states_loop _ _) as [[ls changed] thrown].
  cbn [fst] in Ha. exists ls. split; [|exact Ha].
  rewrite (fold_left_preserves_field _endpoint_state_map).
  - cbn [_endpoint_state_map replicate_changed set_other_shards
         set_endpoint_state_map]. apply lookup_insert_eq.
  - intros g' key. by destruct (_ !! key).
Qed.

Lemma merge_without_notification_alive_bit
    (remote_state local_state : endpoint_state) :
  is_alive_bit (merge_without_notification remote_state local_state) =
  is_alive_bit local_state.
Proof.
  unfold merge_without_notification.
  set (step := fun (local_state : endpoint_state)
                   (item : application_state * versioned_value) => _).
  assert (Hstep : forall ls e, is_alive_bit (step ls e) = is_alive_bit ls).
  { intros ls e. subst step. cbv beta zeta.
    destruct (get_application_state_ptr ls e.1) as [lv|]; [|done].
    by destruct (version e.2 >? version lv). }
  clearbody step.
  generalize (map_to_list (get_application_state_map remote_state)).
  intros l. revert local_state.
  induction l as [|e l IH]; intros ls; [done|].
  cbn [fold_left]. by rewrite IH, Hstep.
Qed.

(** While the Echo of [addr] is out, state of the generation held for
    [addr], or of an older one, leaves its entry not alive and the Echo
    out. *)
Lemma do_apply_state_locally_while_pending (addr : Z)
    (remote_state st : endpoint_state) (listener_notification : bool)
    (g : gossiper) :
  addr ∈ _pending_mark_alive_endpoints g ->
  _endpoint_state_map g !! addr = Some st ->
  is_alive_bit st = false ->
  get_generation (get_heart_beat_state remote_state) <=
    get_generation (get_heart_beat_state st) ->
  addr ∈ _pending_mark_alive_endpoints
           (do_apply_state_locally addr remote_state listener_notification g)
  /\
  exists st',
    _endpoint_state_map
      (do_apply_state_locally addr remote_state listener_notification g)
      !! addr = Some st' /\
    is_alive_bit st' = false.
Proof.
  intros Hp E Ha Hgen. unfold do_apply_state_locally,
    get_endpoint_state_for_endpoint_ptr. rewrite E. cbv zeta.
  destruct (_ >? _ + _); [split; [done|by exists st]|].
  destruct (Z.gtb_spec (get_generation (get_heart_beat_state remote_state))
              (get_generation (get_heart_beat_state st))) as [Hgt|_]; [lia|].
  destruct (_ =? _); [|split; [done|by exists st]].
  destruct listener_notification.
  2:{ split; [done|]. eexists. cbn [_endpoint_state_map set_endpoint_state_map].
      rewrite lookup_insert_eq. split; [reflexivity|].
      by rewrite merge_without_notification_alive_bit. }
  set (g1 := if _ >? _ then apply_new_states addr remote_state g else g).
  assert (H1 : addr ∈ _pending_mark_alive_endpoints g1 /\
               exists st1, _endpoint_state_map g1 !! addr = Some st1 /\
                           is_alive_bit st1 = false).
  { subst g1. destruct (_ >? _); [|split; [done|by exists st]].
    rewrite apply_new_states_pending. split; [done|].
    destruct (apply_new_states_alive_bit addr remote_state st g E)
      as (st1 & E1 & Ha1).
    exists st1. split; [done|congruence]. }
  clearbody g1. destruct H1 as (Hp1 & st1 & E1 & Ha1). rewrite E1, Ha1.
  cbn [negb andb].
  destruct (negb (is_dead_state st1)).
  - unfold mark_alive. rewrite bool_decide_eq_true_2 by done.
    split; [done|by exists st1].
  - split; [done|by exists st1].
Qed.

(** C9, as it holds. [mark_alive(addr)] does nothing when [addr] is already
    in the pending-mark-alive set. Otherwise the Echo is sent from a state
    in which [addr] has been added to that set and its entry has been marked
    not alive (nothing else was called before), so the peer is not alive
    when its Echo is sent. While the Echo is out the entry stays not alive
    when [do_apply_state_locally] applies state of the generation held for
    the peer, or of an older one, for it, with or without listener
    notification, and when the Echo fails. *)
Theorem mark_alive_handshake (addr : Z) (g : gossiper) :
  (addr ∈ _pending_mark_alive_endpoints g -> mark_alive addr g = g) /\
  (addr ∉ _pending_mark_alive_endpoints g ->
   exists (g' : gossiper) (generation : Z),
     mark_alive addr g = emit (send_gossip_echo addr generation) g' /\
     trace g' = trace g /\
     _pending_mark_alive_endpoints g' =
       {[addr]} ∪ _pending_mark_alive_endpoints g /\
     (forall st, _endpoint_state_map g !! addr = Some st ->
        _endpoint_state_map g' !! addr = Some (set_alive false st) /\
        _endpoint_state_map (mark_alive addr g) !! addr =
          Some (set_alive false st) /\
        (addr <> get_broadcast_address (env g) ->
         is_alive addr (mark_alive addr g) = false))) /\
  (forall st,
     addr ∈ _pending_mark_alive_endpoints g ->
     _endpoint_state_map g !! addr = Some st ->
     is_alive_bit st = false ->
     _endpoint_state_map (mark_alive_echo_failed addr g) =
       _endpoint_state_map g /\
     (forall remote_state listener_notification,
        get_generation (get_heart_beat_state remote_state) <=
          get_generation (get_heart_beat_state st) ->
        addr ∈ _pending_mark_alive_endpoints
                 (do_apply_state_locally addr remote_state
                    listener_notification g) /\
        exists st',
          _endpoint_state_map
            (do_apply_state_locally addr remote_state listener_notification g)
            !! addr = Some st' /\
          is_alive_bit st' = false)).
Proof.
  split; [|split].
  - intros H. unfold mark_alive. by rewrite bool_decide_eq_true_2.
  - intros H. unfold mark_alive. rewrite bool_decide_eq_false_2 by done.
    eexists _, _. split; [reflexivity|]. simpl.
    split; [done|]. split; [done|]. intros st E.
    assert (Hlk : (<[get_broadcast_address (env g) :=
                     at_or_default (now (env g)) (get_broadcast_address (env g))
                       (alter (set_alive false) addr (_endpoint_state_map g))]>
                     (alter (set_alive false) addr (_endpoint_state_map g)))
                  !! addr = Some (set_alive false st)).
    { destruct (decide (get_broadcast_address (env g) = addr)) as [->|Hne].
      - rewrite lookup_insert_eq. unfold at_or_default.
        by rewrite lookup_alter_eq, E.
      - rewrite lookup_insert_ne by done. by rewrite lookup_alter_eq, E. }
    split; [done|]. split; [done|]. intros Hne.
    unfold is_alive, get_endpoint_state_for_endpoint_ptr. simpl.
    rewrite decide_False by done. by rewrite Hlk.
  - intros st Hp E Ha. split; [reflexivity|].
    intros remote_state listener_notification Hgen.
    by apply (do_apply_state_locally_while_pending addr remote_state st).
Qed.

Lemma mark_alive_handshake_witness :
  mark_alive 7
    (set_pending_mark_alive_endpoints {[7]}
       (sample_gossiper false
          (<[7 := sample_state 900 3 "NORMAL" 2 true]> sample_local_only))) =
  set_pending_mark_alive_endpoints {[7]}
    (sample_gossiper false
       (<[7 := sample_state 900 3 "NORMAL" 2 true]> sample_local_only))
  /\
  is_alive 7
    (mark_alive 7
       (sample_gossiper false
          (<[7 := sample_state 900 3 "NORMAL" 2 true]> sample_local_only))) =
  false
  /\
  7 ∈ _pending_mark_alive_endpoints
        (do_apply_state_locally 7 (sample_state 900 8 "NORMAL" 2 true) true
           (set_pending_mark_alive_endpoints {[7]}
              (sample_gossiper false sample_with_peer))).
Proof.
  split; [|split].
  - apply (proj1 (mark_alive_handshake 7 _)). simpl. set_solver.
  - destruct (proj1 (proj2 (mark_alive_handshake 7
        (sample_gossiper false
           (<[7 := sample_state 900 3 "NORMAL" 2 true]> sample_local_only)))))
      as (g' & gen & _ & _ & _ & H).
    + simpl. set_solver.
    + apply (H (sample_state 900 3 "NORMAL" 2 true)); [reflexivity|].
      simpl. lia.
  - refine (proj1 (proj2 (proj2 (proj2 (mark_alive_handshake 7
        (set_pending_mark_alive_endpoints {[7]}
           (sample_gossiper false sample_with_peer))))
        (sample_state 900 3 "NORMAL" 2 false) _ _ _)
        (sample_state 900 8 "NORMAL" 2 true) true _)).
    + simpl. set_solver.
    + reflexivity.
    + reflexivity.
    + simpl. lia.
Defined.

(** C9, as stated, fails when state of a newer generation arrives for the
    peer while its Echo is out: [handle_major_state_change] stores the
    state as received, alive, and the [mark_alive] it calls returns at once
    because the peer is pending. Peer 7, known in generation 900, not alive,
    has its Echo out; state of generation 950 is applied; the peer is then
    alive although no Echo was answered and [real_mark_alive] has not run
    ([on_alive] was not fired, the peer is not among the live endpoints). *)
Lemma alive_while_echo_is_out :
  let g := set_pending_mark_alive_endpoints {[7]}
             (sample_gossiper false sample_with_peer) in
  let g' := do_apply_state_locally 7 (sample_state 950 1 "NORMAL" 1 true)
              true g in
  is_alive 7 g = false /\
  bool_decide (7 ∈ _pending_mark_alive_endpoints g') = true /\
  is_alive 7 g' = true /\
  _live_endpoints g' = [] /\
  trace g' = [on_restart 7 (sample_state 900 3 "NORMAL" 2 false);
              on_join 7 (sample_state 950 1 "NORMAL" 1 true)].
Proof. cbv zeta. repeat split; vm_compute; reflexivity. Qed.

(** ** Replication to the other shards *)

Lemma apps_in_sync_same (ep : Z) (g g' : gossiper) :
  apps_at ep (_endpoint_state_map g') = apps_at ep (_endpoint_state_map g) ->
  other_shards g' = other_shards g ->
  apps_in_sync ep g -> apps_in_sync ep g'.
Proof. unfold apps_in_sync. by intros -> ->. Qed.

Lemma apps_in_sync_replicate (ep : Z) (es : endpoint_state) (g : gossiper) :
  apps_at ep (_endpoint_state_map g) = Some (get_application_state_map es) ->
  apps_in_sync ep (replicate ep es g).
Proof.
  intros H. unfold apps_in_sync, replicate. simpl. rewrite H.
  apply Forall_forall. intros m' Hm'.
  apply list_elem_of_fmap in Hm' as (m & -> & _).
  unfold apps_at. by rewrite lookup_insert_eq.
Qed.

Lemma apps_in_sync_emit (ep : Z) (e : event) (g : gossiper) :
  apps_in_sync ep g -> apps_in_sync ep (emit e g).
Proof. by apply apps_in_sync_same. Qed.

Lemma apps_in_sync_mark_dead (ep : Z) (g : gossiper) :
  apps_in_sync ep g -> apps_in_sync ep (mark_dead ep g).
Proof.
  apply apps_in_sync_same.
  - unfold apps_at. rewrite mark_dead_lookup.
    by destruct (_endpoint_state_map g !! ep).
  - unfold mark_dead. by destruct (get_endpoint_state_for_endpoint_ptr ep g).
Qed.

Lemma apps_in_sync_mark_alive (ep : Z) (g : gossiper) :
  is_Some (_endpoint_state_map g !! ep) ->
  apps_in_sync ep g -> apps_in_sync ep (mark_alive ep g).
Proof.
  intros [st E]. apply apps_in_sync_same.
  - unfold mark_alive. destruct (bool_decide _); [done|]. simpl.
    unfold apps_at.
    destruct (decide (get_broadcast_address (env g) = ep)) as [->|Hne].
    + rewrite lookup_insert_eq. unfold at_or_default.
      by rewrite lookup_alter_eq, E.
    + rewrite lookup_insert_ne by done. by rewrite lookup_alter_eq, E.
  - unfold mark_alive. by destruct (bool_decide _).
Qed.

Lemma apps_in_sync_mark_as_shutdown (ep : Z) (g : gossiper) :
  apps_in_sync ep g \/ is_Some (_endpoint_state_map g !! ep) ->
  apps_in_sync ep (mark_as_shutdown ep g).
Proof.
  intros H. rewrite mark_as_shutdown_unfold.
  unfold get_endpoint_state_for_endpoint_ptr.
  destruct (_endpoint_state_map g !! ep) as [st|] eqn:E.
  - unfold versioned_value_shutdown, get_next_version. cbv zeta iota beta.
    rewrite convict_noop by apply mark_dead_not_alive.
    apply apps_in_sync_mark_dead, apps_in_sync_replicate.
    unfold apps_at. simpl. by rewrite lookup_insert_eq.
  - destruct H as [H|[? ?]]; done.
Qed.

Lemma apps_in_sync_handle_major_state_change (ep : Z) (eps : endpoint_state)
    (g : gossiper) :
  apps_in_sync ep (handle_major_state_change ep eps g).
Proof.
  assert (H1 : apps_in_sync ep
                 (replicate ep eps
                    (set_endpoint_state_map
                       (<[ep := eps]> (_endpoint_state_map g)) g))).
  { apply apps_in_sync_replicate. unfold apps_at. simpl.
    by rewrite lookup_insert_eq. }
  destruct (is_in_shadow_round g) eqn:Hs.
  { unfold handle_major_state_change. cbv zeta.
    assert (H2 : is_in_shadow_round
                   (replicate ep eps
                      (set_endpoint_state_map
                         (<[ep := eps]> (_endpoint_state_map g)) g)) = true)
      by done.
    by rewrite H2. }
  rewrite handle_major_state_change_unfold by done. cbv zeta.
  destruct (major_state_stored_facts ep eps g) as (Hl & _ & _).
  assert (H2 : apps_in_sync ep (major_state_stored ep eps g)).
  { unfold major_state_stored. cbv zeta.
    destruct (get_endpoint_state_for_endpoint_ptr ep g); [|done].
    by apply apps_in_sync_emit. }
  set (g3 := if negb (is_dead_state eps)
             then mark_alive ep (major_state_stored ep eps g)
             else mark_dead ep (major_state_stored ep eps g)).
  assert (H3 : apps_in_sync ep g3 /\ is_Some (_endpoint_state_map g3 !! ep)).
  { subst g3. destruct (negb (is_dead_state eps)).
    - split; [apply apps_in_sync_mark_alive; [by eexists|done]|].
      unfold mark_alive. destruct (bool_decide _); [by eexists|]. simpl.
      destruct (decide (get_broadcast_address
                          (env (major_state_stored ep eps g)) = ep))
        as [->|Hne].
      + rewrite lookup_insert_eq. by eexists.
      + rewrite lookup_insert_ne by done. rewrite lookup_alter_eq, Hl.
        by eexists.
    - split; [by apply apps_in_sync_mark_dead|].
      rewrite mark_dead_lookup, Hl. by eexists. }
  destruct H3 as [H3 [st3 E3]].
  unfold get_endpoint_state_for_endpoint_ptr. rewrite E3.
  destruct (is_shutdown ep _).
  - apply apps_in_sync_mark_as_shutdown. right. simpl. by eexists.
  - by apply apps_in_sync_emit.
Qed.

Lemma apps_in_sync_advertise_removing (endpoint : Z)
    (host_id local_host_id : string) (generation : Z) (g : gossiper) :
  apps_in_sync endpoint g ->
  apps_in_sync endpoint
    (advertise_removing endpoint host_id local_host_id generation g).
Proof.
  intros H. unfold advertise_removing.
  destruct (get_endpoint_state_for_endpoint_ptr endpoint g) as [eps|]; [|done].
  destruct (negb _); [done|].
  unfold versioned_value_with_next_version, get_next_version.
  cbv zeta iota beta.
  apply apps_in_sync_replicate. unfold apps_at. simpl.
  by rewrite lookup_insert_eq.
Qed.

Lemma apps_in_sync_add_saved_endpoint (ep : Z) (g : gossiper) :
  ep <> get_broadcast_address (env g) ->
  apps_in_sync ep (add_saved_endpoint ep g).
Proof.
  intros Hne. unfold add_saved_endpoint.
  rewrite bool_decide_eq_false_2 by done. cbv zeta.
  unfold versioned_value_with_next_version, get_next_version.
  destruct (token_metadata_tokens (env g) ep) as [tokens|];
    cbv zeta iota beta; simpl;
    (destruct (token_metadata_host_id (env g) ep) as [host_id|];
     cbv zeta iota beta;
     match goal with
     | |- apps_in_sync _ (set_unreachable_endpoints _ ?g') =>
         apply (apps_in_sync_same _ g'); [done|done|]
     end;
     apply apps_in_sync_replicate; unfold apps_at; simpl;
     by rewrite lookup_insert_eq).
Qed.

Lemma apply_new_states_loop_apps (remote_state local_state : endpoint_state) :
  let '(local_state', changed, _) :=
    apply_new_states_loop remote_state local_state in
  get_application_state_map local_state' =
  take_changed (get_application_state_map remote_state) changed
    (get_application_state_map local_state).
Proof.
  unfold apply_new_states_loop.
  set (remote_map := get_application_state_map remote_state).
  assert (Hgen : forall l ls ch thrown,
            (forall e, e ∈ l -> remote_map !! e.1 = Some e.2) ->
            get_application_state_map ls =
              take_changed remote_map ch
                (get_application_state_map local_state) ->
            let '(ls', ch', _) :=
              fold_left
                (fun (acc : endpoint_state * list application_state * bool)
                     (remote_entry : application_state * versioned_value) =>
                   let '(local_state, changed, thrown) := acc in
                   if thrown then acc
                   else
                     let remote_key := remote_entry.1 in
                     let remote_value := remote_entry.2 in
                     let remote_gen :=
                       get_generation (get_heart_beat_state remote_state) in
                     let local_gen :=
                       get_generation (get_heart_beat_state local_state) in
                     if negb (remote_gen =? local_gen)
                     then (local_state, changed, true)
                     else
                       match get_application_state_ptr local_state remote_key
                       with
                       | Some local_val =>
                           if version remote_value >? version local_val
                           then (add_application_state remote_key remote_value
                                   local_state,
                                 changed ++ [remote_key], false)
                           else acc
                       | None =>
                           (add_application_state remote_key remote_value
                              local_state,
                            changed ++ [remote_key], false)
                       end) l (ls, ch, thrown) in
            get_application_state_map ls' =
              take_changed remote_map ch'
                (get_application_state_map local_state)).
  { induction l as [|[k v] l IH]; intros ls ch thrown Hl Hinv; [done|].
    simpl.
    assert (Hkv : remote_map !! k = Some v) by (apply (Hl (k, v)); by left).
    assert (Hl' : forall e, e ∈ l -> remote_map !! e.1 = Some e.2)
      by (intros e He; apply Hl; by right).
    assert (Hadd : get_application_state_map (add_application_state k v ls) =
                   take_changed remote_map (ch ++ [k])
                     (get_application_state_map local_state)).
    { unfold take_changed in *. rewrite fold_left_app. simpl.
      by rewrite Hkv, <- Hinv. }
    destruct thrown; [by apply IH|].
    destruct (negb _); [by apply IH|].
    destruct (get_application_state_ptr ls k) as [local_val|].
    - destruct (version v >? version local_val); by apply IH.
    - by apply IH. }
  apply Hgen; [|done].
  intros [k v] He. by apply elem_of_map_to_list in He.
Qed.

Lemma replicate_changed_apps (ep : Z)
    (remote_map : gmap application_state versioned_value)
    (changed : list application_state) (g : gossiper)
    (a : gmap application_state versioned_value) :
  Forall (fun m => apps_at ep m = Some a) (other_shards g) ->
  Forall (fun m => apps_at ep m = Some (take_changed remote_map changed a))
    (other_shards (replicate_changed ep remote_map changed g)).
Proof.
  intros H. unfold replicate_changed. simpl.
  apply Forall_forall. intros m' Hm'.
  apply list_elem_of_fmap in Hm' as (m & -> & Hm).
  rewrite Forall_forall in H. specialize (H m Hm). clear Hm.
  revert m a H. induction changed as [|key changed IH]; intros m a H; [done|].
  simpl. apply IH. destruct (remote_map !! key) as [v|]; [|done].
  unfold apps_at in *. rewrite lookup_insert_eq. simpl.
  unfold at_or_default. destruct (m !! ep) as [s|]; [|done].
  simpl in *. by injection H as ->.
Qed.

Lemma apps_in_sync_apply_new_states (addr : Z) (remote_state : endpoint_state)
    (g : gossiper) :
  apps_in_sync addr g ->
  apps_in_sync addr (apply_new_states addr remote_state g).
Proof.
  intros H. unfold apply_new_states, get_endpoint_state_for_endpoint_ptr.
  destruct (_endpoint_state_map g !! addr) as [local_state|] eqn:E; [|done].
  cbv zeta.
  pose proof (apply_new_states_loop_apps remote_state
                (set_heart_beat_state_and_update_timestamp
                   (get_heart_beat_state remote_state) (now (env g))
                   local_state)) as Hloop.
  destruct (apply_new_states_loop _ _) as [[local_state' changed] thrown].
  simpl in Hloop.
  set (g1 := set_endpoint_state_map _ g).
  set (g2 := replicate_changed addr _ changed g1).
  assert (H2 : apps_in_sync addr g2).
  { unfold apps_in_sync.
    assert (Hc : apps_at addr (_endpoint_state_map g2) =
                 Some (take_changed (get_application_state_map remote_state)
                         changed (get_application_state_map local_state))).
    { subst g2 g1. unfold apps_at. simpl. rewrite lookup_insert_eq. simpl.
      by rewrite Hloop. }
    rewrite Hc. subst g2. apply replicate_changed_apps. subst g1. simpl.
    unfold apps_in_sync, apps_at in H. by rewrite E in H. }
  clearbody g2. clear -H2.
  revert g2 H2. induction changed as [|key changed IH]; intros g2 H2; [done|].
  simpl. apply IH. destruct (_ !! key); [|done].
  by apply apps_in_sync_emit.
Qed.

Lemma apps_in_sync_do_apply_state_locally (node : Z)
    (remote_state : endpoint_state) (g : gossiper) :
  apps_in_sync node g ->
  apps_in_sync node (do_apply_state_locally node remote_state true g).
Proof.
  intros H. unfold do_apply_state_locally.
  destruct (get_endpoint_state_for_endpoint_ptr node g) as [local_state|];
    cbv zeta; [|apply apps_in_sync_handle_major_state_change].
  destruct (_ >? _ + _); [by apply apps_in_sync_emit|].
  destruct (_ >? _); [apply apps_in_sync_handle_major_state_change|].
  destruct (_ =? _); [|done].
  set (g1 := if _ >? _ then apply_new_states node remote_state g else g).
  assert (H1 : apps_in_sync node g1).
  { subst g1. destruct (_ >? _); [|done].
    by apply apps_in_sync_apply_new_states. }
  unfold get_endpoint_state_for_endpoint_ptr.
  destruct (_endpoint_state_map g1 !! node) as [st|] eqn:E; [|done].
  destruct (_ && _); [|done].
  apply apps_in_sync_mark_alive; [by eexists|done].
Qed.

Lemma store_local_values_apps (ep_addr : Z)
    (states : list (application_state * versioned_value)) (g : gossiper) :
  let '(new, g') := store_local_values ep_addr states g in
  other_shards g' = other_shards g /\
  forall a, apps_at ep_addr (_endpoint_state_map g) = Some a ->
            apps_at ep_addr (_endpoint_state_map g') = Some (put_all new a).
Proof.
  unfold store_local_values.
  assert (Hgen : forall l done0 g0,
            other_shards g0 = other_shards g ->
            (forall a, apps_at ep_addr (_endpoint_state_map g) = Some a ->
               apps_at ep_addr (_endpoint_state_map g0) =
                 Some (put_all done0 a)) ->
            let '(new, g') :=
              fold_left
                (fun (acc : list (application_state * versioned_value)
                            * gossiper) p =>
                   let '(done, g) := acc in
                   let '(value0, g) := clone_with_higher_version p.2 g in
                   (done ++ [(p.1, value0)],
                    set_endpoint_state_map
                      (alter (add_application_state p.1 value0) ep_addr
                         (_endpoint_state_map g)) g))
                l (done0, g0) in
            other_shards g' = other_shards g /\
            forall a, apps_at ep_addr (_endpoint_state_map g) = Some a ->
                      apps_at ep_addr (_endpoint_state_map g') =
                        Some (put_all new a)).
  { induction l as [|[k v] l IH]; intros done0 g0 Hs Ha; [by split|].
    simpl. unfold clone_with_higher_version, get_next_version.
    cbv zeta iota beta. apply IH; [done|].
    intros a Hga. specialize (Ha a Hga). simpl.
    unfold apps_at in *. rewrite lookup_alter_eq.
    destruct (_endpoint_state_map g0 !! ep_addr) as [s|]; [|done].
    simpl in *. injection Ha as ->. unfold put_all.
    by rewrite fold_left_app. }
  apply Hgen; [done|]. by intros a ->.
Qed.

Lemma replicate_keys_apps (ep_addr : Z)
    (new : list (application_state * versioned_value)) (g : gossiper)
    (a : gmap application_state versioned_value) :
  Forall (fun m => apps_at ep_addr m = Some a) (other_shards g) ->
  let g' := fold_left (fun g (p : application_state * versioned_value) =>
                let g := replicate_key ep_addr p.1 p.2 g in
                do_on_change_notifications ep_addr p.1 p.2 g) new g in
  _endpoint_state_map g' = _endpoint_state_map g /\
  Forall (fun m => apps_at ep_addr m = Some (put_all new a)) (other_shards g').
Proof.
  revert g a. induction new as [|[k v] new IH]; intros g a H; [by split|].
  simpl. cbv zeta in IH.
  destruct (IH (do_on_change_notifications ep_addr k v
                  (replicate_key ep_addr k v g)) (<[k := v]> a)) as [He Hs].
  - simpl. apply Forall_forall. intros m' Hm'.
    apply list_elem_of_fmap in Hm' as (m & -> & Hm).
    rewrite Forall_forall in H. specialize (H m Hm).
    unfold apps_at in *. rewrite lookup_insert_eq. simpl.
    unfold at_or_default. destruct (m !! ep_addr) as [s|]; [|done].
    simpl in *. by injection H as ->.
  - split; [by rewrite He|done].
Qed.

Lemma apps_in_sync_add_local_application_state
    (states : list (application_state * versioned_value)) (g : gossiper) :
  apps_in_sync (get_broadcast_address (env g)) g ->
  apps_in_sync (get_broadcast_address (env g))
    (add_local_application_state states g).
Proof.
  intros H. unfold add_local_application_state.
  destruct states as [|s0 states]; [done|].
  set (l := s0 :: states). clearbody l. cbv zeta.
  set (ep_addr := get_broadcast_address (env g)) in *.
  destruct (get_endpoint_state_for_endpoint_ptr ep_addr g)
    as [ep_state_before|] eqn:E; [|by apply apps_in_sync_emit].
  set (g1 := fold_left _ l g).
  assert (H1 : _endpoint_state_map g1 = _endpoint_state_map g /\
               other_shards g1 = other_shards g).
  { subst g1. split.
    - by apply (fold_left_preserves_field _endpoint_state_map).
    - by apply (fold_left_preserves_field other_shards). }
  destruct H1 as [He1 Hs1].
  unfold get_endpoint_state_for_endpoint_ptr in *. rewrite He1, E.
  pose proof (store_local_values_apps ep_addr l g1) as Hst.
  destruct (store_local_values ep_addr l g1) as [new g2].
  destruct Hst as [Hs2 Ha2].
  specialize (Ha2 (get_application_state_map ep_state_before)).
  unfold apps_in_sync, apps_at in H. rewrite E in H. simpl in H.
  destruct (replicate_keys_apps ep_addr new g2
              (get_application_state_map ep_state_before)) as [He3 Hs3].
  { by rewrite Hs2, Hs1. }
  cbv zeta in He3, Hs3. unfold apps_in_sync.
  rewrite He3, Ha2; [done|]. unfold apps_at. by rewrite He1, E.
Qed.

(** The generation check inside the loop of [apply_new_states] never fires:
    the local heartbeat has just been replaced by the remote one. *)
Lemma apply_new_states_loop_same_generation
    (remote_state local_state : endpoint_state) :
  get_generation (get_heart_beat_state local_state) =
    get_generation (get_heart_beat_state remote_state) ->
  (apply_new_states_loop remote_state local_state).2 = false.
Proof.
  intros Hg. unfold apply_new_states_loop.
  assert (Hgen : forall l ls ch,
            get_generation (get_heart_beat_state ls) =
              get_generation (get_heart_beat_state remote_state) ->
            (fold_left
               (fun (acc : endpoint_state * list application_state * bool)
                    (remote_entry : application_state * versioned_value) =>
                  let '(local_state, changed, thrown) := acc in
                  if thrown then acc
                  else
                    let remote_key := remote_entry.1 in
                    let remote_value := remote_entry.2 in
                    let remote_gen :=
                      get_generation (get_heart_beat_state remote_state) in
                    let local_gen :=
                      get_generation (get_heart_beat_state local_state) in
                    if negb (remote_gen =? local_gen)
                    then (local_state, changed, true)
                    else
                      match get_application_state_ptr local_state remote_key
                      with
                      | Some local_val =>
                          if version remote_value >? version local_val
                          then (add_application_state remote_key remote_value
                                  local_state,
                                changed ++ [remote_key], false)
                          else acc
                      | None =>
                          (add_application_state remote_key remote_value
                             local_state,
                           changed ++ [remote_key], false)
                      end) l (ls, ch, false)).2 = false).
  { induction l as [|[k v] l IH]; intros ls ch Hls; [done|].
    simpl. rewrite Hls, Z.eqb_refl. simpl.
    destruct (get_application_state_ptr ls k) as [local_val|].
    - destruct (version v >? version local_val); by apply IH.
    - by apply IH. }
  by apply Hgen.
Qed.

Lemma keeps_entry_apps_in_sync (p : Z) (g g' : gossiper) :
  keeps_entry p g g' ->
  p <> get_broadcast_address (env g) \/ knows_itself g ->
  apps_in_sync p g -> apps_in_sync p g'.
Proof.
  intros [_ Hl _ Hs] Hp H. unfold apps_in_sync, apps_at in *.
  rewrite (Hl Hp). clear Hl.
  induction Hs as [|m m' ms ms' Hm Hs IH]; [constructor|].
  apply Forall_cons_1 in H as [H1 H2]. constructor; [|by apply IH].
  by rewrite Hm.
Qed.

Lemma apps_in_sync_apply_state_locally (shuffle : list Z -> list Z)
    (map : gmap Z endpoint_state) (g : gossiper) :
  knows_itself g -> (forall ep, apps_in_sync ep g) ->
  forall ep, apps_in_sync ep (apply_state_locally shuffle map g).
Proof.
  unfold apply_state_locally. cbv zeta.
  generalize (List.filter (fun ip => is_seed ip g) (shuffle (map_to_list map).*1)
              ++ List.filter (fun ip => negb (is_seed ip g))
                   (shuffle (map_to_list map).*1)).
  intros endpoints. revert g.
  induction endpoints as [|e endpoints IH]; intros g Hk H; [done|].
  simpl. apply IH.
  - destruct (_ && _); [done|]. destruct (bool_decide _); [done|].
    destruct (map !! e) as [remote_state|]; [|done].
    apply (ke_knows_itself (e + 1) g); [|done].
    apply keeps_entry_do_apply_state_locally. lia.
  - intros ep. destruct (_ && _); [done|]. destruct (bool_decide _); [done|].
    destruct (map !! e) as [remote_state|]; [|done].
    destruct (decide (ep = e)) as [->|Hne].
    + by apply apps_in_sync_do_apply_state_locally.
    + eapply keeps_entry_apps_in_sync; [|by right|done].
      by apply keeps_entry_do_apply_state_locally.
Qed.

(** C1, as it holds. What is replicated is the application state of an
    entry. [handle_major_state_change] and [add_saved_endpoint] end with
    every other shard holding, for the endpoint, the application states the
    coordinator holds. [do_apply_state_locally] with listener notification
    (hence [apply_state_locally], given that the local node has its entry),
    [apply_new_states], [add_local_application_state], [mark_as_shutdown]
    and [advertise_removing] end with the shards in that agreement whenever
    they start in it; [mark_as_shutdown] also whenever the endpoint has an
    entry. *)
Theorem replication_before_completion :
  (forall ep eps g, apps_in_sync ep (handle_major_state_change ep eps g)) /\
  (forall ep g, ep <> get_broadcast_address (env g) ->
     apps_in_sync ep (add_saved_endpoint ep g)) /\
  (forall node remote_state g,
     apps_in_sync node g ->
     apps_in_sync node (do_apply_state_locally node remote_state true g)) /\
  (forall shuffle map g,
     knows_itself g -> (forall ep, apps_in_sync ep g) ->
     forall ep, apps_in_sync ep (apply_state_locally shuffle map g)) /\
  (forall addr remote_state g,
     apps_in_sync addr g ->
     apps_in_sync addr (apply_new_states addr remote_state g)) /\
  (forall states g,
     apps_in_sync (get_broadcast_address (env g)) g ->
     apps_in_sync (get_broadcast_address (env g))
       (add_local_application_state states g)) /\
  (forall ep g,
     apps_in_sync ep g \/ is_Some (_endpoint_state_map g !! ep) ->
     apps_in_sync ep (mark_as_shutdown ep g)) /\
  (forall endpoint host_id local_host_id generation g,
     apps_in_sync endpoint g ->
     apps_in_sync endpoint
       (advertise_removing endpoint host_id local_host_id generation g)).
Proof.
  split; [apply apps_in_sync_handle_major_state_change|].
  split; [apply apps_in_sync_add_saved_endpoint|].
  split; [apply apps_in_sync_do_apply_state_locally|].
  split; [apply apps_in_sync_apply_state_locally|].
  split; [apply apps_in_sync_apply_new_states|].
  split; [apply apps_in_sync_add_local_application_state|].
  split; [apply apps_in_sync_mark_as_shutdown|].
  apply apps_in_sync_advertise_removing.
Qed.

Lemma replication_before_completion_witness :
  apps_in_sync 7
    (do_apply_state_locally 7 (sample_state 900 8 "shutdown,true" 7 true) true
       (sample_synced sample_with_peer)).
Proof.
  refine (proj1 (proj2 (proj2 replication_before_completion)) 7
            (sample_state 900 8 "shutdown,true" 7 true)
            (sample_synced sample_with_peer) _).
  repeat constructor.
Defined.

(** C1, as stated, fails in two ways. The heartbeat is not among what is
    replicated: peer 7 is known in generation 900 with heartbeat version 3
    on every shard, a newer heartbeat (version 8) is applied, and the other
    shards still have version 3. And the apply path without listener
    notification writes the coordinator's map only: unknown peer 9 is applied
    that way and no other shard has an entry for it. *)
Lemma coordinator_writes_not_replicated :
  let g := do_apply_state_locally 7 (sample_state 900 8 "NORMAL" 2 true) true
             (sample_synced sample_with_peer) in
  let g' := do_apply_state_locally 9 (sample_state 950 1 "NORMAL" 1 true) false
              (sample_synced sample_with_peer) in
  (get_heart_beat_state <$> (_endpoint_state_map g !! 7) =
     Some (mk_heart_beat_state 900 8) /\
   List.map (fun m => get_heart_beat_state <$> (m !! 7)) (other_shards g) =
     [Some (mk_heart_beat_state 900 3); Some (mk_heart_beat_state 900 3)]) /\
  (is_Some (_endpoint_state_map g' !! 9) /\
   List.map (fun m : gmap Z endpoint_state => m !! 9) (other_shards g') =
     [None; None]).
Proof.
  split; split; try (vm_compute; reflexivity).
  vm_compute. by eexists.
Qed.

(** ** The largest version of an endpoint state *)

Lemma max_version_fold_bounds
    (l : list (application_state * versioned_value)) (init : Z) :
  let m := fold_left (fun max_version (entry : application_state * versioned_value) =>
               Z.max max_version (version entry.2)) l init in
  init <= m /\ (forall e, e ∈ l -> version e.2 <= m) /\
  (m = init \/ exists e, e ∈ l /\ version e.2 = m).
Proof.
  revert init. induction l as [|e l IH]; intros init; simpl.
  - split; [lia|]. split; [|by left]. intros e He. by apply elem_of_nil in He.
  - destruct (IH (Z.max init (version e.2))) as (H1 & H2 & H3).
    split; [lia|]. split.
    + intros e' He'. apply elem_of_cons in He' as [->|He']; [lia|by apply H2].
    + destruct H3 as [H3|(e' & He' & H3)].
      * destruct (Z.max_spec init (version e.2)) as [[_ Hm]|[_ Hm]].
        -- right. exists e. split; [left|]. lia.
        -- left. lia.
      * right. exists e'. split; [by right|done].
Qed.

(** X1. [get_max_endpoint_state_version] returns the largest version the
    state holds: it is at least the heartbeat version and the version of
    every application state, and it is the version of one of them. *)
Theorem get_max_endpoint_state_version_is_max (state : endpoint_state) :
  let m := get_max_endpoint_state_version state in
  get_heart_beat_version (get_heart_beat_state state) <= m /\
  (forall key v, get_application_state_map state !! key = Some v ->
     version v <= m) /\
  (m = get_heart_beat_version (get_heart_beat_state state) \/
   exists key v, get_application_state_map state !! key = Some v /\
                 version v = m).
Proof.
  unfold get_max_endpoint_state_version.
  destruct (max_version_fold_bounds
              (map_to_list (get_application_state_map state))
              (get_heart_beat_version (get_heart_beat_state state)))
    as (H1 & H2 & H3).
  split; [done|]. split.
  - intros key v Hkv. apply (H2 (key, v)). by apply elem_of_map_to_list.
  - destruct H3 as [H3|([key v] & He & H3)]; [by left|].
    right. exists key, v. split; [|done]. by apply elem_of_map_to_list in He.
Qed.

(** ** The status of an endpoint *)

Lemma index_comma_cons (a : ascii) (s : string) :
  String.index 0 "," (String a s) =
  if Ascii.ascii_dec "," a then Some 0%nat
  else match String.index 0 "," s with
       | Some n => Some (S n)
       | None => None
       end.
Proof.
  change (String.index 0 "," (String a s)) with
    (if String.prefix "," (String a s) then Some 0%nat
     else match String.index 0 "," s with
          | Some n => Some (S n)
          | None => None
          end).
  change (String.prefix "," (String a s)) with
    (if Ascii.ascii_dec "," a then String.prefix "" s else false).
  destruct (Ascii.ascii_dec "," a); [|done]. by destruct s.
Qed.

Lemma index_comma_append (s rest : string) :
  comma_free s ->
  String.index 0 "," (s ++ String "," rest) = Some (String.length s).
Proof.
  unfold comma_free. induction s as [|a s IH]; intros H.
  - change ("" ++ String "," rest)%string with (String "," rest).
    rewrite index_comma_cons. by destruct (Ascii.ascii_dec "," ",").
  - change (String a s ++ String "," rest)%string
      with (String a (s ++ String "," rest)).
    rewrite index_comma_cons in H |- *.
    destruct (Ascii.ascii_dec "," a) as [|Hne]; [discriminate|].
    destruct (String.index 0 "," s) as [n|] eqn:E; [discriminate|].
    by rewrite IH.
Qed.

Lemma substring_append_prefix (s rest : string) :
  String.substring 0 (String.length s) (s ++ rest) = s.
Proof.
  induction s as [|a s IH]; simpl.
  - destruct rest; reflexivity.
  - by rewrite IH.
Qed.

(** X2. The status of an endpoint is the text of its STATUS value before the
    first comma: a non-empty text [s] without a comma is read back from
    [s,rest] and from [s] alone; without a STATUS value, with an empty one
    and with one that starts with a comma the status is UNKNOWN. *)
Theorem do_get_gossip_status_reads_prefix (s rest : string) (ver : Z) :
  s <> ""%string -> comma_free s ->
  do_get_gossip_status (Some (mk_versioned_value (s ++ String "," rest) ver)) = s /\
  do_get_gossip_status (Some (mk_versioned_value s ver)) = s /\
  do_get_gossip_status (Some (mk_versioned_value (String "," rest) ver)) =
    STATUS_UNKNOWN /\
  do_get_gossip_status (Some (mk_versioned_value "" ver)) = STATUS_UNKNOWN /\
  do_get_gossip_status None = STATUS_UNKNOWN.
Proof.
  intros Hs Hfree. unfold do_get_gossip_status. cbn [value].
  repeat split.
  - rewrite index_comma_append by done.
    destruct s as [|a s]; [done|]. cbn [String.append String.length].
    rewrite bool_decide_eq_false_2 by discriminate. cbn [Nat.eqb orb].
    change (String a (s ++ String "," rest)) with (String a s ++ String "," rest)%string.
    change (S (String.length s)) with (String.length (String a s)).
    apply substring_append_prefix.
  - unfold comma_free in Hfree. rewrite Hfree.
    destruct s as [|a s]; [done|]. cbn [String.length Nat.eqb orb].
    by rewrite bool_decide_eq_false_2 by discriminate.
  - rewrite index_comma_cons.
    by destruct (Ascii.ascii_dec "," ",") as [_|Hne].
Qed.

Lemma do_get_gossip_status_reads_prefix_witness :
  do_get_gossip_status (Some (mk_versioned_value "NORMAL,tokens" 5)) =
    "NORMAL"%string.
Proof.
  refine (proj1 (do_get_gossip_status_reads_prefix "NORMAL" "tokens" 5 _ _)).
  - discriminate.
  - reflexivity.
Defined.

(** ** Which endpoints may be bootstrapped again *)

Lemma get_gossip_status_of_lookup (ep : Z) (g : gossiper) (st : endpoint_state) :
  _endpoint_state_map g !! ep = Some st ->
  get_gossip_status_of ep g = get_gossip_status st.
Proof.
  intros E. unfold get_gossip_status_of, get_application_state_ptr_of,
    get_endpoint_state_for_endpoint_ptr. by rewrite E.
Qed.

(** X3. [is_safe_for_bootstrap] allows an endpoint that gossip does not
    know; a known endpoint it allows is in a dead state and is not a normal
    ring member (its status is LEFT or removed); and an endpoint that has
    just been evicted from membership is allowed. *)
Theorem is_safe_for_bootstrap_only_gone (endpoint : Z) (g : gossiper) :
  (_endpoint_state_map g !! endpoint = None ->
   is_safe_for_bootstrap endpoint g = true) /\
  (forall st, _endpoint_state_map g !! endpoint = Some st ->
     is_safe_for_bootstrap endpoint g = true ->
     (get_gossip_status st = STATUS_LEFT \/
      get_gossip_status st = REMOVED_TOKEN) /\
     is_dead_state st = true /\
     is_normal_ring_member endpoint g = false) /\
  is_safe_for_bootstrap endpoint (evict_from_membership endpoint g) = true.
Proof.
  unfold is_safe_for_bootstrap, get_endpoint_state_for_endpoint_ptr.
  split; [by intros ->|]. split.
  - intros st E. rewrite E. cbn [existsb]. rewrite orb_false_r.
    intros H. unfold is_normal_ring_member, is_dead_state.
    rewrite (get_gossip_status_of_lookup _ _ _ E).
    apply orb_true_iff in H as [H|H]; apply String.eqb_eq in H; rewrite H;
      (split; [by (left + right)|]); by vm_compute.
  - unfold evict_from_membership, quarantine_endpoint, quarantine_endpoint_at.
    simpl. by rewrite lookup_delete_eq.
Qed.

Lemma is_safe_for_bootstrap_only_gone_witness :
  is_dead_state (sample_state 950 5 "LEFT,0" 4 false) = true.
Proof.
  refine (proj1 (proj2 (proj1 (proj2 (is_safe_for_bootstrap_only_gone 7
            (sample_gossiper false
               (<[7 := sample_state 950 5 "LEFT,0" 4 false]> sample_local_only))))
            (sample_state 950 5 "LEFT,0" 4 false) _ _))).
  - reflexivity.
  - vm_compute. reflexivity.
Defined.

(** ** The live and the unreachable endpoints stay apart *)

Lemma liveness_ok_same (g g' : gossiper) :
  _live_endpoints g' = _live_endpoints g ->
  _unreachable_endpoints g' = _unreachable_endpoints g ->
  liveness_ok g -> liveness_ok g'.
Proof. unfold liveness_ok. by intros -> ->. Qed.

Lemma fold_left_invariant {A : Type} (I : gossiper -> Prop)
    (f : gossiper -> A -> gossiper) (l : list A) (g : gossiper) :
  (forall g a, I g -> I (f g a)) -> I g -> I (fold_left f l g).
Proof.
  intros H. revert g. induction l as [|a l IH]; intros g Hg; simpl; [done|].
  apply IH, H, Hg.
Qed.

Lemma remove_from_elem_of (addr p : Z) (l : list Z) :
  p ∈ remove_from addr l <-> p ∈ l /\ p <> addr.
Proof.
  unfold remove_from. rewrite list_elem_of_In, List.filter_In, <- list_elem_of_In.
  rewrite negb_true_iff, Z.eqb_neq. done.
Qed.

Lemma remove_from_NoDup (addr : Z) (l : list Z) :
  NoDup l -> NoDup (remove_from addr l).
Proof.
  intros H. apply NoDup_ListNoDup, List.NoDup_filter. by apply NoDup_ListNoDup.
Qed.

Lemma liveness_ok_mark_dead (addr : Z) (g : gossiper) :
  liveness_ok g -> liveness_ok (mark_dead addr g).
Proof.
  intros [Hnd Hdis]. unfold mark_dead.
  destruct (get_endpoint_state_for_endpoint_ptr addr g); [|done].
  split; simpl.
  - by apply remove_from_NoDup.
  - intros p Hp. apply remove_from_elem_of in Hp as [Hp Hne].
    rewrite lookup_insert_ne by done. by apply Hdis.
Qed.

Lemma liveness_ok_real_mark_alive (addr : Z) (g : gossiper) :
  liveness_ok g -> liveness_ok (real_mark_alive addr g).
Proof.
  intros [Hnd Hdis]. unfold real_mark_alive.
  destruct (get_endpoint_state_for_endpoint_ptr addr g); [|done]. cbv zeta.
  destruct (String.eqb _ _); [done|]. simpl.
  destruct (bool_decide_reflect (addr ∈ _live_endpoints g)) as [Hin|Hnin].
  - split; simpl; [done|]. intros p Hp.
    apply lookup_delete_None. right. by apply Hdis.
  - split; simpl.
    + apply NoDup_app. split; [done|]. split; [|apply NoDup_singleton].
      intros x Hx Hx'. apply list_elem_of_singleton in Hx' as ->. done.
    + intros p Hp. apply lookup_delete_None.
      apply elem_of_app in Hp as [Hp|Hp]; [right; by apply Hdis|].
      apply list_elem_of_singleton in Hp. by left.
Qed.

Lemma mark_alive_liveness (addr : Z) (g : gossiper) :
  _live_endpoints (mark_alive addr g) = _live_endpoints g /\
  _unreachable_endpoints (mark_alive addr g) = _unreachable_endpoints g.
Proof. unfold mark_alive. by destruct (bool_decide _). Qed.

Lemma liveness_ok_mark_alive (addr : Z) (g : gossiper) :
  liveness_ok g -> liveness_ok (mark_alive addr g).
Proof.
  destruct (mark_alive_liveness addr g) as [H1 H2]. by apply liveness_ok_same.
Qed.

Lemma mark_as_shutdown_as_mark_dead (endpoint : Z) (g : gossiper) :
  mark_as_shutdown endpoint g =
  match get_endpoint_state_for_endpoint_ptr endpoint g with
  | Some ep_state =>
      let '(v, g) := versioned_value_shutdown g in
      let ep_state := add_application_state STATUS v ep_state in
      let ep_state := force_highest_possible_version_unsafe ep_state in
      let g := set_endpoint_state_map
                 (<[endpoint := ep_state]> (_endpoint_state_map g)) g in
      let g := replicate endpoint ep_state g in
      mark_dead endpoint g
  | None => g
  end.
Proof.
  rewrite mark_as_shutdown_unfold.
  destruct (get_endpoint_state_for_endpoint_ptr endpoint g); [|done].
  unfold versioned_value_shutdown, get_next_version. cbv zeta iota beta.
  by rewrite convict_noop by apply mark_dead_not_alive.
Qed.

Lemma liveness_ok_mark_as_shutdown (endpoint : Z) (g : gossiper) :
  liveness_ok g -> liveness_ok (mark_as_shutdown endpoint g).
Proof.
  intros H. rewrite mark_as_shutdown_as_mark_dead.
  destruct (get_endpoint_state_for_endpoint_ptr endpoint g); [|done].
  unfold versioned_value_shutdown, get_next_version. cbv zeta iota beta.
  apply liveness_ok_mark_dead. revert H. by apply liveness_ok_same.
Qed.

Lemma liveness_ok_convict (endpoint : Z) (g : gossiper) :
  liveness_ok g -> liveness_ok (convict endpoint g).
Proof.
  intros H. rewrite convict_unfold.
  destruct (get_endpoint_state_for_endpoint_ptr endpoint g); [|done].
  destruct (negb _); [done|].
  destruct (is_shutdown endpoint g);
    [by apply liveness_ok_mark_as_shutdown|by apply liveness_ok_mark_dead].
Qed.

Lemma apply_new_states_liveness (addr : Z) (remote_state : endpoint_state)
    (g : gossiper) :
  _live_endpoints (apply_new_states addr remote_state g) = _live_endpoints g /\
  _unreachable_endpoints (apply_new_states addr remote_state g) =
    _unreachable_endpoints g.
Proof.
  unfold apply_new_states.
  destruct (get_endpoint_state_for_endpoint_ptr addr g); [|done]. cbv zeta.
  destruct (apply_new_states_loop _ _) as [[local_state changed] thrown].
  rewrite (fold_left_preserves_field _live_endpoints),
    (fold_left_preserves_field _unreachable_endpoints); [done| |];
    intros g' key; by destruct (_ !! key).
Qed.

Lemma liveness_ok_handle_major_state_change (ep : Z) (eps : endpoint_state)
    (g : gossiper) :
  liveness_ok g -> liveness_ok (handle_major_state_change ep eps g).
Proof.
  intros H. unfold handle_major_state_change. cbv zeta.
  assert (H1 : liveness_ok
                 (replicate ep eps
                    (set_endpoint_state_map (<[ep := eps]> (_endpoint_state_map g)) g)))
    by (revert H; by apply liveness_ok_same).
  destruct (is_in_shadow_round _); [done|].
  match goal with
  | |- context [match ?o with Some old => emit (on_restart ep old) ?g1 | None => _ end] =>
      assert (H2 : liveness_ok
                     (match o with Some old => emit (on_restart ep old) g1
                                 | None => g1 end))
        by (destruct o; [revert H1; by apply liveness_ok_same|done]);
      generalize dependent
        (match o with Some old => emit (on_restart ep old) g1 | None => g1 end)
  end.
  intros g2 H2. clear H H1.
  destruct (get_endpoint_state_for_endpoint_ptr ep g2) as [ep_state|]; [|done].
  assert (H3 : liveness_ok
                 (if negb (is_dead_state ep_state) then mark_alive ep g2
                  else mark_dead ep g2))
    by (destruct (negb _);
        [by apply liveness_ok_mark_alive|by apply liveness_ok_mark_dead]).
  generalize dependent
    (if negb (is_dead_state ep_state) then mark_alive ep g2 else mark_dead ep g2).
  intros g3 H3.
  assert (H4 : liveness_ok
                 (match get_endpoint_state_for_endpoint_ptr ep g3 with
                  | Some eps_new => emit (on_join ep eps_new) g3
                  | None => g3
                  end))
    by (destruct (get_endpoint_state_for_endpoint_ptr ep g3);
        [revert H3; by apply liveness_ok_same|done]).
  generalize dependent
    (match get_endpoint_state_for_endpoint_ptr ep g3 with
     | Some eps_new => emit (on_join ep eps_new) g3
     | None => g3
     end).
  intros g4 H4. destruct (is_shutdown ep g4); [|done].
  by apply liveness_ok_mark_as_shutdown.
Qed.

Lemma liveness_ok_do_apply_state_locally (node : Z)
    (remote_state : endpoint_state) (listener_notification : bool)
    (g : gossiper) :
  liveness_ok g ->
  liveness_ok (do_apply_state_locally node remote_state listener_notification g).
Proof.
  intros H. unfold do_apply_state_locally.
  destruct (get_endpoint_state_for_endpoint_ptr node g) as [local_state|].
  - cbv zeta. destruct (_ >? _); [revert H; by apply liveness_ok_same|].
    destruct (_ >? _).
    { destruct listener_notification;
        [by apply liveness_ok_handle_major_state_change
        |revert H; by apply liveness_ok_same]. }
    destruct (_ =? _); [|done].
    destruct listener_notification; [|revert H; by apply liveness_ok_same].
    assert (H1 : liveness_ok
                   (if get_max_endpoint_state_version remote_state >?
                       get_max_endpoint_state_version local_state
                    then apply_new_states node remote_state g else g)).
    { destruct (_ >? _); [|done].
      destruct (apply_new_states_liveness node remote_state g) as [E1 E2].
      revert H. by apply liveness_ok_same. }
    generalize dependent
      (if get_max_endpoint_state_version remote_state >?
          get_max_endpoint_state_version local_state
       then apply_new_states node remote_state g else g).
    intros g1 H1.
    destruct (get_endpoint_state_for_endpoint_ptr node g1); [|done].
    destruct (_ && _); [by apply liveness_ok_mark_alive|done].
  - destruct listener_notification;
      [by apply liveness_ok_handle_major_state_change
      |revert H; by apply liveness_ok_same].
Qed.

Lemma liveness_ok_apply_state_locally (shuffle : list Z -> list Z)
    (map : gmap Z endpoint_state) (g : gossiper) :
  liveness_ok g -> liveness_ok (apply_state_locally shuffle map g).
Proof.
  unfold apply_state_locally. cbv zeta. apply fold_left_invariant.
  intros g' ep H. destruct (_ && _); [done|].
  destruct (bool_decide _); [done|].
  destruct (map !! ep); [|done].
  by apply liveness_ok_do_apply_state_locally.
Qed.

Lemma remove_endpoint_fields (endpoint : Z) (g : gossiper) :
  _live_endpoints (remove_endpoint endpoint g) =
    remove_from endpoint (_live_endpoints g) /\
  _unreachable_endpoints (remove_endpoint endpoint g) =
    delete endpoint (_unreachable_endpoints g) /\
  _just_removed_endpoints (remove_endpoint endpoint g) =
    <[endpoint := now (env g)]> (_just_removed_endpoints g) /\
  _syn_handlers (remove_endpoint endpoint g) =
    delete endpoint (_syn_handlers g) /\
  _ack_handlers (remove_endpoint endpoint g) =
    delete endpoint (_ack_handlers g) /\
  _live_endpoints_version (remove_endpoint endpoint g) =
    _live_endpoints_version g + 1 /\
  _endpoint_state_map (remove_endpoint endpoint g) = _endpoint_state_map g /\
  other_shards (remove_endpoint endpoint g) = other_shards g /\
  _expire_time_endpoint_map (remove_endpoint endpoint g) =
    _expire_time_endpoint_map g /\
  env (remove_endpoint endpoint g) = env g /\
  trace (remove_endpoint endpoint g) = trace g ++ [on_remove endpoint].
Proof.
  unfold remove_endpoint, quarantine_endpoint, quarantine_endpoint_at,
    update_live_endpoints_version, build_seeds_list. cbv zeta.
  destruct (bool_decide (endpoint ∈ _seeds (emit (on_remove endpoint) g)));
    simpl; repeat split.
Qed.

Lemma liveness_ok_remove_endpoint (endpoint : Z) (g : gossiper) :
  liveness_ok g -> liveness_ok (remove_endpoint endpoint g).
Proof.
  intros [Hnd Hdis].
  destruct (remove_endpoint_fields endpoint g) as (E1 & E2 & _).
  split; rewrite E1.
  - by apply remove_from_NoDup.
  - intros p Hp. rewrite E2. apply remove_from_elem_of in Hp as [Hp _].
    apply lookup_delete_None. right. by apply Hdis.
Qed.

Lemma liveness_ok_evict_from_membership (endpoint : Z) (g : gossiper) :
  liveness_ok g -> liveness_ok (evict_from_membership endpoint g).
Proof.
  intros [Hnd Hdis]. split; simpl; [done|].
  intros p Hp. apply lookup_delete_None. right. by apply Hdis.
Qed.

Lemma liveness_ok_do_status_check (g : gossiper) :
  liveness_ok g -> liveness_ok (do_status_check g).
Proof.
  intros H. unfold do_status_check. cbv zeta.
  apply (liveness_ok_same
           (fold_left (do_status_check_entry (now (env g)))
              (map_to_list (_endpoint_state_map g)) g)); [done|done|].
  apply fold_left_invariant; [|done].
  intros g' entry Hg'. unfold do_status_check_entry. cbv zeta.
  destruct (bool_decide _); [done|].
  assert (H1 : liveness_ok
            (if is_gossip_only_member entry.1 g'
                && negb (bool_decide (is_Some (_just_removed_endpoints g' !! entry.1)))
                && (now (env g) - get_update_timestamp entry.2 >? fat_client_timeout g')
             then evict_from_membership entry.1 (remove_endpoint entry.1 g')
             else g')).
  { destruct (_ && _); [|done].
    by apply liveness_ok_evict_from_membership, liveness_ok_remove_endpoint. }
  generalize dependent
    (if is_gossip_only_member entry.1 g'
        && negb (bool_decide (is_Some (_just_removed_endpoints g' !! entry.1)))
        && (now (env g) - get_update_timestamp entry.2 >? fat_client_timeout g')
     then evict_from_membership entry.1 (remove_endpoint entry.1 g')
     else g').
  intros g1 H1. destruct (_ && _); [|done].
  by apply liveness_ok_evict_from_membership.
Qed.



(** ** Waiting for gossip to settle *)

Lemma wrap32_small (z : Z) : INT32_MIN <= z <= INT32_MAX -> wrap32 z = z.
Proof.
  unfold wrap32, INT32_MIN, INT32_MAX. intros H.
  rewrite Z.mod_small by lia. lia.
Qed.

Lemma wait_for_gossip_loop_settled (force_after : option Z)
    (polls : list poll) (k j e n : Z) :
  0 <= k -> 0 <= j <= 3 -> k + Z.of_nat (length polls) <= INT32_MAX ->
  wait_for_gossip_loop force_after polls k j e = Some (wait_settled n) ->
  exists pre l rest,
    polls = pre ++ l ++ rest /\
    n = k + Z.of_nat (length (pre ++ l)) /\
    ((pre = [] /\ Z.of_nat (length l) + j = 3 /\ quiet_run e l) \/
     (length l = 3%nat /\ quiet_run (last_size e pre) l)).
Proof.
  revert k j e. induction polls as [|p polls IH]; intros k j e Hk Hj Hlen.
  - simpl. unfold GOSSIP_SETTLE_POLL_SUCCESSES_REQUIRED.
    destruct (Z.ltb_spec j 3) as [Hlt|Hge]; [discriminate|].
    intros [= <-]. exists [], [], []. split; [done|]. split; [simpl; lia|].
    left. split; [done|]. split; [simpl; lia|constructor].
  - cbn [wait_for_gossip_loop]. unfold GOSSIP_SETTLE_POLL_SUCCESSES_REQUIRED.
    destruct (Z.ltb_spec j 3) as [Hlt|Hge].
    2:{ intros [= <-]. exists [], [], (p :: polls). split; [done|].
        split; [simpl; lia|]. left. split; [done|].
        split; [simpl; lia|constructor]. }
    cbv zeta. cbn [length] in Hlen.
    rewrite (wrap32_small (k + 1)) by (unfold INT32_MIN; lia).
    destruct (match force_after with
              | Some f => (f >? 0) && (k + 1 >? f)
              | None => false
              end); [discriminate|].
    intros Hrec. apply IH in Hrec; [|lia| |lia].
    2:{ destruct (_ && _); [|lia].
        rewrite wrap32_small by (unfold INT32_MIN, INT32_MAX; lia). lia. }
    destruct Hrec as (pre & l & rest & -> & -> & Hcase).
    destruct Hcase as [(-> & Hl & Hq)|(Hl & Hq)].
    + destruct ((poll_size p =? e) && (poll_msg_processing p =? 0)) eqn:Eq.
      * apply andb_true_iff in Eq as [E1 E2].
        apply Z.eqb_eq in E1, E2.
        rewrite wrap32_small in Hl by (unfold INT32_MIN, INT32_MAX; lia).
        exists [], (p :: l), rest. split; [done|].
        split; [cbn [app length]; lia|]. left. split; [done|].
        split; [cbn [length]; lia|].
        constructor; [done|]. by rewrite <- E1.
      * exists [p], l, rest. split; [done|].
        split; [cbn [app length]; lia|]. right.
        split; [lia|done].
    + exists (p :: pre), l, rest. split; [done|].
      split; [cbn [app length]; lia|].
      right. split; [done|]. done.
Qed.

Lemma wait_for_gossip_loop_forced_bound (f : Z) (polls : list poll)
    (k j e : Z) :
  0 < f < INT32_MAX -> 0 <= k <= f ->
  f + 1 - k <= Z.of_nat (length polls) ->
  exists n, 0 <= n <= f + 1 /\
    (wait_for_gossip_loop (Some f) polls k j e = Some (wait_settled n) \/
     wait_for_gossip_loop (Some f) polls k j e = Some (wait_forced n)).
Proof.
  intros Hf. revert k j e. induction polls as [|p polls IH]; intros k j e Hk Hlen.
  - simpl in Hlen. lia.
  - cbn [wait_for_gossip_loop].
    destruct (j <? GOSSIP_SETTLE_POLL_SUCCESSES_REQUIRED).
    2:{ exists k. split; [lia|by left]. }
    cbv zeta. rewrite (wrap32_small (k + 1)) by (unfold INT32_MIN; lia).
    destruct (Z.gtb_spec f 0) as [_|]; [|lia]. cbn [andb].
    destruct (Z.gtb_spec (k + 1) f) as [Hgt|Hle].
    + exists (k + 1). split; [lia|by right].
    + cbn [length] in Hlen. apply IH; lia.
Qed.

(** X5. [wait_for_gossip] returns at once when [force_after] is 0. When it
    returns settled after [n] rounds, the last three rounds each found no
    message in processing and the endpoint map at the size the round before
    them had found. With [force_after = f > 0] it returns after at most
    [f + 1] rounds, whatever the rounds find. *)
Theorem wait_for_gossip_settles (force_after : option Z) (polls : list poll)
    (g : gossiper) :
  (force_after = Some 0 ->
   wait_for_gossip force_after polls g = Some wait_skipped) /\
  (forall n, Z.of_nat (length polls) <= INT32_MAX ->
     wait_for_gossip force_after polls g = Some (wait_settled n) ->
     exists pre l rest,
       polls = pre ++ l ++ rest /\ length l = 3%nat /\
       n = Z.of_nat (length pre) + 3 /\
       quiet_run
         (last_size (wrap32 (Z.of_nat (size (_endpoint_state_map g)))) pre) l) /\
  (forall f, force_after = Some f -> 0 < f < INT32_MAX ->
     f + 1 <= Z.of_nat (length polls) ->
     exists n, 0 <= n <= f + 1 /\
       (wait_for_gossip force_after polls g = Some (wait_settled n) \/
        wait_for_gossip force_after polls g = Some (wait_forced n))).
Proof.
  split; [by intros ->|]. split.
  - intros n Hlen. unfold wait_for_gossip.
    destruct (match force_after with Some f => f =? 0 | None => false end);
      [discriminate|]. cbv zeta.
    intros H. apply wait_for_gossip_loop_settled in H; [|lia|lia|lia].
    destruct H as (pre & l & rest & -> & -> & Hcase).
    exists pre, l, rest. split; [done|].
    destruct Hcase as [(-> & Hl & Hq)|(Hl & Hq)].
    + split; [lia|]. split; [simpl; lia|done].
    + split; [done|]. split; [rewrite length_app; lia|done].
  - intros f -> Hf Hlen. unfold wait_for_gossip.
    destruct (Z.eqb_spec f 0) as [|_]; [lia|]. cbv zeta.
    apply wait_for_gossip_loop_forced_bound; lia.
Qed.

Lemma wait_for_gossip_settles_witness :
  exists n, 0 <= n <= 2 + 1 /\
    (wait_for_gossip (Some 2)
       [mk_poll 1 4; mk_poll 2 0; mk_poll 2 1]
       (sample_gossiper false sample_local_only) = Some (wait_settled n) \/
     wait_for_gossip (Some 2)
       [mk_poll 1 4; mk_poll 2 0; mk_poll 2 1]
       (sample_gossiper false sample_local_only) = Some (wait_forced n)).
Proof.
  refine (proj2 (proj2 (wait_for_gossip_settles (Some 2)
            [mk_poll 1 4; mk_poll 2 0; mk_poll 2 1]
            (sample_gossiper false sample_local_only))) 2 _ _ _).
  - reflexivity.
  - unfold INT32_MAX. lia.
  - simpl. lia.
Defined.

(** ** The rounds of a gossip cycle *)

Lemma split_live_nodes_invariant (nodes_per_round : nat) (live : list Z)
    (talk : list (list Z)) (cur processed : list Z) :
  (1 <= nodes_per_round)%nat ->
  concat talk ++ cur = processed ->
  Forall (fun c => length c = nodes_per_round) talk ->
  (length cur <= nodes_per_round)%nat ->
  (processed <> [] -> cur <> []) ->
  let '(talk', cur') := split_live_nodes nodes_per_round live (talk, cur) in
  concat talk' ++ cur' = processed ++ live /\
  Forall (fun c => length c = nodes_per_round) talk' /\
  (length cur' <= nodes_per_round)%nat /\
  (processed ++ live <> [] -> cur' <> []).
Proof.
  intros Hn. revert talk cur processed.
  induction live as [|node live IH]; intros talk cur processed Hc Hf Hl Hne.
  - simpl. by rewrite app_nil_r.
  - unfold split_live_nodes. cbn [fold_left].
    fold (split_live_nodes nodes_per_round live).
    destruct (Nat.ltb_spec (length cur) nodes_per_round) as [Hlt|Hge].
    + specialize (IH talk (cur ++ [node]) (processed ++ [node])).
      rewrite <- (assoc_L (++) processed [node] live) in IH.
      apply IH.
      * by rewrite (assoc_L (++)), Hc.
      * done.
      * rewrite length_app. simpl. lia.
      * intros _. by destruct cur.
    + specialize (IH (talk ++ [cur]) [node] (processed ++ [node])).
      rewrite <- (assoc_L (++) processed [node] live) in IH.
      apply IH.
      * rewrite concat_app. simpl. rewrite app_nil_r.
        by rewrite <- Hc, <- !(assoc_L (++)).
      * apply Forall_app. split; [done|]. constructor; [lia|constructor].
      * simpl. lia.
      * done.
Qed.

Lemma concat_length_uniform (n : nat) (talk : list (list Z)) :
  Forall (fun c => length c = n) talk ->
  length (concat talk) = (length talk * n)%nat.
Proof.
  induction 1 as [|c talk Hc _ IH]; [done|].
  simpl. rewrite length_app, IH, Hc. lia.
Qed.

Lemma run_plan_rounds_refill (shuffle : list Z -> list Z) (g : gossiper) :
  _endpoints_to_talk_with g = [] ->
  _live_endpoints (run_plan_rounds shuffle g) = shuffle (_live_endpoints g) /\
  _endpoints_to_talk_with (run_plan_rounds shuffle g) =
    let live := shuffle (_live_endpoints g) in
    let '(talk, cur) :=
      split_live_nodes ((length live + 10 - 1) / 10)%nat live ([], []) in
    let talk := match cur with [] => talk | _ => talk ++ [cur] end in
    match talk with
    | [] => match elements (_seeds g) with
            | [] => []
            | nodes => [nodes]
            end
    | _ => talk
    end.
Proof.
  intros Hempty. unfold run_plan_rounds. rewrite Hempty. cbv zeta.
  cbn [_live_endpoints set_live_endpoints _endpoints_to_talk_with].
  rewrite Hempty.
  destruct (split_live_nodes _ _ _) as [talk cur].
  destruct cur as [|x cur];
    cbn [_endpoints_to_talk_with set_endpoints_to_talk_with].
  - destruct talk as [|r rs]; [|done].
    cbn [_seeds set_endpoints_to_talk_with set_live_endpoints].
    by destruct (elements (_seeds g)).
  - destruct (talk ++ [x :: cur]) as [|r rs] eqn:Er; [|done].
    by destruct talk.
Qed.

(** X6. When [run] refills the rounds from a non-empty, shuffled list of
    live endpoints, the rounds put one after the other are the live
    endpoints, there are at most 10 of them, none is empty and none holds
    more than a tenth of the live endpoints, rounded up: the node talks to
    every live endpoint once within 10 rounds. With no live endpoint the
    seeds, if any, make the one round. *)
Theorem run_plans_ten_rounds (shuffle : list Z -> list Z) (g : gossiper) :
  _endpoints_to_talk_with g = [] ->
  (_live_endpoints g <> [] -> shuffle (_live_endpoints g) ≡ₚ _live_endpoints g ->
   let g' := run_plan_rounds shuffle g in
   _live_endpoints g' = shuffle (_live_endpoints g) /\
   concat (_endpoints_to_talk_with g') = _live_endpoints g' /\
   (length (_endpoints_to_talk_with g') <= 10)%nat /\
   Forall (fun round =>
       round <> [] /\
       (length round <= (length (_live_endpoints g) + 9) / 10)%nat)
     (_endpoints_to_talk_with g')) /\
  (shuffle (_live_endpoints g) = [] ->
   _endpoints_to_talk_with (run_plan_rounds shuffle g) =
     match elements (_seeds g) with
     | [] => []
     | nodes => [nodes]
     end).
Proof.
  intros Hempty.
  destruct (run_plan_rounds_refill shuffle g Hempty) as [Hlv Htk].
  split.
  - intros Hlive Hperm. cbv zeta. rewrite Hlv, Htk. clear Hlv Htk. cbv zeta.
    set (live := shuffle (_live_endpoints g)).
    assert (Hlen : length live = length (_live_endpoints g))
      by (apply Permutation_length, Hperm).
    assert (Hlive' : live <> []).
    { intros E. rewrite E in Hlen. by destruct (_live_endpoints g). }
    set (npr := ((length live + 10 - 1) / 10)%nat).
    assert (Hnpr : (1 <= npr /\ length live <= 10 * npr
                    /\ npr = (length (_live_endpoints g) + 9) / 10)%nat).
    { unfold npr. rewrite <- Hlen.
      assert (0 < length live)%nat by (destruct live; [done|simpl; lia]).
      replace (length live + 10 - 1)%nat with (length live + 9)%nat by lia.
      pose proof (Nat.div_mod_eq (length live + 9) 10) as Hd.
      pose proof (Nat.mod_upper_bound (length live + 9) 10 ltac:(lia)) as Hm.
      lia. }
    destruct Hnpr as (Hnpr1 & Hnpr2 & Hnpr3).
    pose proof (split_live_nodes_invariant npr live [] [] [] Hnpr1
                  eq_refl (Forall_nil_2 _) ltac:(simpl; lia) ltac:(done)) as Hinv.
    destruct (split_live_nodes npr live ([], [])) as [talk cur].
    destruct Hinv as (Hc & Hf & Hl & Hne). simpl in Hc, Hne.
    specialize (Hne Hlive').
    destruct cur as [|x cur]; [done|].
    assert (Htalk : talk ++ [x :: cur] <> []) by (by destruct talk).
    destruct (talk ++ [x :: cur]) as [|r rs] eqn:Er; [done|].
    rewrite <- Er.
    split; [done|]. split.
    { rewrite concat_app. simpl. by rewrite app_nil_r. }
    split.
    { rewrite length_app. simpl.
      pose proof (concat_length_uniform npr talk Hf) as Hcl.
      assert (Hsum : (length (concat talk) + length (x :: cur) = length live)%nat)
        by (by rewrite <- Hc, length_app).
      simpl in Hsum, Hl. nia. }
    apply Forall_app. split.
    + eapply Forall_impl; [exact Hf|]. intros c Hcn. simpl in Hcn.
      split; [|lia]. intros ->. simpl in Hcn. lia.
    + constructor; [|constructor]. split; [done|]. lia.
  - intros Hnil. rewrite Htk, Hnil. simpl. by destruct (elements (_seeds g)).
Qed.

Lemma run_plans_ten_rounds_witness :
  concat (_endpoints_to_talk_with
            (run_plan_rounds (@rev Z)
               (set_live_endpoints [3; 4; 5; 6; 7; 8; 9; 10; 11; 12; 13; 14]
                  (sample_gossiper false sample_local_only)))) =
  [14; 13; 12; 11; 10; 9; 8; 7; 6; 5; 4; 3].
Proof.
  refine (proj1 (proj2 (proj1 (run_plans_ten_rounds (@rev Z)
            (set_live_endpoints [3; 4; 5; 6; 7; 8; 9; 10; 11; 12; 13; 14]
               (sample_gossiper false sample_local_only)) _) _ _))).
  - reflexivity.
  - discriminate.
  - apply Permutation_sym, Permutation_rev.
Defined.

(** ** The pinger of the direct failure detector *)

Lemma allocate_id_fresh (addr : Z) (p : direct_fd_pinger) :
  pinger_ok p -> _addr_to_id p !! addr = None ->
  _next_allocated_id p + 1 < UINT64_MODULUS ->
  allocate_id addr p =
    (_next_allocated_id p,
     mk_direct_fd_pinger (_generation_number p) (_next_allocated_id p + 1)
       (<[addr := _next_allocated_id p]> (_addr_to_id p))
       (<[_next_allocated_id p := addr]> (_id_to_addr p))).
Proof.
  intros (Hinv & Hlt & Hnext) Hnew Hroom. unfold allocate_id. rewrite Hnew.
  cbv zeta.
  destruct (_id_to_addr p !! _next_allocated_id p) as [a|] eqn:E.
  { apply Hlt in E. lia. }
  by rewrite Z.mod_small by lia.
Qed.

Lemma allocate_id_known (addr id : Z) (p : direct_fd_pinger) :
  _addr_to_id p !! addr = Some id -> allocate_id addr p = (id, p).
Proof. intros E. unfold allocate_id. by rewrite E. Qed.

Lemma pinger_ok_allocate_id (addr : Z) (p : direct_fd_pinger) :
  pinger_ok p -> _next_allocated_id p + 1 < UINT64_MODULUS ->
  pinger_ok (allocate_id addr p).2.
Proof.
  intros Hok Hroom.
  destruct (_addr_to_id p !! addr) as [id|] eqn:E.
  { by rewrite (allocate_id_known _ _ _ E). }
  rewrite (allocate_id_fresh _ _ Hok E Hroom).
  destruct Hok as (Hinv & Hlt & Hnext). split; [|split]; simpl.
  - intros a i.
    destruct (decide (a = addr)) as [->|Ha];
      destruct (decide (i = _next_allocated_id p)) as [->|Hi].
    + by rewrite !lookup_insert_eq.
    + rewrite lookup_insert_eq, lookup_insert_ne by done. split.
      * intros [= <-]. done.
      * intros Hi'. apply Hinv in Hi'. congruence.
    + rewrite lookup_insert_ne, lookup_insert_eq by done. split.
      * intros Ha'. apply Hinv, Hlt in Ha'. lia.
      * intros [= <-]. done.
    + rewrite !lookup_insert_ne by done. apply Hinv.
  - intros i a.
    destruct (decide (i = _next_allocated_id p)) as [->|Hi].
    + intros _. lia.
    + rewrite lookup_insert_ne by done. intros Hi'. apply Hlt in Hi'. lia.
  - lia.
Qed.

(** X7. On a pinger whose two maps are inverse to each other, with room for
    one more id: [allocate_id] keeps them inverse; the id it returns leads
    back to the address, on shard 0 and through [get_address] on a shard
    whose cache holds earlier ids only; asking again returns the same id and
    changes nothing; the ids of the other addresses stay and differ from the
    one returned. [update_generation_number] never lowers the generation
    number. *)
Theorem allocate_id_round_trip (addr : Z) (p : direct_fd_pinger) :
  pinger_ok p -> _next_allocated_id p + 1 < UINT64_MODULUS ->
  let id := (allocate_id addr p).1 in
  let p' := (allocate_id addr p).2 in
  pinger_ok p' /\
  _id_to_addr p' !! id = Some addr /\
  (forall cache, cache ⊆ _id_to_addr p ->
     exists cache', get_address id cache p' = Some (addr, cache') /\
                    cache' ⊆ _id_to_addr p') /\
  allocate_id addr p' = (id, p') /\
  (forall addr2 id2, _addr_to_id p !! addr2 = Some id2 ->
     _addr_to_id p' !! addr2 = Some id2 /\ (addr2 <> addr -> id2 <> id)) /\
  (forall n, pinger_ok (update_generation_number n p) /\
             _generation_number (update_generation_number n p) =
               Z.max n (_generation_number p)).
Proof.
  intros Hok Hroom. cbv zeta.
  pose proof (pinger_ok_allocate_id addr p Hok Hroom) as Hok'.
  assert (Hid : _addr_to_id (allocate_id addr p).2 !! addr =
                Some (allocate_id addr p).1).
  { destruct (_addr_to_id p !! addr) as [id|] eqn:E.
    - by rewrite (allocate_id_known _ _ _ E).
    - rewrite (allocate_id_fresh _ _ Hok E Hroom). simpl.
      by rewrite lookup_insert_eq. }
  assert (Hsub : _id_to_addr p ⊆ _id_to_addr (allocate_id addr p).2).
  { destruct (_addr_to_id p !! addr) as [id|] eqn:E.
    - by rewrite (allocate_id_known _ _ _ E).
    - rewrite (allocate_id_fresh _ _ Hok E Hroom). simpl.
      apply insert_subseteq.
      destruct (_id_to_addr p !! _next_allocated_id p) as [a|] eqn:E';
        [|done].
      destruct Hok as (_ & Hlt & _). apply Hlt in E'. lia. }
  split; [done|].
  assert (Hback : _id_to_addr (allocate_id addr p).2 !! (allocate_id addr p).1
                  = Some addr) by (by apply Hok').
  split; [done|]. split.
  { intros cache Hcache. unfold get_address.
    destruct (cache !! (allocate_id addr p).1) as [a|] eqn:Ec.
    - exists cache. split; [|by etrans].
      assert (Ha : _id_to_addr (allocate_id addr p).2 !! (allocate_id addr p).1
                   = Some a).
      { eapply lookup_weaken; [exact Ec|by etrans]. }
      congruence.
    - rewrite Hback. eexists. split; [done|].
      apply insert_subseteq_l; [done|by etrans]. }
  split.
  { rewrite (allocate_id_known _ _ _ Hid). by destruct (allocate_id addr p). }
  split.
  { intros addr2 id2 E2.
    destruct (_addr_to_id p !! addr) as [id|] eqn:E.
    - rewrite (allocate_id_known _ _ _ E). simpl. split; [done|].
      intros Hne ->. destruct Hok as (Hinv & _).
      apply Hinv in E, E2. congruence.
    - rewrite (allocate_id_fresh _ _ Hok E Hroom). simpl.
      assert (addr2 <> addr) by congruence.
      rewrite lookup_insert_ne by done. split; [done|].
      intros _ ->. destruct Hok as (Hinv & Hlt & _).
      apply Hinv, Hlt in E2. lia. }
  intros n. unfold update_generation_number.
  destruct (Z.leb_spec n (_generation_number p)); simpl.
  - split; [done|lia].
  - split; [exact Hok|lia].
Qed.

Lemma allocate_id_round_trip_witness :
  _id_to_addr (allocate_id 7 direct_fd_pinger_initial).2
    !! (allocate_id 7 direct_fd_pinger_initial).1 = Some 7.
Proof.
  refine (proj1 (proj2 (allocate_id_round_trip 7 direct_fd_pinger_initial _ _))).
  - split; [|split]; simpl.
    + intros addr id. by rewrite !lookup_empty.
    + intros id addr. by rewrite lookup_empty.
    + unfold UINT64_MODULUS. lia.
  - vm_compute. reflexivity.
Defined.

(** ** The digests a node offers *)

Lemma make_random_gossip_digest_fold (g : gossiper) (endpoints : list Z)
    (generation max_version : Z) (g_digests : list gossip_digest) :
  (forall ep, ep ∈ endpoints -> is_Some (_endpoint_state_map g !! ep)) ->
  (fold_left (make_random_gossip_digest_body g) endpoints
     (generation, max_version, g_digests)).2 =
  g_digests ++ List.map (digest_of g) endpoints.
Proof.
  revert generation max_version g_digests.
  induction endpoints as [|ep endpoints IH];
    intros generation max_version g_digests Hknown.
  - simpl. by rewrite app_nil_r.
  - cbn [fold_left List.map].
    destruct (Hknown ep ltac:(left)) as [eps Heps].
    assert (E : make_random_gossip_digest_body g
                  (generation, max_version, g_digests) ep =
                (get_generation (get_heart_beat_state eps),
                 get_max_endpoint_state_version eps,
                 g_digests ++ [digest_of g ep])).
    { unfold make_random_gossip_digest_body, digest_of,
        get_endpoint_state_for_endpoint_ptr. by rewrite Heps. }
    rewrite E, IH by (intros ep' Hep'; apply Hknown; by right).
    by rewrite <- (assoc_L (++)).
Qed.

Lemma examine_digest_in_sync (g : gossiper) (ep : Z)
    (acc : list gossip_digest * gmap Z endpoint_state) :
  is_Some (_endpoint_state_map g !! ep) ->
  examine_digest g acc (digest_of g ep) = acc.
Proof.
  intros [eps Heps]. unfold examine_digest, digest_of,
    get_endpoint_state_for_endpoint_ptr. rewrite Heps.
  destruct acc as [dl dm]. cbn [get_endpoint get_max_version digest_generation].
  rewrite Heps. cbv zeta. by rewrite !Z.eqb_refl.
Qed.

(** X8. [make_random_gossip_digest] appends one digest for each endpoint the
    node knows, in the shuffled order, each with the generation and the
    largest version the node holds for the endpoint. A node whose endpoint
    state map is the same has nothing to answer to these digests:
    [examine_gossiper] requests nothing and sends nothing. *)
Theorem make_random_gossip_digest_in_sync (shuffle : list Z -> list Z)
    (g g2 : gossiper) :
  shuffle ((map_to_list (_endpoint_state_map g)).*1) ≡ₚ
    (map_to_list (_endpoint_state_map g)).*1 ->
  let g_digests := make_random_gossip_digest shuffle [] g in
  List.map get_endpoint g_digests =
    shuffle ((map_to_list (_endpoint_state_map g)).*1) /\
  NoDup (List.map get_endpoint g_digests) /\
  (forall eps ep, _endpoint_state_map g !! ep = Some eps ->
     mk_gossip_digest ep (get_generation (get_heart_beat_state eps))
       (get_max_endpoint_state_version eps) ∈ g_digests) /\
  (forall d, d ∈ g_digests ->
     exists eps, _endpoint_state_map g !! get_endpoint d = Some eps /\
       digest_generation d = get_generation (get_heart_beat_state eps) /\
       get_max_version d = get_max_endpoint_state_version eps) /\
  (_endpoint_state_map g2 = _endpoint_state_map g ->
   examine_gossiper g_digests [] ∅ g2 = ([], ∅)).
Proof.
  intros Hperm. cbv zeta. unfold make_random_gossip_digest. cbv zeta.
  set (endpoints := shuffle ((map_to_list (_endpoint_state_map g)).*1)) in *.
  assert (Hknown : forall ep, ep ∈ endpoints ->
                     is_Some (_endpoint_state_map g !! ep)).
  { intros ep Hep. rewrite Hperm in Hep.
    apply list_elem_of_fmap in Hep as ([ep' eps] & -> & Hep).
    apply elem_of_map_to_list in Hep. by eexists. }
  rewrite make_random_gossip_digest_fold by done. cbn [app].
  assert (Hmap : List.map get_endpoint (List.map (digest_of g) endpoints) =
                 endpoints).
  { rewrite List.map_map. rewrite <- (List.map_id endpoints) at 2.
    apply List.map_ext. intros ep. unfold digest_of.
    by destruct (get_endpoint_state_for_endpoint_ptr ep g). }
  split; [done|]. split.
  { rewrite Hmap, Hperm. apply NoDup_fst_map_to_list. }
  split.
  { intros eps ep Heps.
    assert (Hin : ep ∈ endpoints).
    { rewrite Hperm. apply list_elem_of_fmap. exists (ep, eps).
      split; [done|]. by apply elem_of_map_to_list. }
    apply list_elem_of_In, List.in_map_iff. exists ep.
    split; [|by apply list_elem_of_In].
    unfold digest_of, get_endpoint_state_for_endpoint_ptr. by rewrite Heps. }
  split.
  { intros d Hd. apply list_elem_of_In, List.in_map_iff in Hd as (ep & <- & Hep).
    apply list_elem_of_In, Hknown in Hep as [eps Heps].
    exists eps. unfold digest_of, get_endpoint_state_for_endpoint_ptr.
    rewrite Heps. simpl. by rewrite Heps. }
  intros Hsame. unfold examine_gossiper.
  assert (Hfold : forall l acc,
            (forall ep, ep ∈ l -> is_Some (_endpoint_state_map g !! ep)) ->
            fold_left (examine_digest g2) (List.map (digest_of g) l) acc = acc).
  { induction l as [|ep l IH]; intros acc Hl; [done|]. cbn [List.map fold_left].
    assert (E : digest_of g ep = digest_of g2 ep).
    { unfold digest_of, get_endpoint_state_for_endpoint_ptr. by rewrite Hsame. }
    rewrite E, examine_digest_in_sync.
    - apply IH. intros ep' Hep'. apply Hl. by right.
    - rewrite Hsame. apply Hl. by left. }
  clearbody endpoints. destruct endpoints as [|ep endpoints'].
  - cbn [List.map length Nat.eqb].
    apply Permutation_nil in Hperm.
    apply fmap_nil_inv in Hperm.
    rewrite Hsame, Hperm. done.
  - cbn [List.map length Nat.eqb]. apply (Hfold (ep :: endpoints')).
    apply Hknown.
Qed.

Lemma make_random_gossip_digest_in_sync_witness :
  examine_gossiper
    (make_random_gossip_digest (@rev Z) []
       (sample_gossiper false sample_with_peer))
    [] ∅ (sample_gossiper false sample_with_peer) = ([], ∅).
Proof.
  refine (proj2 (proj2 (proj2 (proj2 (make_random_gossip_digest_in_sync (@rev Z)
            (sample_gossiper false sample_with_peer)
            (sample_gossiper false sample_with_peer) _)))) _).
  - apply Permutation_sym, Permutation_rev.
  - reflexivity.
Defined.

(** ** Answering a request for endpoint states *)

Lemma fold_left_emplace `{Countable K} {V : Type} (l : list (K * V))
    (m : gmap K V) :
  fold_left (fun m (kv : K * V) => emplace kv.1 kv.2 m) l m =
  m ∪ list_to_map l.
Proof.
  revert m. induction l as [|[k v] l IH]; intros m; simpl.
  - by rewrite (right_id_L ∅ (∪)).
  - rewrite IH. unfold emplace. simpl.
    destruct (m !! k) as [v'|] eqn:E.
    + apply map_eq. intros i. rewrite !lookup_union.
      destruct (decide (i = k)) as [->|Hne].
      * rewrite E, lookup_insert_eq. by destruct (list_to_map l !! k).
      * by rewrite lookup_insert_ne.
    + by rewrite <- insert_union_l, insert_union_r.
Qed.

Lemma wanted_apps_fold (wanted : gset application_state)
    (l : list (application_state * versioned_value)) (sw : endpoint_state) :
  fold_left (fun (state_wanted : endpoint_state)
                 (app : application_state * versioned_value) =>
      if bool_decide (app.1 ∈ wanted)
      then mk_endpoint_state (get_heart_beat_state state_wanted)
             (emplace app.1 app.2 (get_application_state_map state_wanted))
             (get_update_timestamp state_wanted) (is_alive_bit state_wanted)
      else state_wanted) l sw =
  mk_endpoint_state (get_heart_beat_state sw)
    (get_application_state_map sw ∪
     list_to_map (filter (fun kv => kv.1 ∈ wanted) l))
    (get_update_timestamp sw) (is_alive_bit sw).
Proof.
  revert sw. induction l as [|[k v] l IH]; intros sw; simpl.
  - rewrite (right_id_L ∅ (∪)). by destruct sw.
  - rewrite IH. simpl. destruct (bool_decide_reflect (k ∈ wanted)) as [Hk|Hk].
    + rewrite filter_cons_True by done. simpl. f_equal.
      unfold emplace. destruct (get_application_state_map sw !! k) eqn:E.
      * apply map_eq. intros i. rewrite !lookup_union.
        destruct (decide (i = k)) as [->|Hne].
        -- rewrite E, lookup_insert_eq.
           by destruct (list_to_map _ !! k).
        -- by rewrite lookup_insert_ne.
      * by rewrite <- insert_union_l, insert_union_r.
    + by rewrite filter_cons_False.
Qed.

Lemma handle_get_endpoint_states_msg_fmap
    (wanted : gset application_state) (g : gossiper) :
  handle_get_endpoint_states_msg wanted g =
  (fun state =>
     mk_endpoint_state (get_heart_beat_state state)
       (filter (fun kv => kv.1 ∈ wanted) (get_application_state_map state))
       (now (env g)) true) <$> _endpoint_state_map g.
Proof.
  unfold handle_get_endpoint_states_msg.
  set (f := fun state : endpoint_state =>
     mk_endpoint_state (get_heart_beat_state state)
       (filter (fun kv : application_state * versioned_value => kv.1 ∈ wanted)
          (get_application_state_map state))
       (now (env g)) true).
  rewrite <- (list_to_map_to_list (f <$> _endpoint_state_map g)).
  rewrite map_to_list_fmap.
  rewrite <- (left_id_L ∅ (∪) (list_to_map _)).
  rewrite <- fold_left_emplace.
  generalize (∅ : gmap Z endpoint_state).
  induction (map_to_list (_endpoint_state_map g)) as [|[node state] l IH];
    intros m; [done|].
  cbn [fold_left fmap list_fmap]. rewrite <- IH. f_equal. cbv zeta.
  cbn [fst snd prod_map]. f_equal.
  rewrite wanted_apps_fold. unfold f, endpoint_state_of_heart_beat. simpl.
  by rewrite (left_id_L ∅ (∪)), <- map_filter_alt.
Qed.

(** X9. The response to a request for endpoint states has an entry for
    exactly the endpoints the node knows; the entry of an endpoint carries
    the heartbeat the node holds for it and, of its application states,
    exactly those whose key was asked for. *)
Theorem handle_get_endpoint_states_msg_wanted
    (application_states_wanted : gset application_state) (g : gossiper)
    (node : Z) :
  let response :=
    handle_get_endpoint_states_msg application_states_wanted g in
  (response !! node = None <-> _endpoint_state_map g !! node = None) /\
  (forall state, _endpoint_state_map g !! node = Some state ->
     exists state_wanted,
       response !! node = Some state_wanted /\
       get_heart_beat_state state_wanted = get_heart_beat_state state /\
       forall key v,
         get_application_state_map state_wanted !! key = Some v <->
         get_application_state_map state !! key = Some v /\
         key ∈ application_states_wanted).
Proof.
  cbv zeta. rewrite handle_get_endpoint_states_msg_fmap. split.
  - by rewrite lookup_fmap, fmap_None.
  - intros state E. rewrite lookup_fmap, E. simpl. eexists.
    split; [done|]. split; [done|]. intros key v. simpl.
    by rewrite map_lookup_filter_Some.
Qed.

Lemma handle_get_endpoint_states_msg_wanted_witness :
  exists state_wanted,
    handle_get_endpoint_states_msg {[STATUS]}
      (sample_gossiper false sample_with_peer) !! 7 = Some state_wanted /\
    get_heart_beat_state state_wanted = mk_heart_beat_state 900 3.
Proof.
  destruct (proj2 (handle_get_endpoint_states_msg_wanted {[STATUS]}
                     (sample_gossiper false sample_with_peer) 7)
              (sample_state 900 3 "NORMAL" 2 false) eq_refl)
    as (state_wanted & H1 & H2 & _).
  exists state_wanted. split; [exact H1|exact H2].
Defined.

(** ** Answering an Echo *)

Lemma handle_echo_msg_true_iff (a : advertising) (from : Z)
    (generation_number_opt : option Z) (g : gossiper) :
  handle_echo_msg a from generation_number_opt g = true <->
  _advertise_myself a = true /\
  (_advertise_to_nodes a = ∅ \/
   exists saved_generation_number local_generation,
     _advertise_to_nodes a !! from = Some saved_generation_number /\
     generation_of from g = Some local_generation /\
     saved_generation_number =
       default local_generation generation_number_opt).
Proof.
  unfold handle_echo_msg, generation_of, get_endpoint_state_for_endpoint_ptr.
  cbv zeta. destruct (_advertise_myself a); simpl.
  2:{ split; [done|]. by intros [? _]. }
  destruct (bool_decide_reflect (_advertise_to_nodes a = ∅)) as [He|He]; simpl.
  { split; [|done]. intros _. split; [done|by left]. }
  destruct (_advertise_to_nodes a !! from) as [saved|] eqn:Es.
  2:{ split; [done|]. intros [_ [?|(s & l & Hs & _)]]; done. }
  destruct (_endpoint_state_map g !! from) as [es|] eqn:Ee; simpl.
  2:{ split; [done|]. intros [_ [?|(s & l & _ & Hl & _)]]; done. }
  rewrite Z.eqb_eq. split.
  - intros ->. split; [done|]. right. eexists _, _. split; [done|].
    split; [done|]. by destruct generation_number_opt.
  - intros [_ [?|(s & l & [= <-] & [= <-] & ->)]]; [done|].
    by destruct generation_number_opt.
Qed.

Lemma get_generation_for_nodes_fold (nodes : list Z) (g : gossiper)
    (ret : gmap Z Z) :
  fold_left (get_generation_for_nodes_body g) nodes (Some ret) =
  if bool_decide (Forall (fun node => is_Some (_endpoint_state_map g !! node))
                    nodes)
  then Some (ret ∪ list_to_map
               (omap (fun node => pair node <$> generation_of node g) nodes))
  else None.
Proof.
  revert ret. induction nodes as [|node nodes IH]; intros ret.
  - cbn [fold_left omap list_omap list_to_map].
    rewrite bool_decide_eq_true_2 by constructor.
    change (list_to_map [] : gmap Z Z) with (∅ : gmap Z Z).
    by rewrite (right_id_L ∅ (∪)).
  - cbn [fold_left omap list_omap].
    unfold get_generation_for_nodes_body at 2, generation_of at 1,
      get_endpoint_state_for_endpoint_ptr.
    destruct (_endpoint_state_map g !! node) as [es|] eqn:Ee.
    + cbv zeta. rewrite IH. simpl.
      destruct (bool_decide_reflect
                  (Forall (fun node => is_Some (_endpoint_state_map g !! node))
                     nodes)) as [Hall|Hall].
      * rewrite bool_decide_eq_true_2 by (constructor; [by eexists|done]).
        f_equal. unfold emplace.
        destruct (ret !! node) as [v'|] eqn:E.
        -- apply map_eq. intros i. rewrite !lookup_union.
           destruct (decide (i = node)) as [->|Hne].
           ++ rewrite E, lookup_insert_eq. by destruct (list_to_map _ !! node).
           ++ by rewrite lookup_insert_ne.
        -- by rewrite <- insert_union_l, insert_union_r.
      * rewrite bool_decide_eq_false_2; [done|].
        intros Hall'. by apply Forall_cons in Hall' as [_ ?].
    + rewrite bool_decide_eq_false_2.
      * clear IH. induction nodes as [|n nodes IHn]; simpl; [done|exact IHn].
      * intros Hall'. apply Forall_cons in Hall' as [[? ?] _]. congruence.
Qed.

Lemma get_generation_for_nodes_lookup (nodes : list Z) (g : gossiper)
    (node : Z) :
  (list_to_map (omap (fun node => pair node <$> generation_of node g) nodes)
     : gmap Z Z) !! node =
  if bool_decide (node ∈ nodes) then generation_of node g else None.
Proof.
  induction nodes as [|n nodes IH]; [done|].
  cbn [omap list_omap].
  destruct (generation_of n g) as [gen|] eqn:En; simpl.
  - destruct (decide (node = n)) as [->|Hne].
    + rewrite lookup_insert_eq, bool_decide_eq_true_2 by left. done.
    + rewrite lookup_insert_ne, IH by done.
      destruct (bool_decide_reflect (node ∈ nodes)) as [Hin|Hnin].
      * by rewrite bool_decide_eq_true_2 by (by right).
      * rewrite bool_decide_eq_false_2; [done|].
        intros [->|?]%elem_of_cons; done.
  - rewrite IH. destruct (decide (node = n)) as [->|Hne].
    + rewrite (bool_decide_eq_true_2 (n ∈ n :: nodes)) by left. rewrite En.
      by destruct (bool_decide _).
    + destruct (bool_decide_reflect (node ∈ nodes)) as [Hin|Hnin].
      * by rewrite bool_decide_eq_true_2 by (by right).
      * rewrite bool_decide_eq_false_2; [done|].
        intros [->|?]%elem_of_cons; done.
Qed.

(** X10. [handle_echo_msg] answers exactly when the node advertises itself
    and either it advertises to everyone, or the sender is one of the nodes
    it advertises to, the node holds a state for the sender, and the
    generation saved for the sender is the one the Echo carries, or the one
    held for the sender when the Echo carries none. *)
Theorem handle_echo_msg_answers (a : advertising) (from : Z)
    (generation_number_opt : option Z) (g : gossiper) :
  (handle_echo_msg a from generation_number_opt g = true <->
   _advertise_myself a = true /\
   (_advertise_to_nodes a = ∅ \/
    exists saved_generation_number local_generation,
      _advertise_to_nodes a !! from = Some saved_generation_number /\
      generation_of from g = Some local_generation /\
      saved_generation_number =
        default local_generation generation_number_opt)) /\
  (_advertise_to_nodes a <> ∅ -> _endpoint_state_map g !! from = None ->
   handle_echo_msg a from generation_number_opt g = false).
Proof.
  split; [apply handle_echo_msg_true_iff|].
  intros Hne Hnone. apply not_true_is_false.
  rewrite handle_echo_msg_true_iff. unfold generation_of. rewrite Hnone.
  intros [_ [?|(s & l & _ & Hl & _)]]; done.
Qed.

Lemma handle_echo_msg_answers_witness :
  handle_echo_msg (mk_advertising true {[7 := 900]}) 9 (Some 900)
    (sample_gossiper false sample_with_peer) = false.
Proof.
  refine (proj2 (handle_echo_msg_answers (mk_advertising true {[7 := 900]}) 9
                   (Some 900) (sample_gossiper false sample_with_peer)) _ _).
  - intros E. apply (f_equal (fun m : gmap Z Z => m !! 7)) in E.
    vm_compute in E. discriminate E.
  - reflexivity.
Defined.

(** X11. [get_generation_for_nodes] fails exactly when one of the nodes has
    no state; otherwise it maps each of the nodes, and nothing else, to the
    generation held for it. After [advertise_to_nodes] with that map, given
    at least one node, an Echo that carries no generation is answered exactly
    for a sender among the nodes whose generation is still the one recorded. *)
Theorem advertise_to_nodes_with_generations (nodes : list Z)
    (a : advertising) (g : gossiper) :
  (get_generation_for_nodes nodes g = None <->
   exists node, node ∈ nodes /\ _endpoint_state_map g !! node = None) /\
  (forall m, get_generation_for_nodes nodes g = Some m ->
     (forall node, m !! node =
        if bool_decide (node ∈ nodes) then generation_of node g else None) /\
     (nodes <> [] ->
      forall from g',
        handle_echo_msg (advertise_to_nodes m a) from None g' = true <->
        from ∈ nodes /\ generation_of from g' = generation_of from g)).
Proof.
  unfold get_generation_for_nodes.
  rewrite (get_generation_for_nodes_fold nodes g ∅).
  destruct (bool_decide_reflect
              (Forall (fun node => is_Some (_endpoint_state_map g !! node))
                 nodes)) as [Hall|Hall].
  - split.
    { split; [done|]. intros (node & Hin & Hnone).
      rewrite Forall_forall in Hall. destruct (Hall node Hin). congruence. }
    intros m [= <-]. rewrite (left_id_L ∅ (∪)).
    split; [apply get_generation_for_nodes_lookup|].
    intros Hne from g'. rewrite handle_echo_msg_true_iff. simpl.
    rewrite get_generation_for_nodes_lookup.
    rewrite Forall_forall in Hall.
    split.
    + intros [_ [He|(saved & local & Hs & Hl & ->)]].
      * exfalso. destruct nodes as [|n nodes]; [done|].
        apply (f_equal (fun m : gmap Z Z => m !! n)) in He.
        rewrite get_generation_for_nodes_lookup, lookup_empty in He.
        rewrite bool_decide_eq_true_2 in He by left.
        destruct (Hall n ltac:(left)) as [es Hes].
        unfold generation_of in He. by rewrite Hes in He.
      * destruct (bool_decide_reflect (from ∈ nodes)); [|done].
        split; [done|]. simpl in Hs. by rewrite Hs, Hl.
    + intros [Hin Hgen]. split; [done|]. right.
      destruct (Hall from Hin) as [es Hes].
      rewrite bool_decide_eq_true_2 by done.
      exists (get_generation (get_heart_beat_state es)),
             (get_generation (get_heart_beat_state es)).
      unfold generation_of in *. rewrite Hes in *. simpl in *.
      by rewrite Hgen.
  - split; [|done]. split; [|done]. intros _.
    apply not_Forall_Exists in Hall; [|intros x; apply _].
    apply Exists_exists in Hall as (node & Hin & Hnone).
    exists node. split; [done|].
    by apply eq_None_not_Some.
Qed.

Lemma advertise_to_nodes_with_generations_witness :
  handle_echo_msg
    (advertise_to_nodes {[7 := 900]} (mk_advertising false ∅)) 7 None
    (sample_gossiper false sample_with_peer) = true.
Proof.
  refine (proj2 (proj2 (proj2 (advertise_to_nodes_with_generations [7]
            (mk_advertising false ∅)
            (sample_gossiper false sample_with_peer)) {[7 := 900]} _) _ 7
            (sample_gossiper false sample_with_peer)) _).
  - reflexivity.
  - discriminate.
  - split; [by left|reflexivity].
Defined.

(** ** A peer announces its shutdown *)

Lemma mark_as_shutdown_effect (ep : Z) (g : gossiper) (st : endpoint_state) :
  _endpoint_state_map g !! ep = Some st ->
  let st' := shut_down_state (wrap32 (version_generator g + 1)) st in
  _endpoint_state_map (mark_as_shutdown ep g) =
    <[ep := st']> (_endpoint_state_map g) /\
  _live_endpoints (mark_as_shutdown ep g) = remove_from ep (_live_endpoints g) /\
  _unreachable_endpoints (mark_as_shutdown ep g) =
    <[ep := now (env g)]> (_unreachable_endpoints g) /\
  trace (mark_as_shutdown ep g) = trace g ++ [on_dead ep st'] /\
  version_generator (mark_as_shutdown ep g) = wrap32 (version_generator g + 1).
Proof.
  intros E. cbv zeta. rewrite mark_as_shutdown_as_mark_dead.
  unfold get_endpoint_state_for_endpoint_ptr. rewrite E.
  unfold versioned_value_shutdown, get_next_version. cbv zeta iota beta.
  unfold mark_dead, get_endpoint_state_for_endpoint_ptr. simpl.
  rewrite lookup_insert_eq. simpl. rewrite insert_insert_eq.
  repeat split.
Qed.

Lemma shut_down_state_status (v : Z) (st : endpoint_state) :
  get_gossip_status (shut_down_state v st) = SHUTDOWN /\
  is_alive_bit (shut_down_state v st) = false /\
  get_heart_beat_state (shut_down_state v st) =
    mk_heart_beat_state (get_generation (get_heart_beat_state st)) INT32_MAX.
Proof.
  unfold shut_down_state, get_gossip_status, get_application_state_ptr. simpl.
  by rewrite lookup_insert_eq.
Qed.

(** X12. A shutdown message is ignored, leaving the state as it is, when
    gossip is disabled, and when it carries a generation while the sender is
    unknown or held in another generation. Otherwise a sender that is known
    ends with status shutdown, not alive, with the highest heartbeat
    version, out of the live endpoints and among the unreachable ones since
    now; [on_dead] is fired once for it, the other entries stay, and the
    other shards hold its new application states. *)
Theorem handle_shutdown_msg_effect (from : Z)
    (generation_number_opt : option Z) (g : gossiper) :
  (is_enabled g = false ->
   handle_shutdown_msg from generation_number_opt g = g) /\
  (forall received, generation_number_opt = Some received ->
     generation_of from g <> Some received ->
     handle_shutdown_msg from generation_number_opt g = g) /\
  (forall st, is_enabled g = true ->
     _endpoint_state_map g !! from = Some st ->
     (forall received, generation_number_opt = Some received ->
        get_generation (get_heart_beat_state st) = received) ->
     let g' := handle_shutdown_msg from generation_number_opt g in
     exists st',
       _endpoint_state_map g' = <[from := st']> (_endpoint_state_map g) /\
       get_gossip_status st' = SHUTDOWN /\
       is_alive_bit st' = false /\
       get_heart_beat_state st' =
         mk_heart_beat_state (get_generation (get_heart_beat_state st))
           INT32_MAX /\
       (from ∉ _live_endpoints g') /\
       _unreachable_endpoints g' !! from = Some (now (env g)) /\
       trace g' = trace g ++ [on_dead from st'] /\
       apps_in_sync from g').
Proof.
  unfold handle_shutdown_msg. split; [by intros ->|]. split.
  - intros received -> Hgen. destruct (negb (is_enabled g)); [done|].
    unfold generation_of, get_endpoint_state_for_endpoint_ptr in *.
    destruct (_endpoint_state_map g !! from) as [es|]; [|done]. cbv zeta.
    destruct (Z.eqb_spec (get_generation (get_heart_beat_state es)) received)
      as [Heq|Hne]; [|done].
    simpl in Hgen. congruence.
  - intros st -> E Hgen. cbv zeta. cbn [negb].
    assert (Happ : match generation_number_opt with
                   | Some received_generation =>
                       match get_endpoint_state_for_endpoint_ptr from g with
                       | Some es =>
                           if negb (get_generation (get_heart_beat_state es)
                                    =? received_generation)
                           then g else mark_as_shutdown from g
                       | None => g
                       end
                   | None => mark_as_shutdown from g
                   end = mark_as_shutdown from g).
    { destruct generation_number_opt as [received|]; [|done].
      unfold get_endpoint_state_for_endpoint_ptr. rewrite E.
      by rewrite (Hgen received eq_refl), Z.eqb_refl. }
    rewrite Happ.
    destruct (mark_as_shutdown_effect from g st E) as (H1 & H2 & H3 & H4 & _).
    destruct (shut_down_state_status (wrap32 (version_generator g + 1)) st)
      as (S1 & S2 & S3).
    eexists. split; [exact H1|]. split; [exact S1|]. split; [exact S2|].
    split; [exact S3|]. split.
    { rewrite H2. intros Hin. apply remove_from_elem_of in Hin as [_ ?]. done. }
    split; [by rewrite H3, lookup_insert_eq|]. split; [exact H4|].
    apply apps_in_sync_mark_as_shutdown. right. by eexists.
Qed.

Lemma handle_shutdown_msg_effect_witness :
  handle_shutdown_msg 7 (Some 901) (sample_gossiper false sample_with_peer) =
  sample_gossiper false sample_with_peer.
Proof.
  refine (proj1 (proj2 (handle_shutdown_msg_effect 7 (Some 901)
            (sample_gossiper false sample_with_peer))) 901 _ _).
  - reflexivity.
  - vm_compute. discriminate.
Defined.

(** ** Removal, eviction and the status check *)

Lemma same_view_refl (p : Z) (g : gossiper) : same_view p g g.
Proof. constructor; try done. by apply Forall2_same_refl. Qed.

Lemma same_view_trans (p : Z) (g1 g2 g3 : gossiper) :
  same_view p g1 g2 -> same_view p g2 g3 -> same_view p g1 g3.
Proof.
  intros [E1 L1 J1 X1 S1] [E2 L2 J2 X2 S2]. constructor; try congruence.
  eapply Forall2_same_trans; [|exact S1|exact S2]. intros; congruence.
Qed.

Lemma same_view_remove_endpoint (p endpoint : Z) (g : gossiper) :
  endpoint <> p -> same_view p g (remove_endpoint endpoint g).
Proof.
  intros Hne.
  destruct (remove_endpoint_fields endpoint g)
    as (_ & _ & Hj & _ & _ & _ & Hm & Hs & Hx & He & _).
  constructor; [done|by rewrite Hm| |by rewrite Hx|].
  - by rewrite Hj, lookup_insert_ne.
  - rewrite Hs. by apply Forall2_same_refl.
Qed.

Lemma same_view_evict_from_membership (p endpoint : Z) (g : gossiper) :
  endpoint <> p -> same_view p g (evict_from_membership endpoint g).
Proof.
  intros Hne. constructor; simpl; [done| | | |].
  - by rewrite lookup_delete_ne.
  - by rewrite lookup_insert_ne.
  - by rewrite lookup_delete_ne.
  - apply Forall2_map_r_same. intros m. by rewrite lookup_delete_ne.
Qed.

Lemma evicted_evict_from_membership (p : Z) (g : gossiper) :
  evicted p (evict_from_membership p g).
Proof.
  split; [|split]; simpl.
  - by rewrite lookup_delete_eq.
  - apply Forall_forall. intros m' Hm'.
    apply list_elem_of_In, List.in_map_iff in Hm' as (m & <- & _).
    by rewrite lookup_delete_eq.
  - by rewrite lookup_insert_eq.
Qed.

Lemma evicted_same_view (p : Z) (g g' : gossiper) :
  same_view p g g' -> evicted p g -> evicted p g'.
Proof.
  intros [E L J X S] (H1 & H2 & H3). split; [congruence|]. split.
  - clear -S H2. induction S as [|m m' l l' Hm _ IH]; [done|].
    apply Forall_cons in H2 as [Hh Ht]. constructor; [congruence|by apply IH].
  - rewrite J, E. done.
Qed.

Lemma same_view_do_status_check_entry (p now0 : Z) (g : gossiper)
    (entry : Z * endpoint_state) :
  entry.1 <> p -> same_view p g (do_status_check_entry now0 g entry).
Proof.
  intros Hne. unfold do_status_check_entry. cbv zeta.
  destruct (bool_decide _); [apply same_view_refl|].
  assert (H1 : same_view p g
            (if is_gossip_only_member entry.1 g
                && negb (bool_decide (is_Some (_just_removed_endpoints g !! entry.1)))
                && (now0 - get_update_timestamp entry.2 >? fat_client_timeout g)
             then evict_from_membership entry.1 (remove_endpoint entry.1 g)
             else g)).
  { destruct (_ && _); [|apply same_view_refl].
    eapply same_view_trans; [by apply same_view_remove_endpoint|].
    by apply same_view_evict_from_membership. }
  revert H1.
  generalize
    (if is_gossip_only_member entry.1 g
        && negb (bool_decide (is_Some (_just_removed_endpoints g !! entry.1)))
        && (now0 - get_update_timestamp entry.2 >? fat_client_timeout g)
     then evict_from_membership entry.1 (remove_endpoint entry.1 g)
     else g).
  intros g1 H1. destruct (_ && _); [|done].
  eapply same_view_trans; [exact H1|].
  by apply same_view_evict_from_membership.
Qed.

Lemma same_view_status_loop (p now0 : Z) (l : list (Z * endpoint_state))
    (g : gossiper) :
  (forall entry, entry ∈ l -> entry.1 <> p) ->
  same_view p g (fold_left (do_status_check_entry now0) l g).
Proof.
  revert g. induction l as [|entry l IH]; intros g Hl; simpl.
  - apply same_view_refl.
  - eapply same_view_trans.
    + apply same_view_do_status_check_entry, Hl. by left.
    + apply IH. intros e He. apply Hl. by right.
Qed.

Lemma do_status_check_entry_skips (p now0 : Z) (g : gossiper)
    (st : endpoint_state) :
  p = get_broadcast_address (env g) \/ is_member p g = true ->
  do_status_check_entry now0 g (p, st) = g.
Proof.
  intros Hp. unfold do_status_check_entry. cbv zeta. cbn [fst snd].
  destruct (bool_decide_reflect (p = get_broadcast_address (env g)))
    as [|Hself]; [done|].
  destruct Hp as [|Hm]; [done|].
  assert (Hg : is_gossip_only_member p g = false).
  { unfold is_gossip_only_member. rewrite Hm.
    destruct (get_endpoint_state_for_endpoint_ptr p g); [|done].
    by rewrite andb_false_r. }
  rewrite Hg. cbn [andb]. by rewrite Hm, andb_false_r.
Qed.

Lemma status_loop_keeps (p now0 : Z) (l : list (Z * endpoint_state))
    (g : gossiper) :
  p = get_broadcast_address (env g) \/ is_member p g = true ->
  same_view p g (fold_left (do_status_check_entry now0) l g).
Proof.
  revert g. induction l as [|[endpoint st] l IH]; intros g Hp; simpl.
  - apply same_view_refl.
  - destruct (decide (endpoint = p)) as [->|Hne].
    + rewrite do_status_check_entry_skips by done. by apply IH.
    + pose proof (same_view_do_status_check_entry p now0 g (endpoint, st) Hne)
        as Hv.
      eapply same_view_trans; [exact Hv|]. apply IH.
      unfold is_member in *. by rewrite (sv_env _ _ _ Hv).
Qed.

Lemma do_status_check_entry_unfold (now0 : Z) (g : gossiper) (endpoint : Z)
    (st : endpoint_state) :
  endpoint <> get_broadcast_address (env g) ->
  do_status_check_entry now0 g (endpoint, st) =
  let g1 := if is_silent_fat_client now0 g endpoint st
            then evict_from_membership endpoint (remove_endpoint endpoint g)
            else g in
  if is_expired_dead now0 g1 endpoint st
  then evict_from_membership endpoint g1
  else g1.
Proof.
  intros Hne. unfold do_status_check_entry. cbv zeta. cbn [fst snd].
  by rewrite bool_decide_eq_false_2 by done.
Qed.

Lemma evict_from_membership_fields (endpoint : Z) (g : gossiper) :
  env (evict_from_membership endpoint g) = env g /\
  _live_endpoints (evict_from_membership endpoint g) = _live_endpoints g /\
  _unreachable_endpoints (evict_from_membership endpoint g) =
    delete endpoint (_unreachable_endpoints g) /\
  _seeds (evict_from_membership endpoint g) = _seeds g /\
  trace (evict_from_membership endpoint g) = trace g /\
  _endpoint_state_map (evict_from_membership endpoint g) =
    delete endpoint (_endpoint_state_map g).
Proof. repeat split. Qed.

Lemma env_force_removed (p : Z) (g : gossiper) :
  env (evict_from_membership p (remove_endpoint p g)) = env g.
Proof.
  destruct (evict_from_membership_fields p (remove_endpoint p g)) as (-> & _).
  by destruct (remove_endpoint_fields p g)
    as (_ & _ & _ & _ & _ & _ & _ & _ & _ & He & _).
Qed.

Lemma is_silent_fat_client_true (p : Z) (g : gossiper) (st : endpoint_state) :
  is_member p g = false ->
  _endpoint_state_map g !! p = Some st -> is_dead_state st = false ->
  _just_removed_endpoints g !! p = None ->
  now (env g) - get_update_timestamp st > fat_client_timeout g ->
  is_silent_fat_client (now (env g)) g p st = true.
Proof.
  intros Hmem E Hd Hj Ht.
  unfold is_silent_fat_client, is_gossip_only_member,
    get_endpoint_state_for_endpoint_ptr.
  rewrite E, Hd, Hmem, Hj. cbn [negb andb].
  rewrite bool_decide_eq_false_2 by (by intros [? ?]). cbn [negb andb].
  destruct (Z.gtb_spec (now (env g) - get_update_timestamp st)
              (fat_client_timeout g)); [done|lia].
Qed.

Lemma do_status_check_entry_evicts (p : Z) (g : gossiper)
    (st : endpoint_state) :
  p <> get_broadcast_address (env g) ->
  is_member p g = false ->
  (_endpoint_state_map g !! p = Some st /\ is_dead_state st = false /\
   _just_removed_endpoints g !! p = None /\
   now (env g) - get_update_timestamp st > fat_client_timeout g) \/
  (is_alive_bit st = false /\
   now (env g) > get_expire_time_for_endpoint p g) ->
  evicted p (do_status_check_entry (now (env g)) g (p, st)) /\
  env (do_status_check_entry (now (env g)) g (p, st)) = env g.
Proof.
  intros Hself Hmem Hcase. rewrite do_status_check_entry_unfold by done.
  cbv zeta.
  destruct (is_silent_fat_client (now (env g)) g p st) eqn:Efat.
  - destruct (is_expired_dead _ _ _ _).
    + split; [apply evicted_evict_from_membership|].
      destruct (evict_from_membership_fields p
                  (evict_from_membership p (remove_endpoint p g))) as (-> & _).
      apply env_force_removed.
    + split; [apply evicted_evict_from_membership|apply env_force_removed].
  - destruct Hcase as [(E & Hd & Hj & Ht)|[Ha He]].
    + by rewrite is_silent_fat_client_true in Efat.
    + unfold is_expired_dead. rewrite Ha, Hmem. cbn [negb andb].
      destruct (Z.gtb_spec (now (env g)) (get_expire_time_for_endpoint p g));
        [|lia].
      cbn [andb]. split; [apply evicted_evict_from_membership|].
      by destruct (evict_from_membership_fields p g) as (-> & _).
Qed.

Lemma do_status_check_evicts (p : Z) (g : gossiper) (st : endpoint_state) :
  p <> get_broadcast_address (env g) ->
  is_member p g = false ->
  _endpoint_state_map g !! p = Some st ->
  (is_dead_state st = false /\
   _just_removed_endpoints g !! p = None /\
   now (env g) - get_update_timestamp st > fat_client_timeout g) \/
  (is_alive_bit st = false /\
   now (env g) > get_expire_time_for_endpoint p g) ->
  evicted p (do_status_check g).
Proof.
  intros Hself Hmem E Hcase. unfold do_status_check. cbv zeta.
  assert (Hin : (p, st) ∈ map_to_list (_endpoint_state_map g))
    by (by apply elem_of_map_to_list).
  pose proof (NoDup_fst_map_to_list (_endpoint_state_map g)) as Hnd.
  apply list_elem_of_split in Hin as (l1 & l2 & Hl).
  rewrite Hl in Hnd |- *. rewrite fmap_app, fmap_cons in Hnd.
  apply NoDup_app in Hnd as (_ & Hl1 & Hnd).
  apply NoDup_cons in Hnd as (Hl2 & _). simpl in Hl1, Hl2.
  rewrite fold_left_app. cbn [fold_left].
  pose proof (same_view_status_loop p (now (env g)) l1 g) as Hv1.
  specialize (Hv1 ltac:(intros e He Hep; apply (Hl1 p);
                          [apply list_elem_of_fmap; by exists e|left])).
  set (g1 := fold_left (do_status_check_entry (now (env g))) l1 g) in *.
  destruct Hv1 as [Ev Lv Jv Xv _].
  destruct (do_status_check_entry_evicts p g1 st) as [Hev Henv].
  { by rewrite Ev. }
  { unfold is_member. by rewrite Ev. }
  { unfold fat_client_timeout, quarantine_delay, get_expire_time_for_endpoint,
      compute_expire_time. rewrite Ev, Lv, Jv, Xv.
    destruct Hcase as [(Hd & Hj & Ht)|[Ha He]]; [left|right]; done. }
  rewrite Ev in Hev, Henv.
  set (g2 := do_status_check_entry (now (env g)) g1 (p, st)) in *.
  pose proof (same_view_status_loop p (now (env g)) l2 g2) as Hv2.
  specialize (Hv2 ltac:(intros e He Hep; apply Hl2;
                          apply list_elem_of_fmap; by exists e)).
  pose proof (evicted_same_view _ _ _ Hv2 Hev) as (H1 & H2 & H3).
  set (g3 := fold_left (do_status_check_entry (now (env g))) l2 g2) in *.
  split; [exact H1|]. split; [exact H2|]. simpl.
  apply map_lookup_filter_Some. split; [exact H3|]. simpl.
  rewrite (sv_env _ _ _ Hv2), Henv.
  pose proof (quarantine_delay_positive g3). lia.
Qed.

(** X13. [force_remove_endpoint] refuses the node itself. Any other endpoint
    ends without an entry on any shard, out of the live, the unreachable
    and the seed endpoints, and quarantined since now; it is not alive, its
    subscribers have been told of the removal, and gossip applied afterwards
    does not bring its entry back. *)
Theorem force_remove_endpoint_effect (endpoint : Z) (g : gossiper) :
  (endpoint = get_broadcast_address (env g) ->
   force_remove_endpoint endpoint g = None) /\
  (endpoint <> get_broadcast_address (env g) ->
   exists g', force_remove_endpoint endpoint g = Some g' /\
     evicted endpoint g' /\
     (endpoint ∉ _live_endpoints g') /\
     _unreachable_endpoints g' !! endpoint = None /\
     (endpoint ∉ _seeds g') /\
     is_alive endpoint g' = false /\
     trace g' = trace g ++ [on_remove endpoint] /\
     (forall p, p <> endpoint ->
        _endpoint_state_map g' !! p = _endpoint_state_map g !! p) /\
     (forall shuffle map,
        _endpoint_state_map (apply_state_locally shuffle map g') !! endpoint
        = None)).
Proof.
  unfold force_remove_endpoint. split.
  - intros ->. by rewrite bool_decide_eq_true_2.
  - intros Hne. rewrite bool_decide_eq_false_2 by done. cbv zeta.
    eexists. split; [done|].
    pose proof (evicted_evict_from_membership endpoint
                  (remove_endpoint endpoint g)) as Hev.
    destruct (remove_endpoint_fields endpoint g)
      as (Hl & Hu & Hj & _ & _ & _ & Hm & Hs & Hx & He & Ht).
    destruct (evict_from_membership_fields endpoint
                (remove_endpoint endpoint g))
      as (He' & Hl' & Hu' & Hs' & Ht' & Hm').
    split; [exact Hev|]. split.
    { rewrite Hl', Hl. intros Hin.
      by apply remove_from_elem_of in Hin as [_ ?]. }
    split; [by rewrite Hu', lookup_delete_eq|]. split.
    { rewrite Hs'. unfold remove_endpoint, quarantine_endpoint,
        quarantine_endpoint_at, update_live_endpoints_version,
        build_seeds_list. cbv zeta.
      destruct (bool_decide_reflect
                  (endpoint ∈ _seeds (emit (on_remove endpoint) g)))
        as [Hin|Hnin]; simpl in *; [|done].
      intros Hin'. apply elem_of_difference in Hin' as [_ Hn].
      apply Hn. by apply elem_of_singleton. }
    split.
    { unfold is_alive, get_endpoint_state_for_endpoint_ptr.
      destruct Hev as (Hev & _). rewrite Hev, He', He.
      by destruct (decide _). }
    split; [by rewrite Ht'|]. split.
    { intros p Hp. by rewrite Hm', lookup_delete_ne, Hm. }
    intros shuffle map.
    assert (Hk : keeps_entry endpoint
                   (evict_from_membership endpoint (remove_endpoint endpoint g))
                   (apply_state_locally shuffle map
                      (evict_from_membership endpoint
                         (remove_endpoint endpoint g)))).
    { apply apply_state_locally_quarantined. destruct Hev as (_ & _ & Hq).
      by eexists. }
    rewrite (ke_lookup _ _ _ Hk).
    + by destruct Hev.
    + left. by rewrite He', He.
Qed.

Lemma force_remove_endpoint_effect_witness :
  exists g', force_remove_endpoint 7 (sample_synced sample_with_peer) = Some g'
             /\ evicted 7 g'.
Proof.
  destruct (proj2 (force_remove_endpoint_effect 7
                     (sample_synced sample_with_peer)))
    as (g' & H1 & H2 & _).
  - discriminate.
  - exists g'. split; [exact H1|exact H2].
Defined.

(** X14. [do_status_check] keeps, on every shard, the entry of the node
    itself and of every member of the token ring. It evicts from every shard
    and quarantines a fat client (known, not in a dead state, not a ring
    member, not quarantined) that has been silent for longer than
    [fat_client_timeout], and an endpoint that is not alive, not a ring
    member, and whose expire time has passed. *)
Theorem do_status_check_keeps_and_evicts (p : Z) (g : gossiper) :
  (p = get_broadcast_address (env g) \/ is_member p g = true ->
   _endpoint_state_map (do_status_check g) !! p = _endpoint_state_map g !! p /\
   Forall2 (fun m m' : gmap Z endpoint_state => m' !! p = m !! p)
     (other_shards g) (other_shards (do_status_check g))) /\
  (forall st,
     p <> get_broadcast_address (env g) -> is_member p g = false ->
     _endpoint_state_map g !! p = Some st ->
     (is_dead_state st = false /\
      _just_removed_endpoints g !! p = None /\
      now (env g) - get_update_timestamp st > fat_client_timeout g) \/
     (is_alive_bit st = false /\
      now (env g) > get_expire_time_for_endpoint p g) ->
     evicted p (do_status_check g)).
Proof.
  split.
  - intros Hp. unfold do_status_check. cbv zeta. simpl.
    destruct (status_loop_keeps p (now (env g))
                (map_to_list (_endpoint_state_map g)) g Hp) as [_ L _ _ S].
    done.
  - intros st. apply do_status_check_evicts.
Qed.

Lemma do_status_check_keeps_and_evicts_witness :
  evicted 8 (do_status_check sample_fat_client).
Proof.
  refine (proj2 (do_status_check_keeps_and_evicts 8 sample_fat_client)
            (sample_state 800 2 "NORMAL" 1 true) _ _ _ _).
  - discriminate.
  - reflexivity.
  - reflexivity.
  - left. split; [reflexivity|]. split; [reflexivity|].
    vm_compute. reflexivity.
Defined.

(** ** Merging the application states of one generation *)

Lemma versions_raised_refl remote a : versions_raised remote a a.
Proof.
  split; [|by left]. intros key v E. exists v. split; [done|lia].
Qed.

Lemma versions_raised_trans remote a1 a2 a3 :
  versions_raised remote a1 a2 -> versions_raised remote a2 a3 ->
  versions_raised remote a1 a3.
Proof.
  intros [U1 F1] [U2 F2]. split.
  - intros key v E. destruct (U1 key v E) as (v' & E' & Hv).
    destruct (U2 key v' E') as (v'' & E'' & Hv').
    exists v''. split; [done|lia].
  - intros key v'' E. destruct (F2 key v'' E) as [E'|E']; [|by right].
    by apply F1.
Qed.

Lemma merge_entry_raised (remote : gmap application_state versioned_value)
    (ls : endpoint_state) (item : application_state * versioned_value) :
  remote !! item.1 = Some item.2 ->
  get_heart_beat_state (merge_entry ls item) = get_heart_beat_state ls /\
  versions_raised remote (get_application_state_map ls)
    (get_application_state_map (merge_entry ls item)) /\
  exists v', get_application_state_map (merge_entry ls item) !! item.1
             = Some v' /\ version item.2 <= version v'.
Proof.
  destruct item as [k rv]. cbn [fst snd]. intros Hr.
  unfold merge_entry, get_application_state_ptr. cbn [fst snd].
  assert (Hput : versions_raised remote (get_application_state_map ls)
                   (<[k := rv]> (get_application_state_map ls)) ->
                 get_heart_beat_state (add_application_state k rv ls) =
                   get_heart_beat_state ls /\
                 versions_raised remote (get_application_state_map ls)
                   (get_application_state_map (add_application_state k rv ls))
                 /\ exists v',
                      get_application_state_map (add_application_state k rv ls)
                        !! k = Some v' /\ version rv <= version v').
  { intros H. split; [done|]. split; [exact H|]. exists rv. simpl.
    rewrite lookup_insert_eq. split; [done|lia]. }
  destruct (get_application_state_map ls !! k) as [lv|] eqn:El.
  - destruct (Z.gtb_spec (version rv) (version lv)) as [Hgt|Hle].
    + apply Hput. split.
      * intros key v E. destruct (decide (key = k)) as [->|Hne].
        -- exists rv. rewrite lookup_insert_eq. split; [done|].
           assert (v = lv) by congruence. subst. lia.
        -- exists v. rewrite lookup_insert_ne by done. split; [done|lia].
      * intros key v' E. destruct (decide (key = k)) as [->|Hne].
        -- rewrite lookup_insert_eq in E. right. congruence.
        -- rewrite lookup_insert_ne in E by done. by left.
    + split; [done|]. split; [apply versions_raised_refl|].
      exists lv. split; [done|lia].
  - apply Hput. split.
    + intros key v E. exists v.
      rewrite lookup_insert_ne by congruence. split; [done|lia].
    + intros key v' E. destruct (decide (key = k)) as [->|Hne].
      * rewrite lookup_insert_eq in E. right. congruence.
      * rewrite lookup_insert_ne in E by done. by left.
Qed.

Lemma merge_fold_raised (remote : gmap application_state versioned_value)
    (l : list (application_state * versioned_value)) (ls : endpoint_state) :
  (forall item, item ∈ l -> remote !! item.1 = Some item.2) ->
  get_heart_beat_state (fold_left merge_entry l ls) = get_heart_beat_state ls /\
  versions_raised remote (get_application_state_map ls)
    (get_application_state_map (fold_left merge_entry l ls)) /\
  (forall item, item ∈ l ->
     exists v', get_application_state_map (fold_left merge_entry l ls)
                  !! item.1 = Some v' /\ version item.2 <= version v').
Proof.
  revert ls. induction l as [|item l IH]; intros ls Hl.
  - simpl. split; [done|]. split; [apply versions_raised_refl|].
    intros item Hi. by apply elem_of_nil in Hi.
  - cbn [fold_left].
    destruct (merge_entry_raised remote ls item (Hl item ltac:(left)))
      as (Hh & Hr & v1 & Hv1 & Hle1).
    destruct (IH (merge_entry ls item)
                (fun i Hi => Hl i (proj2 (elem_of_cons l i item) (or_intror Hi))))
      as (Hh' & Hr' & Hc').
    split; [congruence|]. split; [by eapply versions_raised_trans|].
    intros i Hi. apply elem_of_cons in Hi as [->|Hi]; [|by apply Hc'].
    destruct Hr' as [Hup _]. destruct (Hup _ _ Hv1) as (v2 & Hv2 & Hle2).
    exists v2. split; [done|lia].
Qed.

Lemma merge_without_notification_fold (remote_state local_state : endpoint_state) :
  merge_without_notification remote_state local_state =
  fold_left merge_entry (map_to_list (get_application_state_map remote_state))
    local_state.
Proof. reflexivity. Qed.

Lemma apply_new_states_loop_as_merge (remote_state : endpoint_state)
    (l : list (application_state * versioned_value))
    (ls : endpoint_state) (ch : list application_state) :
  get_generation (get_heart_beat_state ls) =
    get_generation (get_heart_beat_state remote_state) ->
  exists ch',
    fold_left
      (fun (acc : endpoint_state * list application_state * bool)
           (remote_entry : application_state * versioned_value) =>
         let '(local_state, changed, thrown) := acc in
         if thrown then acc
         else
           let remote_key := remote_entry.1 in
           let remote_value := remote_entry.2 in
           let remote_gen := get_generation (get_heart_beat_state remote_state) in
           let local_gen := get_generation (get_heart_beat_state local_state) in
           if negb (remote_gen =? local_gen) then (local_state, changed, true)
           else
             match get_application_state_ptr local_state remote_key with
             | Some local_val =>
                 if version remote_value >? version local_val
                 then (add_application_state remote_key remote_value local_state,
                       changed ++ [remote_key], false)
                 else acc
             | None =>
                 (add_application_state remote_key remote_value local_state,
                  changed ++ [remote_key], false)
             end)
      l (ls, ch, false) =
    (fold_left merge_entry l ls, ch', false).
Proof.
  set (step := fun (acc : endpoint_state * list application_state * bool)
                   (remote_entry : application_state * versioned_value) => _).
  assert (Hstep : forall ls ch item,
            get_generation (get_heart_beat_state ls) =
              get_generation (get_heart_beat_state remote_state) ->
            exists ch', step (ls, ch, false) item =
                        (merge_entry ls item, ch', false)).
  { intros ls0 ch0 item Hg0. subst step. cbv beta iota zeta.
    rewrite Hg0, Z.eqb_refl. cbn [negb]. unfold merge_entry.
    destruct (get_application_state_ptr ls0 item.1) as [lv|];
      [destruct (version item.2 >? version lv)|]; by eexists. }
  clearbody step. revert ls ch.
  induction l as [|item l IH]; intros ls ch Hg.
  - by exists ch.
  - cbn [fold_left]. destruct (Hstep ls ch item Hg) as (ch1 & ->).
    apply IH. rewrite <- Hg. unfold merge_entry.
    destruct (get_application_state_ptr ls item.1) as [lv|];
      [destruct (version item.2 >? version lv)|]; done.
Qed.

Lemma apply_new_states_loop_merge (remote_state ls : endpoint_state) :
  get_generation (get_heart_beat_state ls) =
    get_generation (get_heart_beat_state remote_state) ->
  exists ch',
    apply_new_states_loop remote_state ls =
    (merge_without_notification remote_state ls, ch', false).
Proof.
  intros Hg.
  exact (apply_new_states_loop_as_merge remote_state
           (map_to_list (get_application_state_map remote_state)) ls [] Hg).
Qed.

Lemma apply_new_states_lookup (addr : Z) (remote_state local_state : endpoint_state)
    (g : gossiper) :
  _endpoint_state_map g !! addr = Some local_state ->
  _endpoint_state_map (apply_new_states addr remote_state g) =
  <[addr := merge_without_notification remote_state
              (set_heart_beat_state_and_update_timestamp
                 (get_heart_beat_state remote_state) (now (env g)) local_state)]>
    (_endpoint_state_map g).
Proof.
  intros E. unfold apply_new_states, get_endpoint_state_for_endpoint_ptr.
  rewrite E. cbv zeta.
  destruct (apply_new_states_loop_merge remote_state
              (set_heart_beat_state_and_update_timestamp
                 (get_heart_beat_state remote_state) (now (env g)) local_state)
              eq_refl) as (ch' & ->).
  rewrite (fold_left_preserves_field _endpoint_state_map).
  - done.
  - intros g' key. by destruct (_ !! key).
Qed.

Lemma mark_alive_apps (addr : Z) (g : gossiper) (st : endpoint_state) :
  _endpoint_state_map g !! addr = Some st ->
  exists st', _endpoint_state_map (mark_alive addr g) !! addr = Some st' /\
    get_heart_beat_state st' = get_heart_beat_state st /\
    get_application_state_map st' = get_application_state_map st.
Proof.
  intros E. unfold mark_alive. destruct (bool_decide _); [by exists st|].
  simpl. exists (set_alive false st). split; [|done].
  destruct (decide (get_broadcast_address (env g) = addr)) as [->|Hne].
  - rewrite lookup_insert_eq. unfold at_or_default.
    by rewrite lookup_alter_eq, E.
  - rewrite lookup_insert_ne by done. by rewrite lookup_alter_eq, E.
Qed.

(** X15. When state of the generation already held for a node is applied,
    no application state of the node is lost or replaced by an older
    version: each one held before is held afterwards at its version or a
    higher one, and what is held afterwards was held before or comes from
    the remote state. When the remote state is merged (without listener
    notification, or with it when the remote state has the higher maximal
    version, and its generation is not too far ahead of the clock), every key
    of the remote state is held afterwards at the remote version or a higher
    one. *)
Theorem same_generation_merge_raises_versions (node : Z)
    (remote_state local_state : endpoint_state) (listener_notification : bool)
    (g : gossiper) :
  _endpoint_state_map g !! node = Some local_state ->
  get_generation (get_heart_beat_state remote_state) =
    get_generation (get_heart_beat_state local_state) ->
  exists local_state',
    _endpoint_state_map
      (do_apply_state_locally node remote_state listener_notification g)
      !! node = Some local_state' /\
    get_generation (get_heart_beat_state local_state') =
      get_generation (get_heart_beat_state local_state) /\
    versions_raised (get_application_state_map remote_state)
      (get_application_state_map local_state)
      (get_application_state_map local_state') /\
    (get_generation (get_heart_beat_state remote_state) <=
       get_generation_number (env g) + MAX_GENERATION_DIFFERENCE ->
     listener_notification = false \/
     get_max_endpoint_state_version remote_state >
       get_max_endpoint_state_version local_state ->
     covers (get_application_state_map remote_state)
       (get_application_state_map local_state')).
Proof.
  intros E Hg. unfold do_apply_state_locally, get_endpoint_state_for_endpoint_ptr.
  rewrite E. cbv zeta.
  set (remote := get_application_state_map remote_state).
  assert (Hitems : forall item,
            item ∈ map_to_list remote -> remote !! item.1 = Some item.2).
  { intros [k v] Hi. by apply elem_of_map_to_list in Hi. }
  assert (Hcov : forall ls,
            covers remote
              (get_application_state_map
                 (merge_without_notification remote_state ls))).
  { intros ls key rv Hr. rewrite merge_without_notification_fold.
    destruct (merge_fold_raised remote (map_to_list remote) ls Hitems)
      as (_ & _ & Hc).
    apply (Hc (key, rv)). by apply elem_of_map_to_list. }
  destruct (Z.gtb_spec (get_generation (get_heart_beat_state remote_state))
              (get_generation_number (env g) + MAX_GENERATION_DIFFERENCE))
    as [Hbad|Hok].
  { exists local_state. split; [done|]. split; [done|].
    split; [apply versions_raised_refl|]. intros; lia. }
  destruct (Z.gtb_spec (get_generation (get_heart_beat_state remote_state))
              (get_generation (get_heart_beat_state local_state)));
    [lia|].
  rewrite Hg, Z.eqb_refl.
  destruct listener_notification.
  - destruct (Z.gtb_spec (get_max_endpoint_state_version remote_state)
                (get_max_endpoint_state_version local_state)) as [Hnew|Hold].
    + pose proof (apply_new_states_lookup node remote_state local_state g E)
        as Hm.
      set (ls1 := merge_without_notification remote_state
                    (set_heart_beat_state_and_update_timestamp
                       (get_heart_beat_state remote_state) (now (env g))
                       local_state)) in *.
      destruct (merge_fold_raised remote (map_to_list remote)
                  (set_heart_beat_state_and_update_timestamp
                     (get_heart_beat_state remote_state) (now (env g))
                     local_state) Hitems) as (Hh & Hr & _).
      change (get_heart_beat_state ls1 = get_heart_beat_state remote_state)
        in Hh.
      change (versions_raised remote (get_application_state_map local_state)
                (get_application_state_map ls1)) in Hr.
      assert (E1 : _endpoint_state_map (apply_new_states node remote_state g)
                     !! node = Some ls1)
        by (by rewrite Hm, lookup_insert_eq).
      unfold get_endpoint_state_for_endpoint_ptr. rewrite E1.
      assert (Hres : exists st',
                _endpoint_state_map
                  (if negb (is_alive_bit ls1) && negb (is_dead_state ls1)
                   then mark_alive node (apply_new_states node remote_state g)
                   else apply_new_states node remote_state g) !! node = Some st'
                /\ get_heart_beat_state st' = get_heart_beat_state ls1
                /\ get_application_state_map st' = get_application_state_map ls1).
      { destruct (_ && _); [by apply mark_alive_apps|by exists ls1]. }
      destruct Hres as (st' & Hst' & Hhb & Hap).
      exists st'. split; [exact Hst'|]. split; [by rewrite Hhb, Hh|].
      rewrite Hap. split; [exact Hr|]. intros _ _. apply Hcov.
    + unfold get_endpoint_state_for_endpoint_ptr. rewrite E.
      assert (Hres : exists st',
                _endpoint_state_map
                  (if negb (is_alive_bit local_state)
                      && negb (is_dead_state local_state)
                   then mark_alive node g else g) !! node = Some st'
                /\ get_heart_beat_state st' = get_heart_beat_state local_state
                /\ get_application_state_map st' =
                     get_application_state_map local_state).
      { destruct (_ && _); [by apply mark_alive_apps|by exists local_state]. }
      destruct Hres as (st' & Hst' & Hhb & Hap).
      exists st'. split; [exact Hst'|]. split; [by rewrite Hhb|].
      rewrite Hap. split; [apply versions_raised_refl|].
      intros _ [|]; [done|lia].
  - cbn [_endpoint_state_map set_endpoint_state_map].
    rewrite lookup_insert_eq. eexists. split; [done|].
    destruct (merge_fold_raised remote (map_to_list remote) local_state Hitems)
      as (Hh & Hr & _).
    change (get_heart_beat_state
              (merge_without_notification remote_state local_state) =
            get_heart_beat_state local_state) in Hh.
    change (versions_raised remote (get_application_state_map local_state)
              (get_application_state_map
                 (merge_without_notification remote_state local_state))) in Hr.
    split; [by rewrite Hh|]. split; [exact Hr|]. intros _ _. apply Hcov.
Qed.

Lemma same_generation_merge_raises_versions_witness :
  exists local_state',
    _endpoint_state_map
      (do_apply_state_locally 7 (sample_state 900 8 "shutdown,true" 7 true)
         false (sample_gossiper false sample_with_peer)) !! 7
    = Some local_state' /\
    versions_raised
      (get_application_state_map (sample_state 900 8 "shutdown,true" 7 true))
      (get_application_state_map (sample_state 900 3 "NORMAL" 2 false))
      (get_application_state_map local_state').
Proof.
  destruct (same_generation_merge_raises_versions 7
              (sample_state 900 8 "shutdown,true" 7 true)
              (sample_state 900 3 "NORMAL" 2 false) false
              (sample_gossiper false sample_with_peer) eq_refl eq_refl)
    as (local_state' & H1 & _ & H2 & _).
  exists local_state'. split; [exact H1|exact H2].
Defined.

(** ** Refreshing the timestamps of the nodes of a message *)

Lemma set_endpoint_state_map_same (g : gossiper) :
  set_endpoint_state_map (_endpoint_state_map g) g = g.
Proof. by destruct g. Qed.

Lemma update_timestamp_for_nodes_fold (l : list (Z * endpoint_state))
    (g : gossiper) :
  fold_left (fun g (x : Z * endpoint_state) =>
      let endpoint := x.1 in
      let remote_endpoint_state := x.2 in
      match get_endpoint_state_for_endpoint_ptr endpoint g with
      | None => g
      | Some local_endpoint_state =>
          let local_generation :=
            get_generation (get_heart_beat_state local_endpoint_state) in
          let remote_generation :=
            get_generation (get_heart_beat_state remote_endpoint_state) in
          let update :=
            if remote_generation >? local_generation then true
            else if remote_generation =? local_generation then
              let local_version :=
                get_max_endpoint_state_version local_endpoint_state in
              let remote_version :=
                get_heart_beat_version
                  (get_heart_beat_state remote_endpoint_state) in
              remote_version >? local_version
            else false in
          if update
          then set_endpoint_state_map
                 (<[endpoint := update_timestamp (now (env g))
                                  local_endpoint_state]>
                    (_endpoint_state_map g)) g
          else g
      end) l g =
  set_endpoint_state_map
    (fold_left (refresh_entry (now (env g))) l (_endpoint_state_map g)) g.
Proof.
  set (step := fun (g : gossiper) (x : Z * endpoint_state) => _).
  assert (Hstep : forall g x,
            step g x =
            set_endpoint_state_map
              (refresh_entry (now (env g)) (_endpoint_state_map g) x) g).
  { intros g0 x. subst step. cbv beta zeta.
    unfold refresh_entry, get_endpoint_state_for_endpoint_ptr,
      is_newer_heart_beat.
    destruct (_endpoint_state_map g0 !! x.1) as [st|];
      [|by rewrite set_endpoint_state_map_same].
    cbv zeta.
    destruct (if get_generation (get_heart_beat_state x.2) >?
                 get_generation (get_heart_beat_state st)
              then true
              else if get_generation (get_heart_beat_state x.2) =?
                      get_generation (get_heart_beat_state st)
                   then get_heart_beat_version (get_heart_beat_state x.2) >?
                        get_max_endpoint_state_version st
                   else false);
      [done|by rewrite set_endpoint_state_map_same]. }
  clearbody step. revert g. induction l as [|x l IH]; intros g.
  - simpl. by rewrite set_endpoint_state_map_same.
  - cbn [fold_left]. rewrite IH, Hstep. by destruct g.
Qed.

Lemma refresh_fold_lookup (now0 : Z) (l : list (Z * endpoint_state))
    (m : gmap Z endpoint_state) (ep : Z) :
  NoDup l.*1 ->
  fold_left (refresh_entry now0) l m !! ep =
  match (list_to_map l : gmap Z endpoint_state) !! ep with
  | Some remote => refresh_timestamp now0 remote <$> m !! ep
  | None => m !! ep
  end.
Proof.
  revert m. induction l as [|[k r] l IH]; intros m Hnd; [done|].
  rewrite fmap_cons in Hnd. apply NoDup_cons in Hnd as [Hk Hnd].
  cbn [fold_left list_to_map foldr]. rewrite IH by done. cbn [fst snd].
  assert (Hstep : forall i,
            refresh_entry now0 m (k, r) !! i =
            if decide (i = k) then refresh_timestamp now0 r <$> m !! i
            else m !! i).
  { intros i. unfold refresh_entry, refresh_timestamp. cbn [fst snd].
    destruct (decide (i = k)) as [->|Hne].
    - destruct (m !! k) as [st|] eqn:E; [|by rewrite E].
      simpl. destruct (is_newer_heart_beat r st).
      + by rewrite lookup_insert_eq.
      + by rewrite E.
    - destruct (m !! k) as [st|] eqn:E; [|done].
      destruct (is_newer_heart_beat r st); [|done].
      by rewrite lookup_insert_ne. }
  rewrite Hstep. destruct (decide (ep = k)) as [->|Hne].
  - rewrite lookup_insert_eq.
    rewrite (not_elem_of_list_to_map_1 l k) by done. done.
  - by rewrite lookup_insert_ne.
Qed.

(** X16. [update_timestamp_for_nodes] touches nothing but update timestamps:
    it adds and removes no entry and leaves every other part of the state as
    it is; the entry of an endpoint of the message gets the current time as
    its update timestamp exactly when the remote state is of a newer
    generation, or of the same generation with a heartbeat version above
    every version held locally, and keeps its heartbeat, application states
    and alive flag. *)
Theorem update_timestamp_for_nodes_only_timestamps
    (map : gmap Z endpoint_state) (g : gossiper) :
  (exists m', update_timestamp_for_nodes map g = set_endpoint_state_map m' g) /\
  (forall ep,
     _endpoint_state_map (update_timestamp_for_nodes map g) !! ep =
     match map !! ep with
     | Some remote_endpoint_state =>
         refresh_timestamp (now (env g)) remote_endpoint_state <$>
           _endpoint_state_map g !! ep
     | None => _endpoint_state_map g !! ep
     end) /\
  (forall ep,
     _endpoint_state_map (update_timestamp_for_nodes map g) !! ep = None <->
     _endpoint_state_map g !! ep = None) /\
  (forall ep st',
     _endpoint_state_map (update_timestamp_for_nodes map g) !! ep = Some st' ->
     exists st,
       _endpoint_state_map g !! ep = Some st /\
       get_heart_beat_state st' = get_heart_beat_state st /\
       get_application_state_map st' = get_application_state_map st /\
       is_alive_bit st' = is_alive_bit st /\
       (get_update_timestamp st' = get_update_timestamp st \/
        get_update_timestamp st' = now (env g))).
Proof.
  assert (Hlook : forall ep,
     _endpoint_state_map (update_timestamp_for_nodes map g) !! ep =
     match map !! ep with
     | Some remote_endpoint_state =>
         refresh_timestamp (now (env g)) remote_endpoint_state <$>
           _endpoint_state_map g !! ep
     | None => _endpoint_state_map g !! ep
     end).
  { intros ep. unfold update_timestamp_for_nodes.
    rewrite update_timestamp_for_nodes_fold.
    cbn [_endpoint_state_map set_endpoint_state_map].
    rewrite refresh_fold_lookup by apply NoDup_fst_map_to_list.
    by rewrite list_to_map_to_list. }
  split.
  { unfold update_timestamp_for_nodes. rewrite update_timestamp_for_nodes_fold.
    by eexists. }
  split; [exact Hlook|]. split.
  - intros ep. rewrite Hlook. destruct (map !! ep); [|done].
    by rewrite fmap_None.
  - intros ep st'. rewrite Hlook.
    destruct (_endpoint_state_map g !! ep) as [st|];
      [|by destruct (map !! ep)].
    assert (Hr : forall r, refresh_timestamp (now (env g)) r st = st' ->
              get_heart_beat_state st' = get_heart_beat_state st /\
              get_application_state_map st' = get_application_state_map st /\
              is_alive_bit st' = is_alive_bit st /\
              (get_update_timestamp st' = get_update_timestamp st \/
               get_update_timestamp st' = now (env g))).
    { intros r <-. unfold refresh_timestamp.
      destruct (is_newer_heart_beat r st); simpl; auto. }
    destruct (map !! ep) as [r|]; simpl; intros [= <-]; exists st.
    + split; [done|]. by apply (Hr r).
    + split; [done|]. auto.
Qed.

Lemma update_timestamp_for_nodes_only_timestamps_witness :
  exists st,
    _endpoint_state_map (sample_gossiper false sample_with_peer) !! 7 = Some st /\
    get_application_state_map
      (update_timestamp 100000 (sample_state 900 3 "NORMAL" 2 false)) =
    get_application_state_map st.
Proof.
  destruct (proj2 (proj2 (proj2 (update_timestamp_for_nodes_only_timestamps
              {[7 := sample_state 900 8 "NORMAL" 2 true]}
              (sample_gossiper false sample_with_peer)))) 7
              (update_timestamp 100000 (sample_state 900 3 "NORMAL" 2 false)))
    as (st & H1 & _ & H2 & _).
  - vm_compute. reflexivity.
  - exists st. split; [exact H1|exact H2].
Defined.

(** ** The count of messages in processing *)

Lemma msg_processing_apply_state_locally (shuffle : list Z -> list Z)
    (map : gmap Z endpoint_state) (g : gossiper) :
  _msg_processing (apply_state_locally shuffle map g) = _msg_processing g.
Proof. apply (sc_msg_processing _ _ (same_control_apply_state_locally _ _ _)). Qed.

Lemma msg_processing_update_timestamp_for_nodes
    (map : gmap Z endpoint_state) (g : gossiper) :
  _msg_processing (update_timestamp_for_nodes map g) = _msg_processing g.
Proof.
  apply (sc_msg_processing _ _ (same_control_update_timestamp_for_nodes _ _)).
Qed.

Lemma msg_processing_begin (map : gmap Z endpoint_state) (g : gossiper) :
  _msg_processing (begin_msg_processing map g) =
  _msg_processing g + (if should_count_as_msg_processing map then 1 else 0).
Proof.
  unfold begin_msg_processing.
  destruct (should_count_as_msg_processing map); simpl; lia.
Qed.

Lemma msg_processing_end (map : gmap Z endpoint_state) (g : gossiper) :
  _msg_processing (end_msg_processing map g) =
  _msg_processing g - (if should_count_as_msg_processing map then 1 else 0).
Proof.
  unfold end_msg_processing.
  destruct (should_count_as_msg_processing map); simpl; lia.
Qed.

Lemma msg_processing_handle_ack_msg_then (from : Z)
    (ack_msg_digest : list gossip_digest) (g : gossiper) :
  _msg_processing (handle_ack_msg_then from ack_msg_digest g).1 =
  _msg_processing g.
Proof.
  unfold handle_ack_msg_then. destruct (is_in_shadow_round g); [done|].
  cbv zeta. by destruct (pending _).
Qed.

(** X17. The count of messages in processing is balanced: when
    [handle_ack_msg] or [handle_ack2_msg] is through with a message,
    [_msg_processing] is what it was before the message, whether the message
    counted or not and whatever state it carried; while the state of a
    message that counts is applied, the count is one higher. *)
Theorem msg_processing_is_balanced (shuffle : list Z -> list Z) (from : Z)
    (g : gossiper) :
  (forall remote_ep_state_map,
     _msg_processing (handle_ack2_msg shuffle from remote_ep_state_map g) =
     _msg_processing g) /\
  (forall ack_msg,
     _msg_processing (handle_ack_msg shuffle from ack_msg g).1 =
     _msg_processing g) /\
  (forall ack_msg,
     _msg_processing (handle_ack_msg_apply shuffle ack_msg g) =
     _msg_processing g +
     (if should_count_as_msg_processing (get_endpoint_state_map ack_msg)
      then 1 else 0)).
Proof.
  assert (Happly : forall ack_msg,
     _msg_processing (handle_ack_msg_apply shuffle ack_msg g) =
     _msg_processing g +
     (if should_count_as_msg_processing (get_endpoint_state_map ack_msg)
      then 1 else 0)).
  { intros ack_msg. unfold handle_ack_msg_apply. cbv zeta.
    destruct (0 <? size (get_endpoint_state_map ack_msg))%nat.
    - by rewrite msg_processing_apply_state_locally,
        msg_processing_update_timestamp_for_nodes, msg_processing_begin.
    - apply msg_processing_begin. }
  split; [|split; [|exact Happly]].
  - intros m. unfold handle_ack2_msg. destruct (negb (is_enabled g)); [done|].
    cbv zeta.
    rewrite msg_processing_end, msg_processing_apply_state_locally,
      msg_processing_begin, msg_processing_update_timestamp_for_nodes.
    lia.
  - intros ack_msg. unfold handle_ack_msg.
    destruct (negb (is_enabled g) && negb (is_in_shadow_round g)); [done|].
    cbv zeta.
    pose proof (msg_processing_handle_ack_msg_then from
                  (get_gossip_digest_list ack_msg)
                  (handle_ack_msg_apply shuffle ack_msg g)) as Hthen.
    destruct (handle_ack_msg_then from (get_gossip_digest_list ack_msg)
                (handle_ack_msg_apply shuffle ack_msg g)) as [g' started].
    cbn [fst] in *. rewrite msg_processing_end, Hthen, Happly. lia.
Qed.

(** ** The end of the mark-alive handshake *)

Lemma real_mark_alive_effect (addr : Z) (g : gossiper) (st : endpoint_state) :
  _endpoint_state_map g !! addr = Some st ->
  get_gossip_status st <> SHUTDOWN ->
  let st' := update_timestamp (now (env g)) (set_alive true st) in
  _endpoint_state_map (real_mark_alive addr g) =
    <[addr := st']> (_endpoint_state_map g) /\
  _unreachable_endpoints (real_mark_alive addr g) =
    delete addr (_unreachable_endpoints g) /\
  _expire_time_endpoint_map (real_mark_alive addr g) =
    delete addr (_expire_time_endpoint_map g) /\
  _pending_mark_alive_endpoints (real_mark_alive addr g) =
    _pending_mark_alive_endpoints g /\
  env (real_mark_alive addr g) = env g /\
  (addr ∈ _live_endpoints g ->
   _live_endpoints (real_mark_alive addr g) = _live_endpoints g /\
   trace (real_mark_alive addr g) = trace g) /\
  (addr ∉ _live_endpoints g ->
   _live_endpoints (real_mark_alive addr g) = _live_endpoints g ++ [addr] /\
   trace (real_mark_alive addr g) = trace g ++ [on_alive addr st']).
Proof.
  intros E Hst. cbv zeta. unfold real_mark_alive,
    get_endpoint_state_for_endpoint_ptr. rewrite E. cbv zeta.
  destruct (String.eqb_spec (get_gossip_status st) SHUTDOWN) as [|_]; [done|].
  cbn [_live_endpoints set_expire_time_endpoint_map set_unreachable_endpoints
       set_endpoint_state_map].
  destruct (bool_decide_reflect (addr ∈ _live_endpoints g)) as [Hin|Hnin].
  - repeat split; done.
  - repeat split; done.
Qed.

Lemma set_pending_mark_alive_endpoints_fields (s : gset Z) (g : gossiper) :
  env (set_pending_mark_alive_endpoints s g) = env g /\
  _endpoint_state_map (set_pending_mark_alive_endpoints s g) =
    _endpoint_state_map g /\
  _live_endpoints (set_pending_mark_alive_endpoints s g) = _live_endpoints g /\
  _unreachable_endpoints (set_pending_mark_alive_endpoints s g) =
    _unreachable_endpoints g /\
  _expire_time_endpoint_map (set_pending_mark_alive_endpoints s g) =
    _expire_time_endpoint_map g /\
  _pending_mark_alive_endpoints (set_pending_mark_alive_endpoints s g) = s /\
  trace (set_pending_mark_alive_endpoints s g) = trace g.
Proof. repeat split. Qed.

(** X18. When the reply to the Echo of the mark-alive handshake arrives
    for an endpoint that is known and not shut down, the endpoint is marked
    alive with the current time as update timestamp, is among the live
    endpoints, is not unreachable, has no expire time of its own and its
    handshake is no longer pending; [on_alive] is fired exactly when the
    endpoint was not yet among the live endpoints. When the Echo fails, the
    handshake is no longer pending and the entry is as it was. *)
Theorem mark_alive_handshake_completes (addr : Z) (g : gossiper)
    (st : endpoint_state) :
  _endpoint_state_map g !! addr = Some st ->
  (get_gossip_status st <> SHUTDOWN ->
   let g' := mark_alive_echo_replied addr g in
   let st' := update_timestamp (now (env g)) (set_alive true st) in
   _endpoint_state_map g' !! addr = Some st' /\
   is_alive addr g' = true /\
   addr ∈ _live_endpoints g' /\
   _unreachable_endpoints g' !! addr = None /\
   get_expire_time_for_endpoint addr g' = compute_expire_time g /\
   (addr ∉ _pending_mark_alive_endpoints g') /\
   (addr ∈ _live_endpoints g -> trace g' = trace g) /\
   (addr ∉ _live_endpoints g -> trace g' = trace g ++ [on_alive addr st'])) /\
  (let g' := mark_alive_echo_failed addr g in
   _endpoint_state_map g' = _endpoint_state_map g /\
   _live_endpoints g' = _live_endpoints g /\
   _unreachable_endpoints g' = _unreachable_endpoints g /\
   addr ∉ _pending_mark_alive_endpoints g').
Proof.
  intros E. split.
  - intros Hst. cbv zeta.
    assert (Hun : mark_alive_echo_replied addr g =
                  set_pending_mark_alive_endpoints
                    (_pending_mark_alive_endpoints (real_mark_alive addr g)
                     ∖ {[addr]}) (real_mark_alive addr g)).
    { unfold mark_alive_echo_replied, get_endpoint_state_for_endpoint_ptr.
      by rewrite E. }
    rewrite Hun. clear Hun.
    destruct (real_mark_alive_effect addr g st E Hst)
      as (Hm & Hu & Hx & Hp & He & Hlive & Hnew).
    destruct (set_pending_mark_alive_endpoints_fields
                (_pending_mark_alive_endpoints (real_mark_alive addr g)
                 ∖ {[addr]}) (real_mark_alive addr g))
      as (Fe & Fm & Fl & Fu & Fx & Fp & Ft).
    split; [by rewrite Fm, Hm, lookup_insert_eq|]. split.
    { unfold is_alive, get_endpoint_state_for_endpoint_ptr.
      destruct (decide _); [done|]. by rewrite Fm, Hm, lookup_insert_eq. }
    split.
    { rewrite Fl. destruct (decide (addr ∈ _live_endpoints g)) as [Hin|Hnin].
      - by rewrite (proj1 (Hlive Hin)).
      - rewrite (proj1 (Hnew Hnin)). apply elem_of_app. right. by left. }
    split; [by rewrite Fu, Hu, lookup_delete_eq|]. split.
    { unfold get_expire_time_for_endpoint, compute_expire_time.
      by rewrite Fx, Hx, lookup_delete_eq, Fe, He. }
    split.
    { rewrite Fp. intros Hin. apply elem_of_difference in Hin as [_ Hn].
      apply Hn. by apply elem_of_singleton. }
    rewrite Ft.
    split; [intros Hin; apply (Hlive Hin)|intros Hnin; apply (Hnew Hnin)].
  - cbv zeta. unfold mark_alive_echo_failed. simpl.
    repeat split. intros Hin. apply elem_of_difference in Hin as [_ Hn].
    apply Hn. by apply elem_of_singleton.
Qed.

Lemma mark_alive_handshake_completes_witness :
  is_alive 7 (mark_alive_echo_replied 7 sample_handshake_pending) = true.
Proof.
  refine (proj1 (proj2 (proj1 (mark_alive_handshake_completes 7
            sample_handshake_pending (sample_state 900 3 "NORMAL" 2 false) _)
            _))).
  - reflexivity.
  - vm_compute. discriminate.
Defined.

(** ** The answer to a SYN without digests *)

Lemma examine_digest_zero (g : gossiper) (ep : Z) (st : endpoint_state)
    (dl : list gossip_digest) (dm : gmap Z endpoint_state) :
  _endpoint_state_map g !! ep = Some st ->
  0 < get_generation (get_heart_beat_state st) ->
  examine_digest g (dl, dm) (mk_gossip_digest ep 0 0) =
  (dl, match get_state_for_version_bigger_than ep 0 g with
       | Some r => <[ep := r]> dm
       | None => dm
       end).
Proof.
  intros E Hgen. unfold examine_digest, get_endpoint_state_for_endpoint_ptr.
  cbn [get_endpoint digest_generation get_max_version]. rewrite E. cbv zeta.
  destruct (Z.eqb_spec 0 (get_generation (get_heart_beat_state st)));
    [lia|]. cbn [andb].
  destruct (Z.gtb_spec 0 (get_generation (get_heart_beat_state st)));
    [lia|].
  destruct (Z.ltb_spec 0 (get_generation (get_heart_beat_state st)));
    [|lia].
  reflexivity.
Qed.

Lemma examine_all_zero (g : gossiper) (l : list (Z * endpoint_state))
    (dl : list gossip_digest) (dm : gmap Z endpoint_state) :
  (forall x, x ∈ l ->
     exists st, _endpoint_state_map g !! x.1 = Some st /\
                0 < get_generation (get_heart_beat_state st)) ->
  exists dm',
    fold_left (examine_digest g)
      (List.map (fun entry : Z * endpoint_state =>
                   mk_gossip_digest entry.1 0 0) l) (dl, dm) = (dl, dm') /\
    forall ep,
      dm' !! ep =
      if bool_decide (ep ∈ l.*1)
      then match get_state_for_version_bigger_than ep 0 g with
           | Some r => Some r
           | None => dm !! ep
           end
      else dm !! ep.
Proof.
  revert dm. induction l as [|x l IH]; intros dm Hl.
  - exists dm. split; [done|]. intros ep.
    rewrite bool_decide_eq_false_2; [done|]. apply not_elem_of_nil.
  - destruct (Hl x ltac:(left)) as (st & E & Hgen).
    cbn [List.map fold_left]. rewrite (examine_digest_zero g x.1 st) by done.
    destruct (IH (match get_state_for_version_bigger_than x.1 0 g with
                  | Some r => <[x.1 := r]> dm
                  | None => dm
                  end) (fun y Hy => Hl y (proj2 (elem_of_cons l y x) (or_intror Hy))))
      as (dm' & Hf & Hlook).
    exists dm'. split; [exact Hf|]. intros ep. rewrite Hlook.
    rewrite fmap_cons. destruct (decide (ep = x.1)) as [->|Hne].
    + rewrite (bool_decide_eq_true_2 (x.1 ∈ x.1 :: l.*1)) by left.
      destruct (get_state_for_version_bigger_than x.1 0 g) as [r|].
      * rewrite lookup_insert_eq. by destruct (bool_decide _).
      * by destruct (bool_decide _).
    + assert (Hdm : match get_state_for_version_bigger_than x.1 0 g with
                    | Some r => <[x.1 := r]> dm
                    | None => dm
                    end !! ep = dm !! ep).
      { destruct (get_state_for_version_bigger_than x.1 0 g); [|done].
        by rewrite lookup_insert_ne. }
      rewrite Hdm.
      destruct (bool_decide_reflect (ep ∈ l.*1)) as [Hin|Hnin].
      * by rewrite bool_decide_eq_true_2 by (by right).
      * rewrite bool_decide_eq_false_2; [done|].
        intros [?|?]%elem_of_cons; done.
Qed.

(** X19. A SYN without digests, as a node in its shadow round sends it, is
    answered with everything the node holds: when the generations held are
    positive, [examine_gossiper] requests nothing and offers, for every
    endpoint with a version above 0, its heartbeat and exactly its
    application states of a version above 0, and nothing for any other
    endpoint. *)
Theorem examine_gossiper_empty_syn (g : gossiper) :
  (forall ep st, _endpoint_state_map g !! ep = Some st ->
     0 < get_generation (get_heart_beat_state st)) ->
  exists delta_ep_state_map,
    examine_gossiper [] [] ∅ g = ([], delta_ep_state_map) /\
    (forall ep, delta_ep_state_map !! ep =
                get_state_for_version_bigger_than ep 0 g) /\
    (forall ep st, _endpoint_state_map g !! ep = Some st ->
       get_max_endpoint_state_version st > 0 ->
       exists r, delta_ep_state_map !! ep = Some r /\ is_delta_above st 0 r) /\
    (forall ep, _endpoint_state_map g !! ep = None ->
       delta_ep_state_map !! ep = None).
Proof.
  intros Hgen. unfold examine_gossiper. cbn [length Nat.eqb].
  destruct (examine_all_zero g (map_to_list (_endpoint_state_map g)) [] ∅)
    as (dm' & Hf & Hlook).
  { intros [ep st] Hx. apply elem_of_map_to_list in Hx.
    exists st. split; [done|]. by apply (Hgen ep). }
  exists dm'. split; [exact Hf|].
  assert (Hall : forall ep, dm' !! ep = get_state_for_version_bigger_than ep 0 g).
  { intros ep. rewrite Hlook, lookup_empty.
    destruct (bool_decide_reflect (ep ∈ (map_to_list (_endpoint_state_map g)).*1))
      as [Hin|Hnin].
    - by destruct (get_state_for_version_bigger_than ep 0 g).
    - unfold get_state_for_version_bigger_than,
        get_endpoint_state_for_endpoint_ptr.
      destruct (_endpoint_state_map g !! ep) as [st|] eqn:E; [|done].
      exfalso. apply Hnin. apply list_elem_of_fmap. exists (ep, st).
      split; [done|]. by apply elem_of_map_to_list. }
  split; [exact Hall|]. split.
  - intros ep st E Hmax. rewrite Hall.
    destruct (get_state_for_version_bigger_than_spec ep 0 g st E) as [Hsome _].
    apply Hsome, Hmax.
  - intros ep E. rewrite Hall.
    unfold get_state_for_version_bigger_than,
      get_endpoint_state_for_endpoint_ptr. by rewrite E.
Qed.

Lemma examine_gossiper_empty_syn_witness :
  exists delta_ep_state_map,
    examine_gossiper [] [] ∅ (sample_gossiper false sample_with_peer) =
      ([], delta_ep_state_map) /\
    delta_ep_state_map !! 9 = None.
Proof.
  destruct (examine_gossiper_empty_syn
              (sample_gossiper false sample_with_peer))
    as (dm & H1 & _ & _ & H2).
  - intros ep st. simpl. unfold sample_with_peer, sample_local_only.
    intros E.
    destruct (decide (ep = 7)) as [->|H7].
    + rewrite lookup_insert_eq in E. injection E as <-. simpl. lia.
    + rewrite lookup_insert_ne in E by done.
      apply lookup_singleton_Some in E as [_ <-]. simpl. lia.
  - exists dm. split; [exact H1|]. apply H2. reflexivity.
Defined.

(** ** Removing a node for good *)

Lemma status_of_prefixed_value (s rest : string) (ver : Z)
    (st : endpoint_state) :
  s <> ""%string -> comma_free s ->
  get_gossip_status
    (add_application_state STATUS
       (mk_versioned_value (s ++ String "," rest) ver) st) = s.
Proof.
  intros Hs Hfree. unfold get_gossip_status, get_application_state_ptr.
  cbn [get_application_state_map add_application_state].
  rewrite lookup_insert_eq. unfold do_get_gossip_status. cbn [value].
  rewrite index_comma_append by done.
  destruct s as [|a s]; [done|]. cbn [String.append String.length].
  rewrite bool_decide_eq_false_2 by discriminate. cbn [Nat.eqb orb].
  change (String a (s ++ String "," rest)) with (String a s ++ String "," rest)%string.
  change (S (String.length s)) with (String.length (String a s)).
  apply substring_append_prefix.
Qed.

(** X20. [advertise_token_removed] throws for an endpoint without a state.
    For a known endpoint it leaves the status removed, which is a dead
    state and makes the endpoint safe for bootstrap, the update timestamp at
    now, a generation that is the larger of the clock and the old generation
    plus one, the other application states and the alive flag as they were,
    the expire time of the endpoint at now plus [A_VERY_LONG_TIME], and the
    other shards with the same application states. *)
Theorem advertise_token_removed_effect (to_sstring : Z -> string)
    (endpoint : Z) (host_id : string) (g : gossiper) :
  (_endpoint_state_map g !! endpoint = None ->
   advertise_token_removed to_sstring endpoint host_id g = None) /\
  (forall eps, _endpoint_state_map g !! endpoint = Some eps ->
     exists g' eps',
       advertise_token_removed to_sstring endpoint host_id g = Some g' /\
       _endpoint_state_map g' = <[endpoint := eps']> (_endpoint_state_map g) /\
       get_gossip_status eps' = REMOVED_TOKEN /\
       is_dead_state eps' = true /\
       is_safe_for_bootstrap endpoint g' = true /\
       get_update_timestamp eps' = now (env g) /\
       is_alive_bit eps' = is_alive_bit eps /\
       get_generation (get_heart_beat_state eps') =
         Z.max (get_generation_number (env g))
           (wrap32 (get_generation (get_heart_beat_state eps) + 1)) /\
       (forall key, key <> STATUS ->
          get_application_state_map eps' !! key =
          get_application_state_map eps !! key) /\
       get_expire_time_for_endpoint endpoint g' =
         now (env g) + A_VERY_LONG_TIME (env g) /\
       apps_in_sync endpoint g').
Proof.
  unfold advertise_token_removed, get_endpoint_state_for_endpoint_ptr.
  split; [by intros ->|]. intros eps E. rewrite E.
  unfold versioned_value_with_next_version, get_next_version.
  cbv zeta iota beta.
  set (v := mk_versioned_value _ _).
  set (eps' := add_application_state STATUS v _).
  assert (Hst : get_gossip_status eps' = REMOVED_TOKEN).
  { subst eps' v. apply status_of_prefixed_value; [discriminate|reflexivity]. }
  eexists _, eps'. split; [reflexivity|]. split; [reflexivity|].
  split; [exact Hst|].
  assert (Hdead : is_dead_state eps' = true)
    by (unfold is_dead_state; by rewrite Hst).
  split; [exact Hdead|]. split.
  { unfold is_safe_for_bootstrap, get_endpoint_state_for_endpoint_ptr.
    cbn [_endpoint_state_map replicate set_other_shards set_endpoint_state_map].
    rewrite lookup_insert_eq. cbv zeta. by rewrite Hst. }
  split; [reflexivity|]. split; [reflexivity|]. split; [reflexivity|].
  split.
  { intros key Hkey. subst eps'. cbn [get_application_state_map
      add_application_state force_newer_generation_unsafe set_heart_beat_state
      update_timestamp]. by rewrite lookup_insert_ne. }
  split.
  { unfold get_expire_time_for_endpoint.
    cbn [_expire_time_endpoint_map replicate set_other_shards
         set_endpoint_state_map add_expire_time_for_endpoint
         set_expire_time_endpoint_map].
    by rewrite lookup_insert_eq. }
  apply apps_in_sync_replicate. unfold apps_at.
  cbn [_endpoint_state_map set_endpoint_state_map].
  by rewrite lookup_insert_eq.
Qed.

Lemma advertise_token_removed_effect_witness :
  advertise_token_removed sample_to_sstring 9 "host"
    (sample_gossiper false sample_with_peer) = None.
Proof.
  refine (proj1 (advertise_token_removed_effect sample_to_sstring 9 "host"
                   (sample_gossiper false sample_with_peer)) _).
  reflexivity.
Defined.

(** ** Assassinating an endpoint *)

Lemma handle_major_state_change_dead_effect (ep : Z) (eps : endpoint_state)
    (g : gossiper) :
  is_in_shadow_round g = false -> is_dead_state eps = true ->
  _endpoint_state_map (handle_major_state_change ep eps g) !! ep =
    Some (set_alive false eps) /\
  _unreachable_endpoints (handle_major_state_change ep eps g) !! ep =
    Some (now (env g)) /\
  _pending_mark_alive_endpoints (handle_major_state_change ep eps g) =
    _pending_mark_alive_endpoints g /\
  exists tr, trace (handle_major_state_change ep eps g) =
             tr ++ [on_dead ep (set_alive false eps);
                    on_join ep (set_alive false eps)].
Proof.
  intros Hs Hd. rewrite handle_major_state_change_dead by done.
  destruct (major_state_stored_facts ep eps g) as (Hl & Hp & Hu).
  assert (Henv : env (major_state_stored ep eps g) = env g).
  { unfold major_state_stored. cbv zeta.
    by destruct (get_endpoint_state_for_endpoint_ptr ep g). }
  assert (Hmd : mark_dead ep (major_state_stored ep eps g) =
                emit (on_dead ep (set_alive false eps))
                  (set_unreachable_endpoints
                     (<[ep := now (env g)]>
                        (_unreachable_endpoints (major_state_stored ep eps g)))
                     (update_live_endpoints_version
                        (set_live_endpoints
                           (remove_from ep
                              (_live_endpoints (major_state_stored ep eps g)))
                           (set_endpoint_state_map
                              (<[ep := set_alive false eps]>
                                 (_endpoint_state_map
                                    (major_state_stored ep eps g)))
                              (major_state_stored ep eps g)))))).
  { unfold mark_dead, get_endpoint_state_for_endpoint_ptr. rewrite Hl.
    cbv zeta. cbn [env update_live_endpoints_version set_live_endpoints
                   set_live_endpoints_version set_endpoint_state_map].
    by rewrite Henv. }
  rewrite Hmd.
  cbn [emit _endpoint_state_map _unreachable_endpoints
       _pending_mark_alive_endpoints trace set_unreachable_endpoints
       update_live_endpoints_version set_live_endpoints_version
       set_live_endpoints set_endpoint_state_map].
  rewrite !lookup_insert_eq, Hp. repeat split.
  exists (trace (major_state_stored ep eps g)). by rewrite <- (assoc_L (++)).
Qed.

Lemma is_dead_state_left (rest : string) (ver : Z) (st : endpoint_state) :
  is_dead_state
    (add_application_state STATUS
       (mk_versioned_value (STATUS_LEFT ++ String "," rest) ver) st) = true.
Proof.
  unfold is_dead_state.
  by rewrite status_of_prefixed_value by (discriminate || reflexivity).
Qed.

(** X21. [assassinate_endpoint] gives up on a known endpoint without
    tokens, and on one whose generation or heartbeat version has changed
    while it slept. Otherwise, outside the shadow round, the endpoint ends
    with status LEFT and not alive, unreachable since now, with [on_dead]
    and [on_join] fired for it and no handshake started; an endpoint that
    had no state gets the heartbeat of the clock plus 60 seconds, version
    9999; one that had a state gets a generation that is the larger of the
    clock and its old generation plus one. *)
Theorem assassinate_endpoint_effect (to_sstring : Z -> string) (endpoint : Z)
    (g0 g : gossiper) :
  (forall es, _endpoint_state_map g0 !! endpoint = Some es ->
     token_metadata_tokens (env g0) endpoint = None ->
     assassinate_endpoint_prepare endpoint g0 = None) /\
  (forall a es generation heartbeat,
     assassinate_endpoint_prepare endpoint g0 = Some a ->
     victim_seen a = Some (generation, heartbeat) ->
     _endpoint_state_map g !! endpoint = Some es ->
     get_generation (get_heart_beat_state es) <> generation \/
     get_heart_beat_version (get_heart_beat_state es) <> heartbeat ->
     assassinate_endpoint_resume to_sstring endpoint a g = None) /\
  (forall a,
     assassinate_endpoint_prepare endpoint g0 = Some a ->
     is_in_shadow_round g = false ->
     (forall es, _endpoint_state_map g !! endpoint = Some es ->
        victim_seen a =
          Some (get_generation (get_heart_beat_state es),
                get_heart_beat_version (get_heart_beat_state es)) \/
        victim_seen a = None) ->
     exists g' st,
       assassinate_endpoint_resume to_sstring endpoint a g = Some g' /\
       _endpoint_state_map g' !! endpoint = Some st /\
       get_gossip_status st = STATUS_LEFT /\
       is_alive_bit st = false /\
       _unreachable_endpoints g' !! endpoint = Some (now (env g)) /\
       _pending_mark_alive_endpoints g' = _pending_mark_alive_endpoints g /\
       (exists tr, trace g' = tr ++ [on_dead endpoint st; on_join endpoint st])
       /\
       (_endpoint_state_map g0 !! endpoint = None ->
        get_heart_beat_state st =
          mk_heart_beat_state
            (wrap32 (Z.quot (now (env g0) + 60 * 1000) 1000)) 9999) /\
       (forall es0, _endpoint_state_map g0 !! endpoint = Some es0 ->
          get_generation (get_heart_beat_state st) =
            Z.max (get_generation_number (env g))
              (wrap32 (get_generation (get_heart_beat_state es0) + 1)))).
Proof.
  split; [|split].
  - intros es E Ht. unfold assassinate_endpoint_prepare,
      get_endpoint_state_for_endpoint_ptr. by rewrite E, Ht.
  - intros a es generation heartbeat _ Hseen E Hchanged.
    unfold assassinate_endpoint_resume, assassinate_endpoint_recheck,
      get_endpoint_state_for_endpoint_ptr.
    rewrite Hseen, E. cbv zeta.
    destruct (Z.eqb_spec (get_generation (get_heart_beat_state es)) generation)
      as [Hg|Hg]; [|done]. cbn [negb].
    destruct (Z.eqb_spec (get_heart_beat_version (get_heart_beat_state es))
                heartbeat) as [Hh|Hh]; [|done].
    by destruct Hchanged.
  - intros a Hprep Hs Hsame.
    assert (Hchecked : exists ep_state,
              assassinate_endpoint_recheck endpoint a g = Some ep_state /\
              (_endpoint_state_map g0 !! endpoint = None ->
               get_heart_beat_state ep_state =
                 mk_heart_beat_state
                   (wrap32 (Z.quot (now (env g0) + 60 * 1000) 1000)) 9999) /\
              (forall es0, _endpoint_state_map g0 !! endpoint = Some es0 ->
                 get_generation (get_heart_beat_state ep_state) =
                   Z.max (get_generation_number (env g))
                     (wrap32 (get_generation (get_heart_beat_state es0) + 1)))).
    { unfold assassinate_endpoint_prepare, get_endpoint_state_for_endpoint_ptr
        in Hprep. cbv zeta in Hprep.
      destruct (_endpoint_state_map g0 !! endpoint) as [es0|] eqn:E0.
      - destruct (token_metadata_tokens (env g0) endpoint) as [tokens|];
          [|discriminate].
        injection Hprep as <-.
        unfold assassinate_endpoint_recheck. cbn [victim_seen victim_state].
        unfold get_endpoint_state_for_endpoint_ptr. cbv zeta.
        destruct (_endpoint_state_map g !! endpoint) as [es|] eqn:E.
        + destruct (Hsame es eq_refl) as [Hseen|Hseen]; [|discriminate].
          cbn [victim_seen] in Hseen. injection Hseen as Hg Hh.
          rewrite <- Hg, <- Hh, !Z.eqb_refl. cbn [negb].
          eexists. split; [done|]. split; [done|].
          by intros es1 [= <-].
        + eexists. split; [done|]. split; [done|]. by intros es1 [= <-].
      - injection Hprep as <-.
        unfold assassinate_endpoint_recheck. cbn [victim_seen victim_state].
        eexists. split; [done|]. split; [done|]. done. }
    destruct Hchecked as (ep_state & Hc & Hnew & Hold).
    unfold assassinate_endpoint_resume. cbv zeta. rewrite Hc.
    unfold versioned_value_with_next_version, get_next_version.
    cbv zeta iota beta.
    set (v := mk_versioned_value _ _).
    set (g1 := set_version_generator _ g).
    assert (Hdead : is_dead_state (add_application_state STATUS v ep_state)
                    = true) by apply is_dead_state_left.
    destruct (handle_major_state_change_dead_effect endpoint
                (add_application_state STATUS v ep_state) g1 Hs Hdead)
      as (Hl & Hu & Hp & Htr).
    eexists _, _. split; [reflexivity|]. split; [exact Hl|].
    split.
    { apply (status_of_prefixed_value STATUS_LEFT); [discriminate|reflexivity]. }
    split; [done|]. split; [exact Hu|]. split; [exact Hp|].
    split; [exact Htr|]. split; [exact Hnew|exact Hold].
Qed.

Lemma assassinate_endpoint_effect_witness :
  exists a g' st,
    assassinate_endpoint_prepare 9 (sample_gossiper false sample_with_peer)
      = Some a /\
    assassinate_endpoint_resume sample_to_sstring 9 a
      (sample_gossiper false sample_with_peer) = Some g' /\
    _endpoint_state_map g' !! 9 = Some st /\
    get_gossip_status st = STATUS_LEFT /\
    is_alive_bit st = false /\
    get_heart_beat_state st =
      mk_heart_beat_state
        (wrap32 (Z.quot (now sample_env + 60 * 1000) 1000)) 9999.
Proof.
  set (a := mk_assassination
              (endpoint_state_of_heart_beat (now sample_env)
                 (mk_heart_beat_state
                    (wrap32 (Z.quot (now sample_env + 60 * 1000) 1000)) 9999))
              "" None).
  assert (Hprep : assassinate_endpoint_prepare 9
                    (sample_gossiper false sample_with_peer) = Some a)
    by reflexivity.
  assert (Hshadow : is_in_shadow_round (sample_gossiper false sample_with_peer)
                    = false) by reflexivity.
  assert (Hsame : forall es,
            _endpoint_state_map (sample_gossiper false sample_with_peer) !! 9
              = Some es ->
            victim_seen a =
              Some (get_generation (get_heart_beat_state es),
                    get_heart_beat_version (get_heart_beat_state es)) \/
            victim_seen a = None) by (intros es _; right; reflexivity).
  destruct (proj2 (proj2 (assassinate_endpoint_effect sample_to_sstring 9
                            (sample_gossiper false sample_with_peer)
                            (sample_gossiper false sample_with_peer)))
              a Hprep Hshadow Hsame)
    as (g' & st & Hres & Hl & Hst & Hal & _ & _ & _ & Hhb & _).
  exists a, g', st. repeat split; try assumption.
  apply Hhb. reflexivity.
Defined.

(** ** Endpoints loaded from the system table *)

(** X22. [add_saved_endpoint] does nothing for the node's own address. Any
    other endpoint gets an entry with heartbeat generation 0 and version 0,
    marked dead, with update timestamp now, and is recorded unreachable
    since now; the application states it had are kept except TOKENS and
    HOST_ID, which are set, each with a version drawn after the version
    generator, when the token metadata knows tokens or a host id for the
    endpoint; no other entry changes, the live endpoints are left as they
    are, and the other shards hold the same application states. *)
Theorem add_saved_endpoint_effect (ep : Z) (g : gossiper) :
  (ep = get_broadcast_address (env g) -> add_saved_endpoint ep g = g) /\
  (ep <> get_broadcast_address (env g) ->
   0 <= version_generator g -> version_generator g + 2 <= INT32_MAX ->
   exists st,
     _endpoint_state_map (add_saved_endpoint ep g) =
       <[ep := st]> (_endpoint_state_map g) /\
     get_heart_beat_state st = mk_heart_beat_state 0 0 /\
     is_alive_bit st = false /\
     get_update_timestamp st = now (env g) /\
     _unreachable_endpoints (add_saved_endpoint ep g) =
       <[ep := now (env g)]> (_unreachable_endpoints g) /\
     _live_endpoints (add_saved_endpoint ep g) = _live_endpoints g /\
     (forall key, key <> TOKENS -> key <> HOST_ID ->
        get_application_state_map st !! key =
        (_endpoint_state_map g !! ep) ≫= (fun es =>
           get_application_state_map es !! key)) /\
     match token_metadata_tokens (env g) ep with
     | Some tokens =>
         exists v, get_application_state_map st !! TOKENS =
                     Some (mk_versioned_value tokens v) /\
                   version_generator g < v
     | None =>
         get_application_state_map st !! TOKENS =
         (_endpoint_state_map g !! ep) ≫= (fun es =>
            get_application_state_map es !! TOKENS)
     end /\
     match token_metadata_host_id (env g) ep with
     | Some host_id =>
         exists v, get_application_state_map st !! HOST_ID =
                     Some (mk_versioned_value host_id v) /\
                   version_generator g < v
     | None =>
         get_application_state_map st !! HOST_ID =
         (_endpoint_state_map g !! ep) ≫= (fun es =>
            get_application_state_map es !! HOST_ID)
     end /\
     apps_in_sync ep (add_saved_endpoint ep g)).
Proof.
  split.
  { intros ->. unfold add_saved_endpoint. by rewrite bool_decide_eq_true_2. }
  intros Hne Hpos Hroom.
  pose proof (apps_in_sync_add_saved_endpoint ep g Hne) as Hsync.
  revert Hsync. unfold add_saved_endpoint.
  rewrite bool_decide_eq_false_2 by done. cbv zeta.
  unfold versioned_value_with_next_version, get_next_version,
    get_endpoint_state_for_endpoint_ptr.
  assert (Hbase : forall key,
            get_application_state_map
              match _endpoint_state_map g !! ep with
              | Some es =>
                  set_heart_beat_state_and_update_timestamp
                    (mk_heart_beat_state 0 0) (now (env g)) es
              | None => endpoint_state_of_heart_beat (now (env g))
                          (mk_heart_beat_state 0 0)
              end !! key =
            (_endpoint_state_map g !! ep) ≫= (fun es =>
               get_application_state_map es !! key)).
  { intros key. by destruct (_endpoint_state_map g !! ep). }
  assert (Hrest : get_heart_beat_state
              match _endpoint_state_map g !! ep with
              | Some es =>
                  set_heart_beat_state_and_update_timestamp
                    (mk_heart_beat_state 0 0) (now (env g)) es
              | None => endpoint_state_of_heart_beat (now (env g))
                          (mk_heart_beat_state 0 0)
              end = mk_heart_beat_state 0 0 /\
            get_update_timestamp
              match _endpoint_state_map g !! ep with
              | Some es =>
                  set_heart_beat_state_and_update_timestamp
                    (mk_heart_beat_state 0 0) (now (env g)) es
              | None => endpoint_state_of_heart_beat (now (env g))
                          (mk_heart_beat_state 0 0)
              end = now (env g)).
  { by destruct (_endpoint_state_map g !! ep). }
  destruct Hrest as [Hhb Hts].
  set (base := match _endpoint_state_map g !! ep with
               | Some es => _ | None => _ end) in *.
  clearbody base.
  assert (H1 : wrap32 (version_generator g + 1) = version_generator g + 1)
    by (apply wrap32_small; unfold INT32_MAX, INT32_MIN in *; lia).
  assert (H2 : wrap32 (version_generator g + 1 + 1) = version_generator g + 2)
    by (rewrite wrap32_small; unfold INT32_MAX, INT32_MIN in *; lia).
  destruct (token_metadata_tokens (env g) ep) as [tokens|];
    cbv zeta iota beta;
    cbn [env set_version_generator version_generator];
    (destruct (token_metadata_host_id (env g) ep) as [host_id|];
     cbv zeta iota beta;
     cbn [env set_version_generator version_generator];
     rewrite ?H1, ?H2; intros Hsync;
     eexists; (split; [reflexivity|]);
     (split; [exact Hhb|]); (split; [reflexivity|]); (split; [exact Hts|]);
     (split; [reflexivity|]); (split; [reflexivity|]);
     (split;
      [intros key Hk1 Hk2;
       cbn [get_application_state_map set_alive add_application_state];
       rewrite ?lookup_insert_ne by done; apply Hbase|]);
     cbn [get_application_state_map set_alive add_application_state];
     (split; [|split; [|exact Hsync]]);
     repeat (rewrite lookup_insert_eq || rewrite lookup_insert_ne by done);
     first [apply Hbase | eexists; split; [reflexivity|lia]]).
Qed.

Lemma add_saved_endpoint_effect_witness :
  exists st,
    _endpoint_state_map
      (add_saved_endpoint 7 (sample_gossiper false sample_with_peer)) =
      <[7 := st]> sample_with_peer /\
    get_heart_beat_state st = mk_heart_beat_state 0 0 /\
    is_alive_bit st = false.
Proof.
  destruct (proj2 (add_saved_endpoint_effect 7
                     (sample_gossiper false sample_with_peer)))
    as (st & Hm & Hhb & Hal & _).
  - discriminate.
  - vm_compute. discriminate.
  - vm_compute. discriminate.
  - exists st. split; [exact Hm|]. split; [exact Hhb|exact Hal].
Defined.

(** ** Local application states and their versions *)

Lemma store_local_values_fresh (ep_addr : Z)
    (states : list (application_state * versioned_value)) (g : gossiper)
    (es : endpoint_state) :
  _endpoint_state_map g !! ep_addr = Some es ->
  0 <= version_generator g ->
  version_generator g + Z.of_nat (length states) <= INT32_MAX ->
  let '(new, g') := store_local_values ep_addr states g in
  new = with_fresh_versions (version_generator g) states /\
  version_generator g' = version_generator g + Z.of_nat (length states) /\
  _endpoint_state_map g' =
    <[ep_addr := add_all new es]> (_endpoint_state_map g) /\
  trace g' = trace g /\ env g' = env g.
Proof.
  intros E Hpos Hroom. unfold store_local_values.
  assert (Hgen : forall l done0 g0 es0,
            _endpoint_state_map g0 !! ep_addr = Some es0 ->
            0 <= version_generator g0 ->
            version_generator g0 + Z.of_nat (length l) <= INT32_MAX ->
            let '(new, g') :=
              fold_left
                (fun (acc : list (application_state * versioned_value)
                            * gossiper) p =>
                   let '(done, g) := acc in
                   let '(value0, g) := clone_with_higher_version p.2 g in
                   (done ++ [(p.1, value0)],
                    set_endpoint_state_map
                      (alter (add_application_state p.1 value0) ep_addr
                         (_endpoint_state_map g)) g))
                l (done0, g0) in
            new = done0 ++ with_fresh_versions (version_generator g0) l /\
            version_generator g' =
              version_generator g0 + Z.of_nat (length l) /\
            _endpoint_state_map g' =
              <[ep_addr := add_all (with_fresh_versions (version_generator g0) l)
                             es0]> (_endpoint_state_map g0) /\
            trace g' = trace g0 /\ env g' = env g0).
  { induction l as [|[k v] l IH]; intros done0 g0 es0 E0 Hpos0 Hroom0.
    - cbn. rewrite app_nil_r, Z.add_0_r, insert_id by done. done.
    - cbn [fold_left]. unfold clone_with_higher_version, get_next_version.
      cbv zeta iota beta. cbn [length] in Hroom0.
      assert (Hw : wrap32 (version_generator g0 + 1) = version_generator g0 + 1)
        by (apply wrap32_small; unfold INT32_MAX, INT32_MIN in *; lia).
      rewrite Hw. cbn [fst snd].
      set (v1 := mk_versioned_value (value v) (version_generator g0 + 1)).
      set (g1 := set_endpoint_state_map _ _).
      specialize (IH (done0 ++ [(k, v1)]) g1 (add_application_state k v1 es0)).
      assert (Hv1 : version_generator g1 = version_generator g0 + 1)
        by reflexivity.
      assert (Hm1 : _endpoint_state_map g1 =
                    <[ep_addr := add_application_state k v1 es0]>
                      (_endpoint_state_map g0)).
      { subst g1. cbn [_endpoint_state_map set_endpoint_state_map
                        set_version_generator].
        apply map_eq. intros i. destruct (decide (i = ep_addr)) as [->|Hi].
        - by rewrite lookup_alter_eq, lookup_insert_eq, E0.
        - by rewrite lookup_alter_ne, lookup_insert_ne. }
      destruct (fold_left _ l (done0 ++ [(k, v1)], g1)) as [new g'].
      destruct IH as (Hn & Hv & Hm & Ht & He).
      + by rewrite Hm1, lookup_insert_eq.
      + rewrite Hv1. lia.
      + rewrite Hv1. lia.
      + assert (Hf : with_fresh_versions (version_generator g0) ((k, v) :: l) =
                     (k, v1) :: with_fresh_versions (version_generator g1) l).
        { unfold with_fresh_versions. cbn [imap]. f_equal.
          - subst v1. cbn. by rewrite Z.add_0_r.
          - apply imap_ext. intros i p _. cbn [compose]. rewrite Hv1.
            do 2 f_equal. lia. }
        rewrite Hf. split; [by rewrite Hn, <- app_assoc|].
        split; [rewrite Hv, Hv1; cbn [length]; lia|].
        split; [|by rewrite Ht, He].
        rewrite Hm, Hm1, insert_insert_eq. done. }
  specialize (Hgen states [] g es E Hpos Hroom).
  destruct (fold_left _ states ([], g)) as [new g'].
  destruct Hgen as (Hn & Hv & Hm & Ht & He). cbn in Hn.
  by rewrite Hn.
Qed.

Lemma add_all_fields (l : list (application_state * versioned_value))
    (es : endpoint_state) :
  get_heart_beat_state (add_all l es) = get_heart_beat_state es /\
  is_alive_bit (add_all l es) = is_alive_bit es /\
  get_update_timestamp (add_all l es) = get_update_timestamp es /\
  get_application_state_map (add_all l es) =
    put_all l (get_application_state_map es).
Proof.
  revert es. unfold add_all, put_all.
  induction l as [|[k v] l IH]; intros es; [done|].
  cbn [fold_left fst snd]. destruct (IH (add_application_state k v es))
    as (H1 & H2 & H3 & H4).
  by rewrite H1, H2, H3, H4.
Qed.

Lemma put_all_lookup_other (l : list (application_state * versioned_value))
    (a : gmap application_state versioned_value) (k : application_state) :
  k ∉ l.*1 -> put_all l a !! k = a !! k.
Proof.
  revert a. unfold put_all.
  induction l as [|[k' v] l IH]; intros a Hk; [done|].
  cbn [fold_left fst snd]. rewrite fmap_cons, not_elem_of_cons in Hk.
  destruct Hk as [Hne Hk]. rewrite IH by done.
  by rewrite lookup_insert_ne.
Qed.

Lemma put_all_lookup_last (l1 l2 : list (application_state * versioned_value))
    (a : gmap application_state versioned_value) (k : application_state)
    (x : versioned_value) :
  k ∉ l2.*1 -> put_all (l1 ++ (k, x) :: l2) a !! k = Some x.
Proof.
  intros Hk. unfold put_all. rewrite fold_left_app. cbn [fold_left].
  change (fold_left _ l2 ?b) with (put_all l2 b).
  rewrite put_all_lookup_other by done. cbn. by rewrite lookup_insert_eq.
Qed.

Lemma before_change_fold (ep : Z) (st : endpoint_state)
    (l : list (application_state * versioned_value)) (g : gossiper) :
  let g' := fold_left (fun g (p : application_state * versioned_value) =>
                do_before_change_notifications ep st p.1 p.2 g) l g in
  _endpoint_state_map g' = _endpoint_state_map g /\
  version_generator g' = version_generator g /\
  env g' = env g /\
  trace g' = trace g ++ map (fun p => before_change ep st p.1 p.2) l.
Proof.
  revert g. induction l as [|[k v] l IH]; intros g.
  - cbn. by rewrite app_nil_r.
  - cbn [fold_left map]. cbv zeta in IH.
    destruct (IH (do_before_change_notifications ep st (k, v).1 (k, v).2 g))
      as (H1 & H2 & H3 & H4).
    rewrite H1, H2, H3, H4. cbn. by rewrite <- app_assoc.
Qed.

Lemma on_change_fold (ep : Z)
    (l : list (application_state * versioned_value)) (g : gossiper) :
  let g' := fold_left (fun g (p : application_state * versioned_value) =>
                let g := replicate_key ep p.1 p.2 g in
                do_on_change_notifications ep p.1 p.2 g) l g in
  _endpoint_state_map g' = _endpoint_state_map g /\
  version_generator g' = version_generator g /\
  trace g' = trace g ++ map (fun p => on_change ep p.1 p.2) l.
Proof.
  revert g. induction l as [|[k v] l IH]; intros g.
  - cbn. by rewrite app_nil_r.
  - cbn [fold_left map]. cbv zeta in IH.
    destruct (IH (do_on_change_notifications ep (k, v).1 (k, v).2
                    (replicate_key ep (k, v).1 (k, v).2 g)))
      as (H1 & H2 & H3).
    rewrite H1, H2, H3. cbn. by rewrite <- app_assoc.
Qed.

(** X23. [add_local_application_state] stores the values in the order given,
    under versions of its own: with a local state and room in the version
    generator, the value at position [i] of the list is stored with the
    text given and the version [i + 1] above the generator, whatever version
    the caller gave it (for a key listed again later, the later one is
    held); keys not listed, the heartbeat, the alive flag and all other
    entries are unchanged; the generator advances by the length of the
    list; all [before_change] notifications, carrying the state held on
    entry, come before all [on_change] notifications, which carry the
    values as stored. Without a local state only the warning is left. *)
Theorem add_local_application_state_fresh_versions
    (states : list (application_state * versioned_value)) (g : gossiper) :
  let ep_addr := get_broadcast_address (env g) in
  let g' := add_local_application_state states g in
  (states <> [] -> _endpoint_state_map g !! ep_addr = None ->
   g' = emit (log_warn fail_to_apply_application_state) g) /\
  (forall es,
     _endpoint_state_map g !! ep_addr = Some es ->
     0 <= version_generator g ->
     version_generator g + Z.of_nat (length states) <= INT32_MAX ->
     exists es',
       _endpoint_state_map g' = <[ep_addr := es']> (_endpoint_state_map g) /\
       get_heart_beat_state es' = get_heart_beat_state es /\
       is_alive_bit es' = is_alive_bit es /\
       (forall i k v,
          states !! i = Some (k, v) ->
          (forall j p, (i < j)%nat -> states !! j = Some p -> p.1 <> k) ->
          get_application_state_map es' !! k =
            Some (mk_versioned_value (value v)
                    (version_generator g + Z.of_nat i + 1))) /\
       (forall k, k ∉ states.*1 ->
          get_application_state_map es' !! k =
          get_application_state_map es !! k) /\
       version_generator g' =
         version_generator g + Z.of_nat (length states) /\
       trace g' =
         trace g ++
         map (fun p => before_change ep_addr es p.1 p.2) states ++
         map (fun p => on_change ep_addr p.1 p.2)
           (with_fresh_versions (version_generator g) states)).
Proof.
  cbv zeta. split.
  { intros Hne E. unfold add_local_application_state,
      get_endpoint_state_for_endpoint_ptr.
    destruct states; [done|]. cbv zeta. by rewrite E. }
  intros es E Hpos Hroom.
  destruct (decide (states = [])) as [->|Hne].
  { exists es. cbn. rewrite insert_id, Z.add_0_r, app_nil_r by done.
    repeat split; done. }
  assert (Hun : add_local_application_state states g =
    let ep_addr := get_broadcast_address (env g) in
    match get_endpoint_state_for_endpoint_ptr ep_addr g with
    | None => emit (log_warn fail_to_apply_application_state) g
    | Some ep_state_before =>
        let g := fold_left (fun g (p : application_state * versioned_value) =>
                     do_before_change_notifications ep_addr ep_state_before
                       p.1 p.2 g) states g in
        match get_endpoint_state_for_endpoint_ptr ep_addr g with
        | None => g
        | Some _ =>
            let '(states, g) := store_local_values ep_addr states g in
            fold_left (fun g (p : application_state * versioned_value) =>
                let g := replicate_key ep_addr p.1 p.2 g in
                do_on_change_notifications ep_addr p.1 p.2 g) states g
        end
    end) by (by destruct states).
  rewrite Hun. clear Hun Hne. cbv zeta.
  set (ep_addr := get_broadcast_address (env g)) in *.
  unfold get_endpoint_state_for_endpoint_ptr. rewrite E.
  destruct (before_change_fold ep_addr es states g) as (Hm1 & Hv1 & He1 & Ht1).
  cbv zeta in Hm1, Hv1, He1, Ht1.
  set (g1 := fold_left _ states g) in *. clearbody g1.
  rewrite Hm1, E.
  pose proof (store_local_values_fresh ep_addr states g1 es) as Hst.
  destruct (store_local_values ep_addr states g1) as [new g2].
  destruct Hst as (Hn & Hv2 & Hm2 & Ht2 & He2);
    [by rewrite Hm1|by rewrite Hv1|by rewrite Hv1|].
  destruct (on_change_fold ep_addr new g2) as (Hm3 & Hv3 & Ht3).
  cbv zeta in Hm3, Hv3, Ht3.
  set (g3 := fold_left _ new g2) in *. clearbody g3.
  destruct (add_all_fields new es) as (Hh & Ha & _ & Hp).
  exists (add_all new es).
  split; [by rewrite Hm3, Hm2, Hm1|]. split; [done|]. split; [done|].
  rewrite Hp, Hn, Hv1.
  split; [|split; [|split]].
  - intros i k v Hi Hlater.
    set (w := with_fresh_versions (version_generator g) states).
    assert (Hwi : w !! i =
                  Some (k, mk_versioned_value (value v)
                             (version_generator g + Z.of_nat i + 1))).
    { subst w. unfold with_fresh_versions.
      by rewrite list_lookup_imap, Hi. }
    rewrite <- (take_drop_middle w i _ Hwi).
    apply put_all_lookup_last.
    intros Hin. apply list_elem_of_fmap in Hin as ([k' x'] & Hk & Hin).
    cbn in Hk. subst k'.
    apply list_elem_of_lookup in Hin as [j Hj].
    rewrite lookup_drop in Hj. subst w. unfold with_fresh_versions in Hj.
    rewrite list_lookup_imap in Hj.
    destruct (states !! (S i + j)%nat) as [p|] eqn:Ep; [|done].
    cbn in Hj. injection Hj as Hk _.
    apply (Hlater (S i + j)%nat p); [lia|done|done].
  - intros k Hk. apply put_all_lookup_other.
    intros Hin. apply Hk.
    apply list_elem_of_fmap in Hin as ([k' x'] & Hk' & Hin).
    cbn in Hk'. subst k'.
    apply list_elem_of_lookup in Hin as [j Hj].
    unfold with_fresh_versions in Hj. rewrite list_lookup_imap in Hj.
    destruct (states !! j) as [p|] eqn:Ep; [|done].
    cbn in Hj. injection Hj as Hk' _.
    apply list_elem_of_fmap. exists p. split; [done|].
    by apply list_elem_of_lookup_2 in Ep.
  - by rewrite Hv3, Hv2, Hv1.
  - by rewrite Ht3, Ht2, Ht1, Hn, Hv1, <- app_assoc.
Qed.

Lemma add_local_application_state_fresh_versions_witness :
  exists es',
    _endpoint_state_map
      (add_local_application_state
         [(LOAD, mk_versioned_value "0.5" 0); (STATUS, mk_versioned_value "LEFT" 0)]
         (sample_gossiper false sample_local_only)) !! 1 = Some es' /\
    get_application_state_map es' !! STATUS =
      Some (mk_versioned_value "LEFT" 12) /\
    get_application_state_map es' !! LOAD =
      Some (mk_versioned_value "0.5" 11).
Proof.
  destruct (proj2 (add_local_application_state_fresh_versions
                     [(LOAD, mk_versioned_value "0.5" 0);
                      (STATUS, mk_versioned_value "LEFT" 0)]
                     (sample_gossiper false sample_local_only))
              (sample_state 1000 4 "NORMAL" 2 true))
    as (es' & Hm & _ & _ & Hi & _).
  - reflexivity.
  - vm_compute. discriminate.
  - vm_compute. discriminate.
  - exists es'. split; [|split].
    + rewrite Hm. apply lookup_insert_eq.
    + apply (Hi 1%nat STATUS (mk_versioned_value "LEFT" 0)); [reflexivity|].
      intros [|[|j]] p Hlt Hj; [lia|lia|discriminate Hj].
    + apply (Hi 0%nat LOAD (mk_versioned_value "0.5" 0)); [reflexivity|].
      intros [|[|[|j]]] p Hlt Hj; [lia| |discriminate Hj|discriminate Hj].
      injection Hj as <-. discriminate.
Defined.

(** ** Stopping gossip *)

Lemma add_local_status_effect (v : versioned_value) (g : gossiper)
    (es : endpoint_state) :
  _endpoint_state_map g !! get_broadcast_address (env g) = Some es ->
  0 <= version_generator g -> version_generator g + 1 <= INT32_MAX ->
  let g' := add_local_application_state [(STATUS, v)] g in
  let v' := mk_versioned_value (value v) (version_generator g + 1) in
  _endpoint_state_map g' =
    <[get_broadcast_address (env g) := add_application_state STATUS v' es]>
      (_endpoint_state_map g) /\
  _live_endpoints g' = _live_endpoints g /\
  _enabled g' = _enabled g /\
  env g' = env g /\
  version_generator g' = version_generator g + 1.
Proof.
  intros E Hpos Hroom. cbv zeta.
  unfold add_local_application_state, get_endpoint_state_for_endpoint_ptr.
  cbv zeta. rewrite E.
  cbn [fold_left fst snd].
  unfold do_before_change_notifications, emit.
  cbn [_endpoint_state_map]. rewrite E.
  unfold store_local_values, clone_with_higher_version, get_next_version.
  cbn [fold_left fst snd]. cbv zeta iota beta.
  cbn [fold_left fst snd app version_generator].
  rewrite wrap32_small by (unfold INT32_MAX, INT32_MIN in *; lia).
  unfold do_on_change_notifications, replicate_key, emit.
  cbn [_endpoint_state_map _live_endpoints _enabled env version_generator
       set_other_shards set_endpoint_state_map set_version_generator].
  split; [|done].
  apply map_eq. intros i.
  destruct (decide (i = get_broadcast_address (env g))) as [->|Hi].
  - by rewrite lookup_alter_eq, lookup_insert_eq, E.
  - by rewrite lookup_alter_ne, lookup_insert_ne.
Qed.

(** X24. [do_stop_gossiping] does nothing when gossip is already disabled.
    With no local state, or a local state in a silent shutdown state, it
    only disables gossip and sends nothing. Otherwise it leaves the local
    status at shutdown, under a version two above the version generator,
    keeps the local heartbeat and the other application states, sends one
    GossipShutdown to each live endpoint, in their order, each carrying the
    local generation, and disables gossip; afterwards the node is shut down
    in its own eyes and no longer among [get_live_members], whose other
    members are the live endpoints; and an enabled peer that holds the node
    in the announced generation ends, on any of these messages, with the
    node in status shutdown and not alive. *)
Theorem do_stop_gossiping_announces (SILENT_SHUTDOWN_STATES : list string)
    (g : gossiper) :
  let me := get_broadcast_address (env g) in
  (is_enabled g = false ->
   do_stop_gossiping SILENT_SHUTDOWN_STATES g = ([], g)) /\
  (is_enabled g = true ->
   match _endpoint_state_map g !! me with
   | Some es => is_silent_shutdown_state SILENT_SHUTDOWN_STATES es = true
   | None => True
   end ->
   do_stop_gossiping SILENT_SHUTDOWN_STATES g = ([], set_enabled false g)) /\
  (forall es,
     is_enabled g = true ->
     _endpoint_state_map g !! me = Some es ->
     is_silent_shutdown_state SILENT_SHUTDOWN_STATES es = false ->
     0 <= version_generator g -> version_generator g + 2 <= INT32_MAX ->
     exists g' es',
       do_stop_gossiping SILENT_SHUTDOWN_STATES g =
         (map (fun addr =>
                 mk_gossip_shutdown addr me
                   (get_generation (get_heart_beat_state es)))
            (_live_endpoints g), g') /\
       is_enabled g' = false /\
       _endpoint_state_map g' = <[me := es']> (_endpoint_state_map g) /\
       get_heart_beat_state es' = get_heart_beat_state es /\
       get_application_state_map es' =
         <[STATUS := mk_versioned_value (SHUTDOWN ++ ",true")
                       (version_generator g + 2)]>
           (get_application_state_map es) /\
       is_shutdown me g' = true /\
       (me ∉ get_live_members g') /\
       (forall p, p <> me ->
          p ∈ get_live_members g' <-> p ∈ _live_endpoints g) /\
       (forall (peer : gossiper) (st : endpoint_state) (m : gossip_shutdown),
          is_enabled peer = true ->
          _endpoint_state_map peer !! me = Some st ->
          get_generation (get_heart_beat_state st) =
            get_generation (get_heart_beat_state es') ->
          m ∈ (do_stop_gossiping SILENT_SHUTDOWN_STATES g).1 ->
          exists st',
            _endpoint_state_map
              (handle_shutdown_msg (shutdown_from m)
                 (Some (shutdown_generation m)) peer) !! me = Some st' /\
            get_gossip_status st' = SHUTDOWN /\
            is_alive_bit st' = false)).
Proof.
  cbv zeta. unfold do_stop_gossiping. split; [by intros ->|]. split.
  { intros -> Hsilent. cbn [negb].
    unfold get_endpoint_state_for_endpoint_ptr. cbv zeta.
    destruct (_endpoint_state_map g !! get_broadcast_address (env g))
      as [es|]; [|done].
    by rewrite Hsilent. }
  intros es -> E Hsilent Hpos Hroom. cbn [negb].
  unfold get_endpoint_state_for_endpoint_ptr. cbv zeta.
  rewrite E, Hsilent. cbn [negb].
  unfold versioned_value_shutdown, get_next_version. cbv zeta iota beta.
  rewrite wrap32_small by (unfold INT32_MAX, INT32_MIN in *; lia).
  set (v := mk_versioned_value (SHUTDOWN ++ ",true") (version_generator g + 1)).
  set (g1 := set_version_generator (version_generator g + 1) g).
  destruct (add_local_status_effect v g1 es) as (Hm & Hl & _ & He & Hv);
    [done|cbn; lia|cbn; lia|].
  cbv zeta in Hm, Hl, He, Hv.
  set (g2 := add_local_application_state [(STATUS, v)] g1) in *.
  clearbody g2.
  change (env g1) with (env g) in *.
  change (_endpoint_state_map g1) with (_endpoint_state_map g) in *.
  change (_live_endpoints g1) with (_live_endpoints g) in *.
  change (version_generator g1) with (version_generator g + 1) in *.
  change (value v) with (SHUTDOWN ++ ",true")%string in *.
  replace (version_generator g + 1 + 1) with (version_generator g + 2)
    in * by lia.
  set (v' := mk_versioned_value (SHUTDOWN ++ ",true")
               (version_generator g + 2)) in *.
  set (me := get_broadcast_address (env g)) in *.
  rewrite He, Hl. fold me.
  assert (Hstatus : get_gossip_status (add_application_state STATUS v' es)
                    = SHUTDOWN).
  { subst v'. apply (status_of_prefixed_value SHUTDOWN);
      [discriminate|reflexivity]. }
  assert (Hshut : is_shutdown me (set_enabled false g2) = true).
  { unfold is_shutdown.
    rewrite (get_gossip_status_of_lookup me _
               (add_application_state STATUS v' es)).
    - by rewrite Hstatus.
    - cbn [_endpoint_state_map set_enabled]. rewrite Hm.
      apply lookup_insert_eq. }
  eexists _, (add_application_state STATUS v' es).
  split; [reflexivity|]. split; [reflexivity|].
  split; [exact Hm|]. split; [reflexivity|]. split; [reflexivity|].
  split; [exact Hshut|].
  assert (Henv2 : get_broadcast_address (env (set_enabled false g2)) = me)
    by (cbn [env set_enabled]; by rewrite He).
  split; [|split].
  - unfold get_live_members. cbv zeta. rewrite Henv2, Hshut.
    rewrite elem_of_difference, elem_of_singleton. tauto.
  - intros p Hp. unfold get_live_members. cbv zeta. rewrite Henv2, Hshut.
    cbn [_live_endpoints set_enabled]. rewrite Hl.
    rewrite elem_of_difference, elem_of_union, elem_of_list_to_set,
      !elem_of_singleton. tauto.
  - intros peer st m Hen Est Hgen Hin. cbn [fst] in Hin.
    apply list_elem_of_fmap in Hin as (addr & -> & _).
    cbn [shutdown_from shutdown_generation].
    unfold handle_shutdown_msg, get_endpoint_state_for_endpoint_ptr.
    rewrite Hen, Est. cbn [negb]. cbv zeta.
    cbn [get_heart_beat_state add_application_state] in Hgen.
    rewrite Hgen, Z.eqb_refl. cbn [negb].
    destruct (mark_as_shutdown_effect me peer st Est) as (Hmp & _).
    cbv zeta in Hmp. rewrite Hmp, lookup_insert_eq.
    eexists. split; [reflexivity|].
    destruct (shut_down_state_status (wrap32 (version_generator peer + 1)) st)
      as (H1 & H2 & _).
    by split.
Qed.

Lemma do_stop_gossiping_announces_witness :
  exists g',
    do_stop_gossiping [] (sample_gossiper false sample_local_only) =
      ([], g') /\
    is_enabled g' = false /\
    is_shutdown 1 g' = true /\
    (1 ∉ get_live_members g').
Proof.
  destruct (proj2 (proj2 (do_stop_gossiping_announces []
                            (sample_gossiper false sample_local_only)))
              (sample_state 1000 4 "NORMAL" 2 true))
    as (g' & es' & Hs & Hen & _ & _ & _ & Hshut & Hlive & _).
  - reflexivity.
  - reflexivity.
  - reflexivity.
  - vm_compute. discriminate.
  - vm_compute. discriminate.
  - exists g'. split; [exact Hs|]. split; [exact Hen|].
    split; [exact Hshut|exact Hlive].
Defined.

(** ** Starting gossip *)

Lemma put_all_nodup (l : list (application_state * versioned_value))
    (a : gmap application_state versioned_value) :
  NoDup l.*1 -> put_all l a = list_to_map l ∪ a.
Proof.
  intros Hnd. apply map_eq. intros k.
  destruct (decide (k ∈ l.*1)) as [Hin|Hout].
  - apply list_elem_of_fmap in Hin as ([k' x] & Hk & Hin). cbn in Hk.
    subst k'. pose proof Hin as Hin'.
    apply list_elem_of_split in Hin as (l1 & l2 & ->).
    rewrite put_all_lookup_last.
    + symmetry. apply lookup_union_Some_l.
      by apply elem_of_list_to_map_1.
    + rewrite fmap_app, fmap_cons in Hnd. cbn in Hnd.
      apply NoDup_app in Hnd as (_ & _ & Hnd).
      by apply NoDup_cons in Hnd as [Hnd _].
  - rewrite put_all_lookup_other by done.
    rewrite lookup_union_r; [done|].
    by apply not_elem_of_list_to_map_1.
Qed.

(** X25. [start_gossiping] leaves the node with an entry for itself whose
    heartbeat is the generation given (the forced generation when that is
    positive) at version 0, alive, with update timestamp now, and whose
    application states are the preloaded ones over those it already held;
    the other entries and the live endpoints are unchanged, the other shards
    hold the node's application states, gossip is enabled, the configured
    seeds other than the node itself are added to the seeds, the pinger's
    generation is raised to the generation started with if that is larger,
    and [_advertise_myself] is cleared when [advertise] is off and left
    alone otherwise. *)
Theorem start_gossiping_establishes_local_state
    (force_gossip_generation generation_nbr : Z)
    (preload_local_states : gmap application_state versioned_value)
    (advertise : bool) (a : advertising) (p : direct_fd_pinger)
    (g : gossiper) :
  let me := get_broadcast_address (env g) in
  let generation :=
    if force_gossip_generation >? 0 then force_gossip_generation
    else generation_nbr in
  let r := start_gossiping force_gossip_generation generation_nbr
             preload_local_states advertise a p g in
  exists st,
    _endpoint_state_map r.2 = <[me := st]> (_endpoint_state_map g) /\
    get_heart_beat_state st = mk_heart_beat_state generation 0 /\
    is_alive_bit st = true /\
    get_update_timestamp st = now (env g) /\
    get_application_state_map st =
      preload_local_states ∪
      default ∅ (get_application_state_map <$> _endpoint_state_map g !! me) /\
    knows_itself r.2 /\
    is_enabled r.2 = true /\
    _live_endpoints r.2 = _live_endpoints g /\
    _seeds r.2 = _seeds g ∪ (cfg_seeds (env g) ∖ {[me]}) /\
    apps_in_sync me r.2 /\
    _generation_number r.1.2 = Z.max generation (_generation_number p) /\
    _advertise_myself r.1.1 = advertise && _advertise_myself a /\
    _advertise_to_nodes r.1.1 = _advertise_to_nodes a.
Proof.
  cbv zeta. unfold start_gossiping. cbv zeta. cbn [fst snd].
  change (env (build_seeds_list g)) with (env g).
  change (_endpoint_state_map (build_seeds_list g))
    with (_endpoint_state_map g).
  set (me := get_broadcast_address (env g)).
  set (generation := if force_gossip_generation >? 0 then _ else _).
  set (base := set_alive true _).
  destruct (add_all_fields (map_to_list preload_local_states) base)
    as (Hh & Ha & Ht & Hp).
  set (st := add_all _ base) in *.
  exists st. split; [reflexivity|]. split; [exact Hh|]. split; [exact Ha|].
  split; [exact Ht|]. split.
  { rewrite Hp, put_all_nodup by apply NoDup_fst_map_to_list.
    rewrite list_to_map_to_list. subst base.
    cbn [get_application_state_map set_alive
         set_heart_beat_state_and_update_timestamp].
    unfold at_or_default. by destruct (_endpoint_state_map g !! me). }
  split.
  { unfold knows_itself.
    cbn [env _endpoint_state_map set_enabled replicate set_other_shards
         set_endpoint_state_map].
    change (env (build_seeds_list g)) with (env g). fold me.
    rewrite lookup_insert_eq. by eexists. }
  split; [reflexivity|]. split; [reflexivity|]. split; [reflexivity|].
  split.
  { apply (apps_in_sync_same me
             (replicate me st
                (set_endpoint_state_map
                   (<[me := st]> (_endpoint_state_map g))
                   (build_seeds_list g)))); [done|done|].
    apply apps_in_sync_replicate. unfold apps_at.
    cbn [_endpoint_state_map set_endpoint_state_map].
    by rewrite lookup_insert_eq. }
  split.
  { unfold update_generation_number.
    destruct (Z.leb_spec generation (_generation_number p));
      cbn [_generation_number]; lia. }
  by destruct advertise.
Qed.

(** ** Features common to the cluster *)

Lemma loaded_features_fold (to_feature_set : string -> gset string)
    (l : list (Z * string)) (fm : gmap Z (gset string)) (ep : Z) :
  NoDup l.*1 ->
  fold_left (loaded_features_step to_feature_set) l fm !! ep =
  match fm !! ep with
  | Some fs => Some fs
  | None =>
      match (list_to_map l : gmap Z string) !! ep with
      | Some saved =>
          if bool_decide (to_feature_set saved = ∅) then None
          else Some (to_feature_set saved)
      | None => None
      end
  end.
Proof.
  revert fm. induction l as [|[k s] l IH]; intros fm Hnd.
  - cbn. by destruct (fm !! ep).
  - rewrite fmap_cons in Hnd. apply NoDup_cons in Hnd as [Hk Hnd].
    cbn [fold_left]. rewrite IH by done. cbn [list_to_map foldr].
    unfold loaded_features_step, emplace. cbn [fst snd]. cbv zeta.
    assert (Hl : (list_to_map l : gmap Z string) !! k = None)
      by by apply not_elem_of_list_to_map_1.
    destruct (decide (ep = k)) as [->|Hne].
    + rewrite lookup_insert_eq, Hl.
      destruct (bool_decide (to_feature_set s = ∅)); [by destruct (fm !! k)|].
      destruct (fm !! k) eqn:E; [by rewrite E|].
      by rewrite lookup_insert_eq.
    + rewrite lookup_insert_ne by done.
      destruct (bool_decide (to_feature_set s = ∅)); [done|].
      destruct (fm !! k); [done|]. by rewrite lookup_insert_ne.
Qed.

Lemma live_features_fold (to_feature_set : string -> gset string)
    (ignore_local_node : bool) (g : gossiper)
    (l : list (Z * endpoint_state)) (fm : gmap Z (gset string)) (ep : Z) :
  fold_left (live_features_step to_feature_set ignore_local_node g) l fm
    !! ep =
  if bool_decide (ep ∈ l.*1)
       && negb (ignore_local_node
                && bool_decide (ep = get_broadcast_address (env g)))
       && negb (bool_decide
                  (get_supported_features_of to_feature_set ep g = ∅))
  then Some (get_supported_features_of to_feature_set ep g)
  else fm !! ep.
Proof.
  revert fm. induction l as [|[k s] l IH]; intros fm; [done|].
  cbn [fold_left]. rewrite IH. rewrite fmap_cons. cbn [fst].
  unfold live_features_step. cbn [fst]. cbv zeta.
  destruct (decide (ep = k)) as [->|Hne].
  - rewrite (bool_decide_eq_true_2 (k ∈ k :: l.*1)) by left.
    cbn [andb].
    destruct (ignore_local_node
              && bool_decide (k = get_broadcast_address (env g)));
      cbn [negb andb].
    { by rewrite andb_false_r. }
    destruct (bool_decide (get_supported_features_of to_feature_set k g = ∅));
      cbn [negb andb].
    { by rewrite andb_false_r. }
    rewrite andb_true_r, lookup_insert_eq. by destruct (bool_decide _).
  - assert (Hin : bool_decide (ep ∈ k :: l.*1) = bool_decide (ep ∈ l.*1)).
    { apply bool_decide_ext. rewrite elem_of_cons. tauto. }
    rewrite Hin.
    destruct (bool_decide (ep ∈ l.*1) && _ && _); [done|].
    destruct (ignore_local_node
              && bool_decide (k = get_broadcast_address (env g))); [done|].
    destruct (bool_decide (get_supported_features_of to_feature_set k g = ∅));
      [done|].
    by rewrite lookup_insert_ne.
Qed.

Lemma features_map_of_lookup (to_feature_set : string -> gset string)
    (loaded_peer_features : gmap Z string) (ignore_local_node : bool)
    (g : gossiper) (ep : Z) :
  features_map_of to_feature_set loaded_peer_features ignore_local_node g
    !! ep =
  counted_features to_feature_set loaded_peer_features ignore_local_node g ep.
Proof.
  unfold features_map_of, counted_features. cbv zeta.
  set (me := get_broadcast_address (env g)).
  assert (Hfold : forall ign,
            fold_left (live_features_step to_feature_set ign g)
              (map_to_list (_endpoint_state_map g))
              (fold_left (loaded_features_step to_feature_set)
                 (map_to_list loaded_peer_features) ∅) !! ep =
            if negb (ign && bool_decide (ep = me))
               && negb (bool_decide
                          (get_supported_features_of to_feature_set ep g = ∅))
            then Some (get_supported_features_of to_feature_set ep g)
            else match loaded_peer_features !! ep with
                 | Some saved =>
                     if bool_decide (to_feature_set saved = ∅) then None
                     else Some (to_feature_set saved)
                 | None => None
                 end).
  { intros ign. rewrite live_features_fold.
    rewrite loaded_features_fold by apply NoDup_fst_map_to_list.
    rewrite list_to_map_to_list, lookup_empty. fold me.
    destruct (decide (ep ∈ (map_to_list (_endpoint_state_map g)).*1))
      as [Hin|Hout].
    - by rewrite (bool_decide_eq_true_2 _ Hin).
    - rewrite (bool_decide_eq_false_2 _ Hout). cbn [andb].
      assert (Hnone : get_supported_features_of to_feature_set ep g = ∅).
      { unfold get_supported_features_of, get_application_state_ptr_of,
          get_endpoint_state_for_endpoint_ptr.
        destruct (_endpoint_state_map g !! ep) as [st|] eqn:E; [|done].
        exfalso. apply Hout. apply list_elem_of_fmap. exists (ep, st).
        split; [done|]. by apply elem_of_map_to_list. }
      rewrite Hnone, (bool_decide_eq_true_2 (∅ = ∅)) by done.
      by rewrite andb_false_r. }
  destruct ignore_local_node; cbn [andb].
  - destruct (decide (ep = me)) as [->|Hne].
    + rewrite lookup_delete_eq. by rewrite bool_decide_eq_true_2.
    + rewrite lookup_delete_ne by done. rewrite Hfold.
      rewrite (bool_decide_eq_false_2 (ep = me)) by done. cbn [andb negb].
      by repeat case_bool_decide.
  - rewrite Hfold. cbn [andb negb]. by repeat case_bool_decide.
Qed.

Lemma common_features_fold (l : list (Z * gset string)) (c : gset string)
    (f : string) :
  f ∈ fold_left (fun (common_features : gset string) (x : Z * gset string) =>
                   x.2 ∩ common_features) l c <->
  f ∈ c /\ forall x, x ∈ l -> f ∈ x.2.
Proof.
  revert c. induction l as [|x l IH]; intros c.
  - cbn. split; [|tauto]. intros H. split; [done|]. intros x Hx.
    by apply elem_of_nil in Hx.
  - cbn [fold_left]. rewrite IH, elem_of_intersection. split.
    + intros [[Hx Hc] Hall]. split; [done|]. intros y Hy.
      apply elem_of_cons in Hy as [->|Hy]; [done|by apply Hall].
    + intros [Hc Hall]. split; [split; [|done]|].
      * apply Hall. left.
      * intros y Hy. apply Hall. by right.
Qed.

(** X26. A feature is among [get_supported_features(loaded_peer_features,
    ignore_local_node)] exactly when it is not the empty string, some
    endpoint has features that count, and every endpoint's counted features
    contain it; the features that count for an endpoint are those it
    gossips under SUPPORTED_FEATURES if that set is not empty, otherwise
    those saved for it if that set is not empty, and none for the local
    node when it is ignored. So the result is empty when no endpoint has
    features, and [check_knows_remote_features] passes exactly when every
    such common feature is a local feature. *)
Theorem get_supported_features_common
    (to_feature_set : string -> gset string)
    (loaded_peer_features : gmap Z string) (ignore_local_node : bool)
    (g : gossiper) :
  let counted :=
    counted_features to_feature_set loaded_peer_features ignore_local_node g in
  let counted_remote :=
    counted_features to_feature_set loaded_peer_features true g in
  (forall f : string,
     f ∈ get_supported_features to_feature_set loaded_peer_features
           ignore_local_node g <->
     f <> ""%string /\
     (exists ep fs, counted ep = Some fs) /\
     (forall ep fs, counted ep = Some fs -> f ∈ fs)) /\
  ((forall ep, counted ep = None) ->
   get_supported_features to_feature_set loaded_peer_features
     ignore_local_node g = ∅) /\
  (forall local_features : gset string,
     check_knows_remote_features to_feature_set local_features
       loaded_peer_features g = true <->
     ((exists ep fs, counted_remote ep = Some fs) ->
      forall f : string,
        f <> ""%string ->
        (forall ep fs, counted_remote ep = Some fs -> f ∈ fs) ->
        f ∈ local_features)).
Proof.
  cbv zeta.
  assert (Hmain : forall ign (f : string),
            f ∈ get_supported_features to_feature_set loaded_peer_features
                  ign g <->
            f <> ""%string /\
            (exists ep fs,
               counted_features to_feature_set loaded_peer_features ign g ep
               = Some fs) /\
            (forall ep fs,
               counted_features to_feature_set loaded_peer_features ign g ep
               = Some fs -> f ∈ fs)).
  { intros ign f. unfold get_supported_features. cbv zeta.
    rewrite elem_of_difference, elem_of_singleton, common_features_fold.
    pose proof (features_map_of_lookup to_feature_set loaded_peer_features
                  ign g) as Hlk.
    set (fm := features_map_of _ _ _ _) in *. clearbody fm.
    assert (Hall : (forall x, x ∈ map_to_list fm -> f ∈ x.2) <->
                   (forall ep fs,
                      counted_features to_feature_set loaded_peer_features
                        ign g ep = Some fs -> f ∈ fs)).
    { split.
      - intros H ep fs Hc. rewrite <- Hlk in Hc.
        apply elem_of_map_to_list in Hc. by apply (H (ep, fs)).
      - intros H [ep fs] Hx. apply elem_of_map_to_list in Hx.
        rewrite Hlk in Hx. by apply (H ep fs). }
    rewrite Hall.
    destruct (map_to_list fm) as [|[ep0 fs0] rest] eqn:El.
    - split; [intros [[Hf _] _]; by apply elem_of_empty in Hf|].
      intros (_ & (ep & fs & Hc) & _). exfalso.
      rewrite <- Hlk in Hc. apply elem_of_map_to_list in Hc.
      rewrite El in Hc. by apply elem_of_nil in Hc.
    - assert (H0 : counted_features to_feature_set loaded_peer_features
                     ign g ep0 = Some fs0).
      { rewrite <- Hlk. apply elem_of_map_to_list. rewrite El. left. }
      cbn [snd]. split.
      + intros [[_ Hall'] Hne]. split; [done|]. split; [|done]. by eexists _, _.
      + intros (Hne & _ & Hall'). split; [|done]. split; [|done].
        by apply (Hall' ep0 fs0). }
  split; [apply Hmain|]. split.
  - intros Hnone. apply set_eq. intros f. rewrite Hmain. split.
    + intros (_ & (ep & fs & Hc) & _). by rewrite Hnone in Hc.
    + intros Hf. by apply elem_of_empty in Hf.
  - intros local_features. unfold check_knows_remote_features. cbv zeta.
    rewrite bool_decide_eq_true. split.
    + intros Hsub Hex f Hne Hall. apply Hsub, Hmain. done.
    + intros H f Hf. apply Hmain in Hf as (Hne & Hex & Hall).
      by apply H.
Qed.

Lemma get_supported_features_common_witness :
  check_knows_remote_features sample_to_feature_set {["A"%string]}
    {[7 := "A"%string]} (sample_gossiper false sample_with_peer) = true.
Proof.
  apply (proj2 (proj2 (get_supported_features_common sample_to_feature_set
                         {[7 := "A"%string]} true
                         (sample_gossiper false sample_with_peer)))).
  intros _ f _ Hall. apply (Hall 7). vm_compute. reflexivity.
Defined.

(** ** The failure detector loop of a node *)

(** X27. [failure_detector_loop_for_node] convicts the node exactly when
    there is a round, reached with gossip enabled after rounds that all
    passed, whose echo comes back more than 2000 ms plus the failure
    detector timeout after the last echo that succeeded (after the start
    of the loop if none did), whether or not this echo itself failed. *)
Theorem failure_detector_loop_convicts (failure_detector_timeout_ms : Z)
    (live_endpoints_version : Z) (start : Z) (rounds : list echo_round) :
  failure_detector_loop_for_node_from failure_detector_timeout_ms
    live_endpoints_version start rounds = loop_convicted <->
  exists (i : nat) (r : echo_round),
    rounds !! i = Some r /\
    (forall (j : nat) (r' : echo_round),
       (j < i)%nat -> rounds !! j = Some r' ->
       round_passes failure_detector_timeout_ms live_endpoints_version
         (last_success start (take j rounds)) r') /\
    round_enabled r = true /\
    round_now r - last_success start (take i rounds) >
      2000 + failure_detector_timeout_ms.
Proof.
  revert start. induction rounds as [|r0 rounds IH]; intros start.
  - cbn. split; [done|]. intros (i & r & Hi & _). by rewrite lookup_nil in Hi.
  - cbn [failure_detector_loop_for_node_from]. cbv zeta.
    destruct (round_enabled r0) eqn:Hen; cbn [negb].
    2:{ split; [done|]. intros (i & r & Hi & Hbefore & Henr & Hlate).
        destruct i as [|i].
        - injection Hi as <-. congruence.
        - destruct (Hbefore 0%nat r0) as (Hen0 & _); [lia|done|congruence]. }
    destruct (Z.gtb_spec (round_now r0 - start)
                (2000 + failure_detector_timeout_ms)) as [Hlate0|Hok0].
    { split; [|done]. intros _. exists 0%nat, r0. split; [done|].
      split; [intros j r' Hj; lia|]. split; [done|]. cbn. lia. }
    destruct (Z.eqb_spec (round_live_endpoints_version r0)
                live_endpoints_version) as [Hv0|Hv0]; cbn [negb].
    2:{ split; [done|]. intros (i & r & Hi & Hbefore & Henr & Hlate).
        destruct i as [|i].
        - injection Hi as <-. cbn in Hlate. lia.
        - destruct (Hbefore 0%nat r0) as (_ & _ & Hv); [lia|done|congruence]. }
    assert (Hlast : forall l,
              last_success start (r0 :: l) =
              last_success (if negb (round_failed r0) then round_now r0
                            else start) l).
    { intros l. unfold last_success. cbn [fold_left].
      by destruct (round_failed r0). }
    rewrite IH. split.
    + intros (i & r & Hi & Hbefore & Henr & Hlate).
      exists (S i), r. split; [done|]. split; [|split; [done|]].
      * intros [|j] r' Hj Hr'.
        -- injection Hr' as <-. cbn. repeat split; [done|lia|done].
        -- cbn [take]. rewrite Hlast. apply Hbefore; [lia|done].
      * cbn [take]. by rewrite Hlast.
    + intros (i & r & Hi & Hbefore & Henr & Hlate).
      destruct i as [|i].
      * injection Hi as <-. cbn in Hlate. lia.
      * exists i, r. split; [done|]. split; [|split; [done|]].
        -- intros j r' Hj Hr'. specialize (Hbefore (S j) r').
           cbn [take] in Hbefore. rewrite Hlast in Hbefore.
           apply Hbefore; [lia|done].
        -- cbn [take] in Hlate. by rewrite Hlast in Hlate.
Qed.
